(* ===== verification/_CoqProject ===== *)
-Q . S2P
Prelude.v
GoStrings.v
Encoding.v
Model.v
Database.v
Schema.v
Scheduler.v
Workstations.v
Allocator.v
Workers.v
Catalog.v
Lifecycle.v
System.v
ProxySession.v
ProxyRace.v
Relay.v
Http.v
Host.v
Base64.v
Access.v
Server.v
WorkerApi.v
WorkstationApi.v
ProxyApi.v
FilePath.v
ReleaseStore.v
ReleaseApi.v
TerminalHistory.v
Terminal.v
TerminalRace.v
Url.v
TerminalApi.v
Routes.v
Authority.v
