(* ===== verification/Prelude.v ===== *)
(** * Verification of the minis control plane

    The program is the Go server under src/server.  It runs a fleet of Mac
    hosts ("workers") that host virtual machines ("workstations") for members
    who sign in through Cloudflare Access: it assigns slots, keeps the wanted
    and reported state of every workstation in PostgreSQL, hands workers their
    wishes, relays WebSocket connections between browsers and machines, keeps
    terminals alive between browser connections, and distributes the binaries
    of the worker program.  This library models the server and proves what its
    parts promise.

    ** Parts, and where they are modelled (sources under src/server/internal)

    - The libraries the code leans on: [GoStrings] (strings, strconv),
      [Encoding] (SHA-256, hexadecimal), [Base64], [FilePath] (path/filepath),
      [Url] (query strings, host:port).  They are definitions of the documented
      behaviour, executable, with the published SHA-256 test vectors checked.
    - Data: [Model] (model/*.go).
    - Database: [Database] has the tables, the monad of a method of [*db.DB]
      with transactions and faults, a program logic ([triple], [keeps],
      [confined]) and crash atomicity; [Schema] the constraints of
      db/migrations/00001_initial.sql and the invariant [wf_tables].
    - db/workstations.go: [Scheduler] (choosing a slot), [Workstations] (every
      method), [Allocator] (an abstract allocator that claiming implements),
      [Lifecycle] (what each method does).
    - db/postgres.go, worker_auth.go, members.go, releases.go: [Workers],
      [Catalog].
    - All database operations together, with reachability: [System].
    - proxy/session.go: [ProxySession] (methods, with session objects shared by
      pointer), [ProxyRace] (goroutines interleaved at their critical
      sections); proxy/relay.go: [Relay].
    - api/rest: [Http] (requests, responses, helpers of handler.go), [Host]
      (host.go), [Access] (access.go), [Server] (auth.go and the state handlers
      share), [WorkerApi] (workers.go), [WorkstationApi] (workstation.go),
      [ProxyApi] (proxy_sessions.go), [ReleaseApi] (releases.go), [TerminalApi]
      (terminal.go), and terminal_sessions.go in [TerminalHistory] (the ring of
      output frames), [Terminal] (the session and its goroutines) and
      [TerminalRace] (their interleavings).
    - release/store.go and codesign.go: [ReleaseStore].
    - handler.go's routes, static.go, config.go, main.go: [Routes]; what any
      request may do: [Authority].

    A handler is a function from a request and the state to a response and the
    new state; it calls the database methods through [db_call], so the theorems
    about a handler are proved from those about the methods it calls.  A method
    that changes rows is a function of the world: committed tables, open
    snapshot, script of faults.

    ** What is proved

    - Allocation: claiming implements the abstract allocator, the scheduler's
      choice is the least loaded worker's lowest free slot or the requested
      worker's, independent of listing order; no worker is ever overcommitted.
    - State: the invariant holds in every reachable state; transactions are
      all or nothing under every script of faults; every method's result and
      effect on each branch; who may change a workstation, and that a deletion
      asked for is final and frees the slot.
    - Access: the token verifier accepts exactly the acceptable tokens; the
      middleware lets exactly the right requests through; every request changes
      only what its credentials cover, and without a credential it is refused
      and changes nothing.
    - HTTP: claims, wishes, registration, heartbeats, proxy sessions, polling
      for them, the WebSocket endpoint, terminals, uploads and downloads, each
      with what is answered and what is stored.
    - Concurrency: the session manager never closes a channel twice and
      releases waiters; a terminal's scroll-back is the tail of its output, no
      browser gets a frame twice, resources are released once.
    - Where the code does not do what it means to, or not what the documentation
      says, a theorem exhibits it: [claim_adds_another],
      [connection_loss_panics], [ipv6_hosts_confused], [dial_ipv6_refused],
      [hostname_exhaustion], [register_pool_not_applied], [takeover_expires],
      [attach_misses_frame], [attach_alone], [setconn_after_close],
      [replaced_connection_leaks], [concurrent_uploads_unpublish],
      [lost_reply_unpublishes], [premature_deletion_report_locks].

    ** Assumptions and parameters

    - Transactions run one after the other.  Claims and hostname assignments
      take an advisory lock and updates of one workstation lock its row, but
      nothing in the code orders the rest (for example
      [DeleteMissingVMsForWorker]); for those seriality is assumed.
    - Text handed to the database is UTF-8 without NUL bytes.  PostgreSQL
      rejects anything else with an error the model does not have; a JSON body
      can carry a NUL, and then the method fails without effect, as it does
      here under the fault [FailBefore].
    - Code that is not in the repository is a parameter: [Collation] (the text
      order of PostgreSQL), [RangeOrder] (the order Go visits a map in),
      [HostEnv] (Unicode lower case, url.Parse), [AccessEnv] (JSON, X.509, RSA),
      [CodesignEnv] (Mach-O and CMS).  Clocks, random values, the answers of the
      certificate endpoint, file system calls, the SSH client and WebSocket
      connections are arguments; so is the decoded body of a request.
      Theorems hold for all of them; witnesses instantiate them.
    - Machine integers are [Z] with the bounds written out where the code
      depends on them: PostgreSQL's int4 columns, [int] of strconv.Atoi, the
      wrapping 64-bit sequence numbers of terminal frames.
    - Fuel appears in two places: trimming a string (every round removes a
      byte, so its length is enough) and the scan for a free slot (the pool size
      bounds it, as in the code's loop).  Both functions are total and no theorem
      has a hypothesis about fuel.

    ** Not modelled

    Logging; JSON, YAML and multipart parsing; listening, TLS, signals and
    shutdown in main.go; the start-up DDL of db/schema.go; the connection pool;
    range and conditional requests of http.ServeFile; http.FileServer.  The
    worker program (Swift), the front end (TypeScript), the installer and the
    deployment files are other programs; the server meets them as requests. *)

From stdpp Require Import gmap strings list fin_maps sorting.
From Stdlib Require Import ZArith Lia.

(** ** Hint databases

    [minis] holds the lemmas that close the routine side conditions of the
    components (map lookups, key agreement, permutations). *)
Create HintDb minis.

(** ** Time and integers

    A Go call returning [(T, error)] is a value of [E + T]: [inl] carries the
    error, [inr] the value. *)

(** Go durations and instants are nanosecond counts. *)
Definition Second : Z := 1000000000.
Definition Minute : Z := 60 * Second.

(** Integer widths: [int] and [int64] on the 64-bit server, [int4] in
    PostgreSQL. *)
Definition int64_max : Z := 2 ^ 63 - 1.
Definition int64_min : Z := - 2 ^ 63.
Definition int4_max : Z := 2 ^ 31 - 1.
Definition in_int4 (z : Z) : bool := bool_decide (- 2 ^ 31 ≤ z ≤ int4_max)%Z.

(** ** Tactics *)

(** Case analysis on the first [match]/[if] of the goal, or of a hypothesis,
    remembering the equation. *)
Ltac case_goal :=
  match goal with
  | |- context [match ?x with _ => _ end] => destruct x eqn:?
  end.

Ltac case_hyp H :=
  match type of H with
  | context [match ?x with _ => _ end] => destruct x eqn:?
  end.

Ltac destruct_all :=
  repeat match goal with
  | H : _ ∧ _ |- _ => destruct H
  | H : ∃ _, _ |- _ => destruct H
  end.

(** Boolean tests of the code turned into propositions. *)
Ltac to_prop :=
  repeat match goal with
  | H : bool_decide _ = true |- _ => apply bool_decide_eq_true in H
  | H : bool_decide _ = false |- _ => apply bool_decide_eq_false in H
  | H : (_ && _)%bool = true |- _ => apply andb_true_iff in H; destruct H
  | H : (_ || _)%bool = false |- _ => apply orb_false_iff in H; destruct H
  | H : negb _ = true |- _ => apply negb_true_iff in H
  | H : negb _ = false |- _ => apply negb_false_iff in H
  end.

(** ** Finite maps *)

Section MapFacts.
Context {K V : Type} `{Countable K}.

(** Rows of a table: the values of the map, in some order. *)
Definition rows (m : gmap K V) : list V := (map_to_list m).*2.

Lemma elem_of_rows (m : gmap K V) v :
  v ∈ rows m ↔ ∃ k, m !! k = Some v.
Proof.
  unfold rows. rewrite list_elem_of_fmap. split.
  - intros [[k v'] [-> Hin]]. exists k. by apply elem_of_map_to_list.
  - intros [k Hk]. exists (k, v). split; [done|]. by apply elem_of_map_to_list.
Qed.

Lemma rows_insert (m : gmap K V) k v :
  m !! k = None → rows (<[k := v]> m) ≡ₚ v :: rows m.
Proof. intros Hk. unfold rows. by rewrite map_to_list_insert. Qed.

(** The first row that satisfies a test, as a single-row SQL query finds it
    when the selected column is unique. *)
Definition find_row (P : V → bool) (m : gmap K V) : option V :=
  head (filter (λ v, P v = true) (rows m)).

Lemma find_row_Some P (m : gmap K V) v :
  find_row P m = Some v → P v = true ∧ ∃ k, m !! k = Some v.
Proof.
  unfold find_row. intros Hh.
  assert (v ∈ filter (λ v, P v = true) (rows m)) as Hin.
  { destruct (filter _ _); simplify_eq/=. by left. }
  apply list_elem_of_filter in Hin as [HP Hin]. by rewrite elem_of_rows in Hin.
Qed.

Lemma find_row_None P (m : gmap K V) :
  find_row P m = None ↔ ∀ k v, m !! k = Some v → P v = false.
Proof.
  unfold find_row. split.
  - intros Hh k v Hk. apply not_true_is_false. intros HP.
    assert (v ∈ filter (λ v, P v = true) (rows m)) as Hin.
    { apply list_elem_of_filter. split; [done|]. apply elem_of_rows. eauto. }
    destruct (filter _ _); [by apply elem_of_nil in Hin|done].
  - intros Hall. destruct (filter _ _) as [|v l] eqn:E; [done|].
    assert (v ∈ filter (λ v, P v = true) (rows m)) as Hin by (rewrite E; left).
    apply list_elem_of_filter in Hin as [HP Hin].
    apply elem_of_rows in Hin as [k Hk]. specialize (Hall _ _ Hk). congruence.
Qed.

(** A unique match is the one the query returns. *)
Lemma find_row_unique P (m : gmap K V) k v :
  m !! k = Some v → P v = true →
  (∀ k' v', m !! k' = Some v' → P v' = true → v' = v) →
  find_row P m = Some v.
Proof.
  intros Hk HP Hu. destruct (find_row P m) as [v'|] eqn:E.
  - apply find_row_Some in E as [HP' [k' Hk']]. by rewrite (Hu _ _ Hk' HP').
  - rewrite find_row_None in E. specialize (E _ _ Hk). congruence.
Qed.
End MapFacts.

#[export] Hint Resolve lookup_insert_eq lookup_delete_eq : minis.

(** Inductive invariants of a transition relation hold in every reachable
    state. *)
Lemma rtc_invariant {A} (R : relation A) (P : A → Prop) x y :
  (∀ a b, P a → R a b → P b) → P x → rtc R x y → P y.
Proof. intros Hstep Hx Hr. induction Hr; eauto. Qed.
