(* ===== verification/GoStrings.v ===== *)
(** * The part of Go's [strings] and [strconv] packages the server uses

    Go strings are byte strings: values of [string], one [ascii] per byte.
    Each function below is the byte-level behaviour of the library function of
    the same name on every input, with two restrictions: the separators of
    [Split] and [ReplaceAll] are single bytes, as at every call site, and
    [ToLower] on strings with non-ASCII bytes is the parameter
    [unicode_ToLower] (the Unicode case tables). *)

From stdpp Require Import gmap strings list.
From Stdlib Require Import ZArith Lia Ascii DecimalString DecimalZ DecimalFacts.
From S2P Require Import Prelude.

Local Open Scope string_scope.

(** ** Prefixes, cuts and splits *)

Fixpoint CutPrefix (s p : string) {struct p} : option string :=
  match p, s with
  | EmptyString, _ => Some s
  | String a p', String b s' => if Ascii.eqb a b then CutPrefix s' p' else None
  | String _ _, EmptyString => None
  end.

Definition HasPrefix (s p : string) : bool :=
  match CutPrefix s p with Some _ => true | None => false end.

Definition TrimPrefix (s p : string) : string :=
  match CutPrefix s p with Some r => r | None => s end.

Definition HasSuffix (s p : string) : bool := HasPrefix (String.rev s) (String.rev p).

(** [Cut s sep]: the text before and after the first occurrence of [sep]. *)
Fixpoint Cut (s sep : string) : option (string * string) :=
  match CutPrefix s sep with
  | Some r => Some ("", r)
  | None =>
      match s with
      | EmptyString => None
      | String a s' =>
          match Cut s' sep with
          | Some (b, r) => Some (String a b, r)
          | None => None
          end
      end
  end.

Definition Contains (s sub : string) : bool :=
  match Cut s sub with Some _ => true | None => false end.

(** [Split s sep] for a one-byte separator: never empty. *)
Fixpoint Split (s : string) (sep : ascii) : list string :=
  match s with
  | EmptyString => [""]
  | String a s' =>
      if Ascii.eqb a sep then "" :: Split s' sep
      else match Split s' sep with
           | [] => [String a ""]
           | w :: ws => String a w :: ws
           end
  end.

(** [ReplaceAll s c ""] for a one-byte [c]. *)
Fixpoint ReplaceAll_empty (s : string) (c : ascii) : string :=
  match s with
  | EmptyString => ""
  | String a s' =>
      if Ascii.eqb a c then ReplaceAll_empty s' c else String a (ReplaceAll_empty s' c)
  end.

(** The slice [s[:n]] guarded by [len(s) > n]. *)
Fixpoint str_take (n : nat) (s : string) : string :=
  match n, s with
  | O, _ | _, EmptyString => ""
  | S n', String a s' => String a (str_take n' s')
  end.

(** [TrimRight s cutset] for a one-byte cutset. *)
Fixpoint drop_bytes (c : ascii) (s : string) : string :=
  match s with
  | String a s' => if Ascii.eqb a c then drop_bytes c s' else s
  | EmptyString => ""
  end.
Definition TrimRight (s : string) (c : ascii) : string :=
  String.rev (drop_bytes c (String.rev s)).

(** ** White space

    [unicode.IsSpace] on UTF-8 text: a white-space rune is exactly one of these
    byte sequences, at the front (DecodeRune) as at the back (DecodeLastRune). *)
Definition bytes_to_string (l : list nat) : string :=
  foldr (λ n s, String (ascii_of_nat n) s) "" l.

Definition space_encodings : list string :=
  bytes_to_string <$>
  ([[9]; [10]; [11]; [12]; [13]; [32]; [194; 133]; [194; 160]; [225; 154; 128];
    [226; 128; 168]; [226; 128; 169]; [226; 128; 175]; [226; 129; 159]; [227; 128; 128]]
   ++ ((λ k, [226; 128; k]) <$> seq 128 11))%list.

Definition strip_one (encodings : list string) (s : string) : option string :=
  head (omap (CutPrefix s) encodings).

Fixpoint trim_front (fuel : nat) (encodings : list string) (s : string) : string :=
  match fuel with
  | O => s
  | S fuel' =>
      match strip_one encodings s with
      | Some s' => trim_front fuel' encodings s'
      | None => s
      end
  end.

(** Each round removes at least one byte, so the length is enough fuel. *)
Definition TrimLeftSpace (s : string) : string :=
  trim_front (String.length s) space_encodings s.
Definition TrimRightSpace (s : string) : string :=
  String.rev (trim_front (String.length s) (String.rev <$> space_encodings) (String.rev s)).
Definition TrimSpace (s : string) : string := TrimRightSpace (TrimLeftSpace s).

(** ** Case *)

Definition is_ascii (a : ascii) : bool := (nat_of_ascii a <? 128)%nat.
Fixpoint all_bytes (P : ascii → bool) (s : string) : bool :=
  match s with
  | EmptyString => true
  | String a s' => P a && all_bytes P s'
  end.

Definition lower_ascii (a : ascii) : ascii :=
  let n := nat_of_ascii a in
  if ((65 <=? n) && (n <=? 90))%nat then ascii_of_nat (n + 32) else a.
Fixpoint map_bytes (f : ascii → ascii) (s : string) : string :=
  match s with
  | EmptyString => ""
  | String a s' => String (f a) (map_bytes f s')
  end.

Definition ToLower (unicode_ToLower : string → string) (s : string) : string :=
  if all_bytes is_ascii s then map_bytes lower_ascii s else unicode_ToLower s.

(** ** Decimal numbers *)

(** [fmt.Sprintf("%d", z)]. *)
Definition itoa (z : Z) : string := NilZero.string_of_int (Z.to_int z).

(** A non-empty run of decimal digits. *)
Definition parse_digits (s : string) : option Z :=
  if String.eqb s "" then None
  else match NilEmpty.uint_of_string s with
       | Some d => Some (Z.of_uint d)
       | None => None
       end.

(** [strconv.Atoi]: an optional sign, digits, and the range of [int]. *)
Definition Atoi (s : string) : option Z :=
  let in_range (z : Z) :=
    if bool_decide (int64_min ≤ z ≤ int64_max)%Z then Some z else None in
  match s with
  | String "+" s' => match parse_digits s' with Some z => in_range z | None => None end
  | String "-" s' => match parse_digits s' with Some z => in_range (- z)%Z | None => None end
  | _ => match parse_digits s with Some z => in_range z | None => None end
  end.

(** ** Lemmas *)

Lemma CutPrefix_Some s p r : CutPrefix s p = Some r ↔ s = p +:+ r.
Proof.
  revert s. induction p as [|a p IH]; intros s; cbn [CutPrefix].
  - change ("" +:+ r) with r. destruct s; split; congruence.
  - destruct s as [|b s]; [done|].
    destruct (Ascii.eqb_spec a b) as [->|Hne].
    + rewrite IH. change (String b p +:+ r) with (String b (p +:+ r)). split; congruence.
    + split; [done|]. change (String a p +:+ r) with (String a (p +:+ r)). congruence.
Qed.

Lemma HasPrefix_true s p : HasPrefix s p = true ↔ ∃ r, s = p +:+ r.
Proof.
  unfold HasPrefix. destruct (CutPrefix s p) as [r|] eqn:E.
  - apply CutPrefix_Some in E. naive_solver.
  - split; [done|]. intros [r Hr]. apply CutPrefix_Some in Hr. congruence.
Qed.

Lemma Cut_Some s sep b r : Cut s sep = Some (b, r) → s = b +:+ sep +:+ r.
Proof.
  revert b r. induction s as [|a s IH]; intros b r; cbn [Cut].
  - destruct (CutPrefix "" sep) as [r'|] eqn:E; [|done].
    intros [= <- <-]. by apply CutPrefix_Some in E.
  - destruct (CutPrefix (String a s) sep) as [r'|] eqn:E.
    + intros [= <- <-]. by apply CutPrefix_Some in E.
    + destruct (Cut s sep) as [[b' r']|]; [|done].
      intros [= <- <-]. by rewrite (IH b' r').
Qed.

Lemma Contains_app a sub b : Contains (a +:+ sub +:+ b) sub = true.
Proof.
  unfold Contains. induction a as [|c a IH].
  - assert (CutPrefix (sub +:+ b) sub = Some b) as E by by apply CutPrefix_Some.
    change ("" +:+ sub +:+ b) with (sub +:+ b).
    destruct (sub +:+ b); cbn [Cut]; by rewrite E.
  - change (String c a +:+ sub +:+ b) with (String c (a +:+ sub +:+ b)). cbn [Cut].
    destruct (CutPrefix _ sub); [done|].
    by destruct (Cut (a +:+ sub +:+ b) sub) as [[??]|].
Qed.

Lemma string_of_uint_nonempty d : d ≠ Decimal.Nil → NilEmpty.string_of_uint d ≠ "".
Proof. by destruct d. Qed.

Lemma parse_digits_itoa z : (0 ≤ z)%Z → parse_digits (itoa z) = Some z.
Proof.
  intros Hz. unfold itoa.
  destruct (Z.to_int z) as [d|d] eqn:E.
  - assert (Z.of_uint d = z) as Hd.
    { pose proof (DecimalZ.of_to z) as H. rewrite E in H. exact H. }
    unfold parse_digits, NilZero.string_of_int, NilZero.string_of_uint.
    destruct d eqn:Ed; [by rewrite <- Hd|..]; rewrite <- Ed in *;
      (destruct (String.eqb_spec (NilEmpty.string_of_uint d) "") as [Hnil|_];
       [by apply string_of_uint_nonempty in Hnil; [|by rewrite Ed]|];
       by rewrite NilEmpty.usu, Hd).
  - destruct z; simplify_eq/=; lia.
Qed.

Lemma itoa_inj z1 z2 : (0 ≤ z1)%Z → (0 ≤ z2)%Z → itoa z1 = itoa z2 → z1 = z2.
Proof.
  intros H1 H2 E. apply parse_digits_itoa in H1, H2. congruence.
Qed.

Lemma str_append_inj_l a b c : a +:+ b = a +:+ c → b = c.
Proof. by intros ?%String.app_inj. Qed.

Lemma Atoi_range s z : Atoi s = Some z → (int64_min ≤ z ≤ int64_max)%Z.
Proof.
  unfold Atoi. intros H. repeat case_match; simplify_eq; to_prop; lia.
Qed.

(** ** Printable ASCII text

    Trimming and lower-casing leave visible lower-case ASCII text alone. *)

Definition graphic (a : ascii) : bool := ((33 <=? nat_of_ascii a) && (nat_of_ascii a <=? 126))%nat.

Lemma str_app_assoc a b c : (a +:+ b) +:+ c = a +:+ b +:+ c.
Proof.
  induction a as [|x a IH]; [done|]. change (String x (a +:+ b) +:+ c = String x (a +:+ b +:+ c)).
  by rewrite <- IH.
Qed.
Lemma str_app_nil_r a : a +:+ "" = a.
Proof.
  induction a as [|x a IH]; [done|]. change (String x (a +:+ "") = String x a). by rewrite IH.
Qed.

Lemma all_bytes_app P a b : all_bytes P (a +:+ b) = all_bytes P a && all_bytes P b.
Proof.
  induction a as [|c a IH]; [done|]. change (String c a +:+ b) with (String c (a +:+ b)).
  cbn [all_bytes]. by rewrite IH, andb_assoc.
Qed.

Lemma all_bytes_impl (P Q : ascii → bool) s :
  (∀ a, P a = true → Q a = true) → all_bytes P s = true → all_bytes Q s = true.
Proof.
  intros HPQ. induction s as [|a s IH]; [done|]. cbn [all_bytes]. intros H. to_prop.
  by rewrite HPQ, IH.
Qed.

Lemma rev_cons a s : String.rev (String a s) = String.rev s +:+ String a "".
Proof.
  unfold String.rev. cbn [String.rev_app].
  assert (∀ s t, String.rev_app s t = String.rev_app s "" +:+ t) as Happ.
  { intros s0. induction s0 as [|b s0 IH]; intros t; [done|]. cbn [String.rev_app].
    rewrite IH, (IH (String b "")). by rewrite str_app_assoc. }
  apply Happ.
Qed.

Lemma all_bytes_rev P s : all_bytes P (String.rev s) = all_bytes P s.
Proof.
  induction s as [|a s IH]; [done|]. rewrite rev_cons, all_bytes_app, IH. cbn [all_bytes].
  by rewrite andb_true_r, andb_comm.
Qed.

Lemma rev_app a b : String.rev (a +:+ b) = String.rev b +:+ String.rev a.
Proof.
  induction a as [|c a IH].
  - change ("" +:+ b) with b. by rewrite str_app_nil_r.
  - change (String c a +:+ b) with (String c (a +:+ b)).
    by rewrite !rev_cons, IH, str_app_assoc.
Qed.

Lemma rev_involutive s : String.rev (String.rev s) = s.
Proof. induction s as [|a s IH]; [done|]. by rewrite rev_cons, rev_app, IH. Qed.

(** No white-space encoding begins, forwards or backwards, with a graphic
    byte. *)
Lemma strip_one_graphic encodings s :
  forallb (λ e, match e with String a _ => negb (graphic a) | EmptyString => false end) encodings = true →
  all_bytes graphic s = true → strip_one encodings s = None.
Proof.
  intros He Hs. unfold strip_one. induction encodings as [|e es IH]; [done|].
  cbn [forallb] in He. to_prop. simpl. destruct e as [|b e]; [done|].
  destruct s as [|a s]; [by apply IH|]. cbn [CutPrefix].
  destruct (Ascii.eqb_spec b a) as [->|_]; [|by apply IH].
  cbn [all_bytes] in Hs. to_prop. congruence.
Qed.

Lemma trim_front_graphic fuel encodings s :
  forallb (λ e, match e with String a _ => negb (graphic a) | EmptyString => false end) encodings = true →
  all_bytes graphic s = true → trim_front fuel encodings s = s.
Proof. intros He Hs. destruct fuel; [done|]. simpl. by rewrite strip_one_graphic. Qed.

Lemma TrimSpace_graphic s : all_bytes graphic s = true → TrimSpace s = s.
Proof.
  intros Hs. unfold TrimSpace, TrimLeftSpace. rewrite (trim_front_graphic _ space_encodings) by done.
  unfold TrimRightSpace. rewrite trim_front_graphic; [apply rev_involutive|done|].
  by rewrite all_bytes_rev.
Qed.

Definition is_upper (a : ascii) : bool :=
  ((65 <=? nat_of_ascii a) && (nat_of_ascii a <=? 90))%nat.

Lemma ToLower_lower u s :
  all_bytes is_ascii s = true → all_bytes (λ a, negb (is_upper a)) s = true → ToLower u s = s.
Proof.
  intros Ha Hs. unfold ToLower. rewrite Ha. clear Ha. induction s as [|a s IH]; [done|].
  cbn [all_bytes map_bytes] in *. to_prop. rewrite IH by done. f_equal.
  unfold lower_ascii, is_upper in *. by destruct (_ && _)%nat.
Qed.

(** [Cut] finds nothing when the separator's first byte does not occur. *)
Lemma Cut_absent s c sep :
  all_bytes (λ a, negb (Ascii.eqb c a)) s = true → Cut s (String c sep) = None.
Proof.
  induction s as [|a s IH]; [done|]. cbn [all_bytes]. intros H. to_prop.
  cbn [Cut CutPrefix]. rewrite H. by rewrite IH.
Qed.

(** [Cut] at a one-byte separator that does not occur before. *)
Lemma Cut_first h c r :
  all_bytes (λ a, negb (Ascii.eqb c a)) h = true →
  Cut (h +:+ String c r) (String c "") = Some (h, r).
Proof.
  induction h as [|a h IH]; cbn [all_bytes].
  - intros _. change ("" +:+ String c r) with (String c r). cbn [Cut CutPrefix].
    rewrite Ascii.eqb_refl. by destruct r.
  - intros H. to_prop. change (String a h +:+ String c r) with (String a (h +:+ String c r)).
    cbn [Cut CutPrefix]. rewrite H. by rewrite IH.
Qed.

(** [Cut] finds nothing when some byte of the separator does not occur. *)
Lemma Cut_no_byte s sep1 c sep2 :
  all_bytes (λ a, negb (Ascii.eqb c a)) s = true → Cut s (sep1 +:+ String c sep2) = None.
Proof.
  intros Hs. destruct (Cut s _) as [[b r]|] eqn:E; [|done]. exfalso.
  apply Cut_Some in E. subst s. rewrite !all_bytes_app in Hs. to_prop.
  cbn [all_bytes] in *. by rewrite Ascii.eqb_refl in *.
Qed.

(** Joining the pieces of a split gives the text back. *)
Fixpoint Join (l : list string) (sep : string) : string :=
  match l with
  | [] => ""
  | [w] => w
  | w :: l' => w +:+ sep +:+ Join l' sep
  end.

Lemma Split_nonempty s c : Split s c ≠ [].
Proof. destruct s as [|a s]; [done|]. cbn [Split]. destruct (Ascii.eqb a c); [done|]. by destruct (Split s c). Qed.

Lemma Split_join s c : Join (Split s c) (String c "") = s.
Proof.
  induction s as [|a s IH]; [done|]. pose proof (Split_nonempty s c) as Hn. cbn [Split].
  destruct (Ascii.eqb_spec a c) as [->|Hne].
  - destruct (Split s c) as [|w ws]; [done|].
    change (Join ("" :: w :: ws) (String c "")) with (String c (Join (w :: ws) (String c ""))).
    by rewrite IH.
  - destruct (Split s c) as [|w ws]; [done|].
    rewrite <- IH. by destruct ws.
Qed.

(** The pieces hold no separator, and pieces that hold none are found again. *)
Definition without (c : ascii) (s : string) : bool := all_bytes (λ a, negb (Ascii.eqb c a)) s.

Lemma Split_pieces s c : Forall (λ w, without c w = true) (Split s c).
Proof.
  induction s as [|a s IH]; [by repeat constructor|]. cbn [Split].
  destruct (Ascii.eqb_spec a c) as [->|Hne]; [by constructor|].
  destruct (Split s c) as [|w ws]; constructor; unfold without; cbn [all_bytes];
    destruct (Ascii.eqb_spec c a) as [->|_]; try done; by inversion IH.
Qed.

Lemma Split_without s c : without c s = true → Split s c = [s].
Proof.
  unfold without. induction s as [|a s IH]; [done|]. cbn [all_bytes Split].
  rewrite Ascii.eqb_sym. intros [H1%negb_true_iff H2]%andb_true_iff. rewrite H1.
  by rewrite IH.
Qed.

Lemma Split_piece h r c : without c h = true → Split (h +:+ String c r) c = h :: Split r c.
Proof.
  unfold without. induction h as [|a h IH]; simpl.
  - intros _. by rewrite Ascii.eqb_refl.
  - rewrite Ascii.eqb_sym. intros [H1%negb_true_iff H2]%andb_true_iff. rewrite H1. by rewrite IH.
Qed.
