(* ===== verification/Encoding.v ===== *)
(** * Hashes and encodings of the Go standard library

    SHA-256 (FIPS 180-4, [crypto/sha256]) on byte strings and hexadecimal
    ([encoding/hex]).  Everything is executable; the SHA-256 definition is
    checked against the published test vectors. *)

From stdpp Require Import gmap strings list.
From Stdlib Require Import ZArith Lia Ascii.
From S2P Require Import Prelude GoStrings.

Local Open Scope Z_scope.

(** Bytes of a Go string, as integers in [0, 256). *)
Definition byte_of_ascii (a : ascii) : Z := Z.of_N (N_of_ascii a).
Definition ascii_of_byte (z : Z) : ascii := ascii_of_N (Z.to_N z).

Fixpoint bytes_of (s : string) : list Z :=
  match s with
  | EmptyString => []
  | String a s' => byte_of_ascii a :: bytes_of s'
  end.
Definition string_of (l : list Z) : string :=
  foldr (λ z s, String (ascii_of_byte z) s) EmptyString l.

Module Sha256.
(** 32-bit words are integers modulo [2^32]. *)
Definition w32 (z : Z) : Z := z mod 2 ^ 32.
Definition add32 (a b : Z) : Z := w32 (a + b).
Definition not32 (a : Z) : Z := 2 ^ 32 - 1 - a.
Definition rotr (n x : Z) : Z :=
  Z.lor (Z.shiftr x n) (w32 (Z.shiftl x (32 - n))).

Definition Ch x y z := Z.lxor (Z.land x y) (Z.land (not32 x) z).
Definition Maj x y z := Z.lxor (Z.lxor (Z.land x y) (Z.land x z)) (Z.land y z).
Definition Sig0 x := Z.lxor (Z.lxor (rotr 2 x) (rotr 13 x)) (rotr 22 x).
Definition Sig1 x := Z.lxor (Z.lxor (rotr 6 x) (rotr 11 x)) (rotr 25 x).
Definition sig0 x := Z.lxor (Z.lxor (rotr 7 x) (rotr 18 x)) (Z.shiftr x 3).
Definition sig1 x := Z.lxor (Z.lxor (rotr 17 x) (rotr 19 x)) (Z.shiftr x 10).

(** The constants of FIPS 180-4: the first 32 bits of the fractional parts of
    the cube roots of the first 64 primes, and of the square roots of the first
    eight. *)
Definition is_prime (n : Z) : bool :=
  forallb (λ d, negb (n mod d =? 0)) (seqZ 2 (Z.sqrt n - 1)).
Definition primes : list Z :=
  Eval vm_compute in filter (λ n, is_prime n = true) (seqZ 2 310).

(** [cbrt_bits k r n] refines the root [r], a multiple of [2^k], by its [k] low
    bits: the largest [x] with [x^3 <= n]. *)
Fixpoint cbrt_bits (k : nat) (r n : Z) : Z :=
  match k with
  | O => r
  | S k' => let r' := r + 2 ^ Z.of_nat k' in
            cbrt_bits k' (if r' * r' * r' <=? n then r' else r) n
  end.

Definition K : list Z := Eval vm_compute in
  (λ p, cbrt_bits 40 0 (p * 2 ^ 96) mod 2 ^ 32) <$> primes.
Definition H0 : list Z := Eval vm_compute in
  (λ p, Z.sqrt (p * 2 ^ 64) mod 2 ^ 32) <$> take 8 primes.

(** Big-endian bytes of an [n]-byte word. *)
Fixpoint be_bytes (n : nat) (z : Z) : list Z :=
  match n with
  | O => []
  | S n' => Z.shiftr z (8 * Z.of_nat n') mod 256 :: be_bytes n' z
  end.

Fixpoint words_of (l : list Z) : list Z :=
  match l with
  | a :: b :: c :: d :: l' =>
      (Z.shiftl a 24 + Z.shiftl b 16 + Z.shiftl c 8 + d) :: words_of l'
  | _ => []
  end.

Definition pad (m : list Z) : list Z :=
  let len := Z.of_nat (length m) in
  let zeros := Z.to_nat ((55 - len) mod 64) in
  (m ++ [128] ++ replicate zeros 0 ++ be_bytes 8 (8 * len))%list.

Fixpoint blocks (n : nat) (ws : list Z) : list (list Z) :=
  match n with
  | O => []
  | S n' => take 16 ws :: blocks n' (drop 16 ws)
  end.

(** The message schedule, most recent word first. *)
Fixpoint schedule (n : nat) (rw : list Z) : list Z :=
  match n with
  | O => rw
  | S n' =>
      let at_ i := nth i rw 0 in
      let w := w32 (sig1 (at_ 1%nat) + at_ 6%nat + sig0 (at_ 14%nat) + at_ 15%nat) in
      schedule n' (w :: rw)
  end.

Definition round (st : list Z) (kw : Z * Z) : list Z :=
  match st with
  | [a; b; c; d; e; f; g; h] =>
      let t1 := w32 (h + Sig1 e + Ch e f g + kw.1 + kw.2) in
      let t2 := w32 (Sig0 a + Maj a b c) in
      [add32 t1 t2; a; b; c; add32 d t1; e; f; g]
  | _ => st
  end.

Definition compress (hs block : list Z) : list Z :=
  let ws := rev (schedule 48 (rev block)) in
  zip_with add32 hs (fold_left round (zip K ws) hs).

Definition digest (m : list Z) : list Z :=
  let p := pad m in
  let bs := blocks (Nat.div (length p) 64) (words_of p) in
  fold_left compress bs H0 ≫= be_bytes 4.
End Sha256.

(** [sha256.Sum256([]byte(s))]. *)
Definition Sum256 (s : string) : list Z := Sha256.digest (bytes_of s).

(** ** Hexadecimal *)

Definition hex_digit (z : Z) : ascii :=
  if z <? 10 then ascii_of_byte (48 + z) else ascii_of_byte (87 + z).

(** [hex.EncodeToString], also [fmt.Sprintf("%x", bytes)]. *)
Fixpoint hex_encode (l : list Z) : string :=
  match l with
  | [] => EmptyString
  | b :: l' => String (hex_digit (b / 16)) (String (hex_digit (b mod 16)) (hex_encode l'))
  end.

(** ** Test vectors (FIPS 180-4 / NIST) *)

Example sha256_abc :
  hex_encode (Sum256 "abc")
  = "ba7816bf8f01cfea414140de5dae2223b00361a396177a9cb410ff61f20015ad"%string.
Proof. vm_compute. reflexivity. Qed.

Example sha256_two_blocks :
  hex_encode (Sum256 "abcdbcdecdefdefgefghfghighijhijkijkljklmklmnlmnomnopnopq")
  = "248d6a61d20638b8e5c026930c3e6039a33ce45964ff2167f6ecedd419db06c1"%string.
Proof. vm_compute. reflexivity. Qed.

(** ** Lemmas *)

Definition is_byte (z : Z) : Prop := 0 ≤ z < 256.

Lemma be_bytes_spec n z :
  length (Sha256.be_bytes n z) = n ∧ Forall is_byte (Sha256.be_bytes n z).
Proof.
  induction n as [|n [IHl IHb]]; simpl; [by split; constructor|].
  rewrite IHl. split; [done|]. constructor; [|done].
  unfold is_byte. apply Z.mod_pos_bound. lia.
Qed.

Lemma compress_length hs b : length hs = 8%nat → length (Sha256.compress hs b) = 8%nat.
Proof.
  intros Hhs. unfold Sha256.compress.
  enough (∀ kws st, length st = 8%nat → length (fold_left Sha256.round kws st) = 8%nat)
    as Hlen by (rewrite length_zip_with, Hhs, Hlen; [lia|done]).
  induction kws as [|kw kws IH]; intros st Hst; [done|]. simpl. apply IH.
  do 9 (destruct st as [|? st]; [by try done|]). done.
Qed.

Lemma Sum256_spec s : length (Sum256 s) = 32%nat ∧ Forall is_byte (Sum256 s).
Proof.
  unfold Sum256, Sha256.digest. cbv zeta.
  set (bs := Sha256.blocks _ _).
  assert (∀ hs, length hs = 8%nat → length (fold_left Sha256.compress bs hs) = 8%nat) as Hl.
  { induction bs as [|b bs IH]; intros hs Hhs; [done|]. apply IH. by apply compress_length. }
  specialize (Hl Sha256.H0 eq_refl). revert Hl.
  generalize (fold_left Sha256.compress bs Sha256.H0) as ws. intros ws Hws.
  assert (length (ws ≫= Sha256.be_bytes 4) = (4 * length ws)%nat
          ∧ Forall is_byte (ws ≫= Sha256.be_bytes 4)) as [-> ?]; [|by rewrite Hws].
  clear. induction ws as [|w ws [IHl IHb]]; [by split; constructor|].
  rewrite bind_cons, length_app, IHl. destruct (be_bytes_spec 4 w) as [-> ?].
  simpl length. split; [lia|]. by apply Forall_app.
Qed.

Lemma hex_digit_inj x y :
  0 ≤ x < 16 → 0 ≤ y < 16 → hex_digit x = hex_digit y → x = y.
Proof.
  intros Hx Hy E.
  assert (∀ z, 0 ≤ z < 16 →
    byte_of_ascii (hex_digit z) = if z <? 10 then 48 + z else 87 + z) as Hd.
  { intros z Hz. unfold hex_digit, byte_of_ascii, ascii_of_byte.
    destruct (z <? 10); rewrite N_ascii_embedding; lia. }
  pose proof (Hd x Hx) as Ex. rewrite E, (Hd y Hy) in Ex.
  destruct (Z.ltb_spec x 10), (Z.ltb_spec y 10); lia.
Qed.

(** The hexadecimal text determines the bytes. *)
Lemma hex_encode_inj l1 l2 :
  Forall is_byte l1 → Forall is_byte l2 → hex_encode l1 = hex_encode l2 → l1 = l2.
Proof.
  intros H1. revert l2. induction H1 as [|x l1 Hx Hl1 IH]; intros l2 H2 E;
    destruct H2 as [|y l2 Hy Hl2]; simplify_eq/=; [done|].
  assert (∀ z, is_byte z → 0 ≤ z / 16 < 16 ∧ 0 ≤ z mod 16 < 16) as Hr.
  { unfold is_byte. intros z Hz. split; [|by apply Z.mod_pos_bound].
    split; [by apply Z.div_pos; lia|apply Z.div_lt_upper_bound; lia]. }
  destruct (Hr x Hx), (Hr y Hy). f_equal; [|by apply IH].
  rewrite (Z.div_mod x 16), (Z.div_mod y 16) by done.
  f_equal; [f_equal|]; by apply hex_digit_inj.
Qed.

Lemma hex_encode_length l : String.length (hex_encode l) = (2 * length l)%nat.
Proof. induction l as [|b l IH]; [done|]. simpl. rewrite IH. simpl. lia. Qed.
