(* ===== verification/Model.v ===== *)
(** * The data model ([internal/model]) and its text forms

    One record per Go struct and one inductive type per Go string enum.  The
    enums are also PostgreSQL enum types: [*_text] is the text stored in a
    column and sent on the wire, [*_of_text] the conversion PostgreSQL does when
    a text parameter is assigned to an enum column ([None]: invalid input). *)

From stdpp Require Import gmap strings list.
From Stdlib Require Import ZArith Lia.
From S2P Require Import Prelude GoStrings Encoding.

Local Open Scope string_scope.

(** ** Enums *)

Inductive WorkstationPowerState :=
| WorkstationPowerStateStarting
| WorkstationPowerStateRunning
| WorkstationPowerStateStopping
| WorkstationPowerStateStopped
| WorkstationPowerStateDeleting
| WorkstationPowerStateDeleted
| WorkstationPowerStateError.

Inductive WorkstationDesiredPowerState :=
| WorkstationDesiredPowerStateRunning
| WorkstationDesiredPowerStateStopped
| WorkstationDesiredPowerStateDeleted.

Inductive WorkerStatus := WorkerStatusActive | WorkerStatusDraining | WorkerStatusOffline.

Inductive VMState :=
| VMStateStarting | VMStateBootstrapping | VMStateReady
| VMStateBusy | VMStateDestroying | VMStateFailed.

#[export] Instance WorkstationPowerState_eq_dec : EqDecision WorkstationPowerState.
Proof. solve_decision. Defined.
#[export] Instance WorkstationDesiredPowerState_eq_dec : EqDecision WorkstationDesiredPowerState.
Proof. solve_decision. Defined.
#[export] Instance WorkerStatus_eq_dec : EqDecision WorkerStatus.
Proof. solve_decision. Defined.
#[export] Instance VMState_eq_dec : EqDecision VMState.
Proof. solve_decision. Defined.

Definition power_state_text (p : WorkstationPowerState) : string :=
  match p with
  | WorkstationPowerStateStarting => "starting"
  | WorkstationPowerStateRunning => "running"
  | WorkstationPowerStateStopping => "stopping"
  | WorkstationPowerStateStopped => "stopped"
  | WorkstationPowerStateDeleting => "deleting"
  | WorkstationPowerStateDeleted => "deleted"
  | WorkstationPowerStateError => "error"
  end.

Definition all_power_states : list WorkstationPowerState :=
  [WorkstationPowerStateStarting; WorkstationPowerStateRunning; WorkstationPowerStateStopping;
   WorkstationPowerStateStopped; WorkstationPowerStateDeleting; WorkstationPowerStateDeleted;
   WorkstationPowerStateError].

Definition power_state_of_text (s : string) : option WorkstationPowerState :=
  head (filter (λ p, power_state_text p = s) all_power_states).

Definition desired_text (p : WorkstationDesiredPowerState) : string :=
  match p with
  | WorkstationDesiredPowerStateRunning => "running"
  | WorkstationDesiredPowerStateStopped => "stopped"
  | WorkstationDesiredPowerStateDeleted => "deleted"
  end.

Lemma power_state_of_text_text p : power_state_of_text (power_state_text p) = Some p.
Proof. by destruct p. Qed.

Lemma power_state_of_text_inv s p : power_state_of_text s = Some p → s = power_state_text p.
Proof.
  unfold power_state_of_text. intros Hh.
  assert (p ∈ filter (λ p, power_state_text p = s) all_power_states) as [Hp _]%list_elem_of_filter.
  { destruct (filter _ _); simplify_eq/=. by left. }
  done.
Qed.

(** ** Structs *)

Record Worker := mkWorker {
  wk_ID : string;
  wk_Hostname : string;
  wk_HardwareUUID : string;
  wk_CPUCores : Z;
  wk_MemoryBytes : Z;
  wk_TartVersion : string;
  wk_WorkerVersion : string;
  wk_PoolSize : Z;
  wk_BaseImage : string;
  wk_Status : WorkerStatus;
  wk_RegisteredAt : Z;
  wk_LastHeartbeat : option Z;
  wk_AuthTokenHash : option string;
  wk_AuthTokenLastUsedAt : option Z;
  wk_AuthTokenRevokedAt : option Z
}.

Record Workstation := mkWorkstation {
  ws_ID : string;
  ws_MemberID : string;
  ws_WorkerID : string;
  ws_Slot : Z;
  ws_VMName : string;
  ws_PowerState : WorkstationPowerState;
  ws_DesiredPowerState : WorkstationDesiredPowerState;
  ws_IPAddress : string;
  ws_LastError : string;
  ws_CreatedAt : Z;
  ws_UpdatedAt : Z
}.

Record VM := mkVM {
  vm_ID : string;
  vm_WorkerID : string;
  vm_State : VMState;
  vm_IPAddress : string;
  vm_StateSince : Z;
  vm_CreatedAt : Z
}.

Record Member := mkMember {
  mb_ID : string;
  mb_AccessSub : string;
  mb_Email : string;
  mb_DisplayName : string;
  mb_Role : string;
  mb_CreatedAt : Z;
  mb_UpdatedAt : Z;
  mb_LastSeenAt : Z
}.

Record Release := mkRelease {
  rl_ID : string;
  rl_Version : string;
  rl_SHA256 : string;
  rl_SizeBytes : Z;
  rl_SigningIdentity : string;
  rl_FilePath : string;
  rl_UploadedAt : Z
}.

#[export] Instance Worker_eq_dec : EqDecision Worker.
Proof. solve_decision. Defined.
#[export] Instance Workstation_eq_dec : EqDecision Workstation.
Proof. solve_decision. Defined.

(** ** Worker identifiers *)

(** [GenerateWorkerID]: "w-" and the first six bytes of the SHA-256 digest of
    the hardware UUID, in hexadecimal. *)
Definition GenerateWorkerID (hardwareUUID : string) : string :=
  "w-" +:+ hex_encode (take 6 (Sum256 hardwareUUID)).

Lemma GenerateWorkerID_collision u1 u2 :
  GenerateWorkerID u1 = GenerateWorkerID u2 ↔ take 6 (Sum256 u1) = take 6 (Sum256 u2).
Proof.
  unfold GenerateWorkerID. split; [|by intros ->].
  intros E%str_append_inj_l. apply hex_encode_inj in E; [done|..];
    apply Forall_take, Sum256_spec.
Qed.
