(* ===== verification/Database.v ===== *)
(** * The database: tables, transactions and faults

    The PostgreSQL tables are finite maps from the primary key to the row.  A
    [DB] computation is what a method of [*db.DB] does to the world: the tables
    as last committed ([durable]), the snapshot an open transaction works on
    ([working]), and a script of faults.  Every statement consumes one fault of
    the script (an exhausted script has none): [FailBefore] is a statement that
    fails without effect, [FailAfter] one whose effect happened and whose reply
    was lost, which is what a broken connection can do to a commit or to an
    autocommitted statement.

    Transactions are serial: each of them runs on the tables the previous one
    committed.  For allocation and hostname assignment the code arranges that
    with an advisory lock, and for updates of one workstation with
    [SELECT ... FOR UPDATE] on its row; for the other methods, for example
    [DeleteMissingVMsForWorker], which takes neither, it is an assumption of the
    model.

    Text parameters are taken as they are.  PostgreSQL stores UTF-8 without NUL
    bytes and answers any other text with an error; that error is not modelled,
    so the theorems about methods that store text ([AssignHostname],
    [UpsertMemberFromAccess], ...) assume valid text. *)

From stdpp Require Import gmap strings list.
From Stdlib Require Import ZArith Lia.
From S2P Require Import Prelude GoStrings Encoding Model.

(** ** Errors *)

(** The SQLSTATE classes the schema can raise. *)
Inductive PgCode :=
| UniqueViolation        (* 23505 *)
| ForeignKeyViolation    (* 23503 *)
| CheckViolation         (* 23514 *)
| InvalidTextRepresentation (* 22P02: not a value of the enum *)
| NumericOutOfRange.     (* 22003 *)

(** Go [error] values that cross the database package's interface. *)
Inductive Error :=
| ErrNoRows
| PgError (code : PgCode)
| ErrConn
| ErrWorkstationBeingDeleted
| ErrNoActiveWorkers
| ErrNoSlotsAvailable
| ErrTargetWorkerFull
| ErrTargetWorkerUnavailable
| ErrReleaseVersionExists
| ErrText (msg : string).

#[export] Instance PgCode_eq_dec : EqDecision PgCode.
Proof. solve_decision. Defined.
#[export] Instance Error_eq_dec : EqDecision Error.
Proof. solve_decision. Defined.

Definition IsNotFound (err : Error) : bool := bool_decide (err = ErrNoRows).

(** ** State *)

Record Tables := mkTables {
  workers : gmap string Worker;
  workstations : gmap string Workstation;
  members : gmap string Member;
  vms : gmap string VM;
  releases : gmap string Release
}.

Definition empty_tables : Tables := mkTables ∅ ∅ ∅ ∅ ∅.

Definition set_workers (f : gmap string Worker → gmap string Worker) (t : Tables) : Tables :=
  mkTables (f (workers t)) (workstations t) (members t) (vms t) (releases t).
Definition set_workstations (f : gmap string Workstation → gmap string Workstation)
    (t : Tables) : Tables :=
  mkTables (workers t) (f (workstations t)) (members t) (vms t) (releases t).
Definition set_members (f : gmap string Member → gmap string Member) (t : Tables) : Tables :=
  mkTables (workers t) (workstations t) (f (members t)) (vms t) (releases t).
Definition set_vms (f : gmap string VM → gmap string VM) (t : Tables) : Tables :=
  mkTables (workers t) (workstations t) (members t) (f (vms t)) (releases t).
Definition set_releases (f : gmap string Release → gmap string Release) (t : Tables) : Tables :=
  mkTables (workers t) (workstations t) (members t) (vms t) (f (releases t)).

Inductive Fault := NoFault | FailBefore | FailAfter.

Record World := mkWorld {
  durable : Tables;
  working : Tables;
  faults : list Fault
}.

(** A world with no open transaction and no faults to come. *)
Definition calm (t : Tables) : World := mkWorld t t [].

(** ** The monad *)

Definition DB (A : Type) : Type := World → (Error + A) * World.

#[export] Instance DB_ret : MRet DB := λ A a w, (inr a, w).
#[export] Instance DB_bind : MBind DB := λ A B k m w,
  match m w with
  | (inl e, w') => (inl e, w')
  | (inr a, w') => k a w'
  end.

Definition throw {A} (e : Error) : DB A := λ w, (inl e, w).

(** A pure fallible call inside a method. *)
Definition lift {A} (r : Error + A) : DB A :=
  match r with inl e => throw e | inr a => mret a end.

(** Run [m] and hand its outcome, error included, to the caller. *)
Definition try {A} (m : DB A) : DB (Error + A) := λ w,
  let (r, w') := m w in (inr r, w').

Definition next_fault (w : World) : Fault * World :=
  match faults w with
  | [] => (NoFault, w)
  | f :: fs => (f, mkWorld (durable w) (working w) fs)
  end.

(** A statement is a function of the tables; [inl] is an error raised by the
    server. *)
Definition Statement (A : Type) : Type := Tables → Error + (A * Tables).

(** A statement on the pool, committed on its own ([d.Pool.Exec] and
    [d.Pool.QueryRow]). *)
Definition pool_exec {A} (f : Statement A) : DB A := λ w,
  let (fault, w) := next_fault w in
  match fault, f (durable w) with
  | FailBefore, _ => (inl ErrConn, w)
  | _, inl e => (inl e, w)
  | NoFault, inr (a, t) => (inr a, mkWorld t (working w) (faults w))
  | FailAfter, inr (_, t) => (inl ErrConn, mkWorld t (working w) (faults w))
  end.

Definition BeginTx : DB unit := λ w,
  let (fault, w) := next_fault w in
  match fault with
  | NoFault => (inr tt, mkWorld (durable w) (durable w) (faults w))
  | _ => (inl ErrConn, w)
  end.

(** A statement inside the open transaction ([tx.Exec], [tx.QueryRow]). *)
Definition tx_exec {A} (f : Statement A) : DB A := λ w,
  let (fault, w) := next_fault w in
  match fault, f (working w) with
  | NoFault, inr (a, t) => (inr a, mkWorld (durable w) t (faults w))
  | NoFault, inl e => (inl e, w)
  | _, _ => (inl ErrConn, w)
  end.

Definition Commit : DB unit := λ w,
  let (fault, w) := next_fault w in
  let published := mkWorld (working w) (working w) (faults w) in
  match fault with
  | NoFault => (inr tt, published)
  | FailBefore => (inl ErrConn, w)
  | FailAfter => (inl ErrConn, published)
  end.

(** Read-only and row-level statements. *)
Definition select {A} (q : Tables → A) : Statement A := λ t, inr (q t, t).
Definition select_row {A} (q : Tables → option A) : Statement A := λ t,
  match q t with Some a => inr (a, t) | None => inl ErrNoRows end.
Definition update (f : Tables → Tables) : Statement unit := λ t, inr (tt, f t).

(** ** PostgreSQL's text order

    [ORDER BY] on text columns follows the database collation, a total preorder
    the server chooses. *)
Class Collation := {
  text_le : relation string;
  text_le_dec :: RelDecision text_le;
  text_le_trans :: Transitive text_le;
  text_le_total :: Total text_le
}.

(** The "C" collation, which compares bytes. *)
Definition C_collation : Collation := Build_Collation String.le _ _ _.

(** ** A program logic for database computations

    [triple I P m Q]: run from a world whose committed tables satisfy [I] and
    whose transaction snapshot satisfies [P], [m] leaves committed tables that
    satisfy [I] whatever faults occur, and if it returns [a] the snapshot
    satisfies [Q a]. *)
Definition triple {A} (I P : Tables → Prop) (m : DB A) (Q : A → Tables → Prop) : Prop :=
  ∀ w, I (durable w) → P (working w) →
    I (durable (m w).2) ∧
    match (m w).1 with inr a => Q a (working (m w).2) | inl _ => True end.

(** What a whole operation does to the committed tables. *)
Definition keeps {A} (I : Tables → Prop) (m : DB A) : Prop :=
  ∀ w, I (durable w) → I (durable (m w).2).

Section Logic.
Context (I : Tables → Prop).

Lemma triple_keeps {A} (m : DB A) Q : triple I (λ _, True) m Q → keeps I m.
Proof. intros H w Hw. by apply H. Qed.

Lemma triple_ret {A} (a : A) (P : Tables → Prop) (Q : A → Tables → Prop) :
  (∀ t, P t → Q a t) → triple I P (mret a) Q.
Proof. intros H w Hi Hp. split; [done|]. by apply H. Qed.

Lemma triple_throw {A} e P (Q : A → Tables → Prop) : triple I P (throw e) Q.
Proof. by intros w Hi Hp. Qed.

Lemma triple_bind {A B} (m : DB A) (k : A → DB B) P (R : A → Tables → Prop) Q :
  triple I P m R → (∀ a, triple I (R a) (k a) Q) → triple I P (m ≫= k) Q.
Proof.
  intros Hm Hk w Hi Hp. unfold mbind, DB_bind.
  destruct (Hm w Hi Hp) as [Hd Hr]. destruct (m w) as [[e|a] w']; simpl in *; [done|].
  by apply Hk.
Qed.

Lemma triple_try {A} (m : DB A) P (R : A → Tables → Prop) :
  triple I P m R →
  triple I P (try m) (λ r t, match r with inr a => R a t | inl _ => True end).
Proof.
  intros Hm w Hi Hp. destruct (Hm w Hi Hp) as [Hd Hr]. unfold try.
  destruct (m w) as [[e|a] w']; by split.
Qed.

Lemma triple_weaken {A} (m : DB A) (P P' : Tables → Prop) (Q Q' : A → Tables → Prop) :
  triple I P' m Q' → (∀ t, P t → P' t) → (∀ a t, Q' a t → Q a t) → triple I P m Q.
Proof.
  intros Hm HP HQ w Hi Hp. destruct (Hm w Hi (HP _ Hp)) as [Hd Hr]. split; [done|].
  destruct ((m w).1); [done|by apply HQ].
Qed.

Lemma triple_begin P : triple I P BeginTx (λ _ t, I t).
Proof.
  intros [d wk [|[] fs]] Hi Hp; simpl in *; by split.
Qed.

Lemma triple_tx {A} (f : Statement A) (P : Tables → Prop) (Q : A → Tables → Prop) :
  (∀ t a t', P t → f t = inr (a, t') → Q a t') → triple I P (tx_exec f) Q.
Proof.
  intros Hf [d wk fs] Hi Hp. unfold tx_exec, next_fault. simpl in *.
  destruct fs as [|[] fs]; simpl; destruct (f wk) as [e|[a t]] eqn:E; simpl; split; eauto.
Qed.

Lemma triple_select {A} (q : Tables → A) P :
  triple I P (tx_exec (select q)) (λ a t, P t ∧ a = q t).
Proof. apply triple_tx. by intros t a t' Hp [= <- <-]. Qed.

Lemma triple_select_row {A} (q : Tables → option A) P :
  triple I P (tx_exec (select_row q)) (λ a t, P t ∧ q t = Some a).
Proof.
  apply triple_tx. unfold select_row. intros t a t' Hp.
  destruct (q t) eqn:E; [|done]. by intros [= <- <-].
Qed.

(** A failed read leaves the snapshot as it was. *)
Lemma triple_try_row {A} (q : Tables → option A) P :
  triple I P (try (tx_exec (select_row q)))
    (λ r t, P t ∧ match r with
                  | inr a => q t = Some a
                  | inl ErrNoRows => q t = None
                  | inl _ => True
                  end).
Proof.
  intros [d wk fs] Hi Hp. unfold try, tx_exec, next_fault, select_row. simpl in *.
  destruct fs as [|[] fs]; simpl; destruct (q wk) as [a|] eqn:E; simpl; by rewrite ?E.
Qed.

Lemma triple_lift {A} (r : Error + A) P :
  triple I P (lift r) (λ a t, P t ∧ r = inr a).
Proof. destruct r; [apply triple_throw|]. apply triple_ret. naive_solver. Qed.

Lemma triple_commit (P : Tables → Prop) :
  (∀ t, P t → I t) → triple I P Commit (λ _ t, P t).
Proof.
  intros HP [d wk fs] Hi Hp. unfold Commit, next_fault.
  destruct fs as [|[] fs]; simpl in *; split; eauto.
Qed.

Lemma triple_pool {A} (f : Statement A) (P : Tables → Prop) :
  (∀ t a t', I t → f t = inr (a, t') → I t') → triple I P (pool_exec f) (λ _ t, P t).
Proof.
  intros Hf [d wk fs] Hi Hp. unfold pool_exec, next_fault. simpl in *.
  destruct fs as [|[] fs]; simpl; destruct (f d) as [e|[a t]] eqn:E; simpl; split; eauto.
Qed.

Lemma keeps_bind {A B} (m : DB A) (k : A → DB B) :
  keeps I m → (∀ a, keeps I (k a)) → keeps I (m ≫= k).
Proof.
  intros Hm Hk w Hw. unfold mbind, DB_bind. specialize (Hm w Hw).
  destruct (m w) as [[e|a] w']; [done|]. by apply Hk.
Qed.

Lemma keeps_ret {A} (a : A) : keeps I (mret a).
Proof. by intros w Hw. Qed.

Lemma keeps_throw {A} e : keeps I (throw e : DB A).
Proof. by intros w Hw. Qed.

Lemma keeps_lift {A} (r : Error + A) : keeps I (lift r).
Proof. destruct r; [apply keeps_throw|apply keeps_ret]. Qed.

Lemma keeps_try {A} (m : DB A) : keeps I m → keeps I (try m).
Proof. intros Hm w Hw. unfold try. specialize (Hm w Hw). by destruct (m w). Qed.

Lemma keeps_pool {A} (f : Statement A) :
  (∀ t a t', I t → f t = inr (a, t') → I t') → keeps I (pool_exec f).
Proof. intros Hf w Hw. by apply (triple_pool f (λ _, True) Hf w). Qed.

(** A computation that stays within [I], committed tables and snapshot alike. *)
Definition respects {A} (f : Statement A) : Prop := ∀ t a t', I t → f t = inr (a, t') → I t'.
Definition confined {A} (m : DB A) : Prop := triple I I m (λ _, I).

Lemma confined_bind {A B} (m : DB A) (k : A → DB B) :
  confined m → (∀ a, confined (k a)) → confined (m ≫= k).
Proof. intros Hm Hk. by eapply triple_bind. Qed.

Lemma confined_ret {A} (a : A) : confined (mret a).
Proof. by apply triple_ret. Qed.

Lemma confined_throw {A} e : confined (throw e : DB A).
Proof. apply triple_throw. Qed.

Lemma confined_lift {A} (r : Error + A) : confined (lift r).
Proof. destruct r; [apply confined_throw|apply confined_ret]. Qed.

Lemma confined_commit : confined Commit.
Proof. by apply triple_commit. Qed.

Lemma confined_tx {A} (f : Statement A) : respects f → confined (tx_exec f).
Proof. apply triple_tx. Qed.

Lemma confined_try_tx {A} (f : Statement A) : respects f → confined (try (tx_exec f)).
Proof.
  intros Hf [d wk fs] Hi Hp. unfold try, tx_exec, next_fault. simpl in *.
  destruct fs as [|[] fs]; simpl; destruct (f wk) as [e|[a t]] eqn:E; simpl; split; eauto.
Qed.

Lemma keeps_transaction {A} (k : () → DB A) : (∀ u, confined (k u)) → keeps I (BeginTx ≫= k).
Proof.
  intros Hk. apply triple_keeps with (λ _, I). eapply triple_bind; [apply triple_begin|done].
Qed.

Lemma respects_select {A} (q : Tables → A) : respects (select q).
Proof. by intros t a t' Ht [= _ <-]. Qed.

Lemma respects_select_row {A} (q : Tables → option A) : respects (select_row q).
Proof. intros t a t' Ht. unfold select_row. destruct (q t); [|done]. by intros [= _ <-]. Qed.

Lemma respects_update f : (∀ t, I t → I (f t)) → respects (update f).
Proof. intros Hf t a t' Ht [= _ <-]. by apply Hf. Qed.
End Logic.

#[export] Hint Resolve confined_ret confined_throw confined_lift confined_commit confined_tx
  confined_try_tx respects_select respects_select_row respects_update keeps_pool : minis.

(** Walks through a body, leaving its statements. *)
Ltac confine :=
  repeat match goal with
  | |- keeps _ (BeginTx ≫= _) => apply keeps_transaction; intros ?
  | |- confined _ (_ ≫= _) => apply confined_bind; [|intros ?]
  | |- confined _ (if ?b then _ else _) => destruct b
  | |- confined _ (match ?x with _ => _ end) => destruct x
  end; auto with minis.

#[export] Hint Resolve triple_throw keeps_ret keeps_throw keeps_lift keeps_try : minis.

(** One step of the symbolic execution of a transaction body. *)
Ltac db_step :=
  lazymatch goal with
  | |- triple _ _ (throw _) _ => apply triple_throw
  | |- triple _ _ (mret _) _ => apply triple_ret
  | |- triple _ _ (mbind _ _) _ => eapply triple_bind; [|intros ?]
  | |- triple _ _ BeginTx _ => apply triple_begin
  | |- triple _ _ Commit _ => apply triple_commit
  | |- triple _ _ (tx_exec (select _)) _ => apply triple_select
  | |- triple _ _ (tx_exec (select_row _)) _ => apply triple_select_row
  | |- triple _ _ (lift _) _ => apply triple_lift
  | |- triple _ _ (try (tx_exec (select_row _))) _ => apply triple_try_row
  | |- triple _ _ (if ?b then _ else _) _ => destruct b eqn:?
  | |- triple _ _ (match ?x with _ => _ end) _ => destruct x eqn:?
  end.

(** Reads change nothing. *)
Lemma select_inv {A} (q : Tables → A) t a t' : select q t = inr (a, t') → a = q t ∧ t' = t.
Proof. by intros [= -> ->]. Qed.
Lemma select_row_inv {A} (q : Tables → option A) t a t' :
  select_row q t = inr (a, t') → q t = Some a ∧ t' = t.
Proof. unfold select_row. destruct (q t); naive_solver. Qed.
Lemma update_inv f t a t' : update f t = inr (a, t') → t' = f t.
Proof. by intros [= _ ->]. Qed.

Ltac sql_inv :=
  repeat match goal with
  | H : select _ _ = inr _ |- _ => apply select_inv in H as [-> ->]
  | H : select_row _ _ = inr _ |- _ => apply select_row_inv in H as [? ->]
  | H : update _ _ = inr _ |- _ => apply update_inv in H as ->
  end.

(** ** Fault-free runs

    Run on a quiet database, a transactional method is a function of the
    tables: it commits its writes or leaves everything as it was. *)

Definition settles {A} (m : DB A) (t : Tables) (r : Error + (A * Tables)) : Prop :=
  m (calm t) = match r with
               | inl e => (inl e, calm t)
               | inr (a, t') => (inr a, calm t')
               end.

Definition quiet (d wk : Tables) : World := mkWorld d wk [].

Lemma run_bind {A B} (m : DB A) (k : A → DB B) w :
  (m ≫= k) w = match m w with (inl e, w') => (inl e, w') | (inr a, w') => k a w' end.
Proof. done. Qed.
Lemma run_ret {A} (a : A) w : (mret a : DB A) w = (inr a, w).
Proof. done. Qed.
Lemma run_throw {A} e w : (throw e : DB A) w = (inl e, w).
Proof. done. Qed.
Lemma run_try {A} (m : DB A) w : try m w = (inr (m w).1, (m w).2).
Proof. unfold try. by destruct (m w). Qed.
Lemma run_begin d wk : BeginTx (quiet d wk) = (inr tt, quiet d d).
Proof. done. Qed.
Lemma run_commit d wk : Commit (quiet d wk) = (inr tt, quiet wk wk).
Proof. done. Qed.
Lemma run_tx {A} (f : Statement A) d wk :
  tx_exec f (quiet d wk) =
  match f wk with inl e => (inl e, quiet d wk) | inr (a, t) => (inr a, quiet d t) end.
Proof. done. Qed.
Lemma run_pool {A} (f : Statement A) d wk :
  pool_exec f (quiet d wk) =
  match f d with inl e => (inl e, quiet d wk) | inr (a, t) => (inr a, quiet t wk) end.
Proof. done. Qed.
Lemma run_select {A} (q : Tables → A) t : select q t = inr (q t, t).
Proof. done. Qed.
Lemma run_select_row {A} (q : Tables → option A) t :
  select_row q t = match q t with Some a => inr (a, t) | None => inl ErrNoRows end.
Proof. done. Qed.
Lemma calm_quiet t : calm t = quiet t t.
Proof. done. Qed.

(** Symbolic execution of a method in a world without faults. *)
Ltac run_db :=
  rewrite ?calm_quiet;
  repeat first
    [ rewrite run_bind | rewrite run_begin | rewrite run_commit | rewrite run_tx
    | rewrite run_pool | rewrite run_ret | rewrite run_throw | rewrite run_try
    | rewrite run_select | rewrite run_select_row | progress cbv beta iota zeta
    | progress cbn [fst snd] ].

(** ** Crash atomicity

    [reads_only m]: whatever faults occur, [m] leaves the committed tables alone
    and either fails or does what it does without faults.  [atomic m]: a faulty
    run either fails leaving the committed tables as they were, or ends in the
    state of the fault-free run, then reporting its result or, when only the
    reply to the commit was lost, a connection error. *)

Definition failed {A} (r : Error + A) : Prop := ∃ e, r = inl e.

Definition reads_only {A} (m : DB A) : Prop := ∀ d wk fs,
  durable (m (quiet d wk)).2 = d ∧ faults (m (quiet d wk)).2 = [] ∧
  durable (m (mkWorld d wk fs)).2 = d ∧
  (failed (m (mkWorld d wk fs)).1 ∨
   ((m (mkWorld d wk fs)).1 = (m (quiet d wk)).1 ∧
    working (m (mkWorld d wk fs)).2 = working (m (quiet d wk)).2)).

Definition atomic {A} (m : DB A) : Prop := ∀ d wk fs,
  let calm_run := m (quiet d wk) in
  let run := m (mkWorld d wk fs) in
  (failed run.1 ∧ durable run.2 = d) ∨
  (durable run.2 = durable calm_run.2 ∧
   (run.1 = calm_run.1 ∨ (run.1 = inl ErrConn ∧ ∃ a, calm_run.1 = inr a))).

Section Atomicity.
Lemma reads_only_ret {A} (a : A) : reads_only (mret a).
Proof. intros d wk fs. repeat split. by right. Qed.

Lemma reads_only_throw {A} e : reads_only (throw e : DB A).
Proof. intros d wk fs. repeat split. left. by exists e. Qed.

Lemma reads_only_lift {A} (r : Error + A) : reads_only (lift r).
Proof. destruct r; [apply reads_only_throw|apply reads_only_ret]. Qed.

Lemma reads_only_begin : reads_only BeginTx.
Proof.
  intros d wk fs. unfold BeginTx, next_fault, quiet. simpl.
  destruct fs as [|[] fs]; simpl; repeat split; (by right) || (left; by eexists).
Qed.

Lemma reads_only_tx {A} (f : Statement A) : reads_only (tx_exec f).
Proof.
  intros d wk fs. unfold tx_exec, next_fault, quiet. simpl.
  destruct fs as [|[] fs]; simpl; destruct (f wk) as [e|[a t]]; simpl; repeat split;
    (by right) || (left; by eexists).
Qed.

Lemma reads_only_pool_row {A} (q : Tables → option A) : reads_only (pool_exec (select_row q)).
Proof.
  intros d wk fs. unfold pool_exec, next_fault, quiet, select_row. simpl.
  destruct fs as [|[] fs]; simpl; destruct (q d) as [a|]; simpl; repeat split;
    (by right) || (left; by eexists).
Qed.

Lemma quiet_faults (w : World) : faults w = [] → w = quiet (durable w) (working w).
Proof. destruct w; simpl. by intros ->. Qed.

Lemma reads_only_bind {A B} (m : DB A) (k : A → DB B) :
  reads_only m → (∀ a, reads_only (k a)) → reads_only (m ≫= k).
Proof.
  intros Hm Hk d wk fs. unfold mbind, DB_bind. destruct (Hm d wk fs) as (Hd & Hf & Hdf & Hr).
  destruct (m (quiet d wk)) as [[e|a] [d0 wk0 fs0]], (m (mkWorld d wk fs)) as [[e'|a'] [d1 wk1 fs1]];
    simpl in *; subst; destruct Hr as [[? Hr]|[Hr Hw]]; simplify_eq;
    try (repeat split; (left; by eexists) || done);
    try (repeat split; eauto; done).
  - destruct (Hk a d wk0 []) as (? & ? & _). repeat split; try done. left. by eexists.
  - apply Hk.
Qed.

Lemma atomic_bind {A B} (m : DB A) (k : A → DB B) :
  reads_only m → (∀ a, atomic (k a)) → atomic (m ≫= k).
Proof.
  intros Hm Hk d wk fs. unfold mbind, DB_bind. destruct (Hm d wk fs) as (Hd & Hf & Hdf & Hr).
  destruct (m (quiet d wk)) as [[e|a] [d0 wk0 fs0]], (m (mkWorld d wk fs)) as [[e'|a'] [d1 wk1 fs1]];
    simpl in *; subst; destruct Hr as [[? Hr]|[Hr Hw]]; simplify_eq;
    (left; split; [by eexists|done]) || apply Hk.
Qed.

Lemma atomic_reads_only {A} (m : DB A) : reads_only m → atomic m.
Proof.
  intros Hm d wk fs. cbv zeta. destruct (Hm d wk fs) as (Hd & Hf & Hdf & [Hr|[Hr Hw]]).
  - by left.
  - right. split; [congruence|by left].
Qed.

Lemma atomic_commit_ret {A} (a : A) : atomic (Commit ≫= λ _, mret a).
Proof.
  intros d wk fs. unfold mbind, DB_bind, Commit, next_fault, quiet. simpl.
  destruct fs as [|[] fs]; simpl; [by eauto..|left; split; [by eexists|done]|].
  right. split; [done|]. right. split; [done|]. by eexists.
Qed.

Lemma atomic_commit : atomic Commit.
Proof.
  intros d wk fs. unfold Commit, next_fault, quiet. simpl.
  destruct fs as [|[] fs]; simpl; [by eauto..|left; split; [by eexists|done]|].
  right. split; [done|]. right. split; [done|]. by eexists.
Qed.

(** A read whose failure is inspected: a connection error must be passed on. *)
Lemma atomic_try_row {A B} (q : Tables → option A) (k : Error + A → DB B) :
  (∃ e, k (inl ErrConn) = throw e) → (∀ r, atomic (k r)) →
  atomic (try (tx_exec (select_row q)) ≫= k).
Proof.
  intros [e He] Hk d wk fs. unfold mbind, DB_bind, try, tx_exec, next_fault, quiet, select_row.
  simpl. destruct fs as [|[] fs]; simpl; destruct (q wk) as [a|] eqn:Eq; simpl; rewrite ?Eq;
    try apply (Hk _ d wk); rewrite He; left; (split; [by eexists|done]).
Qed.
End Atomicity.

#[export] Hint Resolve reads_only_ret reads_only_throw reads_only_lift reads_only_begin
  reads_only_tx reads_only_pool_row atomic_commit atomic_commit_ret atomic_reads_only : minis.

(** Statement by statement proof that a method is atomic. *)
Ltac atomic_step :=
  match goal with
  | |- atomic (Commit ≫= _) => apply atomic_commit_ret
  | |- atomic Commit => apply atomic_commit
  | |- atomic (try _ ≫= _) => apply atomic_try_row; [by eexists|intros ?]
  | |- atomic (_ ≫= _) => apply atomic_bind; [solve [auto with minis]|intros ?]
  | |- atomic (if ?b then _ else _) => destruct b
  | |- atomic (match ?x with _ => _ end) => destruct x
  | |- atomic _ => solve [auto with minis]
  end.

(** What atomicity means to a caller: none or all of the effect, and all of it
    when success is reported. *)
Lemma atomic_outcome {A} (m : DB A) d fs :
  atomic m →
  let calm_run := m (calm d) in
  let run := m (mkWorld d d fs) in
  (durable run.2 = d ∨ durable run.2 = durable calm_run.2) ∧
  (∀ a, run.1 = inr a → calm_run.1 = inr a ∧ durable run.2 = durable calm_run.2).
Proof.
  intros Hm. cbv zeta. change (calm d) with (quiet d d). destruct (Hm d d fs) as [[[e He] Hd]|[Hd Hr]].
  - split; [by left|]. intros a Ha. congruence.
  - split; [by right|]. intros a Ha. destruct Hr as [Hr|[Hr _]]; [|congruence]. by rewrite <- Hr.
Qed.

(** ** Independence of the last transaction

    What a method does depends on the committed tables and on the faults to
    come, not on the snapshot an earlier transaction left behind. *)
Definition self_contained {A} (m : DB A) : Prop := ∀ d wk wk' fs,
  (m (mkWorld d wk fs)).1 = (m (mkWorld d wk' fs)).1 ∧
  durable (m (mkWorld d wk fs)).2 = durable (m (mkWorld d wk' fs)).2 ∧
  faults (m (mkWorld d wk fs)).2 = faults (m (mkWorld d wk' fs)).2.

Lemma self_contained_ret {A} (a : A) : self_contained (mret a).
Proof. by intros d wk wk' fs. Qed.

Lemma self_contained_throw {A} e : self_contained (throw e : DB A).
Proof. by intros d wk wk' fs. Qed.

Lemma self_contained_pool {A} (f : Statement A) : self_contained (pool_exec f).
Proof.
  intros d wk wk' fs. unfold pool_exec, next_fault. simpl.
  destruct fs as [|[] fs]; simpl; by destruct (f d) as [e|[a t]].
Qed.

Lemma self_contained_tx {A} (k : unit → DB A) : self_contained (BeginTx ≫= k).
Proof.
  intros d wk wk' fs. unfold mbind, DB_bind, BeginTx, next_fault. simpl.
  by destruct fs as [|[] fs].
Qed.

Lemma self_contained_bind {A B} (m : DB A) (k : A → DB B) :
  self_contained m → (∀ a, self_contained (k a)) → self_contained (m ≫= k).
Proof.
  intros Hm Hk d wk wk' fs. unfold mbind, DB_bind. destruct (Hm d wk wk' fs) as (H1 & H2 & H3).
  destruct (m (mkWorld d wk fs)) as [[e|a] [d1 w1 f1]],
    (m (mkWorld d wk' fs)) as [[e'|a'] [d2 w2 f2]]; simpl in *; simplify_eq; [done|]. apply Hk.
Qed.

Lemma self_contained_try {A} (m : DB A) : self_contained m → self_contained (try m).
Proof.
  intros Hm d wk wk' fs. unfold try. destruct (Hm d wk wk' fs) as (H1 & H2 & H3).
  destruct (m (mkWorld d wk fs)), (m (mkWorld d wk' fs)); simpl in *. by subst.
Qed.

#[export] Hint Resolve self_contained_ret self_contained_throw self_contained_pool
  self_contained_tx self_contained_try : minis.
