(* ===== verification/Schema.v ===== *)
(** * Schema constraints and the database invariant

    [wf_tables] is what every reachable state of the database satisfies: the
    constraints the schema declares (keys, uniqueness, references, checks) and
    the ones only the code maintains (a worker's id is derived from its hardware
    UUID, a workstation's slot lies within its worker's pool, a workstation that
    is to be deleted is being deleted).  The lemmas say which row updates
    preserve it. *)

From stdpp Require Import gmap strings list.
From Stdlib Require Import ZArith Lia.
From S2P Require Import Prelude GoStrings Encoding Model Database.

Local Open Scope Z_scope.

Record wf_tables (t : Tables) : Prop := mk_wf_tables {
  wf_worker_key : ∀ i w, workers t !! i = Some w → wk_ID w = i;
  wf_worker_id : ∀ i w, workers t !! i = Some w → i = GenerateWorkerID (wk_HardwareUUID w);
  wf_worker_pool : ∀ i w, workers t !! i = Some w → in_int4 (wk_PoolSize w) = true;
  wf_member_key : ∀ i m, members t !! i = Some m → mb_ID m = i;
  wf_member_sub : ∀ i j m1 m2, members t !! i = Some m1 → members t !! j = Some m2 →
    mb_AccessSub m1 = mb_AccessSub m2 → i = j;
  wf_ws_key : ∀ i s, workstations t !! i = Some s → ws_ID s = i;
  wf_ws_slot : ∀ i j s1 s2, workstations t !! i = Some s1 → workstations t !! j = Some s2 →
    ws_WorkerID s1 = ws_WorkerID s2 → ws_Slot s1 = ws_Slot s2 → i = j;
  wf_ws_vm_name : ∀ i j s1 s2, workstations t !! i = Some s1 → workstations t !! j = Some s2 →
    ws_VMName s1 = ws_VMName s2 → i = j;
  wf_ws_member : ∀ i s, workstations t !! i = Some s → is_Some (members t !! ws_MemberID s);
  wf_ws_worker : ∀ i s, workstations t !! i = Some s →
    ∃ w, workers t !! ws_WorkerID s = Some w ∧ 0 ≤ ws_Slot s < wk_PoolSize w;
  wf_ws_deleted : ∀ i s, workstations t !! i = Some s →
    ws_DesiredPowerState s = WorkstationDesiredPowerStateDeleted →
    ws_PowerState s = WorkstationPowerStateDeleting;
  wf_vm_key : ∀ i v, vms t !! i = Some v → vm_ID v = i;
  wf_vm_worker : ∀ i v, vms t !! i = Some v → is_Some (workers t !! vm_WorkerID v);
  wf_release_key : ∀ i r, releases t !! i = Some r → rl_ID r = i;
  wf_release_version : ∀ i j r1 r2, releases t !! i = Some r1 → releases t !! j = Some r2 →
    rl_Version r1 = rl_Version r2 → i = j
}.

Lemma wf_empty : wf_tables empty_tables.
Proof. split; intros; by simplify_map_eq. Qed.

(** Hardware UUIDs are unique, because they determine the primary key. *)
Lemma wf_hardware_uuid t i j w1 w2 :
  wf_tables t → workers t !! i = Some w1 → workers t !! j = Some w2 →
  wk_HardwareUUID w1 = wk_HardwareUUID w2 → i = j.
Proof.
  intros Hwf H1 H2 E. rewrite (wf_worker_id _ Hwf _ _ H1), (wf_worker_id _ Hwf _ _ H2).
  by rewrite E.
Qed.

(** ** Statements shared by the tables *)

(** [UPDATE workstations SET ... WHERE id = $1 RETURNING ...]. *)
Definition update_workstation (id : string) (f : Workstation → Workstation) :
    Statement Workstation := λ t,
  match workstations t !! id with
  | None => inl ErrNoRows
  | Some s => inr (f s, set_workstations <[id := f s]> t)
  end.

(** ** Preservation by row updates *)

(** The columns of a workstation no statement of the code updates. *)
Definition same_placement (s s' : Workstation) : Prop :=
  ws_ID s' = ws_ID s ∧ ws_MemberID s' = ws_MemberID s ∧ ws_WorkerID s' = ws_WorkerID s ∧
  ws_Slot s' = ws_Slot s ∧ ws_VMName s' = ws_VMName s.

Definition deletion_coherent (s : Workstation) : Prop :=
  ws_DesiredPowerState s = WorkstationDesiredPowerStateDeleted →
  ws_PowerState s = WorkstationPowerStateDeleting.

(** Looking up an updated row: it is the new row, or an old one. *)
Ltac by_row H :=
  rewrite lookup_insert_Some in H; destruct H as [[<- <-]|[_ H]].

Lemma wf_put_workstation t id s s' :
  wf_tables t → workstations t !! id = Some s → same_placement s s' → deletion_coherent s' →
  wf_tables (set_workstations <[id := s']> t).
Proof.
  intros Hwf Hs (Hid & Hm & Hw & Hsl & Hvm) Hd.
  pose proof (wf_ws_key _ Hwf) as Kk. pose proof (wf_ws_slot _ Hwf) as Ks.
  pose proof (wf_ws_vm_name _ Hwf) as Kv.
  destruct Hwf; split; simpl; try done.
  - intros i r Hr. by_row Hr; [|by apply Kk]. by rewrite Hid; apply Kk.
  - intros i j r1 r2 H1 H2. by_row H1; by_row H2; rewrite ?Hw, ?Hsl; eauto.
  - intros i j r1 r2 H1 H2. by_row H1; by_row H2; rewrite ?Hvm; eauto.
  - intros i r Hr. by_row Hr; rewrite ?Hm; eauto.
  - intros i r Hr. by_row Hr; rewrite ?Hw, ?Hsl; eauto.
  - intros i r Hr. by_row Hr; eauto.
Qed.

Lemma wf_delete_workstation t id :
  wf_tables t → wf_tables (set_workstations (delete id) t).
Proof.
  intros []; split; simpl; try done; intros *;
    repeat (intros [? ?]%lookup_delete_Some || intro); eauto.
Qed.

Lemma wf_new_workstation t s :
  wf_tables t → workstations t !! ws_ID s = None → deletion_coherent s →
  is_Some (members t !! ws_MemberID s) →
  (∃ w, workers t !! ws_WorkerID s = Some w ∧ 0 ≤ ws_Slot s < wk_PoolSize w) →
  (∀ i r, workstations t !! i = Some r →
     ¬ (ws_WorkerID r = ws_WorkerID s ∧ ws_Slot r = ws_Slot s) ∧ ws_VMName r ≠ ws_VMName s) →
  wf_tables (set_workstations <[ws_ID s := s]> t).
Proof.
  intros Hwf Hnew Hd Hm Hw Hfree. destruct Hwf; split; simpl; try done.
  - intros i r Hr. by_row Hr; eauto.
  - intros i j r1 r2 H1 H2 E1 E2. by_row H1; by_row H2; eauto.
    + by destruct (Hfree _ _ H2) as [[] _].
    + by destruct (Hfree _ _ H1) as [[] _].
  - intros i j r1 r2 H1 H2 E. by_row H1; by_row H2; eauto.
    + by destruct (Hfree _ _ H2) as [_ []].
    + by destruct (Hfree _ _ H1) as [_ []].
  - intros i r Hr. by_row Hr; eauto.
  - intros i r Hr. by_row Hr; eauto.
  - intros i r Hr. by_row Hr; eauto.
Qed.

(** Worker rows keep their key, hardware UUID and pool size. *)
Lemma wf_put_worker t id w w' :
  wf_tables t → workers t !! id = Some w →
  wk_ID w' = wk_ID w → wk_HardwareUUID w' = wk_HardwareUUID w → wk_PoolSize w' = wk_PoolSize w →
  wf_tables (set_workers <[id := w']> t).
Proof.
  intros Hwf Hw Hid Hhw Hps.
  assert (∀ i, is_Some (workers t !! i) → is_Some (<[id := w']> (workers t) !! i)) as Hmono.
  { intros i Hi. apply lookup_insert_is_Some. destruct (decide (id = i)); eauto. }
  pose proof (wf_worker_key _ Hwf) as Kk. pose proof (wf_worker_id _ Hwf) as Ki.
  pose proof (wf_ws_worker _ Hwf) as Kw. destruct Hwf; split; simpl; try done; eauto.
  - intros i r Hr. by_row Hr; [|by apply Kk]. rewrite Hid. by apply Kk.
  - intros i r Hr. by_row Hr; [|by apply Ki]. rewrite Hhw. by apply Ki.
  - intros i r Hr. by_row Hr; rewrite ?Hps; eauto.
  - intros i s Hs. destruct (Kw _ _ Hs) as (wk & Hwk & Hsl).
    destruct (decide (id = ws_WorkerID s)) as [E|Hne].
    + exists w'. rewrite <- E, lookup_insert_eq in *. rewrite Hps. by simplify_map_eq.
    + exists wk. by rewrite lookup_insert_ne.
Qed.

Lemma wf_new_worker t w :
  wf_tables t → workers t !! wk_ID w = None → wk_ID w = GenerateWorkerID (wk_HardwareUUID w) →
  in_int4 (wk_PoolSize w) = true →
  wf_tables (set_workers <[wk_ID w := w]> t).
Proof.
  intros Hwf Hnew Hid Hpool.
  assert (∀ i, is_Some (workers t !! i) → is_Some (<[wk_ID w := w]> (workers t) !! i)) as Hmono.
  { intros i Hi. apply lookup_insert_is_Some. destruct (decide (wk_ID w = i)); eauto. }
  pose proof (wf_ws_worker _ Hwf) as Kw. destruct Hwf; split; simpl; try done; eauto.
  1-3: intros i r Hr; by_row Hr; eauto.
  - intros i s Hs. destruct (Kw _ _ Hs) as (wk & Hwk & Hsl). exists wk.
    by rewrite lookup_insert_ne by (intros E; by rewrite E, Hwk in Hnew).
Qed.

Lemma wf_put_member t id m :
  wf_tables t → mb_ID m = id →
  (∀ j m', members t !! j = Some m' → mb_AccessSub m' = mb_AccessSub m → j = id) →
  wf_tables (set_members <[id := m]> t).
Proof.
  intros Hwf Hid Hsub.
  pose proof (wf_ws_member _ Hwf) as Km. destruct Hwf; split; simpl; try done.
  - intros i r Hr. by_row Hr; eauto.
  - intros i j r1 r2 H1 H2 E. by_row H1; by_row H2; eauto. symmetry; eauto.
  - intros i s Hs. apply lookup_insert_is_Some.
    destruct (decide (id = ws_MemberID s)); eauto.
Qed.

Lemma wf_put_vm t v :
  wf_tables t → is_Some (workers t !! vm_WorkerID v) →
  wf_tables (set_vms <[vm_ID v := v]> t).
Proof.
  intros Hwf Hw. destruct Hwf; split; simpl; try done.
  - intros i r Hr. by_row Hr; eauto.
  - intros i r Hr. by_row Hr; eauto.
Qed.

Lemma wf_remove_vms t (f : gmap string VM → gmap string VM) :
  wf_tables t → (∀ i v, f (vms t) !! i = Some v → vms t !! i = Some v) →
  wf_tables (set_vms f t).
Proof. intros Hwf Hsub. destruct Hwf; split; simpl; eauto. Qed.

Lemma wf_new_release t r :
  wf_tables t → releases t !! rl_ID r = None →
  (∀ i r', releases t !! i = Some r' → rl_Version r' ≠ rl_Version r) →
  wf_tables (set_releases <[rl_ID r := r]> t).
Proof.
  intros Hwf Hnew Hver. destruct Hwf; split; simpl; try done.
  - intros i r' Hr. by_row Hr; eauto.
  - intros i j r1 r2 H1 H2 E. by_row H1; by_row H2; eauto.
    + by destruct (Hver _ _ H2).
    + by destruct (Hver _ _ H1).
Qed.

#[export] Hint Resolve wf_empty wf_delete_workstation wf_put_workstation wf_put_vm : minis.

(** ** A sample database

    Two active machines, one member and one workstation: the concrete states
    the witnesses of the development run on. *)
Module Sample.
Local Open Scope string_scope.

Definition mac (hw host : string) (pool : Z) : Worker :=
  mkWorker (GenerateWorkerID hw) host hw 8 16 "2.0" "1.0" pool "base" WorkerStatusActive 0
    (Some 1000) None None None.
Definition mac1 : Worker := mac "HW-1" "mac-1" 2.
Definition mac2 : Worker := mac "HW-2" "mac-2" 2.
Definition ann : Member := mkMember "m-ann" "sub-ann" "ann@example.com" "ann" "member" 0 0 0.
Definition bob : Member := mkMember "m-bob" "sub-bob" "bob@example.com" "bob" "member" 0 0 0.
Definition ws1 : Workstation :=
  mkWorkstation "ws-id-1" "m-ann" (wk_ID mac1) 0 "ws-wsid1" WorkstationPowerStateRunning
    WorkstationDesiredPowerStateRunning "10.0.0.5" "" 10 10.

Definition machines : Tables :=
  set_workers <[wk_ID mac2 := mac2]> (set_workers <[wk_ID mac1 := mac1]> empty_tables).
Definition people : Tables :=
  set_members <[mb_ID bob := bob]> (set_members <[mb_ID ann := ann]> machines).
Definition tables : Tables := set_workstations <[ws_ID ws1 := ws1]> people.

Lemma wf_machines : wf_tables machines.
Proof.
  apply wf_new_worker; [apply wf_new_worker; [apply wf_empty|..]|..]; by vm_compute.
Qed.
Lemma wf_people : wf_tables people.
Proof.
  apply wf_put_member; [apply wf_put_member; [apply wf_machines|reflexivity|]|reflexivity|].
  - intros j m'. simpl. by rewrite lookup_empty.
  - intros j m'. simpl. rewrite lookup_insert_Some, lookup_empty.
    by intros [[<- <-]|[_ ?]].
Qed.
Lemma wf_sample : wf_tables tables.
Proof.
  apply wf_new_workstation; [apply wf_people|reflexivity|intros [=]|..].
  - eexists. by vm_compute.
  - exists mac1. split; [by vm_compute|]. simpl. lia.
  - intros i r. change (workstations people) with (∅ : gmap string Workstation).
    by rewrite lookup_empty.
Qed.
Lemma only_workstation i s : workstations tables !! i = Some s → s = ws1.
Proof.
  unfold tables. simpl. rewrite lookup_insert_Some, lookup_empty. by intros [[_ <-]|[_ ?]].
Qed.
End Sample.
