(* ===== verification/Scheduler.v ===== *)
(** * Slot selection ([internal/db/workstations.go], the pure part)

    [firstAvailableSlot] and [selectWorkstationCandidate] decide where a new
    workstation goes.  The main results: the preferred worker gets its lowest
    free slot or a definite error, and without a preference the scheduler picks
    the least element of (load, worker id) among the workers with a free slot,
    whatever the order the workers are listed in. *)

From stdpp Require Import gmap strings list.
From Stdlib Require Import ZArith Lia.
From S2P Require Import Prelude GoStrings Encoding Model Database.

Local Open Scope Z_scope.

(** [map[string]map[int]bool]; a missing entry reads as the zero value. *)
Abbreviation Occupied := (gmap Z bool).
Abbreviation Allocation := (gmap string (gmap Z bool)).

Definition occupied_at (occupied : Occupied) (slot : Z) : bool :=
  default false (occupied !! slot).
Definition occupied_of (existing : Allocation) (workerID : string) : Occupied :=
  default ∅ (existing !! workerID).

(** [for slot := 0; slot < worker.PoolSize; slot++]: the loop runs
    [PoolSize - slot] times. *)
Fixpoint first_slot_from (fuel : nat) (slot : Z) (occupied : Occupied) : option Z :=
  match fuel with
  | O => None
  | S fuel' =>
      if occupied_at occupied slot then first_slot_from fuel' (slot + 1) occupied
      else Some slot
  end.

(** [None] is the Go result [(0, false)]. *)
Definition firstAvailableSlot (worker : Worker) (occupied : Occupied) : option Z :=
  first_slot_from (Z.to_nat (wk_PoolSize worker)) 0 occupied.

Record workstationCandidate := mkCandidate {
  cand_workerID : string;
  cand_slot : Z;
  cand_count : Z
}.

Definition map_len (m : Occupied) : Z := Z.of_nat (size m).

(** The loop over the workers when one is requested. *)
Fixpoint select_preferred (workers : list Worker) (existing : Allocation)
    (preferredWorkerID : string) : Error + workstationCandidate :=
  match workers with
  | [] => inl ErrTargetWorkerUnavailable
  | worker :: rest =>
      if bool_decide (wk_ID worker ≠ preferredWorkerID)
      then select_preferred rest existing preferredWorkerID
      else match firstAvailableSlot worker (occupied_of existing (wk_ID worker)) with
           | None => inl ErrTargetWorkerFull
           | Some slot =>
               inr (mkCandidate (wk_ID worker) slot
                      (map_len (occupied_of existing (wk_ID worker))))
           end
  end.

(** The test that replaces the best candidate so far. *)
Definition replaces (best : workstationCandidate) (id : string) (slot count : Z) : bool :=
  (cand_slot best =? -1) || (count <? cand_count best)
  || ((count =? cand_count best)
      && (String.ltb id (cand_workerID best)
          || (String.eqb id (cand_workerID best) && (slot <? cand_slot best)))).

(** The loop over the workers when none is requested. *)
Fixpoint select_best (workers : list Worker) (existing : Allocation)
    (best : workstationCandidate) : workstationCandidate :=
  match workers with
  | [] => best
  | worker :: rest =>
      match firstAvailableSlot worker (occupied_of existing (wk_ID worker)) with
      | None => select_best rest existing best
      | Some slot =>
          let count := map_len (occupied_of existing (wk_ID worker)) in
          if replaces best (wk_ID worker) slot count
          then select_best rest existing (mkCandidate (wk_ID worker) slot count)
          else select_best rest existing best
      end
  end.

Definition selectWorkstationCandidate (workers : list Worker) (existing : Allocation)
    (preferredWorkerID : string) : Error + workstationCandidate :=
  if negb (String.eqb preferredWorkerID "")
  then select_preferred workers existing preferredWorkerID
  else
    let best := select_best workers existing (mkCandidate "" (-1) 0) in
    if cand_slot best =? -1 then inl ErrNoSlotsAvailable else inr best.

(** ** The tests of the repository *)

Definition test_worker (id : string) (pool : Z) : Worker :=
  mkWorker id "" "" 0 0 "" "" pool "" WorkerStatusActive 0 None None None None.

Example prefers_least_loaded :
  selectWorkstationCandidate [test_worker "worker-b" 2; test_worker "worker-a" 2]
    {["worker-b" := {[0 := true]}]} ""
  = inr (mkCandidate "worker-a" 0 0).
Proof. vm_compute. reflexivity. Qed.

Example uses_requested_worker :
  selectWorkstationCandidate [test_worker "worker-a" 2; test_worker "worker-b" 2]
    {["worker-b" := {[0 := true]}]} "worker-b"
  = inr (mkCandidate "worker-b" 1 1).
Proof. vm_compute. reflexivity. Qed.

Example rejects_full_worker :
  selectWorkstationCandidate [test_worker "worker-a" 2]
    {["worker-a" := {[0 := true; 1 := true]}]} "worker-a"
  = inl ErrTargetWorkerFull.
Proof. vm_compute. reflexivity. Qed.

(** ** First free slot *)

Definition free_slot (occupied : Occupied) (pool slot : Z) : Prop :=
  0 ≤ slot < pool ∧ occupied_at occupied slot = false.

Lemma first_slot_from_Some fuel slot occ s :
  first_slot_from fuel slot occ = Some s ↔
  slot ≤ s < slot + Z.of_nat fuel ∧ occupied_at occ s = false ∧
  ∀ s', slot ≤ s' < s → occupied_at occ s' = true.
Proof.
  revert slot. induction fuel as [|fuel IH]; intros slot; cbn [first_slot_from].
  { split; [done|]. lia. }
  destruct (occupied_at occ slot) eqn:E.
  - rewrite IH. split; intros (Hr & Hf & Hb); (split; [|split; [done|]]).
    + lia.
    + intros s' Hs'. destruct (decide (s' = slot)) as [->|]; [done|]. apply Hb. lia.
    + assert (s ≠ slot) by congruence. lia.
    + intros s' Hs'. apply Hb. lia.
  - split.
    + intros [= <-]. split; [lia|]. split; [done|]. lia.
    + intros (Hr & Hf & Hb). destruct (decide (s = slot)) as [->|]; [done|].
      rewrite (Hb slot) in E; [done|lia].
Qed.

Lemma first_slot_from_None fuel slot occ :
  first_slot_from fuel slot occ = None ↔
  ∀ s, slot ≤ s < slot + Z.of_nat fuel → occupied_at occ s = true.
Proof.
  revert slot. induction fuel as [|fuel IH]; intros slot; cbn [first_slot_from].
  { split; [lia|done]. }
  destruct (occupied_at occ slot) eqn:E.
  - rewrite IH. split; intros H s Hs.
    + destruct (decide (s = slot)) as [->|]; [done|]. apply H. lia.
    + apply H. lia.
  - split; [done|]. intros H. rewrite H in E; [done|lia].
Qed.

Lemma firstAvailableSlot_Some w occ s :
  firstAvailableSlot w occ = Some s ↔
  free_slot occ (wk_PoolSize w) s ∧ ∀ s', free_slot occ (wk_PoolSize w) s' → s ≤ s'.
Proof.
  unfold firstAvailableSlot, free_slot. rewrite first_slot_from_Some. split.
  - intros (Hr & Hf & Hb). split; [split; [lia|done]|].
    intros s' [Hs' Hf']. destruct (Z.le_gt_cases s s'); [done|].
    rewrite Hb in Hf'; [done|lia].
  - intros [[Hr Hf] Hm]. split; [lia|]. split; [done|].
    intros s' Hs'. destruct (occupied_at occ s') eqn:E; [done|].
    assert (s ≤ s') by (apply Hm; split; [lia|done]). lia.
Qed.

Lemma firstAvailableSlot_None w occ :
  firstAvailableSlot w occ = None ↔ ∀ s, ¬ free_slot occ (wk_PoolSize w) s.
Proof.
  unfold firstAvailableSlot, free_slot. rewrite first_slot_from_None. split.
  - intros H s [Hr Hf]. rewrite H in Hf; [done|lia].
  - intros H s Hs. destruct (occupied_at occ s) eqn:E; [done|].
    exfalso. apply (H s). split; [lia|done].
Qed.

(** ** The preference order of the scheduler *)

(** What a worker offers: its lowest free slot, and its load. *)
Definition offer (existing : Allocation) (w : Worker) : option workstationCandidate :=
  (λ slot, mkCandidate (wk_ID w) slot (map_len (occupied_of existing (wk_ID w))))
  <$> firstAvailableSlot w (occupied_of existing (wk_ID w)).

(** Lower load first, then lower worker id, then lower slot. *)
Definition cand_le (c1 c2 : workstationCandidate) : Prop :=
  cand_count c1 < cand_count c2 ∨
  (cand_count c1 = cand_count c2 ∧ String.le (cand_workerID c1) (cand_workerID c2) ∧
   (cand_workerID c1 = cand_workerID c2 → cand_slot c1 ≤ cand_slot c2)).

#[export] Instance cand_le_preorder : PreOrder cand_le.
Proof.
  split.
  - intros c. right. split; [done|]. by split.
  - intros a b c [?|(Ec1 & Hi1 & Hs1)] [?|(Ec2 & Hi2 & Hs2)]; [left; lia..|].
    right. split; [lia|]. split; [by etrans|]. intros E.
    assert (cand_workerID a = cand_workerID b) as Eab.
    { apply (anti_symm String.le); [done|]. by rewrite E. }
    transitivity (cand_slot b); [by apply Hs1|]. apply Hs2. congruence.
Qed.

#[export] Instance cand_le_antisymm : AntiSymm (=) cand_le.
Proof.
  intros [i1 s1 c1] [i2 s2 c2] [?|(Ec1 & Hi1 & Hs1)] [?|(Ec2 & Hi2 & Hs2)];
    simpl in *; try lia.
  assert (i1 = i2) as -> by by apply (anti_symm String.le).
  specialize (Hs1 eq_refl). specialize (Hs2 eq_refl). f_equal; lia.
Qed.

Lemma ltb_le a b : String.ltb a b = true → String.le a b.
Proof. unfold String.ltb, String.le, String.leb. by destruct (a ?= b)%string. Qed.

Lemma ltb_false a b : String.ltb a b = false → String.le b a.
Proof.
  unfold String.ltb, String.le, String.leb. intros H.
  rewrite String.compare_antisym. by destruct (a ?= b)%string.
Qed.

Lemma ltb_irrefl a : String.ltb a a = false.
Proof.
  unfold String.ltb. destruct (a ?= a)%string eqn:E; try done.
  pose proof (String.compare_antisym a a) as H. by rewrite E in H.
Qed.

Lemma replaces_spec best id slot count :
  cand_slot best ≠ -1 →
  if replaces best id slot count
  then cand_le (mkCandidate id slot count) best
  else cand_le best (mkCandidate id slot count).
Proof.
  intros Hb. unfold replaces, cand_le. simpl.
  destruct (Z.eqb_spec (cand_slot best) (-1)); [done|]. simpl.
  destruct (Z.ltb_spec count (cand_count best)); simpl; [by left|].
  destruct (Z.eqb_spec count (cand_count best)); simpl; [|left; lia].
  destruct (String.ltb id (cand_workerID best)) eqn:Elt; simpl.
  - right. split; [done|]. split; [by apply ltb_le|]. intros E.
    by rewrite E, ltb_irrefl in Elt.
  - apply ltb_false in Elt.
    destruct (String.eqb_spec id (cand_workerID best)) as [->|Hne]; simpl.
    + destruct (Z.ltb_spec slot (cand_slot best)); right; (split; [done|]);
        (split; [done|]); intros _; lia.
    + right. split; [done|]. by split.
Qed.

Lemma offer_slot existing w c : offer existing w = Some c → 0 ≤ cand_slot c.
Proof.
  unfold offer. destruct (firstAvailableSlot _ _) as [s|] eqn:E; [|done].
  intros [= <-]. apply firstAvailableSlot_Some in E as [[? _] _]. simpl. lia.
Qed.

(** A candidate either came from the accumulator or is some worker's offer, and
    it is at most everything seen. *)
Definition best_of (existing : Allocation) (ws : list Worker)
    (b0 r : workstationCandidate) : Prop :=
  (r = b0 ∨ ∃ w, w ∈ ws ∧ offer existing w = Some r) ∧
  (cand_slot b0 ≠ -1 → cand_le r b0) ∧
  (∀ w c, w ∈ ws → offer existing w = Some c → cand_slot r ≠ -1 ∧ cand_le r c).

Lemma select_best_offer w ws existing b0 :
  select_best (w :: ws) existing b0 =
  match offer existing w with
  | None => select_best ws existing b0
  | Some c =>
      select_best ws existing
        (if replaces b0 (cand_workerID c) (cand_slot c) (cand_count c) then c else b0)
  end.
Proof.
  simpl. unfold offer. destruct (firstAvailableSlot _ _); [|done]. simpl. by destruct (replaces _ _ _ _).
Qed.

Lemma select_best_spec existing ws b0 : best_of existing ws b0 (select_best ws existing b0).
Proof.
  revert b0. induction ws as [|w ws IH]; intros b0.
  { split; [by left|]. split; [done|]. intros w c Hw. by apply elem_of_nil in Hw. }
  rewrite select_best_offer. destruct (offer existing w) as [c|] eqn:Eo.
  - pose proof (offer_slot _ _ _ Eo) as Hc.
    set (b1 := if replaces b0 (cand_workerID c) (cand_slot c) (cand_count c) then c else b0).
    assert (cand_slot b1 ≠ -1 ∧ cand_le b1 c ∧ (cand_slot b0 ≠ -1 → cand_le b1 b0)) as (H1 & H2 & H3).
    { unfold b1. destruct (decide (cand_slot b0 = -1)) as [E|Hne].
      - unfold replaces. rewrite E. simpl. split; [lia|]. by split.
      - pose proof (replaces_spec b0 (cand_workerID c) (cand_slot c) (cand_count c) Hne) as Hr.
        destruct c as [ci cs cc]. simpl in *. destruct (replaces _ _ _ _); split; by simpl; try lia. }
    destruct (IH b1) as ([Hr|(w' & Hw' & Ho')] & Hle & Hall).
    all: split; [|split; [intros; etrans; [by apply Hle|by apply H3]|]].
    all: try (intros w0 c0 [->|Hw0]%elem_of_cons Ho0; [simplify_eq|by eapply Hall]).
    + rewrite Hr. unfold b1. destruct (replaces _ _ _ _); [right|by left].
      exists w. split; [by left|done].
    + rewrite Hr. by split.
    + right. exists w'. split; [by right|done].
    + split; [|by etrans; [apply Hle|]]. pose proof (offer_slot _ _ _ Ho'). lia.
  - destruct (IH b0) as (Hr & Hle & Hall). split; [|split; [done|]].
    + destruct Hr as [->|(w' & ? & ?)]; [by left|right]. exists w'. split; [by right|done].
    + intros w' c [->|Hw']%elem_of_cons Ho; [congruence|by eapply Hall].
Qed.

(** ** Results *)

Lemma select_auto_Ok existing ws c :
  selectWorkstationCandidate ws existing "" = inr c ↔
  (∃ w, w ∈ ws ∧ offer existing w = Some c) ∧
  (∀ w c', w ∈ ws → offer existing w = Some c' → cand_le c c').
Proof.
  unfold selectWorkstationCandidate. simpl.
  destruct (select_best_spec existing ws (mkCandidate "" (-1) 0)) as (Hr & _ & Hall).
  destruct (Z.eqb_spec (cand_slot (select_best ws existing (mkCandidate "" (-1) 0))) (-1))
    as [E|Hne]; split.
  - done.
  - intros [(w & Hw & Ho) _]. by destruct (Hall w c Hw Ho).
  - intros [= <-]. destruct Hr as [Hr|Hr]; [by rewrite Hr in Hne|].
    split; [done|]. intros w c' Hw Ho. by apply (Hall w c').
  - intros [(w & Hw & Ho) Hmin]. f_equal.
    destruct Hr as [Hr|(w' & Hw' & Ho')]; [by rewrite Hr in Hne|].
    apply (anti_symm cand_le); [exact (proj2 (Hall w c Hw Ho))|exact (Hmin w' _ Hw' Ho')].
Qed.

Lemma select_auto_Err existing ws e :
  selectWorkstationCandidate ws existing "" = inl e ↔
  e = ErrNoSlotsAvailable ∧ ∀ w, w ∈ ws → offer existing w = None.
Proof.
  split.
  - intros He. split.
    + revert He. unfold selectWorkstationCandidate. simpl. destruct (_ =? _); naive_solver.
    + intros w Hw. destruct (offer existing w) as [c|] eqn:Ho; [exfalso|done].
      revert He. unfold selectWorkstationCandidate. simpl.
      destruct (select_best_spec existing ws (mkCandidate "" (-1) 0)) as (_ & _ & Hall).
      destruct (Hall w c Hw Ho) as [Hne _]. by apply Z.eqb_neq in Hne as ->.
  - intros [-> Hnone].
    destruct (selectWorkstationCandidate ws existing "") as [e|c] eqn:E.
    + f_equal. revert E. unfold selectWorkstationCandidate. simpl. destruct (_ =? _); congruence.
    + apply select_auto_Ok in E as [(w & Hw & Ho) _]. by rewrite Hnone in Ho.
Qed.

Lemma select_preferred_find existing ws w :
  NoDup (wk_ID <$> ws) → w ∈ ws →
  select_preferred ws existing (wk_ID w) =
  match offer existing w with Some c => inr c | None => inl ErrTargetWorkerFull end.
Proof.
  intros Hnd Hw. induction ws as [|w' ws IH]; [by apply elem_of_nil in Hw|].
  rewrite fmap_cons, NoDup_cons in Hnd. destruct Hnd as [Hnotin Hnd]. simpl.
  apply elem_of_cons in Hw as [<-|Hw].
  - rewrite bool_decide_eq_false_2 by naive_solver. unfold offer.
    by destruct (firstAvailableSlot _ _).
  - rewrite bool_decide_eq_true_2; [by apply IH|]. intros E. apply Hnotin. rewrite E.
    by apply list_elem_of_fmap_2.
Qed.

Lemma select_preferred_absent existing ws id :
  id ∉ wk_ID <$> ws → select_preferred ws existing id = inl ErrTargetWorkerUnavailable.
Proof.
  induction ws as [|w ws IH]; [done|]. rewrite fmap_cons, not_elem_of_cons. intros [Hne Hn].
  simpl. rewrite bool_decide_eq_true_2 by done. by apply IH.
Qed.

(** Whatever was requested, a selected candidate is a free slot of a listed
    worker. *)
Lemma select_valid existing ws id c :
  selectWorkstationCandidate ws existing id = inr c →
  ∃ w, w ∈ ws ∧ wk_ID w = cand_workerID c ∧
    free_slot (occupied_of existing (cand_workerID c)) (wk_PoolSize w) (cand_slot c).
Proof.
  assert (∀ w, offer existing w = Some c → wk_ID w = cand_workerID c ∧
    free_slot (occupied_of existing (cand_workerID c)) (wk_PoolSize w) (cand_slot c)) as Ho.
  { unfold offer. intros w. destruct (firstAvailableSlot _ _) as [s|] eqn:E; [|done].
    intros [= <-]. apply firstAvailableSlot_Some in E as [? _]. by split. }
  destruct (decide (id = ""%string)) as [->|Hid].
  - intros [(w & Hw & Ho') _]%select_auto_Ok. exists w. split; [done|]. by apply Ho.
  - unfold selectWorkstationCandidate. destruct (String.eqb_spec id "") as [|_]; [done|]. simpl.
    induction ws as [|w ws IH]; simpl; [done|]. case_bool_decide.
    + intros (w' & Hw' & ?)%IH. exists w'. split; [by right|done].
    + intros Hs. exists w. split; [by left|]. apply Ho. unfold offer.
      destruct (firstAvailableSlot _ _); by simplify_eq/=.
Qed.

(** The place (worker [w], slot [slot]) is the lowest free one of that worker,
    stated on the pool size and the occupied slots alone. *)
Definition lowest_free (existing : Allocation) (w : Worker) (slot : Z) : Prop :=
  free_slot (occupied_of existing (wk_ID w)) (wk_PoolSize w) slot ∧
  ∀ s, free_slot (occupied_of existing (wk_ID w)) (wk_PoolSize w) s → slot ≤ s.

Definition load_of (existing : Allocation) (w : Worker) : Z :=
  Z.of_nat (size (occupied_of existing (wk_ID w))).

Lemma offer_lowest existing w c :
  offer existing w = Some c ↔
  cand_workerID c = wk_ID w ∧ cand_count c = load_of existing w ∧ lowest_free existing w (cand_slot c).
Proof.
  unfold offer, lowest_free. rewrite fmap_Some. setoid_rewrite firstAvailableSlot_Some. split.
  - intros (s & Hs & ->). done.
  - intros (Hi & Hc & Hs). exists (cand_slot c). split; [done|].
    destruct c as [i s n]. simpl in *. by subst.
Qed.

Lemma free_offer existing w s :
  free_slot (occupied_of existing (wk_ID w)) (wk_PoolSize w) s →
  ∃ c, offer existing w = Some c ∧ cand_slot c ≤ s.
Proof.
  intros Hf. destruct (offer existing w) as [c|] eqn:E.
  - exists c. split; [done|]. apply offer_lowest in E as (_ & _ & _ & Hm). by apply Hm.
  - unfold offer in E. apply fmap_None in E. rewrite firstAvailableSlot_None in E. by apply E in Hf.
Qed.

(** C7. With no worker requested, the scheduler returns a slot of a listed
    worker that is within its pool, not occupied and the lowest such slot of that
    worker, and no listed worker with a free slot is less loaded (occupied slots)
    or, at equal load, has a smaller id; it reports that no slot is available
    exactly when no listed worker has a free slot. *)
Theorem select_least_loaded existing ws :
  match selectWorkstationCandidate ws existing "" with
  | inr c =>
      (∃ w, w ∈ ws ∧ cand_workerID c = wk_ID w ∧ cand_count c = load_of existing w ∧
         lowest_free existing w (cand_slot c)) ∧
      ∀ w s, w ∈ ws → free_slot (occupied_of existing (wk_ID w)) (wk_PoolSize w) s →
        cand_count c < load_of existing w ∨
        (cand_count c = load_of existing w ∧ String.le (cand_workerID c) (wk_ID w) ∧
         (cand_workerID c = wk_ID w → cand_slot c ≤ s))
  | inl e => e = ErrNoSlotsAvailable ∧
             ∀ w s, w ∈ ws → ¬ free_slot (occupied_of existing (wk_ID w)) (wk_PoolSize w) s
  end.
Proof.
  destruct (selectWorkstationCandidate ws existing "") as [e|c] eqn:E.
  - apply select_auto_Err in E as [-> Hn]. split; [done|]. intros w s Hw Hf.
    destruct (free_offer existing w s Hf) as (c & Hc & _). by rewrite Hn in Hc.
  - apply select_auto_Ok in E as [(w & Hw & Ho) Hmin]. split.
    + exists w. apply offer_lowest in Ho. by split.
    + intros w' s Hw' Hf. destruct (free_offer existing w' s Hf) as (c' & Hc' & Hs).
      pose proof (Hmin w' c' Hw' Hc') as Hle. apply offer_lowest in Hc' as (Ei & Ec & _).
      unfold cand_le in Hle. rewrite Ei, Ec in Hle. destruct Hle as [?|(? & ? & Hsl)]; [by left|right].
      split; [done|]. split; [done|]. intros Hid. specialize (Hsl Hid). lia.
Qed.

(** C8. With a worker requested, the result is that worker's lowest free slot,
    [ErrTargetWorkerFull] when all its slots are taken, and
    [ErrTargetWorkerUnavailable] when it is not among the schedulable workers;
    no other worker is ever substituted. *)
Theorem select_requested existing ws id :
  NoDup (wk_ID <$> ws) → id ≠ ""%string →
  match selectWorkstationCandidate ws existing id with
  | inr c => cand_workerID c = id ∧ ∃ w, w ∈ ws ∧ wk_ID w = id ∧
      free_slot (occupied_of existing id) (wk_PoolSize w) (cand_slot c) ∧
      ∀ s, free_slot (occupied_of existing id) (wk_PoolSize w) s → cand_slot c ≤ s
  | inl ErrTargetWorkerFull => ∃ w, w ∈ ws ∧ wk_ID w = id ∧
      ∀ s, ¬ free_slot (occupied_of existing id) (wk_PoolSize w) s
  | inl e => e = ErrTargetWorkerUnavailable ∧ id ∉ wk_ID <$> ws
  end.
Proof.
  intros Hnd Hid. unfold selectWorkstationCandidate.
  destruct (String.eqb_spec id "") as [|_]; [done|]. simpl.
  destruct (decide (id ∈ wk_ID <$> ws)) as [Hin|Hn].
  - apply list_elem_of_fmap in Hin as (w & -> & Hw). rewrite select_preferred_find by done.
    unfold offer. destruct (firstAvailableSlot _ _) as [s|] eqn:E; simpl.
    + apply firstAvailableSlot_Some in E as [? ?]. split; [done|]. by exists w.
    + exists w. split; [done|]. split; [done|]. by apply firstAvailableSlot_None.
  - by rewrite select_preferred_absent.
Qed.

(** C9. The decision does not depend on the order in which the workers are
    listed, so it does not depend on the collation behind [ORDER BY hostname]. *)
Theorem select_order_irrelevant existing ws1 ws2 id :
  NoDup (wk_ID <$> ws1) → ws1 ≡ₚ ws2 →
  selectWorkstationCandidate ws1 existing id = selectWorkstationCandidate ws2 existing id.
Proof.
  intros Hnd Hp. destruct (decide (id = ""%string)) as [->|Hid].
  - destruct (selectWorkstationCandidate ws1 existing "") as [e|c] eqn:E; symmetry.
    + apply select_auto_Err in E as [-> Hn]. apply select_auto_Err. split; [done|].
      intros w Hw. apply Hn. by rewrite Hp.
    + apply select_auto_Ok in E as [(w & Hw & Ho) Hmin]. apply select_auto_Ok.
      split; [exists w; by rewrite <- Hp|]. intros w' c' Hw'. apply Hmin. by rewrite Hp.
  - unfold selectWorkstationCandidate. destruct (String.eqb_spec id "") as [|_]; [done|]. simpl.
    assert (NoDup (wk_ID <$> ws2)) as Hnd2 by by rewrite <- Hp.
    destruct (decide (id ∈ wk_ID <$> ws1)) as [Hin|Hn].
    + apply list_elem_of_fmap in Hin as (w & -> & Hw).
      rewrite !select_preferred_find; [done|done|by rewrite <- Hp|done|done].
    + rewrite !select_preferred_absent; [done|by rewrite <- Hp|done].
Qed.

Lemma test_workers_NoDup : NoDup (wk_ID <$> [test_worker "a" 2; test_worker "b" 1]).
Proof. by apply (bool_decide_unpack _). Qed.

Lemma select_requested_witness :
  NoDup (wk_ID <$> [test_worker "a" 2; test_worker "b" 1]) ∧
  ∃ c, selectWorkstationCandidate [test_worker "a" 2; test_worker "b" 1] {["b" := {[5 := true]}]} "b"
       = inr c ∧ cand_workerID c = "b"%string.
Proof.
  split; [exact test_workers_NoDup|].
  pose proof (select_requested {["b" := {[5 := true]}]} [test_worker "a" 2; test_worker "b" 1] "b"
    test_workers_NoDup ltac:(discriminate)) as H.
  destruct (selectWorkstationCandidate _ _ _) as [e|c] eqn:E.
  - vm_compute in E. discriminate E.
  - exists c. destruct H as [Hc _]. split; [reflexivity|exact Hc].
Defined.

Lemma select_order_irrelevant_witness :
  let ws := [test_worker "a" 2; test_worker "b" 1] in
  NoDup (wk_ID <$> ws) ∧
  selectWorkstationCandidate ws ∅ "" = selectWorkstationCandidate (reverse ws) ∅ "".
Proof.
  intros ws. split; [exact test_workers_NoDup|].
  apply (select_order_irrelevant ∅ ws (reverse ws) "" test_workers_NoDup).
  apply Permutation_swap.
Defined.
