(* ===== verification/Workstations.v ===== *)
(** * Workstations ([internal/db/workstations.go])

    Every method of [*db.DB] on the [workstations] table: claiming (allocation
    under the advisory lock), resuming, changing the desired power state, the
    status reports of the workers, and the queries.  Values the Go code obtains
    from [uuid.NewString], [time.Now] and the server's [now()] are arguments. *)

From stdpp Require Import gmap strings list sorting.
From Stdlib Require Import ZArith Lia Ascii.
From S2P Require Import Prelude GoStrings Encoding Model Database Schema Scheduler.

Local Open Scope Z_scope.

Definition schedulableHeartbeatWindow : Z := 30 * Second.

Record DesiredWorkstation := mkDesired {
  dw_ID : string;
  dw_VMName : string;
  dw_Slot : Z;
  dw_DesiredPowerState : WorkstationDesiredPowerState
}.

(** The power state of a report is the text the worker sent. *)
Record WorkstationStatusReport := mkReport {
  rep_WorkstationID : string;
  rep_PowerState : string;
  rep_IPAddress : string;
  rep_LastError : string
}.

(** ** Queries *)

Definition ws_rows (P : Workstation → bool) (t : Tables) : list Workstation :=
  filter (λ s, P s = true) (rows (workstations t)).

(** [ORDER BY updated_at DESC, created_at DESC]. *)
Definition newest_first (a b : Workstation) : Prop :=
  ws_UpdatedAt b < ws_UpdatedAt a ∨
  (ws_UpdatedAt b = ws_UpdatedAt a ∧ ws_CreatedAt b ≤ ws_CreatedAt a).
#[export] Instance newest_first_dec : RelDecision newest_first.
Proof. intros a b. unfold newest_first. apply _. Defined.

Definition GetWorkstationByMemberID (memberID : string) : DB Workstation :=
  pool_exec (select_row (λ t,
    head (merge_sort newest_first (ws_rows (λ s, bool_decide (ws_MemberID s = memberID)) t)))).

Definition by_id_for_member (memberID workstationID : string) (t : Tables) : option Workstation :=
  s ← workstations t !! workstationID;
  if bool_decide (ws_MemberID s = memberID) then Some s else None.

Definition GetWorkstationByIDForMember (memberID workstationID : string) : DB Workstation :=
  pool_exec (select_row (by_id_for_member memberID workstationID)).

Definition GetWorkstationByMemberAndWorkerID (memberID workerID : string) : DB Workstation :=
  pool_exec (select_row (λ t,
    head (ws_rows (λ s, bool_decide (ws_MemberID s = memberID)
                        && bool_decide (ws_WorkerID s = workerID)) t))).

Definition GetWorkstationByID (workstationID : string) : DB Workstation :=
  pool_exec (select_row (λ t, workstations t !! workstationID)).

Section Ordered.
Context `{!Collation}.

(** [ORDER BY worker_id, slot]; the pair is unique, so nothing is left to
    further sort keys. *)
Definition by_worker_slot (a b : Workstation) : Prop :=
  (text_le (ws_WorkerID a) (ws_WorkerID b) ∧ ¬ text_le (ws_WorkerID b) (ws_WorkerID a)) ∨
  (text_le (ws_WorkerID a) (ws_WorkerID b) ∧ ws_Slot a ≤ ws_Slot b).
#[export] Instance by_worker_slot_dec : RelDecision by_worker_slot.
Proof. intros a b. unfold by_worker_slot. apply _. Defined.

Definition member_workstations (memberID : string) (t : Tables) : list Workstation :=
  merge_sort by_worker_slot (ws_rows (λ s, bool_decide (ws_MemberID s = memberID)) t).

Definition ListWorkstationsByMemberID (memberID : string) : DB (list Workstation) :=
  pool_exec (select (member_workstations memberID)).

Definition ListAllWorkstations : DB (list Workstation) :=
  pool_exec (select (λ t, merge_sort by_worker_slot (ws_rows (λ _, true) t))).

(** [ORDER BY slot] within one worker. *)
Definition by_slot (a b : DesiredWorkstation) : Prop := dw_Slot a ≤ dw_Slot b.
#[export] Instance by_slot_dec : RelDecision by_slot.
Proof. intros a b. unfold by_slot. apply _. Defined.

Definition desired_of (s : Workstation) : DesiredWorkstation :=
  mkDesired (ws_ID s) (ws_VMName s) (ws_Slot s) (ws_DesiredPowerState s).

Definition desired_workstations (workerID : string) (t : Tables) : list DesiredWorkstation :=
  merge_sort by_slot
    (desired_of <$> ws_rows (λ s, bool_decide (ws_WorkerID s = workerID)) t).

Definition ListDesiredWorkstationsByWorker (workerID : string) : DB (list DesiredWorkstation) :=
  pool_exec (select (desired_workstations workerID)).

(** ** Claiming *)

Definition schedulable (cutoff : Z) (w : Worker) : bool :=
  bool_decide (wk_Status w = WorkerStatusActive) &&
  match wk_LastHeartbeat w with Some hb => cutoff <=? hb | None => false end.

(** [ORDER BY hostname, id]. *)
Definition by_hostname_id (a b : Worker) : Prop :=
  (text_le (wk_Hostname a) (wk_Hostname b) ∧ ¬ text_le (wk_Hostname b) (wk_Hostname a)) ∨
  (text_le (wk_Hostname a) (wk_Hostname b) ∧ text_le (wk_ID a) (wk_ID b)).
#[export] Instance by_hostname_id_dec : RelDecision by_hostname_id.
Proof. intros a b. unfold by_hostname_id. apply _. Defined.

Definition listSchedulableWorkers (cutoff : Z) (t : Tables) : list Worker :=
  merge_sort by_hostname_id (filter (λ w, schedulable cutoff w = true) (rows (workers t))).
End Ordered.

(** [allocated[workerID][slot] = true], creating the inner map on demand. *)
Definition mark_slot (allocated : Allocation) (s : Workstation) : Allocation :=
  <[ws_WorkerID s := <[ws_Slot s := true]> (occupied_of allocated (ws_WorkerID s))]> allocated.

Definition listAllocatedSlots (t : Tables) : Allocation :=
  fold_left mark_slot (rows (workstations t)) ∅.

Definition generateWorkstationVMName (workstationID : string) : string :=
  let trimmed := ReplaceAll_empty workstationID "-"%char in
  let trimmed := if (12 <? Z.of_nat (String.length trimmed)) then str_take 12 trimmed else trimmed in
  "ws-"%string +:+ trimmed.

(** [INSERT INTO workstations ... RETURNING ...] with the constraints of the
    schema: the check, the primary key, the two unique constraints and the two
    references. *)
Definition insert_workstation_row (s : Workstation) : Statement Workstation := λ t,
  if negb (in_int4 (ws_Slot s)) then inl (PgError NumericOutOfRange)
  else if ws_Slot s <? 0 then inl (PgError CheckViolation)
  else if bool_decide (is_Some (workstations t !! ws_ID s)) then inl (PgError UniqueViolation)
  else if bool_decide (is_Some (find_row (λ r, bool_decide (ws_VMName r = ws_VMName s)) (workstations t)))
  then inl (PgError UniqueViolation)
  else if bool_decide (is_Some (find_row (λ r, bool_decide (ws_WorkerID r = ws_WorkerID s)
                                             && bool_decide (ws_Slot r = ws_Slot s)) (workstations t)))
  then inl (PgError UniqueViolation)
  else if bool_decide (members t !! ws_MemberID s = None) then inl (PgError ForeignKeyViolation)
  else if bool_decide (workers t !! ws_WorkerID s = None) then inl (PgError ForeignKeyViolation)
  else inr (s, set_workstations <[ws_ID s := s]> t).

Definition new_workstation (dbnow : Z) (workstationID memberID workerID : string) (slot : Z) :
    Workstation :=
  mkWorkstation workstationID memberID workerID slot (generateWorkstationVMName workstationID)
    WorkstationPowerStateStarting WorkstationDesiredPowerStateRunning "" "" dbnow dbnow.

Definition insertWorkstation (dbnow : Z) (workstationID memberID workerID : string) (slot : Z) :
    DB Workstation :=
  tx_exec (insert_workstation_row (new_workstation dbnow workstationID memberID workerID slot)).

Definition ClaimWorkstation `{!Collation} (gonow dbnow : Z) (uuid : string)
    (memberID preferredWorkerID : string) : DB (Workstation * bool) :=
  _ ← BeginTx;
  _ ← tx_exec (select (λ _, ())); (* pg_advisory_xact_lock *)
  workers ← tx_exec (select (listSchedulableWorkers (gonow - schedulableHeartbeatWindow)));
  if bool_decide (workers = []) then throw ErrNoActiveWorkers
  else
    existing ← tx_exec (select listAllocatedSlots);
    best ← lift (selectWorkstationCandidate workers existing preferredWorkerID);
    workstation ← insertWorkstation dbnow uuid memberID (cand_workerID best) (cand_slot best);
    _ ← Commit;
    mret (workstation, true).

(** ** Resuming an existing workstation *)

Definition set_running_clear_error (dbnow : Z) (s : Workstation) : Workstation :=
  mkWorkstation (ws_ID s) (ws_MemberID s) (ws_WorkerID s) (ws_Slot s) (ws_VMName s)
    (match ws_PowerState s with
     | WorkstationPowerStateStopped | WorkstationPowerStateError => WorkstationPowerStateStarting
     | p => p
     end)
    WorkstationDesiredPowerStateRunning (ws_IPAddress s) "" (ws_CreatedAt s) dbnow.

Definition set_desired_running (dbnow : Z) (s : Workstation) : Workstation :=
  mkWorkstation (ws_ID s) (ws_MemberID s) (ws_WorkerID s) (ws_Slot s) (ws_VMName s)
    (ws_PowerState s) WorkstationDesiredPowerStateRunning (ws_IPAddress s) (ws_LastError s)
    (ws_CreatedAt s) dbnow.

Definition claimExistingWorkstation (dbnow : Z) (workstation : Workstation) : DB Workstation :=
  match ws_PowerState workstation with
  | WorkstationPowerStateDeleting | WorkstationPowerStateDeleted =>
      throw ErrWorkstationBeingDeleted
  | WorkstationPowerStateStopped | WorkstationPowerStateError | WorkstationPowerStateStopping =>
      tx_exec (update_workstation (ws_ID workstation) (set_running_clear_error dbnow))
  | _ =>
      if bool_decide (ws_DesiredPowerState workstation ≠ WorkstationDesiredPowerStateRunning)
      then tx_exec (update_workstation (ws_ID workstation) (set_desired_running dbnow))
      else mret workstation
  end.

Definition EnsureWorkstationRunningByIDForMember (dbnow : Z) (memberID workstationID : string) :
    DB Workstation :=
  _ ← BeginTx;
  workstation ← tx_exec (select_row (by_id_for_member memberID workstationID));
  if bool_decide (ws_DesiredPowerState workstation = WorkstationDesiredPowerStateDeleted)
  then _ ← Commit; mret workstation
  else if bool_decide (ws_PowerState workstation = WorkstationPowerStateDeleting)
          || bool_decide (ws_PowerState workstation = WorkstationPowerStateDeleted)
  then _ ← Commit; mret workstation
  else
    workstation ← claimExistingWorkstation dbnow workstation;
    _ ← Commit;
    mret workstation.

Definition EnsureWorkstationRunningByMemberID (dbnow : Z) (memberID : string) : DB Workstation :=
  workstation ← GetWorkstationByMemberID memberID;
  EnsureWorkstationRunningByIDForMember dbnow memberID (ws_ID workstation).

(** ** Changing the desired state *)

Definition nextPowerState (desired : WorkstationDesiredPowerState)
    (current : WorkstationPowerState) : WorkstationPowerState :=
  match desired with
  | WorkstationDesiredPowerStateRunning =>
      if bool_decide (current = WorkstationPowerStateStopped)
         || bool_decide (current = WorkstationPowerStateError)
      then WorkstationPowerStateStarting else current
  | WorkstationDesiredPowerStateStopped =>
      if bool_decide (current = WorkstationPowerStateStarting)
         || bool_decide (current = WorkstationPowerStateRunning)
      then WorkstationPowerStateStopping else current
  | WorkstationDesiredPowerStateDeleted => WorkstationPowerStateDeleting
  end.

Definition set_desired (dbnow : Z) (desired : WorkstationDesiredPowerState)
    (next : WorkstationPowerState) (s : Workstation) : Workstation :=
  mkWorkstation (ws_ID s) (ws_MemberID s) (ws_WorkerID s) (ws_Slot s) (ws_VMName s)
    next desired (ws_IPAddress s) (ws_LastError s) (ws_CreatedAt s) dbnow.

(** [UPDATE ... WHERE member_id = $1 AND id = $4 RETURNING ...]. *)
Definition update_for_member (memberID id : string) (f : Workstation → Workstation) :
    Statement Workstation := λ t,
  match by_id_for_member memberID id t with
  | None => inl ErrNoRows
  | Some s => inr (f s, set_workstations <[id := f s]> t)
  end.

Definition UpdateWorkstationDesiredPowerStateByID (dbnow : Z) (memberID workstationID : string)
    (desired : WorkstationDesiredPowerState) : DB Workstation :=
  _ ← BeginTx;
  workstation ← tx_exec (select_row (by_id_for_member memberID workstationID));
  if bool_decide (ws_PowerState workstation = WorkstationPowerStateDeleting)
     || bool_decide (ws_PowerState workstation = WorkstationPowerStateDeleted)
  then throw ErrWorkstationBeingDeleted
  else
    workstation ← tx_exec (update_for_member memberID workstationID
      (set_desired dbnow desired (nextPowerState desired (ws_PowerState workstation))));
    _ ← Commit;
    mret workstation.

Definition UpdateWorkstationDesiredPowerState (dbnow : Z) (memberID : string)
    (desired : WorkstationDesiredPowerState) : DB Workstation :=
  workstation ← GetWorkstationByMemberID memberID;
  UpdateWorkstationDesiredPowerStateByID dbnow memberID (ws_ID workstation) desired.

(** ** Reports of the workers *)

Definition set_last_error (dbnow : Z) (lastError : string) (s : Workstation) : Workstation :=
  mkWorkstation (ws_ID s) (ws_MemberID s) (ws_WorkerID s) (ws_Slot s) (ws_VMName s)
    (ws_PowerState s) (ws_DesiredPowerState s) (ws_IPAddress s) lastError (ws_CreatedAt s) dbnow.

Definition set_status (dbnow : Z) (p : WorkstationPowerState) (ip lastError : string)
    (s : Workstation) : Workstation :=
  mkWorkstation (ws_ID s) (ws_MemberID s) (ws_WorkerID s) (ws_Slot s) (ws_VMName s)
    p (ws_DesiredPowerState s) ip lastError (ws_CreatedAt s) dbnow.

(** The status update fails on a text that is not a value of the enum. *)
Definition update_status_row (dbnow : Z) (id powerState ip lastError : string) : Statement unit :=
  λ t, match power_state_of_text powerState with
       | None => inl (PgError InvalidTextRepresentation)
       | Some p => inr (tt, set_workstations (alter (set_status dbnow p ip lastError) id) t)
       end.

Definition UpdateWorkstationStatus (dbnow : Z) (workerID : string)
    (report : WorkstationStatusReport) : DB unit :=
  _ ← BeginTx;
  found ← try (tx_exec (select_row (λ t, workstations t !! rep_WorkstationID report)));
  match found with
  | inl err => if IsNotFound err then mret tt else throw err
  | inr workstation =>
      if bool_decide (ws_WorkerID workstation ≠ workerID)
      then throw (ErrText "workstation does not belong to worker")
      else
        let ipAddress := TrimSpace (rep_IPAddress report) in
        let lastError := TrimSpace (rep_LastError report) in
        if bool_decide (rep_PowerState report = power_state_text WorkstationPowerStateDeleted)
           && bool_decide (ws_DesiredPowerState workstation = WorkstationDesiredPowerStateDeleted)
        then
          _ ← tx_exec (update (set_workstations (delete (ws_ID workstation))));
          Commit
        else if bool_decide (ws_DesiredPowerState workstation = WorkstationDesiredPowerStateDeleted)
        then
          _ ← tx_exec (update (set_workstations
                (alter (set_last_error dbnow lastError) (ws_ID workstation))));
          Commit
        else
          _ ← tx_exec (update_status_row dbnow (ws_ID workstation) (rep_PowerState report)
                ipAddress lastError);
          Commit
  end.

(** ** Allocated slots *)

Lemma occupied_mark acc s w x :
  occupied_at (occupied_of (mark_slot acc s) w) x =
  if decide (ws_WorkerID s = w ∧ ws_Slot s = x) then true
  else occupied_at (occupied_of acc w) x.
Proof.
  unfold mark_slot, occupied_of, occupied_at.
  destruct (decide (ws_WorkerID s = w)) as [<-|Hw].
  - rewrite lookup_insert_eq. simpl. destruct (decide (ws_Slot s = x)) as [<-|Hx].
    + rewrite lookup_insert_eq, decide_True by done. done.
    + rewrite lookup_insert_ne, decide_False by naive_solver. done.
  - rewrite lookup_insert_ne, decide_False by naive_solver. done.
Qed.

Lemma occupied_fold l acc w x :
  occupied_at (occupied_of (fold_left mark_slot l acc) w) x = true ↔
  occupied_at (occupied_of acc w) x = true ∨
  ∃ s, s ∈ l ∧ ws_WorkerID s = w ∧ ws_Slot s = x.
Proof.
  revert acc. induction l as [|s l IH]; intros acc; simpl.
  { split; [by left|]. intros [?|(s & Hs & _)]; [done|by apply elem_of_nil in Hs]. }
  rewrite IH, occupied_mark. setoid_rewrite elem_of_cons.
  destruct (decide _) as [[<- <-]|Hn]; naive_solver.
Qed.

(** The allocation map is exactly the set of (worker, slot) pairs in use. *)
Lemma listAllocatedSlots_spec t w x :
  occupied_at (occupied_of (listAllocatedSlots t) w) x = true ↔
  ∃ i s, workstations t !! i = Some s ∧ ws_WorkerID s = w ∧ ws_Slot s = x.
Proof.
  unfold listAllocatedSlots. rewrite occupied_fold. setoid_rewrite elem_of_rows.
  unfold occupied_of, occupied_at. rewrite lookup_empty. simpl. rewrite lookup_empty.
  naive_solver.
Qed.

Lemma size_mark acc s w :
  occupied_at (occupied_of acc (ws_WorkerID s)) (ws_Slot s) = false →
  (∀ w x b, occupied_of acc w !! x = Some b → b = true) →
  size (occupied_of (mark_slot acc s) w) =
  ((if decide (ws_WorkerID s = w) then 1 else 0) + size (occupied_of acc w))%nat.
Proof.
  intros Hfree Htrue. unfold mark_slot, occupied_of at 1.
  destruct (decide (ws_WorkerID s = w)) as [<-|Hw].
  - rewrite lookup_insert_eq. simpl. apply map_size_insert_None.
    unfold occupied_at in Hfree.
    destruct (occupied_of acc (ws_WorkerID s) !! ws_Slot s) eqn:E; [|done].
    apply Htrue in E. by subst.
  - by rewrite lookup_insert_ne.
Qed.

Lemma occupied_true l acc w x b :
  (∀ w x b, occupied_of acc w !! x = Some b → b = true) →
  occupied_of (fold_left mark_slot l acc) w !! x = Some b → b = true.
Proof.
  revert acc. induction l as [|s l IH]; intros acc Hacc; [apply Hacc|]. apply IH.
  intros w' x' b'. unfold mark_slot, occupied_of at 1.
  destruct (decide (ws_WorkerID s = w')) as [<-|Hw].
  - rewrite lookup_insert_eq. simpl. intros [[_ <-]|[_ ?]]%lookup_insert_Some; [done|by eapply Hacc].
  - rewrite lookup_insert_ne by done. apply Hacc.
Qed.

Definition on_worker (w : string) (s : Workstation) : bool := bool_decide (ws_WorkerID s = w).

Lemma size_fold l acc w :
  (∀ w x b, occupied_of acc w !! x = Some b → b = true) →
  NoDup ((λ s, (ws_WorkerID s, ws_Slot s)) <$> l) →
  (∀ s, s ∈ l → occupied_at (occupied_of acc (ws_WorkerID s)) (ws_Slot s) = false) →
  size (occupied_of (fold_left mark_slot l acc) w) =
  (length (filter (λ s, on_worker w s = true) l) + size (occupied_of acc w))%nat.
Proof.
  revert acc. induction l as [|s l IH]; intros acc Htrue Hnd Hfree; [done|].
  rewrite fmap_cons, NoDup_cons in Hnd. destruct Hnd as [Hnotin Hnd].
  cbn [fold_left]. rewrite IH; [|by intros ??? ?%(occupied_true [s])|done|].
  - rewrite size_mark by (done || apply Hfree; left). rewrite filter_cons.
    destruct (decide (ws_WorkerID s = w)) as [E|E], (decide (on_worker w s = true)) as [F|F];
      unfold on_worker in F; rewrite bool_decide_eq_true in F; try done; simpl length; lia.
  - intros s' Hs'. rewrite occupied_mark.
    rewrite decide_False; [apply Hfree; by right|]. intros [E1 E2]. apply Hnotin.
    rewrite E1, E2. by apply (list_elem_of_fmap_2 (λ s, (ws_WorkerID s, ws_Slot s))).
Qed.

Lemma slots_NoDup t :
  wf_tables t → NoDup ((λ s, (ws_WorkerID s, ws_Slot s)) <$> rows (workstations t)).
Proof.
  intros Hwf. unfold rows. rewrite <- list_fmap_compose. apply NoDup_fmap_2_strong.
  - intros [i1 s1] [i2 s2] H1%elem_of_map_to_list H2%elem_of_map_to_list. simpl. intros [= E1 E2].
    assert (i1 = i2) as -> by by eapply (wf_ws_slot _ Hwf). congruence.
  - apply NoDup_map_to_list.
Qed.

(** The load the scheduler compares is the number of workstations placed on the
    worker, whatever their state. *)
Lemma load_spec t w :
  wf_tables t →
  map_len (occupied_of (listAllocatedSlots t) w) = Z.of_nat (length (ws_rows (on_worker w) t)).
Proof.
  intros Hwf. unfold map_len, listAllocatedSlots. rewrite size_fold.
  - unfold occupied_of. rewrite lookup_empty. simpl. rewrite map_size_empty. unfold ws_rows. lia.
  - intros ???. unfold occupied_of. by rewrite lookup_empty.
  - by apply slots_NoDup.
  - intros s _. unfold occupied_of. rewrite lookup_empty. unfold occupied_at. simpl.
    by rewrite lookup_empty.
Qed.

(** ** Inserting *)

Lemma insert_workstation_inv s t a t' :
  insert_workstation_row s t = inr (a, t') →
  a = s ∧ t' = set_workstations <[ws_ID s := s]> t ∧
  workstations t !! ws_ID s = None ∧ is_Some (members t !! ws_MemberID s) ∧
  (∀ i r, workstations t !! i = Some r →
     ¬ (ws_WorkerID r = ws_WorkerID s ∧ ws_Slot r = ws_Slot s) ∧ ws_VMName r ≠ ws_VMName s).
Proof.
  unfold insert_workstation_row. intros H.
  repeat (case_match; [done|]). to_prop. simplify_eq.
  split; [done|]. split; [done|].
  repeat match goal with H : ¬ is_Some _ |- _ => apply eq_None_not_Some in H end.
  split; [done|]. split; [by apply not_eq_None_Some|].
  intros i r Hr.
  repeat match goal with H : find_row _ _ = None |- _ => rewrite find_row_None in H; specialize (H i r Hr) end.
  match goal with H : (_ && _)%bool = false |- _ => apply andb_false_iff in H end.
  rewrite !bool_decide_eq_false in *. tauto.
Qed.

Lemma insert_workstation_ok s t :
  in_int4 (ws_Slot s) = true → 0 ≤ ws_Slot s → workstations t !! ws_ID s = None →
  is_Some (members t !! ws_MemberID s) → is_Some (workers t !! ws_WorkerID s) →
  (∀ i r, workstations t !! i = Some r →
     ¬ (ws_WorkerID r = ws_WorkerID s ∧ ws_Slot r = ws_Slot s) ∧ ws_VMName r ≠ ws_VMName s) →
  insert_workstation_row s t = inr (s, set_workstations <[ws_ID s := s]> t).
Proof.
  intros Hint Hpos Hnew Hm Hw Hfree. unfold insert_workstation_row. rewrite Hint. simpl.
  destruct (Z.ltb_spec (ws_Slot s) 0); [lia|].
  rewrite Hnew, bool_decide_false by by intros [].
  rewrite (proj2 (find_row_None (λ r, bool_decide (ws_VMName r = ws_VMName s)) _)).
  2: { intros i r Hr. apply bool_decide_eq_false, (Hfree i r Hr). }
  rewrite (proj2 (find_row_None (λ r, bool_decide (ws_WorkerID r = ws_WorkerID s)
                                      && bool_decide (ws_Slot r = ws_Slot s)) _)).
  2: { intros i r Hr. apply andb_false_iff. rewrite !bool_decide_eq_false.
       destruct (Hfree i r Hr) as [Hn _]. destruct (decide (ws_WorkerID r = ws_WorkerID s)); tauto. }
  destruct Hm as [m Hm], Hw as [w Hw]. rewrite Hm, Hw.
  by rewrite !(bool_decide_false (is_Some None)) by by intros [].
Qed.

(** ** The invariant is kept, whatever fails *)

Section Keeps.
Context `{!Collation}.

Lemma schedulable_worker cutoff t w :
  wf_tables t → w ∈ listSchedulableWorkers cutoff t →
  workers t !! wk_ID w = Some w ∧ schedulable cutoff w = true.
Proof.
  intros Hwf. unfold listSchedulableWorkers. rewrite merge_sort_Permutation, list_elem_of_filter.
  intros [Hs (i & Hi)%elem_of_rows]. by rewrite (wf_worker_key _ Hwf _ _ Hi).
Qed.

Lemma ClaimWorkstation_triple gonow dbnow uuid memberID pref :
  triple wf_tables (λ _, True) (ClaimWorkstation gonow dbnow uuid memberID pref)
    (λ _, wf_tables).
Proof.
  unfold ClaimWorkstation. do 3 (db_step; [db_step|]). db_step; [db_step|].
  do 2 (db_step; [db_step|]). db_step.
  { apply (triple_tx _ _ _ (λ _, wf_tables)). intros t s t' [[[[Hwf _] ->] ->] Hsel] Hins.
    apply insert_workstation_inv in Hins as (-> & -> & Hnew & Hm & Hfree).
    apply select_valid in Hsel as (w & Hw & Hid & [Hslot _]).
    apply schedulable_worker in Hw as [Hw _]; [|done].
    apply wf_new_workstation; try done. exists w. by rewrite <- Hid. }
  db_step; [by db_step|]. by db_step.
Qed.
End Keeps.

Lemma by_id_for_member_Some m i t s :
  by_id_for_member m i t = Some s ↔ workstations t !! i = Some s ∧ ws_MemberID s = m.
Proof.
  unfold by_id_for_member. destruct (workstations t !! i) as [r|]; simpl; [|naive_solver].
  case_bool_decide; naive_solver.
Qed.

Lemma update_workstation_wf id f t a t' :
  wf_tables t → update_workstation id f t = inr (a, t') →
  (∀ s, workstations t !! id = Some s → same_placement s (f s) ∧ deletion_coherent (f s)) →
  wf_tables t'.
Proof.
  unfold update_workstation. intros Hwf Hu Hf.
  destruct (workstations t !! id) as [s|] eqn:E; [|done]. simplify_eq.
  destruct (Hf _ eq_refl). by eapply wf_put_workstation.
Qed.

Lemma alter_workstation_wf id f t :
  wf_tables t →
  (∀ s, workstations t !! id = Some s → same_placement s (f s) ∧ deletion_coherent (f s)) →
  wf_tables (set_workstations (alter f id) t).
Proof.
  intros Hwf Hf. destruct (workstations t !! id) as [s|] eqn:E.
  - destruct (Hf _ eq_refl). replace (set_workstations (alter f id) t)
      with (set_workstations <[id := f s]> t); [by eapply wf_put_workstation|].
    unfold set_workstations. f_equal. apply map_eq. intros j.
    destruct (decide (id = j)) as [<-|]; [by rewrite lookup_insert_eq, lookup_alter_eq, E|].
    by rewrite lookup_insert_ne, lookup_alter_ne.
  - unfold set_workstations. rewrite alter_id by congruence. by destruct t.
Qed.

Lemma claimExisting_triple dbnow s (P : Tables → Prop) :
  (∀ t, P t → wf_tables t) →
  triple wf_tables P (claimExistingWorkstation dbnow s) (λ _, wf_tables).
Proof.
  intros HP. unfold claimExistingWorkstation.
  assert (∀ f, (∀ r, same_placement r (f r) ∧ deletion_coherent (f r)) →
    triple wf_tables P (tx_exec (update_workstation (ws_ID s) f)) (λ _, wf_tables)) as Hu.
  { intros f Hf. apply (triple_tx _ _ _ (λ _, wf_tables)). intros t a t' Ht Hu.
    eapply update_workstation_wf; eauto. }
  repeat db_step; auto; apply Hu; intros r; split; done.
Qed.

Lemma Ensure_triple dbnow memberID id :
  triple wf_tables (λ _, True) (EnsureWorkstationRunningByIDForMember dbnow memberID id)
    (λ _, wf_tables).
Proof.
  unfold EnsureWorkstationRunningByIDForMember. do 2 (db_step; [db_step|]).
  db_step; [|db_step].
  1,2: db_step; [by db_step; intros ? []|by db_step; intros ? []].
  db_step; [apply claimExisting_triple; by intros ? []|].
  db_step; [by db_step|by db_step].
Qed.

Lemma UpdateDesired_triple dbnow memberID id desired :
  triple wf_tables (λ _, True) (UpdateWorkstationDesiredPowerStateByID dbnow memberID id desired)
    (λ _, wf_tables).
Proof.
  unfold UpdateWorkstationDesiredPowerStateByID. do 2 (db_step; [db_step|]). db_step; [db_step|].
  db_step; [apply (triple_tx _ _ _ (λ _, wf_tables))|].
  - intros t s t' [Hwf Hs] Hu. unfold update_for_member in Hu. rewrite Hs in Hu. simplify_eq.
    apply by_id_for_member_Some in Hs as [Hs _].
    eapply wf_put_workstation; [done|done|done|]. intros Hd. simpl in *. by subst.
  - db_step; [by db_step|by db_step].
Qed.

Lemma UpdateStatus_triple dbnow workerID report :
  triple wf_tables (λ _, True) (UpdateWorkstationStatus dbnow workerID report) (λ _ _, True).
Proof.
  unfold UpdateWorkstationStatus. db_step; [db_step|].
  db_step; [apply triple_try; db_step|]. db_step; [by repeat db_step|].
  db_step; [db_step|].
  assert (∀ (st : Statement unit),
    (∀ t t', wf_tables t → workstations t !! rep_WorkstationID report = Some w →
             st t = inr (tt, t') → wf_tables t') →
    triple wf_tables
      (λ t, wf_tables t ∧ workstations t !! rep_WorkstationID report = Some w)
      (tx_exec st ≫= λ _, Commit) (λ _ _, True)) as Hw.
  { intros st Hst. db_step; [apply (triple_tx _ _ _ (λ _, wf_tables))|].
    - intros t [] t' [Hwf Hs] E. by eapply Hst.
    - eapply triple_weaken; [by apply triple_commit with (P := wf_tables)|done|done]. }
  db_step; [|db_step]; apply Hw; clear Hw; intros t t' Hwf Hs Hu; to_prop;
    pose proof (wf_ws_key _ Hwf _ _ Hs) as Hk.
  - sql_inv. by apply wf_delete_workstation.
  - sql_inv. apply alter_workstation_wf; [done|]. intros s Es. split; [done|].
    exact (wf_ws_deleted _ Hwf _ _ Es).
  - unfold update_status_row in Hu. destruct (power_state_of_text _) as [p|]; [|done]. simplify_eq.
    apply alter_workstation_wf; [done|]. intros s Es. split; [done|]. intros Hd. simpl in Hd.
    rewrite Hk in Es. simplify_map_eq.
Qed.

(** ** Fault-free runs *)

Definition claim_decision `{!Collation} (gonow dbnow : Z) (uuid memberID pref : string)
    (t : Tables) : Error + (Workstation * Tables) :=
  let ws := listSchedulableWorkers (gonow - schedulableHeartbeatWindow) t in
  if bool_decide (ws = []) then inl ErrNoActiveWorkers
  else match selectWorkstationCandidate ws (listAllocatedSlots t) pref with
       | inl e => inl e
       | inr c =>
           insert_workstation_row
             (new_workstation dbnow uuid memberID (cand_workerID c) (cand_slot c)) t
       end.

Lemma Claim_settles `{!Collation} gonow dbnow uuid memberID pref t :
  settles (ClaimWorkstation gonow dbnow uuid memberID pref) t
    (match claim_decision gonow dbnow uuid memberID pref t with
     | inl e => inl e
     | inr (s, t') => inr ((s, true), t')
     end).
Proof.
  unfold settles, claim_decision, ClaimWorkstation, insertWorkstation. run_db.
  destruct (bool_decide _); [done|]. run_db.
  destruct (selectWorkstationCandidate _ _ _) as [e|c]; [done|]. unfold lift. run_db.
  destruct (insert_workstation_row _ _) as [e|[s t']]; [done|]. by run_db.
Qed.

Lemma Ensure_settles dbnow memberID id t :
  settles (EnsureWorkstationRunningByIDForMember dbnow memberID id) t
    (match by_id_for_member memberID id t with
     | None => inl ErrNoRows
     | Some s =>
         if bool_decide (ws_DesiredPowerState s = WorkstationDesiredPowerStateDeleted)
            || bool_decide (ws_PowerState s = WorkstationPowerStateDeleting)
            || bool_decide (ws_PowerState s = WorkstationPowerStateDeleted)
         then inr (s, t)
         else match ws_PowerState s with
              | WorkstationPowerStateStopped | WorkstationPowerStateError
              | WorkstationPowerStateStopping =>
                  update_workstation (ws_ID s) (set_running_clear_error dbnow) t
              | _ =>
                  if bool_decide (ws_DesiredPowerState s ≠ WorkstationDesiredPowerStateRunning)
                  then update_workstation (ws_ID s) (set_desired_running dbnow) t
                  else inr (s, t)
              end
     end).
Proof.
  unfold settles, EnsureWorkstationRunningByIDForMember. run_db.
  destruct (by_id_for_member memberID id t) as [s|]; [|done]. run_db.
  unfold claimExistingWorkstation.
  destruct (ws_PowerState s), (ws_DesiredPowerState s); simpl; run_db; try done;
    (destruct (update_workstation _ _ t) as [e|[s' t']]; [done|]); by run_db.
Qed.

Lemma UpdateDesired_settles dbnow memberID id desired t :
  settles (UpdateWorkstationDesiredPowerStateByID dbnow memberID id desired) t
    (match by_id_for_member memberID id t with
     | None => inl ErrNoRows
     | Some s =>
         if bool_decide (ws_PowerState s = WorkstationPowerStateDeleting)
            || bool_decide (ws_PowerState s = WorkstationPowerStateDeleted)
         then inl ErrWorkstationBeingDeleted
         else let s' := set_desired dbnow desired (nextPowerState desired (ws_PowerState s)) s in
              inr (s', set_workstations <[id := s']> t)
     end).
Proof.
  unfold settles, UpdateWorkstationDesiredPowerStateByID. run_db.
  destruct (by_id_for_member memberID id t) as [s|] eqn:E; [|done]. run_db.
  destruct (bool_decide _ || bool_decide _); [done|]. run_db.
  unfold update_for_member. rewrite E. by run_db.
Qed.

Lemma UpdateStatus_settles dbnow workerID report t :
  wf_tables t →
  settles (UpdateWorkstationStatus dbnow workerID report) t
    (match workstations t !! rep_WorkstationID report with
     | None => inr (tt, t)
     | Some s =>
         if bool_decide (ws_WorkerID s ≠ workerID)
         then inl (ErrText "workstation does not belong to worker")
         else if bool_decide (ws_DesiredPowerState s = WorkstationDesiredPowerStateDeleted) then
           if bool_decide (rep_PowerState report = power_state_text WorkstationPowerStateDeleted)
           then inr (tt, set_workstations (delete (ws_ID s)) t)
           else inr (tt, set_workstations <[ws_ID s :=
                  set_last_error dbnow (TrimSpace (rep_LastError report)) s]> t)
         else match power_state_of_text (rep_PowerState report) with
              | None => inl (PgError InvalidTextRepresentation)
              | Some p => inr (tt, set_workstations <[ws_ID s :=
                  set_status dbnow p (TrimSpace (rep_IPAddress report))
                    (TrimSpace (rep_LastError report)) s]> t)
              end
     end).
Proof.
  intros Hwf.
  unfold settles, UpdateWorkstationStatus. run_db.
  destruct (workstations t !! _) as [s|] eqn:E; [|done]. run_db.
  assert (∀ f : Workstation → Workstation,
    set_workstations (alter f (ws_ID s)) t = set_workstations <[ws_ID s := f s]> t) as Ha.
  { intros f. unfold set_workstations. f_equal. apply map_eq. intros j.
    rewrite <- (wf_ws_key _ Hwf _ _ E) in E.
    destruct (decide (ws_ID s = j)) as [<-|]; [by rewrite lookup_insert_eq, lookup_alter_eq, E|].
    by rewrite lookup_insert_ne, lookup_alter_ne. }
  destruct (bool_decide (ws_WorkerID s ≠ workerID)); [done|].
  unfold update, update_status_row.
  destruct (bool_decide (rep_PowerState report = _)), (bool_decide (ws_DesiredPowerState s = _));
    cbn [andb]; run_db; rewrite ?Ha; try done;
    (destruct (power_state_of_text _) as [p|]; [|done]); run_db; by rewrite ?Ha.
Qed.
