(* ===== verification/Allocator.v ===== *)
(** * What claiming promises: an abstract allocator

    The contract of [ClaimWorkstation], free of tables and SQL: pools of slots
    offered by the schedulable workers, the set of slots taken, and the rules
    by which a request is granted or refused.  [claim_refines] shows the method
    implements it. *)

From stdpp Require Import gmap strings list sorting.
From Stdlib Require Import ZArith Lia.
From S2P Require Import Prelude GoStrings Encoding Model Database Schema Scheduler Workstations.

Local Open Scope Z_scope.

Record Allocator := mkAllocator {
  pools : gmap string Z;          (* pool size of each schedulable worker *)
  taken : gset (string * Z)       (* (worker, slot) pairs in use *)
}.

Definition available (a : Allocator) (w : string) (s : Z) : Prop :=
  ∃ n, pools a !! w = Some n ∧ 0 ≤ s < n ∧ (w, s) ∉ taken a.

Definition slots_of (a : Allocator) (w : string) : gset (string * Z) :=
  filter (λ p, p.1 = w) (taken a).
Definition load (a : Allocator) (w : string) : Z := Z.of_nat (size (slots_of a w)).

Definition take_slot (a : Allocator) (w : string) (s : Z) : Allocator :=
  mkAllocator (pools a) ({[(w, s)]} ∪ taken a).

(** A granted request: the lowest available slot of the requested worker or,
    with no request, of the worker with the lowest (load, id). *)
Inductive grants (a : Allocator) (pref w : string) (s : Z) : Prop :=
| grants_requested :
    pref ≠ ""%string → w = pref → available a w s →
    (∀ s', available a w s' → s ≤ s') → grants a pref w s
| grants_any :
    pref = ""%string → available a w s →
    (∀ s', available a w s' → s ≤ s') →
    (∀ w' s', available a w' s' →
       load a w < load a w' ∨ (load a w = load a w' ∧ String.le w w')) →
    grants a pref w s.

Inductive refuses (a : Allocator) (pref : string) : Error → Prop :=
| refuses_no_workers : pools a = ∅ → refuses a pref ErrNoActiveWorkers
| refuses_no_slots :
    pref = ""%string → pools a ≠ ∅ → (∀ w s, ¬ available a w s) →
    refuses a pref ErrNoSlotsAvailable
| refuses_target_full :
    pref ≠ ""%string → is_Some (pools a !! pref) → (∀ s, ¬ available a pref s) →
    refuses a pref ErrTargetWorkerFull
| refuses_target_unavailable :
    pref ≠ ""%string → pools a ≠ ∅ → pools a !! pref = None →
    refuses a pref ErrTargetWorkerUnavailable.

(** A worker that may be given work: active, and heard of since the cutoff. *)
Definition alive (cutoff : Z) (w : Worker) : Prop :=
  wk_Status w = WorkerStatusActive ∧ cutoff ≤ default (cutoff - 1) (wk_LastHeartbeat w).

Lemma alive_schedulable cutoff w : alive cutoff w ↔ schedulable cutoff w = true.
Proof.
  unfold alive, schedulable. rewrite andb_true_iff, bool_decide_eq_true.
  destruct (wk_LastHeartbeat w); simpl; rewrite ?Z.leb_le; split; intros [? ?]; split; (done || lia).
Qed.

#[export] Instance alive_dec cutoff w : Decision (alive cutoff w).
Proof. unfold alive. apply _. Defined.

(** The allocator a database state stands for, at the instant the heartbeat
    cutoff is taken. *)
Definition allocator_of (cutoff : Z) (t : Tables) : Allocator :=
  mkAllocator
    (wk_PoolSize <$> filter (λ p, alive cutoff p.2) (workers t))
    (list_to_set ((λ s, (ws_WorkerID s, ws_Slot s)) <$> rows (workstations t))).

Section Refinement.
Context `{!Collation} (cutoff : Z) (t : Tables) (Hwf : wf_tables t).

Local Abbreviation ws := (listSchedulableWorkers cutoff t).
Local Abbreviation ex := (listAllocatedSlots t).
Local Abbreviation al := (allocator_of cutoff t).

Lemma elem_of_schedulable w :
  w ∈ ws ↔ workers t !! wk_ID w = Some w ∧ schedulable cutoff w = true.
Proof.
  split; [by apply schedulable_worker|]. intros [Hw Hs]. unfold listSchedulableWorkers.
  rewrite merge_sort_Permutation, list_elem_of_filter. split; [done|].
  apply elem_of_rows. eauto.
Qed.

Lemma schedulable_NoDup : NoDup (wk_ID <$> ws).
Proof.
  unfold listSchedulableWorkers. rewrite merge_sort_Permutation.
  eapply sublist_NoDup; [|apply fmap_sublist, sublist_filter].
  unfold rows. rewrite <- list_fmap_compose. apply NoDup_fmap_2_strong; [|apply NoDup_map_to_list].
  intros [i1 w1] [i2 w2] H1%elem_of_map_to_list H2%elem_of_map_to_list E. simpl in E.
  pose proof (wf_worker_key _ Hwf _ _ H1). pose proof (wf_worker_key _ Hwf _ _ H2). congruence.
Qed.

Lemma lookup_pools i n :
  pools al !! i = Some n ↔ ∃ w, w ∈ ws ∧ wk_ID w = i ∧ wk_PoolSize w = n.
Proof.
  simpl. rewrite lookup_fmap, fmap_Some. setoid_rewrite elem_of_schedulable.
  setoid_rewrite map_lookup_filter_Some. setoid_rewrite alive_schedulable. split.
  - intros (w & [Hw Hs] & ->). exists w. by rewrite (wf_worker_key _ Hwf _ _ Hw).
  - intros (w & [Hw Hs] & <- & <-). eauto.
Qed.

Lemma pools_empty : pools al = ∅ ↔ ws = [].
Proof.
  split.
  - intros He. destruct ws as [|w l] eqn:E; [done|]. exfalso.
    assert (pools al !! wk_ID w = Some (wk_PoolSize w)) as Hl.
    { apply lookup_pools. exists w. rewrite E. by split; [left|]. }
    by rewrite He, lookup_empty in Hl.
  - intros E. apply map_empty. intros i. destruct (pools al !! i) eqn:Hi; [|done].
    apply lookup_pools in Hi as (w & Hw & _). rewrite E in Hw. by apply elem_of_nil in Hw.
Qed.

Lemma taken_spec w s : (w, s) ∈ taken al ↔ occupied_at (occupied_of ex w) s = true.
Proof.
  simpl. rewrite elem_of_list_to_set, list_elem_of_fmap, listAllocatedSlots_spec.
  setoid_rewrite elem_of_rows. naive_solver.
Qed.

Lemma available_spec w s :
  w ∈ ws → available al (wk_ID w) s ↔ free_slot (occupied_of ex (wk_ID w)) (wk_PoolSize w) s.
Proof.
  intros Hw. unfold available, free_slot.
  setoid_rewrite taken_spec. setoid_rewrite not_true_iff_false. split.
  - intros (n & (w' & Hw' & Eid & <-)%lookup_pools & Hr & Hf).
    apply elem_of_schedulable in Hw as [Hw _], Hw' as [Hw' _]. rewrite Eid in Hw'. by simplify_eq.
  - intros [Hr Hf]. exists (wk_PoolSize w). split; [|done]. apply lookup_pools. eauto.
Qed.

Lemma available_worker w s : available al w s → ∃ w', w' ∈ ws ∧ wk_ID w' = w.
Proof. intros (n & (w' & Hw' & Eid & _)%lookup_pools & _). eauto. Qed.

Lemma load_count w : load al w = map_len (occupied_of ex w).
Proof.
  rewrite load_spec by done. unfold load. f_equal. unfold slots_of, ws_rows. simpl.
  rewrite <- (length_fmap (λ s, (ws_WorkerID s, ws_Slot s)) (filter _ _)).
  rewrite <- (size_list_to_set (C := gset (string * Z))).
  - f_equal. apply set_eq. intros [w' x].
    rewrite elem_of_filter, !elem_of_list_to_set, !list_elem_of_fmap. simpl.
    setoid_rewrite list_elem_of_filter. unfold on_worker. setoid_rewrite bool_decide_eq_true.
    naive_solver.
  - eapply sublist_NoDup; [by apply slots_NoDup|]. apply fmap_sublist, sublist_filter.
Qed.

Lemma offer_grants w c :
  w ∈ ws → offer ex w = Some c →
  cand_workerID c = wk_ID w ∧ cand_count c = load al (wk_ID w) ∧
  available al (wk_ID w) (cand_slot c) ∧
  ∀ s, available al (wk_ID w) s → cand_slot c ≤ s.
Proof.
  intros Hw. unfold offer. destruct (firstAvailableSlot _ _) as [s|] eqn:E; [|done].
  intros [= <-]. apply firstAvailableSlot_Some in E as [Hf Hm]. simpl.
  split; [done|]. split; [by rewrite load_count|]. setoid_rewrite available_spec; [|done..]. done.
Qed.

Lemma available_offer w s : w ∈ ws → available al (wk_ID w) s → is_Some (offer ex w).
Proof.
  intros Hw Ha%available_spec; [|done]. unfold offer.
  destruct (firstAvailableSlot _ _) eqn:E; [by eexists|].
  rewrite firstAvailableSlot_None in E. by apply E in Ha.
Qed.

Lemma select_refines pref :
  ws ≠ [] →
  match selectWorkstationCandidate ws ex pref with
  | inr c => grants al pref (cand_workerID c) (cand_slot c)
  | inl e => refuses al pref e
  end.
Proof.
  intros Hne. destruct (decide (pref = ""%string)) as [->|Hp].
  - destruct (selectWorkstationCandidate ws ex "") as [e|c] eqn:E.
    + apply select_auto_Err in E as [-> Hn].
      apply refuses_no_slots; [done|by rewrite pools_empty|].
      intros w s Ha. destruct (available_worker _ _ Ha) as (w' & Hw' & <-).
      destruct (available_offer w' s Hw' Ha) as [c Hc]. by rewrite Hn in Hc.
    + apply select_auto_Ok in E as [(w & Hw & Ho) Hmin].
      destruct (offer_grants w c Hw Ho) as (-> & Hcount & Hav & Hleast).
      apply grants_any; [done|done|done|]. intros w' s' Ha.
      destruct (available_worker _ _ Ha) as (w1 & Hw1 & <-).
      destruct (available_offer w1 s' Hw1 Ha) as [c1 Hc1].
      destruct (offer_grants w1 c1 Hw1 Hc1) as (Eid & Hcount1 & _).
      destruct (Hmin w1 c1 Hw1 Hc1) as [Hlt|(Heq & Hle & _)]; [left; lia|right].
      split; [lia|]. destruct (offer_grants w c Hw Ho) as (<- & _). by rewrite <- Eid.
  - pose proof (select_preferred_find ex ws) as Hfind.
    unfold selectWorkstationCandidate. destruct (String.eqb_spec pref "") as [|_]; [done|]. simpl.
    destruct (decide (pref ∈ wk_ID <$> ws)) as [Hin|Hn].
    + apply list_elem_of_fmap in Hin as (w & -> & Hw).
      rewrite Hfind by (done || apply schedulable_NoDup).
      destruct (offer ex w) as [c|] eqn:Ho.
      * destruct (offer_grants w c Hw Ho) as (-> & _ & Hav & Hl). by apply grants_requested.
      * apply refuses_target_full; [done| |].
        -- exists (wk_PoolSize w). apply lookup_pools. eauto.
        -- intros s [c Hc]%(available_offer w s Hw). congruence.
    + rewrite select_preferred_absent by done.
      apply refuses_target_unavailable; [done|by rewrite pools_empty|].
      destruct (pools al !! pref) as [n|] eqn:E; [|done]. exfalso.
      apply lookup_pools in E as (w & Hw & <- & _). apply Hn. by apply list_elem_of_fmap_2.
Qed.
End Refinement.

Lemma take_slot_insert cutoff t s :
  workstations t !! ws_ID s = None →
  allocator_of cutoff (set_workstations <[ws_ID s := s]> t) =
  take_slot (allocator_of cutoff t) (ws_WorkerID s) (ws_Slot s).
Proof.
  intros Hnew. unfold allocator_of, take_slot. simpl. f_equal. apply set_eq. intros p.
  rewrite elem_of_union, elem_of_singleton, !elem_of_list_to_set, !list_elem_of_fmap.
  setoid_rewrite rows_insert; [|done]. setoid_rewrite elem_of_cons. naive_solver.
Qed.

(** The row a claim adds: the member's, starting, wanted running, with nothing
    known of it yet. *)
Definition fresh_workstation (dbnow : Z) (uuid memberID : string) (s : Workstation) : Prop :=
  ws_ID s = uuid ∧ ws_MemberID s = memberID ∧ ws_VMName s = generateWorkstationVMName uuid ∧
  ws_PowerState s = WorkstationPowerStateStarting ∧
  ws_DesiredPowerState s = WorkstationDesiredPowerStateRunning ∧
  ws_IPAddress s = ""%string ∧ ws_LastError s = ""%string ∧
  ws_CreatedAt s = dbnow ∧ ws_UpdatedAt s = dbnow.

(** The outcome of a claim, as a relation between the allocator before and what
    the method returns and leaves. *)
Definition claim_outcome (cutoff dbnow : Z) (uuid memberID pref : string) (t : Tables)
    (run : (Error + (Workstation * bool)) * World) : Prop :=
  match run with
  | (inr (s, created), w') =>
      created = true ∧ fresh_workstation dbnow uuid memberID s ∧
      grants (allocator_of cutoff t) pref (ws_WorkerID s) (ws_Slot s) ∧
      w' = calm (set_workstations <[uuid := s]> t) ∧
      allocator_of cutoff (durable w') =
        take_slot (allocator_of cutoff t) (ws_WorkerID s) (ws_Slot s)
  | (inl e, w') => refuses (allocator_of cutoff t) pref e ∧ w' = calm t
  end.

Lemma claim_run `{!Collation} gonow dbnow uuid memberID pref t :
  wf_tables t → is_Some (members t !! memberID) → workstations t !! uuid = None →
  (∀ i s, workstations t !! i = Some s → ws_VMName s ≠ generateWorkstationVMName uuid) →
  claim_outcome (gonow - 30 * Second) dbnow uuid memberID pref t
    (ClaimWorkstation gonow dbnow uuid memberID pref (calm t)).
Proof.
  intros Hwf Hm Hnew Hvm. set (cutoff := gonow - 30 * Second).
  pose proof (Claim_settles gonow dbnow uuid memberID pref t) as Hrun. unfold settles in Hrun.
  rewrite Hrun. clear Hrun. unfold claim_outcome, claim_decision. fold cutoff. case_bool_decide as He.
  { split; [|done]. by apply refuses_no_workers, pools_empty. }
  pose proof (select_refines cutoff t Hwf pref He) as Hsel.
  destruct (selectWorkstationCandidate _ _ pref) as [e|c] eqn:Ec; [by split|].
  apply select_valid in Ec as (w & Hw & Hid & [Hslot Hfree]).
  apply schedulable_worker in Hw as [Hw _]; [|done].
  set (s := new_workstation dbnow uuid memberID (cand_workerID c) (cand_slot c)).
  rewrite (insert_workstation_ok s).
  - split; [done|]. split; [done|]. split; [done|]. split; [done|]. by apply take_slot_insert.
  - pose proof (wf_worker_pool _ Hwf _ _ Hw) as Hp. unfold in_int4 in *.
    rewrite bool_decide_eq_true in *. simpl. lia.
  - simpl; lia.
  - done.
  - done.
  - exists w. simpl. by rewrite <- Hid.
  - intros i r Hr. split; [|by eapply Hvm]. intros [E1 E2]. simpl in *.
    enough (occupied_at (occupied_of (listAllocatedSlots t) (cand_workerID c)) (cand_slot c) = true)
      by congruence.
    apply listAllocatedSlots_spec. eauto.
Qed.

(** C1. Claiming implements the abstract allocator.  On a well-formed database,
    for a member that exists, an unused identifier and an unused machine name,
    [ClaimWorkstation] either inserts one new workstation of the member in a slot
    the allocator grants (within the pool of an active worker heard of within the
    last thirty seconds, not in use, the lowest such slot of the requested worker or
    of the least loaded one), reports it as created and changes nothing else, or
    refuses for one of the allocator's four reasons and leaves the database
    unchanged.  Workstations the member already holds play no part: they are
    neither resumed nor moved, which is not what docs/api.md says (see
    [claim_adds_another]). *)
Theorem claim_refines `{!Collation} gonow dbnow uuid memberID pref t :
  wf_tables t → is_Some (members t !! memberID) → workstations t !! uuid = None →
  (∀ i s, workstations t !! i = Some s → ws_VMName s ≠ generateWorkstationVMName uuid) →
  claim_outcome (gonow - 30 * Second) dbnow uuid memberID pref t
    (ClaimWorkstation gonow dbnow uuid memberID pref (calm t)).
Proof. apply claim_run. Qed.

(** A member who holds a workstation and claims again is given another one; the
    one they hold stays as it was.  (docs/api.md: it is resumed and returned, or
    moved to the requested worker.) *)
Theorem claim_adds_another `{!Collation} gonow dbnow uuid memberID pref t held s created w' :
  wf_tables t → workstations t !! ws_ID held = Some held → ws_MemberID held = memberID →
  workstations t !! uuid = None →
  (∀ i r, workstations t !! i = Some r → ws_VMName r ≠ generateWorkstationVMName uuid) →
  ClaimWorkstation gonow dbnow uuid memberID pref (calm t) = (inr (s, created), w') →
  created = true ∧ ws_ID s ≠ ws_ID held ∧
  workstations (durable w') !! ws_ID held = Some held ∧ workstations (durable w') !! ws_ID s = Some s.
Proof.
  intros Hwf Hheld Hm Hnew Hvm Hrun.
  assert (is_Some (members t !! memberID)) as Hmem by (subst; by eapply wf_ws_member).
  pose proof (claim_run gonow dbnow uuid memberID pref t Hwf Hmem Hnew Hvm) as Ho. rewrite Hrun in Ho.
  destruct Ho as (-> & (Hid & _) & _ & -> & _). simpl. rewrite Hid.
  assert (uuid ≠ ws_ID held) as Hne by congruence.
  split; [done|]. split; [done|]. by rewrite lookup_insert_ne, lookup_insert_eq.
Qed.

(** The sample database at an instant when both machines are alive: the member
    holds slot 0 of the first one, so the next claim goes to the second. *)
Lemma claim_refines_witness :
  wf_tables Sample.tables ∧
  (ClaimWorkstation (H := C_collation) 2000 2000 "id-2" "m-bob" "" (calm Sample.tables)).1 =
    inr (new_workstation 2000 "id-2" "m-bob" (wk_ID Sample.mac2) 0, true) ∧
  grants (allocator_of (2000 - 30 * Second) Sample.tables) "" (wk_ID Sample.mac2) 0.
Proof.
  split; [exact Sample.wf_sample|].
  pose proof (claim_refines (H := C_collation) 2000 2000 "id-2" "m-bob" "" Sample.tables
    Sample.wf_sample ltac:(eexists; vm_compute; reflexivity) ltac:(vm_compute; reflexivity)) as H.
  split; [vm_compute; reflexivity|].
  assert (∃ w', ClaimWorkstation (H := C_collation) 2000 2000 "id-2" "m-bob" "" (calm Sample.tables) =
    (inr (new_workstation 2000 "id-2" "m-bob" (wk_ID Sample.mac2) 0, true), w')) as [w' E]
    by (eexists; vm_compute; reflexivity).
  rewrite E in H. destruct H as (_ & _ & H & _); [|exact H].
  intros i s Hs. apply Sample.only_workstation in Hs as ->. vm_compute. discriminate.
Defined.
