(* ===== verification/Workers.v ===== *)
(** * Workers ([internal/db/postgres.go], [internal/db/worker_auth.go])

    Registration, heartbeats, hostname assignment and worker tokens.  Random
    bytes are an argument ([None]: the generator failed). *)

From stdpp Require Import gmap strings list sorting.
From Stdlib Require Import ZArith Lia Ascii.
From S2P Require Import Prelude GoStrings Encoding Model Database Schema.

Local Open Scope Z_scope.

(** ** Row updates *)

Definition worker_registered (dbnow : Z) (new old : Worker) : Worker :=
  mkWorker (wk_ID old) (wk_Hostname new) (wk_HardwareUUID old) (wk_CPUCores new)
    (wk_MemoryBytes new) (wk_TartVersion new) (wk_WorkerVersion new) (wk_PoolSize old)
    (wk_BaseImage old) WorkerStatusActive (wk_RegisteredAt old) (Some dbnow)
    (wk_AuthTokenHash old) (wk_AuthTokenLastUsedAt old) (wk_AuthTokenRevokedAt old).

Definition worker_with_status (st : WorkerStatus) (hb : option Z) (w : Worker) : Worker :=
  mkWorker (wk_ID w) (wk_Hostname w) (wk_HardwareUUID w) (wk_CPUCores w) (wk_MemoryBytes w)
    (wk_TartVersion w) (wk_WorkerVersion w) (wk_PoolSize w) (wk_BaseImage w) st
    (wk_RegisteredAt w) hb (wk_AuthTokenHash w) (wk_AuthTokenLastUsedAt w)
    (wk_AuthTokenRevokedAt w).

Definition worker_with_hostname (h : string) (w : Worker) : Worker :=
  mkWorker (wk_ID w) h (wk_HardwareUUID w) (wk_CPUCores w) (wk_MemoryBytes w)
    (wk_TartVersion w) (wk_WorkerVersion w) (wk_PoolSize w) (wk_BaseImage w) (wk_Status w)
    (wk_RegisteredAt w) (wk_LastHeartbeat w) (wk_AuthTokenHash w) (wk_AuthTokenLastUsedAt w)
    (wk_AuthTokenRevokedAt w).

Definition worker_with_token (hash : option string) (used revoked : option Z) (w : Worker) : Worker :=
  mkWorker (wk_ID w) (wk_Hostname w) (wk_HardwareUUID w) (wk_CPUCores w) (wk_MemoryBytes w)
    (wk_TartVersion w) (wk_WorkerVersion w) (wk_PoolSize w) (wk_BaseImage w) (wk_Status w)
    (wk_RegisteredAt w) (wk_LastHeartbeat w) hash used revoked.

(** [INSERT INTO workers ... ON CONFLICT (id) DO UPDATE SET ...].  A conflict on
    [hardware_uuid] with a different id is not covered by the clause. *)
Definition upsert_worker_row (w : Worker) (merge : Worker → Worker) : Statement unit := λ t,
  if negb (in_int4 (wk_CPUCores w) && in_int4 (wk_PoolSize w))
  then inl (PgError NumericOutOfRange)
  else match workers t !! wk_ID w with
       | Some old => inr (tt, set_workers <[wk_ID w := merge old]> t)
       | None =>
           if bool_decide (is_Some (find_row
                (λ r, bool_decide (wk_HardwareUUID r = wk_HardwareUUID w)) (workers t)))
           then inl (PgError UniqueViolation)
           else inr (tt, set_workers <[wk_ID w := w]> t)
       end.

Definition UpsertWorker (dbnow : Z) (w : Worker) : DB unit :=
  pool_exec (upsert_worker_row
    (mkWorker (wk_ID w) (wk_Hostname w) (wk_HardwareUUID w) (wk_CPUCores w) (wk_MemoryBytes w)
       (wk_TartVersion w) (wk_WorkerVersion w) (wk_PoolSize w) (wk_BaseImage w)
       WorkerStatusActive dbnow None None None None)
    (worker_registered dbnow w)).

Definition UpdateHeartbeat (dbnow : Z) (workerID : string) : DB unit :=
  pool_exec (update (set_workers
    (alter (worker_with_status WorkerStatusActive (Some dbnow)) workerID))).

Definition SetWorkerOffline (workerID : string) : DB unit :=
  pool_exec (update (set_workers
    (alter (λ w, worker_with_status WorkerStatusOffline (wk_LastHeartbeat w) w) workerID))).

(** [ORDER BY hostname]. *)
Definition by_hostname `{!Collation} (a b : Worker) : Prop :=
  text_le (wk_Hostname a) (wk_Hostname b).
#[export] Instance by_hostname_dec `{!Collation} : RelDecision by_hostname.
Proof. intros a b. unfold by_hostname. apply _. Defined.

(** The columns the query selects: not the token columns, which stay [nil]. *)
Definition ListWorkers `{!Collation} : DB (list Worker) :=
  pool_exec (select (λ t, worker_with_token None None None <$>
                          merge_sort by_hostname (rows (workers t)))).

(** ** Hostnames *)

(** [CASE WHEN hostname ~ '^mac-\d+$' THEN CAST(... AS INT) ELSE 0 END]. *)
Definition hostname_number (h : string) : Error + Z :=
  match CutPrefix h "mac-" with
  | None => inr 0
  | Some digits =>
      match parse_digits digits with
      | None => inr 0
      | Some n => if n <=? int4_max then inr n else inl (PgError NumericOutOfRange)
      end
  end.

(** [COALESCE(MAX(...), 0)] over the rows. *)
Fixpoint max_hostname (l : list Worker) : Error + Z :=
  match l with
  | [] => inr 0
  | w :: l' =>
      match hostname_number (wk_Hostname w), max_hostname l' with
      | inr n, inr m => inr (Z.max n m)
      | inl e, _ | _, inl e => inl e
      end
  end.

Definition next_hostname_number : Statement Z := λ t,
  match max_hostname (rows (workers t)) with
  | inl e => inl e
  | inr m => if m + 1 <=? int4_max then inr (m + 1, t) else inl (PgError NumericOutOfRange)
  end.

Definition hostname_of (n : Z) : string := "mac-" +:+ itoa n.

Definition by_hardware_uuid (hardwareUUID : string) (t : Tables) : option Worker :=
  find_row (λ w, bool_decide (wk_HardwareUUID w = hardwareUUID)) (workers t).

Definition placeholder_worker (dbnow : Z) (id hostname hardwareUUID : string) : Worker :=
  mkWorker id hostname hardwareUUID 0 0 "" "" 2 "minictl-tahoe-base" WorkerStatusOffline dbnow
    None None None None.

Definition AssignHostname (dbnow : Z) (hardwareUUID : string) : DB string :=
  _ ← BeginTx;
  _ ← tx_exec (select (λ _, ())); (* pg_advisory_xact_lock *)
  known ← try (tx_exec (select_row (λ t, wk_Hostname <$> by_hardware_uuid hardwareUUID t)));
  match known with
  | inr hostname => _ ← Commit; mret hostname
  | inl err =>
      if negb (IsNotFound err) then throw err
      else
        nextNum ← tx_exec next_hostname_number;
        let hostname := hostname_of nextNum in
        let workerID := GenerateWorkerID hardwareUUID in
        _ ← tx_exec (upsert_worker_row
              (placeholder_worker dbnow workerID hostname hardwareUUID)
              (worker_with_hostname hostname));
        _ ← Commit;
        mret hostname
  end.

(** ** Tokens *)

Definition GenerateWorkerToken (random : option (list Z)) : Error + string :=
  match random with
  | None => inl (ErrText "generate worker token")
  | Some tokenBytes => inr ("wkt_"%string +:+ hex_encode tokenBytes)
  end.

Definition HashWorkerToken (token : string) : string := hex_encode (Sum256 token).

Definition GetWorkerByHardwareUUID (hardwareUUID : string) : DB Worker :=
  pool_exec (select_row (by_hardware_uuid hardwareUUID)).

Definition holds_token (hash : string) (w : Worker) : bool :=
  bool_decide (wk_AuthTokenHash w = Some hash) && bool_decide (wk_AuthTokenRevokedAt w = None).

Definition AuthenticateWorkerToken (token : string) : DB Worker :=
  pool_exec (select_row (λ t, find_row (holds_token (HashWorkerToken token)) (workers t))).

Definition TouchWorkerTokenUsage (dbnow : Z) (workerID : string) : DB unit :=
  pool_exec (update (set_workers (alter
    (λ w, worker_with_token (wk_AuthTokenHash w) (Some dbnow) (wk_AuthTokenRevokedAt w) w)
    workerID))).

Definition IssueWorkerToken (dbnow : Z) (random : option (list Z)) (workerID : string) : DB string :=
  token ← lift (GenerateWorkerToken random);
  _ ← pool_exec (update (set_workers (alter
        (worker_with_token (Some (HashWorkerToken token)) (Some dbnow) None) workerID)));
  mret token.

(** ** The invariant is kept *)

Lemma alter_insert {V} (f : V → V) (m : gmap string V) i v :
  m !! i = Some v → alter f i m = <[i := f v]> m.
Proof.
  intros Hi. apply map_eq. intros j. destruct (decide (i = j)) as [<-|].
  - by rewrite lookup_alter_eq, lookup_insert_eq, Hi.
  - by rewrite lookup_alter_ne, lookup_insert_ne.
Qed.

Lemma alter_worker_wf f i t :
  (∀ w, wk_ID (f w) = wk_ID w ∧ wk_HardwareUUID (f w) = wk_HardwareUUID w ∧
        wk_PoolSize (f w) = wk_PoolSize w) →
  wf_tables t → wf_tables (set_workers (alter f i) t).
Proof.
  intros Hf Hwf. destruct (workers t !! i) as [w|] eqn:E.
  - destruct (Hf w) as (? & ? & ?). unfold set_workers. erewrite alter_insert by done.
    by apply (wf_put_worker t i w (f w)).
  - unfold set_workers. rewrite alter_id by congruence. by destruct t.
Qed.

Lemma upsert_worker_wf w merge t a t' :
  wk_ID w = GenerateWorkerID (wk_HardwareUUID w) →
  (∀ old, wk_ID (merge old) = wk_ID old ∧ wk_HardwareUUID (merge old) = wk_HardwareUUID old ∧
          wk_PoolSize (merge old) = wk_PoolSize old) →
  wf_tables t → upsert_worker_row w merge t = inr (a, t') → wf_tables t'.
Proof.
  intros Hid Hmerge Hwf. unfold upsert_worker_row.
  destruct (negb _) eqn:Hint; [done|]. to_prop.
  destruct (workers t !! wk_ID w) as [old|] eqn:E.
  - intros [= _ <-]. destruct (Hmerge old) as (? & ? & ?). by eapply wf_put_worker.
  - case_bool_decide; [done|]. intros [= _ <-]. by apply wf_new_worker.
Qed.

Lemma UpsertWorker_keeps dbnow w :
  wk_ID w = GenerateWorkerID (wk_HardwareUUID w) → keeps wf_tables (UpsertWorker dbnow w).
Proof.
  intros Hid. apply keeps_pool. intros t a t' Hwf. by apply upsert_worker_wf.
Qed.

Lemma worker_update_keeps f i :
  (∀ w, wk_ID (f w) = wk_ID w ∧ wk_HardwareUUID (f w) = wk_HardwareUUID w ∧
        wk_PoolSize (f w) = wk_PoolSize w) →
  keeps wf_tables (pool_exec (update (set_workers (alter f i)))).
Proof. intros Hf. apply keeps_pool. intros t a t' Hwf H. sql_inv. by apply alter_worker_wf. Qed.

Lemma IssueWorkerToken_keeps dbnow random i : keeps wf_tables (IssueWorkerToken dbnow random i).
Proof.
  unfold IssueWorkerToken. apply keeps_bind; [auto with minis|]. intros token.
  apply keeps_bind; [by apply worker_update_keeps|auto with minis].
Qed.

Lemma AssignHostname_triple dbnow hw :
  triple wf_tables (λ _, True) (AssignHostname dbnow hw) (λ _, wf_tables).
Proof.
  unfold AssignHostname. do 2 (db_step; [db_step|]). db_step; [db_step|]. db_step; [db_step; [db_step|]|].
  - db_step; [apply (triple_tx _ _ _ (λ _, wf_tables))|].
    + intros t n t' [[Hwf _] _]. unfold next_hostname_number.
      destruct (max_hostname _); [done|]. case_match; [|done]. by intros [= _ <-].
    + db_step; [apply (triple_tx _ _ _ (λ _, wf_tables))|].
      * intros t u t' Hwf. by apply upsert_worker_wf.
      * db_step; [by db_step|by db_step].
  - db_step; [by db_step; intros ? [[]]|by db_step; intros ? [[]]].
Qed.

(** ** Hostname assignment *)

Definition assign_decision (dbnow : Z) (hw : string) (t : Tables) : Error + (string * Tables) :=
  match by_hardware_uuid hw t with
  | Some w => inr (wk_Hostname w, t)
  | None =>
      match next_hostname_number t with
      | inl e => inl e
      | inr (n, _) =>
          match upsert_worker_row
                  (placeholder_worker dbnow (GenerateWorkerID hw) (hostname_of n) hw)
                  (worker_with_hostname (hostname_of n)) t with
          | inl e => inl e
          | inr (_, t') => inr (hostname_of n, t')
          end
      end
  end.

Lemma next_hostname_number_reads t n t' : next_hostname_number t = inr (n, t') → t' = t.
Proof.
  unfold next_hostname_number. destruct (max_hostname _); [done|]. case_match; [|done].
  by intros [= _ <-].
Qed.

Lemma AssignHostname_settles dbnow hw t :
  settles (AssignHostname dbnow hw) t (assign_decision dbnow hw t).
Proof.
  unfold settles, AssignHostname, assign_decision. run_db.
  destruct (by_hardware_uuid hw t) as [w|]; simpl; run_db; [done|].
  destruct (next_hostname_number t) as [e|[n t1]] eqn:En; run_db; [done|].
  apply next_hostname_number_reads in En as ->.
  destruct (upsert_worker_row _ _ t) as [e|[u t2]]; by run_db.
Qed.

Lemma max_hostname_bound l m :
  max_hostname l = inr m →
  0 ≤ m ∧ ∀ w, w ∈ l → ∃ n, hostname_number (wk_Hostname w) = inr n ∧ n ≤ m.
Proof.
  revert m. induction l as [|w l IH]; intros m; simpl.
  { intros [= <-]. split; [done|]. intros w Hw. by apply elem_of_nil in Hw. }
  destruct (hostname_number (wk_Hostname w)) as [|n] eqn:En; [done|].
  destruct (max_hostname l) as [|m'] eqn:Em; [done|]. intros [= <-].
  destruct (IH m' eq_refl) as [Hpos Hall]. split; [lia|].
  intros w' [->|Hw']%elem_of_cons; [exists n; split; [done|lia]|].
  destruct (Hall w' Hw') as (n' & ? & ?). exists n'. split; [done|lia].
Qed.

Lemma max_hostname_error l e : max_hostname l = inl e → e = PgError NumericOutOfRange.
Proof.
  induction l as [|w l IH]; simpl; [done|]. unfold hostname_number.
  repeat case_match; naive_solver.
Qed.

Lemma hostname_number_of n : 0 ≤ n → n ≤ int4_max → hostname_number (hostname_of n) = inr n.
Proof.
  intros Hpos Hmax. unfold hostname_number, hostname_of.
  rewrite (proj2 (CutPrefix_Some _ "mac-" (itoa n))) by done.
  rewrite parse_digits_itoa by done. destruct (Z.leb_spec n int4_max); [done|lia].
Qed.

Lemma next_hostname_fresh t n t' i w :
  next_hostname_number t = inr (n, t') → workers t !! i = Some w →
  wk_Hostname w ≠ hostname_of n ∧ 0 < n ≤ int4_max.
Proof.
  unfold next_hostname_number. destruct (max_hostname _) as [|m] eqn:Em; [done|].
  destruct (Z.leb_spec (m + 1) int4_max); [|done]. intros [= <- _] Hw.
  apply max_hostname_bound in Em as [Hpos Hall].
  destruct (Hall w) as (k & Hk & Hle); [apply elem_of_rows; eauto|].
  split; [|lia]. intros E. rewrite E, hostname_number_of in Hk by lia. simplify_eq. lia.
Qed.

Lemma by_hardware_uuid_Some t hw w :
  wf_tables t → by_hardware_uuid hw t = Some w ↔
  workers t !! GenerateWorkerID hw = Some w ∧ wk_HardwareUUID w = hw.
Proof.
  intros Hwf. unfold by_hardware_uuid. split.
  - intros [HP [k Hk]]%find_row_Some. to_prop. subst.
    by rewrite <- (wf_worker_id _ Hwf _ _ Hk).
  - intros [Hk <-]. eapply find_row_unique; [done|by apply bool_decide_eq_true|].
    intros k' w' Hk' HP. to_prop. rewrite (wf_worker_id _ Hwf _ _ Hk'), HP in Hk'. congruence.
Qed.

(** C17. Hostname assignment.  A known machine gets back the hostname it has,
    and nothing changes.  An unknown one gets a hostname that no worker has,
    recorded on the row of its worker id while every other row is kept; the
    only other outcome is that the numbering of "mac-N" has left the range of a
    PostgreSQL integer, and then nothing changes. *)
Theorem AssignHostname_spec dbnow hw t :
  wf_tables t →
  match AssignHostname dbnow hw (calm t) with
  | (inr h, w') =>
      (∃ w, by_hardware_uuid hw t = Some w ∧ h = wk_Hostname w ∧ durable w' = t) ∨
      (by_hardware_uuid hw t = None ∧
       (∀ i w, workers t !! i = Some w → wk_Hostname w ≠ h) ∧
       (∃ w, workers (durable w') !! GenerateWorkerID hw = Some w ∧ wk_Hostname w = h) ∧
       ∀ i, i ≠ GenerateWorkerID hw → workers (durable w') !! i = workers t !! i)
  | (inl e, w') =>
      by_hardware_uuid hw t = None ∧ e = PgError NumericOutOfRange ∧ durable w' = t
  end.
Proof.
  intros Hwf. pose proof (AssignHostname_settles dbnow hw t) as Hrun. unfold settles in Hrun.
  rewrite Hrun. clear Hrun. unfold assign_decision.
  destruct (by_hardware_uuid hw t) as [w|] eqn:Ehw; [left; by exists w|].
  destruct (next_hostname_number t) as [e|[n t1]] eqn:En.
  - split; [done|]. split; [|done]. revert En. unfold next_hostname_number.
    destruct (max_hostname _) as [e'|m] eqn:Em.
    + apply max_hostname_error in Em as ->. by intros [= <-].
    + destruct (m + 1 <=? int4_max); [done|]. by intros [= <-].
  - assert (∀ i w, workers t !! i = Some w → wk_Hostname w ≠ hostname_of n) as Hfresh.
    { intros i w Hw. by apply (next_hostname_fresh t n t1 i w). }
    unfold upsert_worker_row, placeholder_worker. cbn [wk_CPUCores wk_PoolSize wk_ID wk_HardwareUUID].
    change (negb (in_int4 0 && in_int4 2)) with false. cbv iota.
    destruct (workers t !! GenerateWorkerID hw) as [old|] eqn:Eold.
    + right. do 2 (split; [done|]). simpl. split; [|by intros; apply lookup_insert_ne].
      exists (worker_with_hostname (hostname_of n) old). by rewrite lookup_insert_eq.
    + rewrite bool_decide_false.
      2: { unfold by_hardware_uuid in Ehw. rewrite Ehw. by intros []. }
      right. do 2 (split; [done|]). simpl. split; [|by intros; apply lookup_insert_ne].
      eexists. by rewrite lookup_insert_eq.
Qed.

Definition mac1 : Worker := placeholder_worker 5 (GenerateWorkerID "HW-1") "mac-1" "HW-1".
Definition one_mac : Tables := set_workers <[wk_ID mac1 := mac1]> empty_tables.

Lemma wf_one_mac : wf_tables one_mac.
Proof. by apply wf_new_worker; [apply wf_empty|..]. Qed.

Lemma AssignHostname_spec_witness :
  wf_tables one_mac ∧
  (AssignHostname 7 "HW-2" (calm one_mac)).1 = inr "mac-2"%string ∧
  (∀ i w, workers one_mac !! i = Some w → wk_Hostname w ≠ "mac-2"%string).
Proof.
  split; [exact wf_one_mac|].
  pose proof (AssignHostname_spec 7 "HW-2" one_mac wf_one_mac) as H.
  destruct (AssignHostname 7 "HW-2" (calm one_mac)) as [r w'] eqn:E.
  assert (r = inr "mac-2"%string) as ->.
  { change r with ((r, w').1). rewrite <- E. vm_compute. reflexivity. }
  split; [reflexivity|].
  assert (by_hardware_uuid "HW-2" one_mac = None) as Hnone by (vm_compute; reflexivity).
  destruct H as [(w & Hw & _)|(_ & Hf & _)]; [rewrite Hnone in Hw; discriminate Hw|].
  exact Hf.
Defined.

(** C18. The numbering is unguarded: once some worker carries a hostname "mac-N"
    with N at least 2147483647 (any worker may register such a name), no new
    machine can be given a hostname any more. *)
Theorem hostname_exhaustion dbnow hw t i w n :
  workers t !! i = Some w → wk_Hostname w = hostname_of n → int4_max ≤ n →
  by_hardware_uuid hw t = None →
  AssignHostname dbnow hw (calm t) = (inl (PgError NumericOutOfRange), calm t).
Proof.
  intros Hw Hh Hn Hhw. pose proof (AssignHostname_settles dbnow hw t) as Hrun.
  unfold settles, assign_decision in Hrun. rewrite Hhw in Hrun. rewrite Hrun. clear Hrun.
  unfold next_hostname_number. destruct (max_hostname _) as [e|m] eqn:Em.
  { by apply max_hostname_error in Em as ->. }
  apply max_hostname_bound in Em as [_ Hall].
  destruct (Hall w) as (k & Hk & Hle); [apply elem_of_rows; eauto|].
  destruct (Z.leb_spec (m + 1) int4_max); [exfalso|done].
  rewrite Hh in Hk. unfold hostname_number, hostname_of in Hk.
  rewrite (proj2 (CutPrefix_Some _ "mac-" (itoa n))) in Hk by done.
  rewrite parse_digits_itoa in Hk by (unfold int4_max in *; lia).
  destruct (n <=? int4_max); simplify_eq. lia.
Qed.

Definition mac_last : Worker :=
  placeholder_worker 5 (GenerateWorkerID "HW-1") "mac-2147483647" "HW-1".

Lemma hostname_exhaustion_witness :
  let t := set_workers <[wk_ID mac_last := mac_last]> empty_tables in
  wk_Hostname mac_last = hostname_of 2147483647 ∧
  AssignHostname 7 "HW-2" (calm t) = (inl (PgError NumericOutOfRange), calm t).
Proof.
  split; [reflexivity|].
  apply (hostname_exhaustion 7 "HW-2" _ (wk_ID mac_last) mac_last 2147483647);
    [apply lookup_insert_eq|reflexivity|unfold int4_max; lia|vm_compute; reflexivity].
Defined.

(** ** Tokens *)

Lemma AuthenticateWorkerToken_run token d wk :
  AuthenticateWorkerToken token (quiet d wk) =
  (match find_row (holds_token (HashWorkerToken token)) (workers d) with
   | Some w => inr w
   | None => inl ErrNoRows
   end, quiet d wk).
Proof. unfold AuthenticateWorkerToken. run_db. by destruct (find_row _ _). Qed.

Lemma IssueWorkerToken_run dbnow bytes i w t wk :
  workers t !! i = Some w →
  let token := "wkt_"%string +:+ hex_encode bytes in
  IssueWorkerToken dbnow (Some bytes) i (quiet t wk) =
  (inr token,
   quiet (set_workers <[i := worker_with_token (Some (HashWorkerToken token)) (Some dbnow) None w]> t) wk).
Proof.
  intros Hw token. unfold IssueWorkerToken, GenerateWorkerToken, lift. run_db. unfold update. run_db.
  do 2 f_equal. unfold set_workers. f_equal. by apply alter_insert.
Qed.

Lemma holds_token_spec h w :
  holds_token h w = true ↔ wk_AuthTokenHash w = Some h ∧ wk_AuthTokenRevokedAt w = None.
Proof. unfold holds_token. by rewrite andb_true_iff, !bool_decide_eq_true. Qed.

(** C19. Issuing a token rotates the worker's credential: the new token
    authenticates exactly that worker, and no token whose hash differs from the
    new one's authenticates it any more, whatever it held before. *)
Theorem issue_rotates dbnow bytes i w t :
  wf_tables t → workers t !! i = Some w →
  (∀ j w', j ≠ i → workers t !! j = Some w' →
     wk_AuthTokenHash w' ≠ Some (HashWorkerToken ("wkt_" +:+ hex_encode bytes))) →
  match IssueWorkerToken dbnow (Some bytes) i (calm t) with
  | (inr token, w') =>
      token = "wkt_"%string +:+ hex_encode bytes ∧
      (∃ u, (AuthenticateWorkerToken token w').1 = inr u ∧ wk_ID u = i) ∧
      (∀ token' u, HashWorkerToken token' ≠ HashWorkerToken token →
         (AuthenticateWorkerToken token' w').1 = inr u → wk_ID u ≠ i)
  | (inl _, _) => False
  end.
Proof.
  intros Hwf Hw Hother. pose proof (IssueWorkerToken_run dbnow bytes i w t t Hw) as Hrun.
  cbv zeta in Hrun. rewrite calm_quiet, Hrun. clear Hrun. split; [done|].
  setoid_rewrite AuthenticateWorkerToken_run. cbn [fst workers set_workers].
  set (token := "wkt_"%string +:+ hex_encode bytes) in *.
  set (u := worker_with_token (Some (HashWorkerToken token)) (Some dbnow) None w).
  assert (∀ k v, <[i := u]> (workers t) !! k = Some v →
    holds_token (HashWorkerToken token) v = true → v = u) as Huniq.
  { intros k v [[<- <-]|[Hne Hk]]%lookup_insert_Some [Hh _]%holds_token_spec; [done|].
    by destruct (Hother k v). }
  split.
  - exists u. rewrite (find_row_unique _ _ i u); [|apply lookup_insert_eq|by apply holds_token_spec|done].
    split; [done|]. change (wk_ID w = i). by apply (wf_worker_key _ Hwf).
  - intros token' v Hne. destruct (find_row _ _) as [v'|] eqn:E; [|done]. intros [= ->] Hi.
    apply find_row_Some in E as [[Hh _]%holds_token_spec [k Hk]].
    apply lookup_insert_Some in Hk as [[<- <-]|[Hki Hk]]; [simpl in Hh; congruence|].
    apply (wf_worker_key _ Hwf) in Hk. congruence.
Qed.

Lemma issue_rotates_witness :
  let t := one_mac in let i := wk_ID mac1 in let b := [1; 2; 3] in
  workers t !! i = Some mac1 ∧
  match IssueWorkerToken 9 (Some b) i (calm t) with
  | (inr token, w') =>
      token = "wkt_"%string +:+ hex_encode b ∧
      (∃ u, (AuthenticateWorkerToken token w').1 = inr u ∧ wk_ID u = i) ∧
      (∀ token' u, HashWorkerToken token' ≠ HashWorkerToken token →
         (AuthenticateWorkerToken token' w').1 = inr u → wk_ID u ≠ i)
  | (inl _, _) => False
  end.
Proof.
  intros t i b. assert (workers t !! i = Some mac1) as Hi by apply lookup_insert_eq.
  split; [exact Hi|]. apply (issue_rotates 9 b i mac1 t wf_one_mac Hi).
  intros j w' Hj Hw'. unfold t, one_mac, set_workers in Hw'. cbn [workers] in Hw'.
  rewrite lookup_insert_ne in Hw' by (intros E; apply Hj; symmetry; exact E). simpl in Hw'. rewrite lookup_empty in Hw'. discriminate.
Defined.
