(* ===== verification/Catalog.v ===== *)
(** * Members, virtual machines and releases
      ([internal/db/members.go], the VM part of [internal/db/postgres.go],
       [internal/db/releases.go])

    Identifiers generated by the server ([gen_random_uuid()]) are arguments. *)

From stdpp Require Import gmap strings list sorting.
From Stdlib Require Import ZArith Lia.
From S2P Require Import Prelude GoStrings Encoding Model Database Schema.

Local Open Scope Z_scope.

(** ** Members *)

Definition by_access_sub (accessSub : string) (t : Tables) : option Member :=
  find_row (λ m, bool_decide (mb_AccessSub m = accessSub)) (members t).

(** The part of the address before the first "@", unless that is empty. *)
Definition display_name (email : string) : string :=
  match Cut email "@" with
  | Some (local, _) => if String.eqb local "" then email else local
  | None => email
  end.

Definition member_seen (dbnow : Z) (email : string) (m : Member) : Member :=
  mkMember (mb_ID m) (mb_AccessSub m) email (mb_DisplayName m) (mb_Role m) (mb_CreatedAt m)
    dbnow dbnow.

(** [INSERT INTO members ... ON CONFLICT (access_sub) DO UPDATE ... RETURNING]. *)
Definition upsert_member_row (dbnow : Z) (newID accessSub email displayName : string) :
    Statement Member := λ t,
  match by_access_sub accessSub t with
  | Some m =>
      let m' := member_seen dbnow email m in
      inr (m', set_members <[mb_ID m := m']> t)
  | None =>
      if bool_decide (is_Some (members t !! newID)) then inl (PgError UniqueViolation)
      else
        let m := mkMember newID accessSub email displayName "member" dbnow dbnow dbnow in
        inr (m, set_members <[newID := m]> t)
  end.

Definition UpsertMemberFromAccess (dbnow : Z) (newID accessSub email : string) : DB Member :=
  pool_exec (upsert_member_row dbnow newID accessSub email (display_name email)).

Definition GetMemberByAccessSub (accessSub : string) : DB Member :=
  pool_exec (select_row (by_access_sub accessSub)).

Lemma by_access_sub_Some t sub m :
  wf_tables t → by_access_sub sub t = Some m ↔
  members t !! mb_ID m = Some m ∧ mb_AccessSub m = sub.
Proof.
  intros Hwf. unfold by_access_sub. split.
  - intros [HP [k Hk]]%find_row_Some. to_prop. by rewrite (wf_member_key _ Hwf _ _ Hk).
  - intros [Hk <-]. eapply find_row_unique; [done|by apply bool_decide_eq_true|].
    intros k' m' Hk' HP. to_prop. assert (k' = mb_ID m) as -> by by eapply (wf_member_sub _ Hwf).
    congruence.
Qed.

Lemma UpsertMember_keeps dbnow newID sub email :
  keeps wf_tables (UpsertMemberFromAccess dbnow newID sub email).
Proof.
  apply keeps_pool. intros t m t' Hwf. unfold upsert_member_row.
  destruct (by_access_sub sub t) as [old|] eqn:E.
  - intros [= _ <-]. apply by_access_sub_Some in E as [Hk Hs]; [|done].
    apply wf_put_member; [done|done|]. intros j m' Hj Es. simpl in Es.
    by eapply (wf_member_sub _ Hwf).
  - case_bool_decide; [done|]. intros [= _ <-]. apply wf_put_member; [done|done|].
    intros j m' Hj Es. simpl in Es. unfold by_access_sub in E. rewrite find_row_None in E.
    specialize (E _ _ Hj). to_prop. done.
Qed.

(** C20. Signing in is idempotent on identity: a second sign-in with the same
    Access subject, whatever the e-mail, returns the same member id, role and
    display name, updates the e-mail, and creates no second member. *)
Theorem upsert_member_stable now1 now2 id1 id2 sub email1 email2 t :
  wf_tables t →
  match UpsertMemberFromAccess now1 id1 sub email1 (calm t) with
  | (inr m1, w1) =>
      match UpsertMemberFromAccess now2 id2 sub email2 w1 with
      | (inr m2, w2) =>
          mb_ID m2 = mb_ID m1 ∧ mb_Role m2 = mb_Role m1 ∧
          mb_DisplayName m2 = mb_DisplayName m1 ∧ mb_CreatedAt m2 = mb_CreatedAt m1 ∧
          mb_Email m2 = email2 ∧ dom (members (durable w2)) = dom (members (durable w1))
      | (inl _, _) => False
      end
  | (inl e, w1) => e = PgError UniqueViolation ∧ durable w1 = t
  end.
Proof.
  intros Hwf. pose proof (UpsertMember_keeps now1 id1 sub email1 (calm t) Hwf) as Hwf1.
  revert Hwf1. unfold UpsertMemberFromAccess. run_db.
  destruct (upsert_member_row now1 id1 sub email1 _ t) as [e|[m1 t1]] eqn:E1; cbn [snd durable quiet].
  { intros _. split; [|done]. revert E1. unfold upsert_member_row. repeat case_match; congruence. }
  intros Hwf1. run_db.
  assert (members t1 !! mb_ID m1 = Some m1 ∧ mb_AccessSub m1 = sub) as Hm1.
  { revert E1. unfold upsert_member_row. destruct (by_access_sub sub t) as [old|] eqn:Eold.
    - intros [= <- <-]. apply by_access_sub_Some in Eold as [_ <-]; [|done].
      split; [apply lookup_insert_eq|done].
    - case_bool_decide; [done|]. intros [= <- <-]. split; [apply lookup_insert_eq|done]. }
  apply by_access_sub_Some in Hm1 as Hfind; [|done].
  unfold upsert_member_row. rewrite Hfind. repeat (split; [done|]).
  simpl. rewrite dom_insert_L. destruct Hm1 as [Hk _].
  apply elem_of_dom_2 in Hk. set_solver.
Qed.

Lemma upsert_member_stable_witness :
  wf_tables empty_tables ∧
  ∃ m1 w1 m2 w2,
    UpsertMemberFromAccess 1 "m-1" "sub-1" "user@example.com" (calm empty_tables) = (inr m1, w1) ∧
    UpsertMemberFromAccess 2 "m-2" "sub-1" "u@example.com" w1 = (inr m2, w2) ∧
    mb_ID m2 = mb_ID m1 ∧ mb_DisplayName m2 = "user"%string.
Proof.
  split; [exact wf_empty|].
  pose proof (upsert_member_stable 1 2 "m-1" "m-2" "sub-1" "user@example.com" "u@example.com"
                empty_tables wf_empty) as H.
  destruct (UpsertMemberFromAccess 1 "m-1" "sub-1" "user@example.com" (calm empty_tables))
    as [[e|m1] w1] eqn:E1; [vm_compute in E1; discriminate E1|].
  destruct (UpsertMemberFromAccess 2 "m-2" "sub-1" "u@example.com" w1) as [[e|m2] w2] eqn:E2;
    [destruct H|].
  exists m1, w1, m2, w2. destruct H as (Hid & _ & Hn & _). repeat split; try done.
  rewrite Hn. vm_compute in E1. by injection E1 as <- <-.
Defined.

(** ** Virtual machines (legacy table) *)

Definition vm_reported (dbnow : Z) (vm old : VM) : VM :=
  mkVM (vm_ID old) (vm_WorkerID old) (vm_State vm) (vm_IPAddress vm) dbnow (vm_CreatedAt old).

Definition upsert_vm_row (dbnow : Z) (vm : VM) : Statement unit := λ t,
  match vms t !! vm_ID vm with
  | Some old => inr (tt, set_vms <[vm_ID vm := vm_reported dbnow vm old]> t)
  | None =>
      if bool_decide (workers t !! vm_WorkerID vm = None) then inl (PgError ForeignKeyViolation)
      else inr (tt, set_vms <[vm_ID vm :=
             mkVM (vm_ID vm) (vm_WorkerID vm) (vm_State vm) (vm_IPAddress vm) dbnow dbnow]> t)
  end.

Definition UpsertVM (dbnow : Z) (vm : VM) : DB unit := pool_exec (upsert_vm_row dbnow vm).

Definition vm_with_state (dbnow : Z) (state : VMState) (vm : VM) : VM :=
  mkVM (vm_ID vm) (vm_WorkerID vm) state (vm_IPAddress vm) dbnow (vm_CreatedAt vm).

Definition UpdateVMState (dbnow : Z) (vmID : string) (state : VMState) : DB unit :=
  pool_exec (update (set_vms (alter (vm_with_state dbnow state) vmID))).

Definition DeleteVM (vmID : string) : DB unit :=
  pool_exec (update (set_vms (delete vmID))).

(** [DELETE FROM vms WHERE P]. *)
Definition delete_vms (P : VM → bool) (t : Tables) : Tables :=
  set_vms (filter (λ p, P p.2 = false)) t.

Definition SetWorkerVMsOffline (workerID : string) : DB unit :=
  pool_exec (update (delete_vms (λ v, bool_decide (vm_WorkerID v = workerID)))).

Definition vm_rows (P : VM → bool) (t : Tables) : list VM :=
  filter (λ v, P v = true) (rows (vms t)).

Definition collectVMIDsForWorker (workerID : string) : DB (list string) :=
  tx_exec (select (λ t, vm_ID <$> vm_rows (λ v, bool_decide (vm_WorkerID v = workerID)) t)).

Definition DeleteMissingVMsForWorker (workerID : string) (activeVMIDs : list string) :
    DB (list string) :=
  _ ← BeginTx;
  if bool_decide (activeVMIDs = []) then
    deleted ← collectVMIDsForWorker workerID;
    _ ← tx_exec (update (delete_vms (λ v, bool_decide (vm_WorkerID v = workerID))));
    _ ← Commit;
    mret deleted
  else
    deleted ← tx_exec (select (λ t, vm_ID <$>
      vm_rows (λ v, bool_decide (vm_WorkerID v = workerID)
                    && negb (bool_decide (vm_ID v ∈ activeVMIDs))) t));
    _ ← (if bool_decide (deleted = []) then mret tt
         else tx_exec (update (delete_vms (λ v, bool_decide (vm_ID v ∈ deleted)))));
    _ ← Commit;
    mret deleted.

Definition ListVMsByWorker (workerID : string) : DB (list VM) :=
  pool_exec (select (vm_rows (λ v, bool_decide (vm_WorkerID v = workerID)))).

Definition GetVM (vmID : string) : DB VM :=
  pool_exec (select_row (λ t, vms t !! vmID)).

(** [ORDER BY worker_id, state_since]. *)
Definition by_worker_since `{!Collation} (a b : VM) : Prop :=
  (text_le (vm_WorkerID a) (vm_WorkerID b) ∧ ¬ text_le (vm_WorkerID b) (vm_WorkerID a)) ∨
  (text_le (vm_WorkerID a) (vm_WorkerID b) ∧ vm_StateSince a ≤ vm_StateSince b).
#[export] Instance by_worker_since_dec `{!Collation} : RelDecision by_worker_since.
Proof. intros a b. unfold by_worker_since. apply _. Defined.

Definition ListAllVMs `{!Collation} : DB (list VM) :=
  pool_exec (select (λ t, merge_sort by_worker_since (rows (vms t)))).

(** ** Releases *)

Definition by_version (version : string) (t : Tables) : option Release :=
  find_row (λ r, bool_decide (rl_Version r = version)) (releases t).

Definition insert_release_row (r : Release) : Statement Release := λ t,
  if bool_decide (is_Some (releases t !! rl_ID r)) || bool_decide (is_Some (by_version (rl_Version r) t))
  then inl (PgError UniqueViolation)
  else inr (r, set_releases <[rl_ID r := r]> t).

(** The record receives its id and upload time; a unique violation becomes
    [ErrReleaseVersionExists]. *)
Definition InsertRelease (dbnow : Z) (newID : string) (r : Release) : DB Release :=
  res ← try (pool_exec (insert_release_row
    (mkRelease newID (rl_Version r) (rl_SHA256 r) (rl_SizeBytes r) (rl_SigningIdentity r)
       (rl_FilePath r) dbnow)));
  match res with
  | inr r' => mret r'
  | inl (PgError UniqueViolation) => throw ErrReleaseVersionExists
  | inl err => throw err
  end.

(** [ORDER BY uploaded_at DESC LIMIT 1]. *)
Definition latest_first (a b : Release) : Prop := rl_UploadedAt b ≤ rl_UploadedAt a.
#[export] Instance latest_first_dec : RelDecision latest_first.
Proof. intros a b. unfold latest_first. apply _. Defined.

Definition GetLatestRelease : DB Release :=
  pool_exec (select_row (λ t, head (merge_sort latest_first (rows (releases t))))).

Definition GetReleaseByVersion (version : string) : DB Release :=
  pool_exec (select_row (by_version version)).

(** ** The invariant is kept *)

Lemma UpsertVM_keeps dbnow vm : keeps wf_tables (UpsertVM dbnow vm).
Proof.
  apply keeps_pool. intros t a t' Hwf. unfold upsert_vm_row.
  destruct (vms t !! vm_ID vm) as [old|] eqn:E.
  - intros [= _ <-]. rewrite <- (wf_vm_key _ Hwf _ _ E).
    apply (wf_put_vm t (vm_reported dbnow vm old) Hwf), (wf_vm_worker _ Hwf _ _ E).
  - case_bool_decide as Hw; [done|]. intros [= _ <-].
    by apply (wf_put_vm t (mkVM _ _ _ _ dbnow dbnow) Hwf), not_eq_None_Some.
Qed.

Lemma UpdateVMState_keeps dbnow id st : keeps wf_tables (UpdateVMState dbnow id st).
Proof.
  apply keeps_pool. intros t a t' Hwf H. sql_inv.
  destruct (vms t !! id) as [v|] eqn:E.
  - replace (set_vms (alter (vm_with_state dbnow st) id) t)
      with (set_vms <[vm_ID (vm_with_state dbnow st v) := vm_with_state dbnow st v]> t).
    + apply wf_put_vm; [done|]. by apply (wf_vm_worker _ Hwf _ _ E).
    + unfold set_vms. f_equal. simpl. rewrite (wf_vm_key _ Hwf _ _ E). apply map_eq. intros j.
      destruct (decide (id = j)) as [<-|]; [by rewrite lookup_insert_eq, lookup_alter_eq, E|].
      by rewrite lookup_insert_ne, lookup_alter_ne.
  - unfold set_vms. rewrite alter_id by congruence. by destruct t.
Qed.

Lemma delete_vms_wf P t : wf_tables t → wf_tables (delete_vms P t).
Proof. intros Hwf. apply wf_remove_vms; [done|]. by intros i v [? _]%map_lookup_filter_Some. Qed.

Lemma DeleteVM_keeps id : keeps wf_tables (DeleteVM id).
Proof.
  apply keeps_pool. intros t a t' Hwf H. sql_inv. apply wf_remove_vms; [done|].
  by intros i v [_ ?]%lookup_delete_Some.
Qed.

Lemma SetWorkerVMsOffline_keeps w : keeps wf_tables (SetWorkerVMsOffline w).
Proof. apply keeps_pool. intros t a t' Hwf H. sql_inv. by apply delete_vms_wf. Qed.

Lemma DeleteMissing_keeps w ids : keeps wf_tables (DeleteMissingVMsForWorker w ids).
Proof.
  apply triple_keeps with (λ _, wf_tables).
  assert (∀ P (R : Tables → Prop), (∀ t, R t → wf_tables t) →
    triple wf_tables R (tx_exec (update (delete_vms P))) (λ _, wf_tables)) as Hd.
  { intros P R HR. apply (triple_tx _ _ _ (λ _, wf_tables)). intros t u t' Ht H. sql_inv.
    by apply delete_vms_wf, HR. }
  unfold DeleteMissingVMsForWorker, collectVMIDsForWorker. db_step; [db_step|]. db_step.
  - db_step; [db_step|]. db_step; [by apply Hd; intros ? []|]. db_step; [by db_step|by db_step].
  - db_step; [db_step|]. apply (triple_bind _ _ _ _ (λ _, wf_tables)); [db_step|intros ?].
    + db_step. by intros ? [].
    + by apply Hd; intros ? [].
    + db_step; [by db_step|by db_step].
Qed.

Lemma by_version_None t v :
  by_version v t = None ↔ ∀ i r, releases t !! i = Some r → rl_Version r ≠ v.
Proof.
  unfold by_version. rewrite find_row_None. by setoid_rewrite bool_decide_eq_false.
Qed.

Lemma InsertRelease_keeps dbnow newID r : keeps wf_tables (InsertRelease dbnow newID r).
Proof.
  unfold InsertRelease. apply keeps_bind.
  - apply keeps_try, keeps_pool. intros t a t' Hwf. unfold insert_release_row.
    destruct (_ || _) eqn:E; [done|]. intros [= _ <-]. to_prop.
    apply wf_new_release; [done|by apply eq_None_not_Some|].
    by apply by_version_None, eq_None_not_Some.
  - intros [e|r']; [|apply keeps_ret]. destruct e as [|[]| | | | | | | |]; apply keeps_throw.
Qed.

(** ** Reconciling the reported machines *)

Lemma delete_vms_ids (ids : list string) (P : VM → bool) t :
  (∀ v, v ∈ rows (vms t) → (vm_ID v ∈ ids ↔ P v = true)) →
  delete_vms (λ v, bool_decide (vm_ID v ∈ ids)) t = delete_vms P t.
Proof.
  intros Hiff. unfold delete_vms, set_vms. f_equal. apply map_filter_strong_ext_1.
  intros i v. simpl. split; intros [HP Hv]; (split; [|done]);
    (assert (v ∈ rows (vms t)) as Hr by (apply elem_of_rows; eauto)); specialize (Hiff v Hr).
  - to_prop. destruct (P v); [tauto|done].
  - apply bool_decide_eq_false. rewrite Hiff, HP. done.
Qed.

(** C21. Reconciliation removes exactly the worker's machines that are not
    reported active, and returns exactly their ids, in both branches of the
    code; machines of other workers are untouched. *)
Theorem DeleteMissing_spec workerID active t :
  wf_tables t →
  let gone v := bool_decide (vm_WorkerID v = workerID) && negb (bool_decide (vm_ID v ∈ active)) in
  DeleteMissingVMsForWorker workerID active (calm t) =
  (inr (vm_ID <$> vm_rows gone t), calm (delete_vms gone t)).
Proof.
  intros Hwf gone. unfold DeleteMissingVMsForWorker, collectVMIDsForWorker. run_db.
  case_bool_decide as Ha.
  - assert (∀ v, gone v = bool_decide (vm_WorkerID v = workerID)) as Hg.
    { intros v. unfold gone. subst active.
      rewrite (bool_decide_false (vm_ID v ∈ [])) by apply not_elem_of_nil. apply andb_true_r. }
    run_db. unfold update. run_db. unfold vm_rows, delete_vms, set_vms. do 3 f_equal.
    + f_equal. apply list_filter_iff. intros v. by rewrite Hg.
    + f_equal. apply map_filter_ext. intros i v _. simpl. by rewrite Hg.
    + apply map_filter_ext. intros i v _. simpl. by rewrite Hg.
  - run_db. set (ids := vm_ID <$> vm_rows gone t).
    assert (delete_vms (λ v, bool_decide (vm_ID v ∈ ids)) t = delete_vms gone t) as Hd.
    { apply delete_vms_ids. intros v [k Hk]%elem_of_rows. unfold ids, vm_rows.
      rewrite list_elem_of_fmap. setoid_rewrite list_elem_of_filter. split.
      - intros (v' & E & Hg & [k' Hk']%elem_of_rows).
        rewrite <- (wf_vm_key _ Hwf _ _ Hk) in Hk. rewrite <- (wf_vm_key _ Hwf _ _ Hk') in Hk'.
        rewrite E in Hk. by simplify_eq.
      - intros Hg. exists v. split; [done|]. split; [done|]. apply elem_of_rows. eauto. }
    case_bool_decide as Hids.
    + change (ids = []) in Hids. run_db. rewrite Hids in Hd.
      assert (delete_vms gone t = t) as ->; [|done].
      rewrite <- Hd. unfold delete_vms, set_vms. rewrite map_filter_id; [by destruct t|].
      intros i v _. apply bool_decide_eq_false, not_elem_of_nil.
    + unfold update. run_db.
      transitivity (inr (A := Error) ids, calm (delete_vms (λ v, bool_decide (vm_ID v ∈ ids)) t));
        [done|by rewrite Hd].
Qed.

Definition demo_vm (id : string) : VM := mkVM id (wk_ID Sample.mac1) VMStateReady "" 0 0.
Definition demo_vms : Tables :=
  set_vms <[vm_ID (demo_vm "a") := demo_vm "a"]>
    (set_vms <[vm_ID (demo_vm "b") := demo_vm "b"]> Sample.tables).

Lemma wf_demo_vms : wf_tables demo_vms.
Proof.
  repeat apply wf_put_vm; [exact Sample.wf_sample|..]; eexists; by vm_compute.
Qed.

Lemma DeleteMissing_spec_witness :
  wf_tables demo_vms ∧
  (DeleteMissingVMsForWorker (wk_ID Sample.mac1) ["b"] (calm demo_vms)).1 = inr ["a"].
Proof.
  split; [exact wf_demo_vms|].
  rewrite (DeleteMissing_spec (wk_ID Sample.mac1) ["b"] demo_vms wf_demo_vms). vm_compute. reflexivity.
Defined.
