(* ===== verification/Lifecycle.v ===== *)
(** * The life of a workstation

    Theorems about the transactional methods together: they are crash-atomic,
    a worker's report does exactly what each case of the code says, releasing a
    workstation and the worker's confirmation free its slot, and the desired
    state handed to a worker is complete and ordered. *)

From stdpp Require Import gmap strings list sorting.
From Stdlib Require Import ZArith Lia.
From S2P Require Import Prelude GoStrings Encoding Model Database Schema Scheduler.
From S2P Require Import Workstations Allocator Workers Catalog.

Local Open Scope Z_scope.

(** ** Atomicity *)

Section Atomic.
Context `{!Collation}.

Lemma Claim_atomic gonow dbnow uuid memberID pref :
  atomic (ClaimWorkstation gonow dbnow uuid memberID pref).
Proof. unfold ClaimWorkstation, insertWorkstation. repeat atomic_step. Qed.

Lemma claimExisting_reads_only dbnow s : reads_only (claimExistingWorkstation dbnow s).
Proof.
  unfold claimExistingWorkstation. destruct (ws_PowerState s); try (by auto with minis);
    case_bool_decide; auto with minis.
Qed.

Lemma Ensure_atomic dbnow memberID id :
  atomic (EnsureWorkstationRunningByIDForMember dbnow memberID id).
Proof.
  unfold EnsureWorkstationRunningByIDForMember. repeat atomic_step.
  apply atomic_bind; [apply claimExisting_reads_only|]. intros s. repeat atomic_step.
Qed.

Lemma UpdateDesired_atomic dbnow memberID id desired :
  atomic (UpdateWorkstationDesiredPowerStateByID dbnow memberID id desired).
Proof. unfold UpdateWorkstationDesiredPowerStateByID. repeat atomic_step. Qed.

Lemma UpdateStatus_atomic dbnow workerID report :
  atomic (UpdateWorkstationStatus dbnow workerID report).
Proof. unfold UpdateWorkstationStatus. repeat atomic_step. Qed.

Lemma AssignHostname_atomic dbnow hw : atomic (AssignHostname dbnow hw).
Proof. unfold AssignHostname. repeat atomic_step. Qed.

Lemma DeleteMissing_atomic w ids : atomic (DeleteMissingVMsForWorker w ids).
Proof.
  unfold DeleteMissingVMsForWorker, collectVMIDsForWorker. repeat atomic_step.
  apply atomic_bind; [case_bool_decide; auto with minis|]. intros _. repeat atomic_step.
Qed.


(** C10. Crash atomicity of the transactional methods: whatever statements fail,
    even when the reply to a commit is lost, a claim, a resume, a change of
    desired state, a status report, a hostname assignment and a reconciliation
    each leave the committed tables as they were or exactly as the fault-free
    run does, and report success only in the second case, with the fault-free
    result. *)
Theorem transactions_atomic d fs gonow dbnow uuid memberID pref id desired workerID report hw ids :
  let all_or_nothing {A} (m : DB A) :=
    (durable (m (mkWorld d d fs)).2 = d ∨
     durable (m (mkWorld d d fs)).2 = durable (m (calm d)).2) ∧
    (∀ a, (m (mkWorld d d fs)).1 = inr a →
       (m (calm d)).1 = inr a ∧ durable (m (mkWorld d d fs)).2 = durable (m (calm d)).2) in
  all_or_nothing (ClaimWorkstation gonow dbnow uuid memberID pref) ∧
  all_or_nothing (EnsureWorkstationRunningByIDForMember dbnow memberID id) ∧
  all_or_nothing (UpdateWorkstationDesiredPowerStateByID dbnow memberID id desired) ∧
  all_or_nothing (UpdateWorkstationStatus dbnow workerID report) ∧
  all_or_nothing (AssignHostname dbnow hw) ∧
  all_or_nothing (DeleteMissingVMsForWorker workerID ids).
Proof.
  intros aon. repeat split_and; apply atomic_outcome.
  - apply Claim_atomic.
  - apply Ensure_atomic.
  - apply UpdateDesired_atomic.
  - apply UpdateStatus_atomic.
  - apply AssignHostname_atomic.
  - apply DeleteMissing_atomic.
Qed.
End Atomic.

(** ** Status reports *)

(** C12. What a report does, case by case, on a well-formed database: a report
    about an unknown workstation succeeds and does nothing; one about another
    worker's workstation is refused; once deletion is requested, the report
    "deleted" removes the row and any other report only records its error; else
    the reported state, address and error are stored, and a text that is not a
    power state is refused.  No other row and no other table changes. *)
Theorem report_spec dbnow workerID report t :
  wf_tables t →
  let i := rep_WorkstationID report in
  let run := UpdateWorkstationStatus dbnow workerID report (calm t) in
  match workstations t !! i with
  | None => run = (inr tt, calm t)
  | Some s =>
      if bool_decide (ws_WorkerID s = workerID) then
        match ws_DesiredPowerState s, power_state_of_text (rep_PowerState report) with
        | WorkstationDesiredPowerStateDeleted, Some WorkstationPowerStateDeleted =>
            run = (inr tt, calm (set_workstations (delete i) t))
        | WorkstationDesiredPowerStateDeleted, _ =>
            run = (inr tt, calm (set_workstations <[i := mkWorkstation (ws_ID s) (ws_MemberID s)
                     (ws_WorkerID s) (ws_Slot s) (ws_VMName s) (ws_PowerState s)
                     (ws_DesiredPowerState s) (ws_IPAddress s) (TrimSpace (rep_LastError report))
                     (ws_CreatedAt s) dbnow]> t))
        | _, Some p =>
            run = (inr tt, calm (set_workstations <[i := mkWorkstation (ws_ID s) (ws_MemberID s)
                     (ws_WorkerID s) (ws_Slot s) (ws_VMName s) p
                     (ws_DesiredPowerState s) (TrimSpace (rep_IPAddress report))
                     (TrimSpace (rep_LastError report)) (ws_CreatedAt s) dbnow]> t))
        | _, None => run = (inl (PgError InvalidTextRepresentation), calm t)
        end
      else run = (inl (ErrText "workstation does not belong to worker"), calm t)
  end.
Proof.
  intros Hwf. cbv zeta. pose proof (UpdateStatus_settles dbnow workerID report t Hwf) as Hrun.
  unfold settles in Hrun. destruct (workstations t !! _) as [s|] eqn:E; [|done].
  rewrite (wf_ws_key _ Hwf _ _ E) in Hrun.
  destruct (decide (ws_WorkerID s = workerID)) as [Hw|Hw].
  2: { rewrite (bool_decide_true (ws_WorkerID s ≠ workerID)) in Hrun by done.
       by rewrite (bool_decide_false (ws_WorkerID s = workerID)) by done. }
  rewrite (bool_decide_false (ws_WorkerID s ≠ workerID)) in Hrun by tauto.
  rewrite (bool_decide_true (ws_WorkerID s = workerID)) by done.
  unfold set_status, set_last_error in Hrun.
  destruct (ws_DesiredPowerState s) eqn:Ed; simpl in Hrun.
  1,2: by destruct (power_state_of_text _).
  case_bool_decide as Hp.
  - rewrite Hp. change "deleted"%string with (power_state_text WorkstationPowerStateDeleted).
    by rewrite power_state_of_text_text.
  - destruct (power_state_of_text _) as [p|] eqn:Ep; [|done].
    apply power_state_of_text_inv in Ep. destruct p; done.
Qed.

(** A report about the sample workstation, by its worker. *)
Lemma report_spec_witness :
  wf_tables Sample.tables ∧
  UpdateWorkstationStatus 50 (wk_ID Sample.mac1) (mkReport "ws-id-1" "stopped" " 10.0.0.9 " "")
    (calm Sample.tables) =
  (inr tt, calm (set_workstations
     <["ws-id-1"%string := set_status 50 WorkstationPowerStateStopped "10.0.0.9" "" Sample.ws1]> Sample.tables)).
Proof.
  split; [exact Sample.wf_sample|].
  exact (report_spec 50 (wk_ID Sample.mac1) (mkReport "ws-id-1" "stopped" " 10.0.0.9 " "")
           Sample.tables Sample.wf_sample).
Defined.

(** ** Release *)

Lemma release_taken cutoff t i s :
  wf_tables t → workstations t !! i = Some s →
  taken (allocator_of cutoff (set_workstations (delete i) t)) =
    taken (allocator_of cutoff t) ∖ {[(ws_WorkerID s, ws_Slot s)]}.
Proof.
  intros Hwf Hs. apply set_eq. intros [w x]. simpl.
  rewrite elem_of_difference, elem_of_singleton, !elem_of_list_to_set, !list_elem_of_fmap.
  setoid_rewrite elem_of_rows. setoid_rewrite lookup_delete_Some. split.
  - intros (r & E & k & Hne & Hk). split; [by eauto|]. intros E'. apply Hne. simplify_eq.
    by eapply (wf_ws_slot _ Hwf).
  - intros [(r & E & k & Hk) Hne]. exists r. split; [done|]. exists k. split; [|done].
    intros ->. simplify_eq.
Qed.

Definition deleted_report (id : string) : WorkstationStatusReport := mkReport id "deleted" "" "".

(** C13. Releasing frees the slot.  When a member releases a workstation of
    theirs that is not already being deleted, the request succeeds and only marks
    that row as to be deleted and deleting, keeping its place; the worker's
    confirmation then removes the row, and the slot is no longer taken in the
    allocator; nothing else about the allocator changes. *)
Theorem release_frees_slot cutoff now1 now2 t i s :
  wf_tables t → workstations t !! i = Some s →
  ws_PowerState s ≠ WorkstationPowerStateDeleting → ws_PowerState s ≠ WorkstationPowerStateDeleted →
  ∃ s1 t1, UpdateWorkstationDesiredPowerStateByID now1 (ws_MemberID s) i
          WorkstationDesiredPowerStateDeleted (calm t) = (inr s1, calm t1) ∧
    workstations t1 = <[i := s1]> (workstations t) ∧ same_placement s s1 ∧
    ws_DesiredPowerState s1 = WorkstationDesiredPowerStateDeleted ∧
    ws_PowerState s1 = WorkstationPowerStateDeleting ∧
    UpdateWorkstationStatus now2 (ws_WorkerID s) (deleted_report i) (calm t1) =
      (inr tt, calm (set_workstations (delete i) t)) ∧
    pools (allocator_of cutoff (set_workstations (delete i) t)) = pools (allocator_of cutoff t) ∧
    taken (allocator_of cutoff (set_workstations (delete i) t)) =
      taken (allocator_of cutoff t) ∖ {[(ws_WorkerID s, ws_Slot s)]}.
Proof.
  intros Hwf Hs Hp1 Hp2.
  pose proof (UpdateDesired_settles now1 (ws_MemberID s) i WorkstationDesiredPowerStateDeleted t) as H1.
  unfold settles in H1. rewrite (proj2 (by_id_for_member_Some _ _ _ _) (conj Hs eq_refl)) in H1.
  rewrite !bool_decide_false in H1 by done. cbn [orb] in H1.
  eexists _, _. split; [exact H1|].
  set (s1 := set_desired _ _ _ s). set (t1 := set_workstations _ t).
  split; [done|]. split; [done|]. split; [done|]. split; [done|].
  assert (wf_tables t1) as Hwf1 by (by apply (wf_put_workstation t i s)).
  pose proof (UpdateStatus_settles now2 (ws_WorkerID s) (deleted_report i) t1 Hwf1) as H2.
  unfold settles in H2. cbn [rep_WorkstationID deleted_report] in H2.
  assert (workstations t1 !! i = Some s1) as E1 by apply lookup_insert_eq.
  rewrite E1 in H2. rewrite bool_decide_false in H2 by tauto.
  rewrite !bool_decide_true in H2 by done.
  rewrite (wf_ws_key _ Hwf1 _ _ E1) in H2. split.
  { rewrite H2. unfold t1, set_workstations. simpl. by rewrite delete_insert_eq. }
  split; [done|]. apply release_taken; done.
Qed.

Lemma release_frees_slot_witness :
  ∃ s1 t1, UpdateWorkstationDesiredPowerStateByID 20 "m-ann" "ws-id-1"
          WorkstationDesiredPowerStateDeleted (calm Sample.tables) = (inr s1, calm t1) ∧
    UpdateWorkstationStatus 30 (wk_ID Sample.mac1) (deleted_report "ws-id-1") (calm t1) =
      (inr tt, calm (set_workstations (delete "ws-id-1"%string) Sample.tables)).
Proof.
  destruct (release_frees_slot 0 20 30 Sample.tables "ws-id-1" Sample.ws1) 
    as (s1 & t1 & H1 & _ & _ & _ & _ & H2 & _).
  - exact Sample.wf_sample.
  - vm_compute. reflexivity.
  - vm_compute. discriminate.
  - vm_compute. discriminate.
  - exists s1, t1. split; [exact H1|exact H2].
Defined.

(** A report can lock the owner out: nothing stops a worker from reporting
    "deleted" (or "deleting") for a workstation whose deletion was not requested;
    the row then stays, keeps its slot taken, and every request of the owner to
    start, stop or release it is refused until the worker reports another
    state. *)
Theorem premature_deletion_report_locks dbnow now' report t s desired :
  wf_tables t →
  workstations t !! rep_WorkstationID report = Some s →
  ws_DesiredPowerState s ≠ WorkstationDesiredPowerStateDeleted →
  rep_PowerState report = power_state_text WorkstationPowerStateDeleted ∨
  rep_PowerState report = power_state_text WorkstationPowerStateDeleting →
  ∃ t1 s1, UpdateWorkstationStatus dbnow (ws_WorkerID s) report (calm t) = (inr tt, calm t1) ∧
    workstations t1 !! rep_WorkstationID report = Some s1 ∧
    same_placement s s1 ∧ ws_DesiredPowerState s1 = ws_DesiredPowerState s ∧
    UpdateWorkstationDesiredPowerStateByID now' (ws_MemberID s) (rep_WorkstationID report) desired
      (calm t1) = (inl ErrWorkstationBeingDeleted, calm t1) ∧
    EnsureWorkstationRunningByIDForMember now' (ws_MemberID s) (rep_WorkstationID report)
      (calm t1) = (inr s1, calm t1).
Proof.
  intros Hwf Hs Hd Hrep. set (i := rep_WorkstationID report) in *.
  assert (∃ p, power_state_of_text (rep_PowerState report) = Some p ∧
    (p = WorkstationPowerStateDeleted ∨ p = WorkstationPowerStateDeleting)) as (p & Hp & Hpp).
  { destruct Hrep as [->| ->]; rewrite power_state_of_text_text; eauto. }
  set (s1 := set_status dbnow p (TrimSpace (rep_IPAddress report)) (TrimSpace (rep_LastError report)) s).
  exists (set_workstations <[i := s1]> t), s1.
  pose proof (UpdateStatus_settles dbnow (ws_WorkerID s) report t Hwf) as H1. unfold settles in H1.
  fold i in H1. rewrite Hs, Hp in H1. rewrite !bool_decide_false in H1 by tauto.
  rewrite (wf_ws_key _ Hwf _ _ Hs) in H1. split; [exact H1|].
  assert (workstations (set_workstations <[i := s1]> t) !! i = Some s1) as E1
    by apply lookup_insert_eq.
  split; [done|]. split; [done|]. split; [done|].
  assert (by_id_for_member (ws_MemberID s) i (set_workstations <[i := s1]> t) = Some s1) as Em
    by by apply by_id_for_member_Some.
  pose proof (UpdateDesired_settles now' (ws_MemberID s) i desired (set_workstations <[i := s1]> t)) as H2.
  pose proof (Ensure_settles now' (ws_MemberID s) i (set_workstations <[i := s1]> t)) as H3.
  unfold settles in H2, H3. rewrite Em in H2, H3. rewrite H2, H3.
  assert (ws_PowerState s1 = p) as -> by done.
  by destruct Hpp as [-> | ->]; rewrite ?orb_true_r.
Qed.

Lemma premature_deletion_report_locks_witness :
  ∃ t1, UpdateWorkstationStatus 50 (wk_ID Sample.mac1) (deleted_report "ws-id-1")
          (calm Sample.tables) = (inr tt, calm t1) ∧
    UpdateWorkstationDesiredPowerStateByID 60 "m-ann" "ws-id-1"
      WorkstationDesiredPowerStateDeleted (calm t1) = (inl ErrWorkstationBeingDeleted, calm t1).
Proof.
  destruct (premature_deletion_report_locks 50 60 (deleted_report "ws-id-1") Sample.tables
    Sample.ws1 WorkstationDesiredPowerStateDeleted) as (t1 & s1 & H1 & _ & _ & _ & H2 & _).
  - exact Sample.wf_sample.
  - vm_compute. reflexivity.
  - vm_compute. discriminate.
  - left. reflexivity.
  - exists t1. split; [exact H1|exact H2].
Defined.

(** ** Requests of the owner *)

(** What resuming makes of the row of a workstation: nothing when it is being
    deleted or already wanted running and on its way; otherwise it is wanted
    running, and a workstation that was stopped, stopping or failed starts over
    with its error cleared. *)
Inductive resumed (dbnow : Z) (s : Workstation) : Workstation → Prop :=
| resumed_doomed :
    ws_DesiredPowerState s = WorkstationDesiredPowerStateDeleted ∨
    ws_PowerState s ∈ [WorkstationPowerStateDeleting; WorkstationPowerStateDeleted] →
    resumed dbnow s s
| resumed_noop :
    ws_DesiredPowerState s = WorkstationDesiredPowerStateRunning →
    ws_PowerState s ∈ [WorkstationPowerStateStarting; WorkstationPowerStateRunning] →
    resumed dbnow s s
| resumed_wanted s' :
    ws_DesiredPowerState s = WorkstationDesiredPowerStateStopped →
    ws_PowerState s ∈ [WorkstationPowerStateStarting; WorkstationPowerStateRunning] →
    same_placement s s' → ws_PowerState s' = ws_PowerState s →
    ws_DesiredPowerState s' = WorkstationDesiredPowerStateRunning →
    ws_IPAddress s' = ws_IPAddress s → ws_LastError s' = ws_LastError s →
    ws_CreatedAt s' = ws_CreatedAt s → ws_UpdatedAt s' = dbnow → resumed dbnow s s'
| resumed_restarted s' :
    ws_DesiredPowerState s ≠ WorkstationDesiredPowerStateDeleted →
    ws_PowerState s ∈ [WorkstationPowerStateStopped; WorkstationPowerStateError;
                       WorkstationPowerStateStopping] →
    same_placement s s' →
    ws_PowerState s' = (if decide (ws_PowerState s = WorkstationPowerStateStopping)
                        then WorkstationPowerStateStopping else WorkstationPowerStateStarting) →
    ws_DesiredPowerState s' = WorkstationDesiredPowerStateRunning →
    ws_IPAddress s' = ws_IPAddress s → ws_LastError s' = ""%string →
    ws_CreatedAt s' = ws_CreatedAt s → ws_UpdatedAt s' = dbnow → resumed dbnow s s'.

(** The power state shown after the owner asks for [d]. *)
Inductive power_after : WorkstationDesiredPowerState → WorkstationPowerState →
    WorkstationPowerState → Prop :=
| power_start p :
    p ∈ [WorkstationPowerStateStopped; WorkstationPowerStateError] →
    power_after WorkstationDesiredPowerStateRunning p WorkstationPowerStateStarting
| power_stop p :
    p ∈ [WorkstationPowerStateStarting; WorkstationPowerStateRunning] →
    power_after WorkstationDesiredPowerStateStopped p WorkstationPowerStateStopping
| power_stay_up p :
    p ∈ [WorkstationPowerStateStarting; WorkstationPowerStateRunning;
         WorkstationPowerStateStopping] →
    power_after WorkstationDesiredPowerStateRunning p p
| power_stay_down p :
    p ∈ [WorkstationPowerStateStopping; WorkstationPowerStateStopped;
         WorkstationPowerStateError] →
    power_after WorkstationDesiredPowerStateStopped p p
| power_delete p :
    power_after WorkstationDesiredPowerStateDeleted p WorkstationPowerStateDeleting.

(** The owner's wish as a change of the row: nothing but the two states and the
    time of the update. *)
Definition wanted (dbnow : Z) (d : WorkstationDesiredPowerState) (s s' : Workstation) : Prop :=
  same_placement s s' ∧ ws_DesiredPowerState s' = d ∧
  power_after d (ws_PowerState s) (ws_PowerState s') ∧ ws_IPAddress s' = ws_IPAddress s ∧
  ws_LastError s' = ws_LastError s ∧ ws_CreatedAt s' = ws_CreatedAt s ∧ ws_UpdatedAt s' = dbnow.

Definition being_deleted (s : Workstation) : Prop :=
  ws_PowerState s ∈ [WorkstationPowerStateDeleting; WorkstationPowerStateDeleted].

Lemma nextPowerState_after d p :
  p ∉ [WorkstationPowerStateDeleting; WorkstationPowerStateDeleted] →
  power_after d p (nextPowerState d p).
Proof.
  intros Hp. destruct d, p; try (by apply power_delete); try (exfalso; set_solver); cbn;
    solve [apply power_start; set_solver|apply power_stop; set_solver
          |apply power_stay_up; set_solver|apply power_stay_down; set_solver].
Qed.

Lemma being_deleted_alt s :
  being_deleted s ↔
  bool_decide (ws_PowerState s = WorkstationPowerStateDeleting)
    || bool_decide (ws_PowerState s = WorkstationPowerStateDeleted) = true.
Proof.
  unfold being_deleted. rewrite orb_true_iff, !bool_decide_eq_true, !elem_of_cons, elem_of_nil.
  tauto.
Qed.

Lemma set_desired_wanted dbnow d s :
  ¬ being_deleted s → wanted dbnow d s (set_desired dbnow d (nextPowerState d (ws_PowerState s)) s).
Proof. intros Hd. repeat split. by apply nextPowerState_after. Qed.

Lemma set_desired_run dbnow memberID id d t :
  let run := UpdateWorkstationDesiredPowerStateByID dbnow memberID id d (calm t) in
  (∃ s s', workstations t !! id = Some s ∧ ws_MemberID s = memberID ∧ ¬ being_deleted s ∧
     wanted dbnow d s s' ∧ run = (inr s', calm (set_workstations <[id := s']> t))) ∨
  (∃ s, workstations t !! id = Some s ∧ ws_MemberID s = memberID ∧ being_deleted s ∧
     run = (inl ErrWorkstationBeingDeleted, calm t)) ∨
  ((∀ s, workstations t !! id = Some s → ws_MemberID s ≠ memberID) ∧
     run = (inl ErrNoRows, calm t)).
Proof.
  cbv zeta. pose proof (UpdateDesired_settles dbnow memberID id d t) as Hrun. unfold settles in Hrun.
  destruct (by_id_for_member memberID id t) as [s|] eqn:Em.
  - apply by_id_for_member_Some in Em as [Hs Hm].
    destruct (_ || _) eqn:Eg in Hrun.
    + right; left. exists s. by rewrite being_deleted_alt.
    + left. assert (¬ being_deleted s) as Hd by (rewrite being_deleted_alt; congruence).
      eexists s, _. split_and!; [done|done|done|by apply set_desired_wanted|exact Hrun].
  - right; right. split; [|done]. intros s Hs Hm.
    by rewrite (proj2 (by_id_for_member_Some _ _ _ _) (conj Hs Hm)) in Em.
Qed.

(** C15. Asking for a desired state, on every branch: the owner of a workstation
    that is not being deleted gets exactly that row changed to the wish; a
    workstation that is being deleted, by request or by its worker's account,
    accepts no wish; for anybody else it does not exist.  Nothing else changes. *)
Theorem set_desired_spec dbnow memberID id d t :
  let run := UpdateWorkstationDesiredPowerStateByID dbnow memberID id d (calm t) in
  (∃ s s', workstations t !! id = Some s ∧ ws_MemberID s = memberID ∧ ¬ being_deleted s ∧
     wanted dbnow d s s' ∧ run = (inr s', calm (set_workstations <[id := s']> t))) ∨
  (∃ s, workstations t !! id = Some s ∧ ws_MemberID s = memberID ∧ being_deleted s ∧
     run = (inl ErrWorkstationBeingDeleted, calm t)) ∨
  ((∀ s, workstations t !! id = Some s → ws_MemberID s ≠ memberID) ∧
     run = (inl ErrNoRows, calm t)).
Proof. apply set_desired_run. Qed.

Lemma resumed_cases dbnow s :
  let f := match ws_PowerState s with
           | WorkstationPowerStateStopped | WorkstationPowerStateError
           | WorkstationPowerStateStopping => set_running_clear_error dbnow s
           | _ => if bool_decide (ws_DesiredPowerState s ≠ WorkstationDesiredPowerStateRunning)
                  then set_desired_running dbnow s else s
           end in
  ws_DesiredPowerState s ≠ WorkstationDesiredPowerStateDeleted → ¬ being_deleted s →
  resumed dbnow s f.
Proof.
  intros f Hd Hb. unfold f, being_deleted in *.
  destruct (ws_PowerState s) eqn:Ep;
    try (exfalso; set_solver);
    try (apply resumed_restarted; rewrite ?Ep; try done; [set_solver|by simpl; rewrite Ep]; fail);
    destruct (ws_DesiredPowerState s) eqn:Ed; try done; simpl;
    (apply resumed_noop || apply resumed_wanted); rewrite ?Ep, ?Ed; try done; set_solver.
Qed.

Lemma resume_run dbnow memberID id t :
  wf_tables t →
  let run := EnsureWorkstationRunningByIDForMember dbnow memberID id (calm t) in
  (∃ s s', workstations t !! id = Some s ∧ ws_MemberID s = memberID ∧ resumed dbnow s s' ∧
     run = (inr s', calm (set_workstations <[id := s']> t))) ∨
  ((∀ s, workstations t !! id = Some s → ws_MemberID s ≠ memberID) ∧
     run = (inl ErrNoRows, calm t)).
Proof.
  intros Hwf. cbv zeta. pose proof (Ensure_settles dbnow memberID id t) as Hrun. unfold settles in Hrun.
  destruct (by_id_for_member memberID id t) as [s|] eqn:Em.
  2: { right. split; [|done]. intros s Hs Hm.
       by rewrite (proj2 (by_id_for_member_Some _ _ _ _) (conj Hs Hm)) in Em. }
  apply by_id_for_member_Some in Em as [Hs Hm]. left. exists s.
  assert (set_workstations <[id := s]> t = t) as Hid.
  { destruct t. unfold set_workstations. simpl in *. by rewrite insert_id. }
  rewrite <- orb_assoc in Hrun. destruct (bool_decide (ws_DesiredPowerState s = _)) eqn:Ed in Hrun;
    cbn [orb] in Hrun.
  { exists s. rewrite Hid. to_prop. split_and!; [done|done|apply resumed_doomed; by left|exact Hrun]. }
  destruct (_ || _) eqn:Eg in Hrun.
  { exists s. rewrite Hid. split_and!; [done|done| |exact Hrun].
    apply resumed_doomed. right. by apply being_deleted_alt. }
  assert (¬ being_deleted s) as Hb by (rewrite being_deleted_alt; congruence).
  apply bool_decide_eq_false in Ed.
  eexists. split_and!; [done|done|by apply (resumed_cases dbnow s)|].
  rewrite Hrun. rewrite (wf_ws_key _ Hwf _ _ Hs). unfold update_workstation. rewrite Hs.
  destruct (ws_PowerState s), (ws_DesiredPowerState s); simpl; by rewrite ?Hid.
Qed.

(** C16. Resuming, on every branch: the owner's workstation becomes (or stays)
    wanted running as [resumed] says, is stored so and returned; one that is
    being deleted is returned as it is; for anybody else it does not exist.
    Nothing else changes. *)
Theorem resume_spec dbnow memberID id t :
  wf_tables t →
  let run := EnsureWorkstationRunningByIDForMember dbnow memberID id (calm t) in
  (∃ s s', workstations t !! id = Some s ∧ ws_MemberID s = memberID ∧ resumed dbnow s s' ∧
     run = (inr s', calm (set_workstations <[id := s']> t))) ∨
  ((∀ s, workstations t !! id = Some s → ws_MemberID s ≠ memberID) ∧
     run = (inl ErrNoRows, calm t)).
Proof. apply resume_run. Qed.

Lemma resume_spec_witness :
  wf_tables Sample.tables ∧
  EnsureWorkstationRunningByIDForMember 70 "m-bob" "ws-id-1" (calm Sample.tables) =
    (inl ErrNoRows, calm Sample.tables).
Proof.
  split; [exact Sample.wf_sample|].
  destruct (resume_spec 70 "m-bob" "ws-id-1" Sample.tables Sample.wf_sample)
    as [(s & s' & Hs & Hm & _)|[_ H]]; [|exact H].
  apply Sample.only_workstation in Hs as ->. discriminate Hm.
Defined.

(** ** The desired state of a worker *)

Lemma sorted_slots_strict (l : list DesiredWorkstation) :
  StronglySorted by_slot l → NoDup (dw_Slot <$> l) → StronglySorted Z.lt (dw_Slot <$> l).
Proof.
  induction 1 as [|d l Hs IH Hd]; simpl; [constructor|]. intros [Hni Hnd]%NoDup_cons.
  constructor; [by apply IH|]. apply Forall_fmap. rewrite Forall_forall in *. intros d' Hin.
  specialize (Hd d' Hin). unfold by_slot in Hd. simpl.
  assert (dw_Slot d ≠ dw_Slot d'); [|lia]. intros E. apply Hni. rewrite E.
  by apply list_elem_of_fmap_2.
Qed.

(** On one worker no slot is held twice. *)
Lemma mine_slots_NoDup workerID t :
  wf_tables t →
  NoDup (ws_Slot <$> ws_rows (λ s, bool_decide (ws_WorkerID s = workerID)) t).
Proof.
  intros Hwf. unfold ws_rows. apply NoDup_fmap_2_strong.
  - intros s1 s2. rewrite !list_elem_of_filter, !bool_decide_eq_true, !elem_of_rows.
    intros [Hw1 [k1 H1]] [Hw2 [k2 H2]] E.
    assert (k1 = k2) as -> by (eapply (wf_ws_slot _ Hwf); eauto; congruence). congruence.
  - apply NoDup_filter. unfold rows. apply NoDup_fmap_2_strong; [|apply NoDup_map_to_list].
    intros [k1 s1] [k2 s2] H1%elem_of_map_to_list H2%elem_of_map_to_list E. simpl in E. subst.
    pose proof (wf_ws_key _ Hwf _ _ H1). pose proof (wf_ws_key _ Hwf _ _ H2). congruence.
Qed.

(** What a worker is to be told: exactly its own workstations, each once, in slot
    order. *)
Definition desired_list (workerID : string) (t : Tables) (l : list DesiredWorkstation) : Prop :=
  StronglySorted Z.lt (dw_Slot <$> l) ∧
  (∀ d, d ∈ l ↔ ∃ s, workstations t !! dw_ID d = Some s ∧ ws_WorkerID s = workerID ∧
     d = mkDesired (ws_ID s) (ws_VMName s) (ws_Slot s) (ws_DesiredPowerState s)).

Lemma desired_workstations_spec workerID t :
  wf_tables t → desired_list workerID t (desired_workstations workerID t).
Proof.
  intros Hwf.
  set (mine := ws_rows (λ s, bool_decide (ws_WorkerID s = workerID)) t).
  assert (desired_workstations workerID t ≡ₚ desired_of <$> mine) as Hperm
    by apply merge_sort_Permutation.
  assert (∀ s, s ∈ mine ↔ workstations t !! ws_ID s = Some s ∧ ws_WorkerID s = workerID) as Hmine.
  { intros s. unfold mine, ws_rows. rewrite list_elem_of_filter, bool_decide_eq_true, elem_of_rows.
    split; [|naive_solver]. intros [Hw [k Hk]]. by rewrite (wf_ws_key _ Hwf _ _ Hk). }
  split.
  - apply sorted_slots_strict.
    + unfold desired_workstations. apply StronglySorted_merge_sort; [|intros a b; unfold by_slot; lia].
      intros a b c. unfold by_slot. lia.
    + rewrite Hperm. rewrite <- list_fmap_compose. by apply mine_slots_NoDup.
  - intros d. rewrite Hperm, list_elem_of_fmap. setoid_rewrite Hmine. split.
    + intros (s & -> & Hs & Hw). exists s. done.
    + intros (s & Hs & Hw & ->). simpl in Hs. eauto.
Qed.

(** A worker is told about exactly its own workstations, each once with its
    identifier, VM name, slot and desired state, in strictly increasing slot
    order, and asking changes nothing. *)
Theorem desired_list_spec workerID t :
  wf_tables t →
  ∃ l, ListDesiredWorkstationsByWorker workerID (calm t) = (inr l, calm t) ∧
    desired_list workerID t l.
Proof.
  intros Hwf. exists (desired_workstations workerID t).
  split; [done|by apply desired_workstations_spec].
Qed.

Lemma desired_list_spec_witness :
  wf_tables Sample.tables ∧
  ∃ l, ListDesiredWorkstationsByWorker (wk_ID Sample.mac1) (calm Sample.tables) =
    (inr l, calm Sample.tables) ∧ StronglySorted Z.lt (dw_Slot <$> l).
Proof.
  split; [exact Sample.wf_sample|].
  destruct (desired_list_spec (wk_ID Sample.mac1) Sample.tables Sample.wf_sample)
    as (l & H1 & H2 & _).
  exists l. split; [exact H1|exact H2].
Defined.
