(* ===== verification/System.v ===== *)
(** * The database as a system

    Every method of [*db.DB] that changes state, as one operation type; a step
    runs one operation under any script of faults.  The theorems are about all
    states reachable from an empty database and all sequences of operations:
    the database invariant, the bound on the workstations of a worker, who may
    change a workstation and how, and that a requested deletion is final. *)

From stdpp Require Import gmap strings list sorting.
From Stdlib Require Import ZArith Lia.
From S2P Require Import Prelude GoStrings Encoding Model Database Schema Scheduler.
From S2P Require Import Workstations Allocator Workers Catalog Lifecycle.

Local Open Scope Z_scope.

(** The instants, identifiers and random bytes an operation obtains from the
    clock, the server and the random source are arguments.  Registration always
    stores a worker under the identifier derived from its hardware UUID
    ([handleWorkerRegister]). *)
Inductive Op :=
| OpUpsertWorker (dbnow : Z) (hostname hardwareUUID : string) (cpu mem : Z)
    (tart version : string) (pool : Z) (image : string)
| OpHeartbeat (dbnow : Z) (workerID : string)
| OpWorkerOffline (workerID : string)
| OpAssignHostname (dbnow : Z) (hardwareUUID : string)
| OpIssueToken (dbnow : Z) (random : option (list Z)) (workerID : string)
| OpTouchToken (dbnow : Z) (workerID : string)
| OpUpsertMember (dbnow : Z) (newID accessSub email : string)
| OpClaim (gonow dbnow : Z) (uuid memberID preferred : string)
| OpEnsure (dbnow : Z) (memberID workstationID : string)
| OpSetDesired (dbnow : Z) (memberID workstationID : string) (desired : WorkstationDesiredPowerState)
| OpReport (dbnow : Z) (workerID : string) (report : WorkstationStatusReport)
| OpUpsertVM (dbnow : Z) (vm : VM)
| OpVMState (dbnow : Z) (vmID : string) (state : VMState)
| OpDeleteVM (vmID : string)
| OpWorkerVMsOffline (workerID : string)
| OpDeleteMissing (workerID : string) (active : list string)
| OpInsertRelease (dbnow : Z) (newID : string) (r : Release).

Definition void {A} (m : DB A) : DB unit := _ ← m; mret tt.

Section System.
Context `{!Collation}.

Definition exec (op : Op) : DB unit :=
  match op with
  | OpUpsertWorker dbnow hostname hw cpu mem tart version pool image =>
      UpsertWorker dbnow (mkWorker (GenerateWorkerID hw) hostname hw cpu mem tart version pool image
        WorkerStatusActive dbnow None None None None)
  | OpHeartbeat dbnow w => UpdateHeartbeat dbnow w
  | OpWorkerOffline w => SetWorkerOffline w
  | OpAssignHostname dbnow hw => void (AssignHostname dbnow hw)
  | OpIssueToken dbnow random w => void (IssueWorkerToken dbnow random w)
  | OpTouchToken dbnow w => TouchWorkerTokenUsage dbnow w
  | OpUpsertMember dbnow newID sub email => void (UpsertMemberFromAccess dbnow newID sub email)
  | OpClaim gonow dbnow uuid m p => void (ClaimWorkstation gonow dbnow uuid m p)
  | OpEnsure dbnow m i => void (EnsureWorkstationRunningByIDForMember dbnow m i)
  | OpSetDesired dbnow m i d => void (UpdateWorkstationDesiredPowerStateByID dbnow m i d)
  | OpReport dbnow w report => UpdateWorkstationStatus dbnow w report
  | OpUpsertVM dbnow vm => UpsertVM dbnow vm
  | OpVMState dbnow vm st => UpdateVMState dbnow vm st
  | OpDeleteVM vm => DeleteVM vm
  | OpWorkerVMsOffline w => SetWorkerVMsOffline w
  | OpDeleteMissing w active => void (DeleteMissingVMsForWorker w active)
  | OpInsertRelease dbnow newID r => void (InsertRelease dbnow newID r)
  end.

(** The committed tables after an operation under a script of faults. *)
Definition after (t : Tables) (op : Op) (fs : list Fault) : Tables :=
  durable (exec op (mkWorld t t fs)).2.

Inductive step (t : Tables) : Tables → Prop :=
| step_op op fs : step t (after t op fs).

Definition run_ops (ops : list (Op * list Fault)) (t : Tables) : Tables :=
  fold_left (λ t '(op, fs), after t op fs) ops t.

Lemma keeps_void {A} (I : Tables → Prop) (m : DB A) : keeps I m → keeps I (void m).
Proof. intros Hm. apply keeps_bind; [done|]. intros a. apply keeps_ret. Qed.

Lemma exec_keeps op : keeps wf_tables (exec op).
Proof.
  destruct op; simpl; repeat apply keeps_void;
    try (by apply worker_update_keeps); try (by apply UpsertWorker_keeps).
  - eapply triple_keeps, AssignHostname_triple.
  - apply IssueWorkerToken_keeps.
  - apply UpsertMember_keeps.
  - eapply triple_keeps, ClaimWorkstation_triple.
  - eapply triple_keeps, Ensure_triple.
  - eapply triple_keeps, UpdateDesired_triple.
  - eapply triple_keeps, UpdateStatus_triple.
  - apply UpsertVM_keeps.
  - apply UpdateVMState_keeps.
  - apply DeleteVM_keeps.
  - apply SetWorkerVMsOffline_keeps.
  - apply DeleteMissing_keeps.
  - apply InsertRelease_keeps.
Qed.

Lemma after_wf t op fs : wf_tables t → wf_tables (after t op fs).
Proof. intros Hwf. by apply (exec_keeps op (mkWorld t t fs)). Qed.

Lemma run_ops_wf ops t : wf_tables t → wf_tables (run_ops ops t).
Proof.
  revert t. induction ops as [|[op fs] ops IH]; intros t Hwf; [done|]. by apply IH, after_wf.
Qed.

Lemma run_ops_reachable ops t : rtc step t (run_ops ops t).
Proof.
  revert t. induction ops as [|[op fs] ops IH]; intros t; [apply rtc_refl|].
  simpl. eapply rtc_l; [apply step_op|apply IH].
Qed.

(** C6. The database invariant holds in every state reachable from an empty
    database by any operations under any faults: keys and references agree,
    subjects, VM names, release versions and the slots of a worker are unique, a
    workstation's slot lies within its worker's pool, and a workstation that is
    to be deleted is in state "deleting". *)
Theorem reachable_wf t : rtc step empty_tables t → wf_tables t.
Proof.
  apply rtc_invariant; [|apply wf_empty]. intros a b Ha [op fs]. by apply after_wf.
Qed.

(** ** No overcommitment *)

(** Distinct integers of [0, n) are at most [n]. *)
Lemma NoDup_bounded_length (l : list Z) n :
  NoDup l → (∀ x, x ∈ l → 0 ≤ x < n) → Z.of_nat (length l) ≤ Z.max 0 n.
Proof.
  intros Hnd Hb. assert (length l ≤ length (seqZ 0 n))%nat as Hl.
  { apply submseteq_length, NoDup_submseteq; [done|]. intros x Hx%Hb.
    apply elem_of_seqZ. lia. }
  rewrite length_seqZ in Hl. lia.
Qed.

(** C2. No worker is overcommitted: in every reachable state a worker hosts at
    most as many workstations as its pool has slots. *)
Theorem no_overcommit t i w :
  rtc step empty_tables t → workers t !! i = Some w →
  Z.of_nat (length (ws_rows (λ s, bool_decide (ws_WorkerID s = i)) t)) ≤ Z.max 0 (wk_PoolSize w).
Proof.
  intros Hr Hw. assert (wf_tables t) as Hwf.
  { revert Hr. apply rtc_invariant; [|apply wf_empty]. intros a b Ha [op fs]. by apply after_wf. }
  rewrite <- (length_fmap ws_Slot). apply NoDup_bounded_length; [by apply mine_slots_NoDup|].
  intros x (s & -> & Hs)%list_elem_of_fmap. unfold ws_rows in Hs.
  apply list_elem_of_filter in Hs as [Hi [k Hk]%elem_of_rows]. to_prop. subst i.
  destruct (wf_ws_worker _ Hwf _ _ Hk) as (w' & Hw' & Hb). by simplify_eq.
Qed.

(** ** Who may change a workstation *)

Lemma after_atomic {A} t (m : DB A) fs :
  atomic m →
  durable (void m (mkWorld t t fs)).2 = t ∨
  durable (void m (mkWorld t t fs)).2 = durable (m (calm t)).2.
Proof.
  intros Hm. assert (∀ w, durable (void m w).2 = durable (m w).2) as ->.
  { intros w. unfold void, mbind, DB_bind. by destruct (m w) as [[] ?]. }
  by apply atomic_outcome.
Qed.

(** The table an operation writes; it leaves the other four alone. *)
Inductive Table := TWorkers | TWorkstations | TMembers | TVMs | TReleases.

#[export] Instance Table_eq_dec : EqDecision Table.
Proof. solve_decision. Defined.

Definition table_of (op : Op) : Table :=
  match op with
  | OpUpsertWorker _ _ _ _ _ _ _ _ _ | OpHeartbeat _ _ | OpWorkerOffline _ | OpAssignHostname _ _
  | OpIssueToken _ _ _ | OpTouchToken _ _ => TWorkers
  | OpUpsertMember _ _ _ _ => TMembers
  | OpClaim _ _ _ _ _ | OpEnsure _ _ _ | OpSetDesired _ _ _ _ | OpReport _ _ _ => TWorkstations
  | OpUpsertVM _ _ | OpVMState _ _ _ | OpDeleteVM _ | OpWorkerVMsOffline _ | OpDeleteMissing _ _ => TVMs
  | OpInsertRelease _ _ _ => TReleases
  end.

Definition same_but (tb : Table) (t0 t : Tables) : Prop :=
  (tb ≠ TWorkers → workers t = workers t0) ∧ (tb ≠ TWorkstations → workstations t = workstations t0) ∧
  (tb ≠ TMembers → members t = members t0) ∧ (tb ≠ TVMs → vms t = vms t0) ∧
  (tb ≠ TReleases → releases t = releases t0).

Lemma same_but_refl tb t : same_but tb t t.
Proof. by repeat split. Qed.

(** The writing statements, each within its table. *)
Ltac one_table :=
  let t := fresh in let res := fresh in let t' := fresh in let Ht := fresh in let E := fresh in
  intros t res t' Ht E; unfold same_but in *; sql_inv;
  repeat case_match; simplify_eq; simpl in *; solve [naive_solver].

Lemma exec_confined op t0 : keeps (same_but (table_of op) t0) (exec op).
Proof.
  destruct op; simpl; repeat apply keeps_void; try (apply keeps_pool; one_table).
  - apply keeps_pool. unfold upsert_worker_row. one_table.
  - unfold AssignHostname. confine; apply confined_tx; unfold next_hostname_number, upsert_worker_row;
      one_table.
  - unfold IssueWorkerToken. apply keeps_bind; [auto with minis|]. intros tk.
    apply keeps_bind; [apply keeps_pool; one_table|auto with minis].
  - apply keeps_pool. unfold upsert_member_row. one_table.
  - unfold ClaimWorkstation, insertWorkstation. confine. apply confined_tx.
    unfold insert_workstation_row. one_table.
  - unfold EnsureWorkstationRunningByIDForMember, claimExistingWorkstation. confine; apply confined_tx;
      unfold update_workstation; one_table.
  - unfold UpdateWorkstationDesiredPowerStateByID. confine. apply confined_tx.
    unfold update_for_member. one_table.
  - unfold UpdateWorkstationStatus. confine; apply confined_tx; unfold update_status_row; one_table.
  - apply keeps_pool. unfold upsert_vm_row. one_table.
  - unfold DeleteMissingVMsForWorker, collectVMIDsForWorker. confine; apply confined_tx; one_table.
  - unfold InsertRelease. apply keeps_bind.
    + apply keeps_try, keeps_pool. unfold insert_release_row. one_table.
    + intros [e|r']; [|apply keeps_ret]. destruct e as [|[]| | | | | | | |]; apply keeps_throw.
Qed.

(** The changes to the row of workstation [i] each operation is entitled to:
    only a claim under a new identifier creates it, in a slot the allocator
    grants; only its member resumes it or changes its desired state, and only
    while it is not being deleted; only its worker reports on it; and only a
    confirmed deletion removes it. *)
Inductive entitled (t : Tables) (i : string) : Op → option Workstation → Prop :=
| entitled_claim gonow dbnow m p s' :
    workstations t !! i = None → fresh_workstation dbnow i m s' →
    grants (allocator_of (gonow - 30 * Second) t) p (ws_WorkerID s') (ws_Slot s') →
    entitled t i (OpClaim gonow dbnow i m p) (Some s')
| entitled_resume dbnow s s' :
    workstations t !! i = Some s →
    ws_DesiredPowerState s ≠ WorkstationDesiredPowerStateDeleted → ¬ being_deleted s →
    resumed dbnow s s' →
    entitled t i (OpEnsure dbnow (ws_MemberID s) i) (Some s')
| entitled_desired dbnow s s' d :
    workstations t !! i = Some s → ¬ being_deleted s → wanted dbnow d s s' →
    entitled t i (OpSetDesired dbnow (ws_MemberID s) i d) (Some s')
| entitled_report dbnow s s' report :
    workstations t !! i = Some s → rep_WorkstationID report = i → same_placement s s' →
    ws_DesiredPowerState s' = ws_DesiredPowerState s →
    entitled t i (OpReport dbnow (ws_WorkerID s) report) (Some s')
| entitled_removal dbnow s report :
    workstations t !! i = Some s → rep_WorkstationID report = i →
    ws_DesiredPowerState s = WorkstationDesiredPowerStateDeleted →
    rep_PowerState report = power_state_text WorkstationPowerStateDeleted →
    entitled t i (OpReport dbnow (ws_WorkerID s) report) None.

Lemma insert_changed {V} (m : gmap string V) k v i :
  <[k := v]> m !! i ≠ m !! i → i = k ∧ <[k := v]> m !! i = Some v.
Proof.
  intros Hc. destruct (decide (k = i)) as [->|Hne].
  - by rewrite lookup_insert_eq.
  - by rewrite lookup_insert_ne in Hc.
Qed.

Lemma claim_entitled t gonow dbnow uuid m p i :
  wf_tables t →
  let t' := durable (ClaimWorkstation gonow dbnow uuid m p (calm t)).2 in
  workstations t' !! i ≠ workstations t !! i →
  entitled t i (OpClaim gonow dbnow uuid m p) (workstations t' !! i).
Proof.
  intros Hwf. pose proof (Claim_settles gonow dbnow uuid m p t) as Hrun. unfold settles in Hrun.
  cbv zeta. rewrite Hrun. clear Hrun. unfold claim_decision. case_bool_decide as He; [done|].
  pose proof (select_refines _ t Hwf p He) as Hsel.
  destruct (selectWorkstationCandidate _ _ _) as [e|c]; [done|].
  destruct (insert_workstation_row _ t) as [e|[s t']] eqn:E; [done|].
  apply insert_workstation_inv in E as (-> & -> & Hnew & _). simpl.
  intros [-> ->]%insert_changed. by constructor.
Qed.

Lemma ensure_entitled t dbnow m k i :
  wf_tables t →
  let t' := durable (EnsureWorkstationRunningByIDForMember dbnow m k (calm t)).2 in
  workstations t' !! i ≠ workstations t !! i →
  entitled t i (OpEnsure dbnow m k) (workstations t' !! i).
Proof.
  intros Hwf. cbv zeta.
  destruct (resume_run dbnow m k t Hwf) as [(s & s' & Hs & <- & Hr & ->)|[_ ->]]; [|done].
  simpl. intros Hc. pose proof (insert_changed _ _ _ _ Hc) as [-> E]. rewrite E in *.
  assert (s' ≠ s) as Hne by congruence.
  apply entitled_resume; [done|..|done]; intros Hd; [destruct Hr; congruence|].
  destruct Hr as [|?|? ? Hp|? ? Hp]; [done|done|..]; unfold being_deleted in Hd;
    destruct (ws_PowerState s); set_solver.
Qed.

Lemma desired_entitled t dbnow m k d i :
  let t' := durable (UpdateWorkstationDesiredPowerStateByID dbnow m k d (calm t)).2 in
  workstations t' !! i ≠ workstations t !! i →
  entitled t i (OpSetDesired dbnow m k d) (workstations t' !! i).
Proof.
  cbv zeta.
  destruct (set_desired_run dbnow m k d t)
    as [(s & s' & Hs & <- & Hd & Hw & ->)|[(s & _ & _ & _ & ->)|[_ ->]]]; [|done..].
  simpl. intros [-> ->]%insert_changed. by constructor.
Qed.

Lemma report_entitled t dbnow w report i :
  wf_tables t →
  let t' := durable (UpdateWorkstationStatus dbnow w report (calm t)).2 in
  workstations t' !! i ≠ workstations t !! i →
  entitled t i (OpReport dbnow w report) (workstations t' !! i).
Proof.
  intros Hwf. pose proof (UpdateStatus_settles dbnow w report t Hwf) as Hrun. unfold settles in Hrun.
  cbv zeta. rewrite Hrun. clear Hrun.
  destruct (workstations t !! rep_WorkstationID report) as [s|] eqn:Hs; [|done].
  destruct (bool_decide (ws_WorkerID s ≠ w)) eqn:Ew; [done|].
  apply bool_decide_eq_false, dec_stable in Ew as <-. rewrite (wf_ws_key _ Hwf _ _ Hs).
  case_bool_decide as Hd; [case_bool_decide as Hp|]; simpl.
  - destruct (decide (rep_WorkstationID report = i)) as [<-|Hne].
    + rewrite lookup_delete_eq. intros _. by eapply entitled_removal.
    + by rewrite lookup_delete_ne.
  - intros [-> ->]%insert_changed. by eapply entitled_report.
  - destruct (power_state_of_text _) as [p|]; [|done]. simpl.
    intros [-> ->]%insert_changed. by eapply entitled_report.
Qed.

(** The authority lemma: every change to a workstation's row is one the
    operation is entitled to. *)
Lemma after_entitled t op fs i :
  wf_tables t → workstations (after t op fs) !! i ≠ workstations t !! i →
  entitled t i op (workstations (after t op fs) !! i).
Proof.
  intros Hwf Hc. destruct (decide (table_of op = TWorkstations)) as [Et|Et].
  2: { destruct (exec_confined op t (mkWorld t t fs) (same_but_refl _ t)) as (_ & E & _).
       by rewrite <- (E Et) in Hc. }
  unfold after in *. destruct op; simpl in Et; try done; simpl in *.
  - destruct (after_atomic t (ClaimWorkstation gonow dbnow uuid memberID preferred) fs) as [E|E];
      [apply Claim_atomic|by rewrite E in Hc|]. rewrite E in *. by apply claim_entitled.
  - destruct (after_atomic t (EnsureWorkstationRunningByIDForMember dbnow memberID workstationID) fs)
      as [E|E]; [apply Ensure_atomic|by rewrite E in Hc|]. rewrite E in *. by apply ensure_entitled.
  - destruct (after_atomic t (UpdateWorkstationDesiredPowerStateByID dbnow memberID workstationID desired) fs)
      as [E|E]; [apply UpdateDesired_atomic|by rewrite E in Hc|]. rewrite E in *.
    by apply desired_entitled.
  - destruct (atomic_outcome (UpdateWorkstationStatus dbnow workerID report) t fs
      (UpdateStatus_atomic _ _ _)) as [[E|E] _]; [by rewrite E in Hc|]. rewrite E in *.
    by apply report_entitled.
Qed.

Lemma exec_self_contained op : self_contained (exec op).
Proof.
  assert (∀ A (m : DB A), self_contained m → self_contained (void m)) as Hvoid.
  { intros A m Hm. apply self_contained_bind; auto with minis. }
  destruct op; simpl; try apply Hvoid; try apply self_contained_pool; try apply self_contained_tx.
  - unfold IssueWorkerToken, lift. apply self_contained_bind.
    + destruct (GenerateWorkerToken random); auto with minis.
    + intros tk. apply self_contained_bind; auto with minis.
  - unfold InsertRelease. apply self_contained_bind; [auto with minis|].
    intros [e|r']; [|auto with minis]. destruct e as [|[]| | | | | | | |]; auto with minis.
Qed.

(** The authority lemma for a call made from any world. *)
Lemma exec_entitled op w i :
  wf_tables (durable w) →
  workstations (durable (exec op w).2) !! i = workstations (durable w) !! i ∨
  entitled (durable w) i op (workstations (durable (exec op w).2) !! i).
Proof.
  intros Hwf. destruct w as [d wk fs]. simpl in *.
  destruct (exec_self_contained op d wk d fs) as (_ & -> & _).
  destruct (decide (workstations (after d op fs) !! i = workstations d !! i)); [by left|].
  right. by apply after_entitled.
Qed.

(** C5. Authority over workstations: whatever operation runs, under whatever
    faults, a change to a workstation's row is one the operation is entitled to.
    Members never touch each other's workstations, workers never touch each
    other's, no operation moves a workstation to another member, worker, slot or
    VM name, and only a confirmed deletion removes one. *)
Theorem change_authority t op fs i :
  wf_tables t →
  workstations (after t op fs) !! i = workstations t !! i ∨
  entitled t i op (workstations (after t op fs) !! i).
Proof.
  intros Hwf. destruct (decide (workstations (after t op fs) !! i = workstations t !! i));
    [by left|right; by apply after_entitled].
Qed.

(** ** Deletion is final *)

Definition doomed (s : Workstation) (r : option Workstation) : Prop :=
  match r with
  | None => True
  | Some s' => same_placement s s' ∧
      ws_DesiredPowerState s' = WorkstationDesiredPowerStateDeleted ∧
      ws_PowerState s' = WorkstationPowerStateDeleting
  end.

Definition claims_id (i : string) (op : Op) : bool :=
  match op with OpClaim _ _ uuid _ _ => bool_decide (uuid = i) | _ => false end.

Lemma doomed_step s t op fs i :
  wf_tables t → claims_id i op = false → doomed s (workstations t !! i) →
  doomed s (workstations (after t op fs) !! i).
Proof.
  intros Hwf Hop Hd. pose proof (after_wf t op fs Hwf) as Hwf'.
  destruct (decide (workstations (after t op fs) !! i = workstations t !! i)) as [->|Hc]; [done|].
  apply after_entitled in Hc; [|done].
  remember (workstations (after t op fs) !! i) as r eqn:Er. symmetry in Er.
  destruct Hc as [|? s0 ? Hi Hne|? s0 ? ? Hi Hne ?|? s0 s' ? Hi ? Hpl Hdes|];
    simpl in Hop.
  - by rewrite bool_decide_true in Hop.
  - rewrite Hi in Hd. by destruct Hd as (_ & ? & _).
  - rewrite Hi in Hd. destruct Hd as (_ & _ & Hp). destruct Hne. unfold being_deleted.
    rewrite Hp. by left.
  - rewrite Hi in Hd. destruct Hd as (Hp & Hd & _). split; [|split; [congruence|]].
    + unfold same_placement in *. naive_solver congruence.
    + eapply (wf_ws_deleted _ Hwf'); [done|congruence].
  - done.
Qed.

(** C14. Deletion is final: once a workstation's desired state is "deleted",
    after any sequence of operations under any faults (no claim reusing its
    identifier) the row is gone, or it is the same workstation in the same slot,
    still to be deleted and still in state "deleting". *)
Theorem deletion_final t i s ops :
  wf_tables t → workstations t !! i = Some s →
  ws_DesiredPowerState s = WorkstationDesiredPowerStateDeleted →
  Forall (λ p, claims_id i p.1 = false) ops →
  doomed s (workstations (run_ops ops t) !! i).
Proof.
  intros Hwf Hs Hd Hops.
  assert (doomed s (workstations t !! i)) as H0.
  { rewrite Hs. split; [done|]. split; [done|]. by eapply (wf_ws_deleted _ Hwf). }
  clear Hs. revert t Hwf H0. induction Hops as [|[op fs] ops Hop Hops IH]; intros t Hwf H0; [done|].
  apply IH; [by apply after_wf|by apply doomed_step].
Qed.
End System.

(** ** Witnesses *)

Definition sample_ops : list (Op * list Fault) :=
  [(OpUpsertWorker 0 "mac-1" "HW-1" 8 16 "2" "1" 2 "base", []);
   (OpHeartbeat 1000 (GenerateWorkerID "HW-1"), []);
   (OpUpsertMember 1000 "m-ann" "sub-ann" "ann@example.com", []);
   (OpClaim 2000 2000 "id-1" "m-ann" "", [NoFault; NoFault; NoFault; NoFault; NoFault; FailAfter])].

Definition sample_state : Tables := run_ops (H := C_collation) sample_ops empty_tables.

Lemma sample_reachable : rtc (step (H := C_collation)) empty_tables sample_state.
Proof. apply run_ops_reachable. Qed.

Lemma sample_worker :
  workers sample_state !! GenerateWorkerID "HW-1" =
  Some (mkWorker (GenerateWorkerID "HW-1") "mac-1" "HW-1" 8 16 "2" "1" 2 "base"
          WorkerStatusActive 0 (Some 1000) None None None).
Proof. vm_compute. reflexivity. Qed.

Lemma reachable_wf_witness :
  rtc (step (H := C_collation)) empty_tables sample_state ∧ wf_tables sample_state ∧
  is_Some (workstations sample_state !! "id-1"%string).
Proof.
  split; [exact sample_reachable|]. split; [exact (reachable_wf _ sample_reachable)|].
  vm_compute. eexists. reflexivity.
Defined.

Lemma no_overcommit_witness :
  Z.of_nat (length (ws_rows (λ s, bool_decide (ws_WorkerID s = GenerateWorkerID "HW-1")) sample_state))
    ≤ Z.max 0 2 ∧
  length (ws_rows (λ s, bool_decide (ws_WorkerID s = GenerateWorkerID "HW-1")) sample_state) = 1%nat.
Proof.
  split; [exact (no_overcommit _ _ _ sample_reachable sample_worker)|]. vm_compute. reflexivity.
Defined.

Lemma change_authority_witness :
  wf_tables Sample.tables ∧
  ∀ i, workstations (after (H := C_collation) Sample.tables (OpSetDesired 9 "m-bob" "ws-id-1"
         WorkstationDesiredPowerStateDeleted) []) !! i = workstations Sample.tables !! i.
Proof.
  split; [exact Sample.wf_sample|]. intros i.
  destruct (change_authority (H := C_collation) Sample.tables (OpSetDesired 9 "m-bob" "ws-id-1"
    WorkstationDesiredPowerStateDeleted) [] i Sample.wf_sample) as [E|He]; [exact E|].
  vm_compute. reflexivity.
Defined.

Lemma deletion_final_witness :
  let s := set_desired 9 WorkstationDesiredPowerStateDeleted WorkstationPowerStateDeleting Sample.ws1 in
  let t := set_workstations <["ws-id-1"%string := s]> Sample.tables in
  let ops := [(OpEnsure 10 "m-ann" "ws-id-1", []);
              (OpReport 11 (wk_ID Sample.mac1) (mkReport "ws-id-1" "running" "" ""), [])] in
  wf_tables t ∧ is_Some (workstations (run_ops (H := C_collation) ops t) !! "ws-id-1"%string) ∧
  doomed s (workstations (run_ops (H := C_collation) ops t) !! "ws-id-1"%string).
Proof.
  intros s t ops.
  assert (wf_tables t) as Hwf.
  { apply (wf_put_workstation Sample.tables "ws-id-1" Sample.ws1).
    - exact Sample.wf_sample.
    - vm_compute. reflexivity.
    - repeat split.
    - intros _. reflexivity. }
  split; [exact Hwf|]. split; [vm_compute; eexists; reflexivity|].
  apply (deletion_final (H := C_collation) t "ws-id-1" s ops Hwf).
  - vm_compute. reflexivity.
  - vm_compute. reflexivity.
  - repeat constructor.
Defined.
