(* ===== verification/ProxySession.v ===== *)
(** * Proxy sessions ([internal/proxy/session.go])

    Sessions are heap objects shared by the manager's map and by the goroutines
    that looked them up, so the model keeps a heap of session objects and a map
    from identifiers to pointers.  A channel that is only ever closed is a
    boolean; closing it twice would panic, and [close_chan] says so.  A
    WebSocket connection is a number, and [closed_conns] are the ones
    [CloseNow] was called on.

    Each method is a composition of the sections it runs under a lock
    ([sm.mu] for the map, [s.mu] for an object).  [Race] interleaves those
    sections arbitrarily. *)

From stdpp Require Import gmap strings list.
From Stdlib Require Import ZArith Lia.
From S2P Require Import Prelude GoStrings Encoding.

Local Open Scope Z_scope.

(** ** Data *)

Inductive SessionState := SessionPending | SessionActive | SessionClosed.
Inductive ProxyTarget := ProxyTargetVM | ProxyTargetHost.

#[export] Instance SessionState_eq_dec : EqDecision SessionState.
Proof. solve_decision. Defined.
#[export] Instance ProxyTarget_eq_dec : EqDecision ProxyTarget.
Proof. solve_decision. Defined.

Definition Conn : Type := nat.
Definition Ptr : Type := nat.

Record ProxySession := mkSession {
  ps_ID : string;
  ps_Target : ProxyTarget;
  ps_VMID : string;
  ps_WorkerID : string;
  ps_Port : Z;
  ps_Token : string;
  ps_State : SessionState;
  ps_CreatedAt : Z;
  ps_clientConn : option Conn;
  ps_workerConn : option Conn;
  ps_ready : bool;
  ps_done : bool
}.

Record SessionManager := mkManager {
  sm_heap : gmap Ptr ProxySession;
  sm_sessions : gmap string Ptr;
  sm_closed_conns : gset Conn;
  sm_AllowedPorts : gset Z
}.

Definition NewSessionManager : SessionManager := mkManager ∅ ∅ ∅ {[5900; 22]}.

Definition set_object (p : Ptr) (s : ProxySession) (sm : SessionManager) : SessionManager :=
  mkManager (<[p := s]> (sm_heap sm)) (sm_sessions sm) (sm_closed_conns sm) (sm_AllowedPorts sm).

(** [close(ch)]: [None] is the panic of closing a closed channel. *)
Definition close_chan (closed : bool) : option bool := if closed then None else Some true.

(** [select { case <-ch: default: close(ch) }]. *)
Definition close_once (closed : bool) : option bool :=
  if closed then Some closed else close_chan closed.

(** The order in which a Go [range] visits a map is unspecified: any permutation
    of its entries. *)
Class RangeOrder := {
  range : gmap string Ptr → list (string * Ptr);
  range_perm : ∀ m, range m ≡ₚ map_to_list m
}.

Definition key_order : RangeOrder := Build_RangeOrder map_to_list (λ _, reflexivity _).

(** ** Operations *)

(** Allocation gives a pointer no live object has. *)
Definition Create (sm : SessionManager) (uuid : string) (tokenBytes : list Z) (now : Z)
    (target : ProxyTarget) (vmID workerID : string) (port : Z) : Ptr * SessionManager :=
  let s := mkSession uuid target vmID workerID port (hex_encode tokenBytes) SessionPending now
             None None false false in
  let p := fresh (dom (sm_heap sm)) in
  (p, mkManager (<[p := s]> (sm_heap sm)) (<[uuid := p]> (sm_sessions sm))
        (sm_closed_conns sm) (sm_AllowedPorts sm)).

Definition Get (sm : SessionManager) (sessionID : string) : option Ptr :=
  sm_sessions sm !! sessionID.

Definition object_is (P : ProxySession → bool) (sm : SessionManager) (p : Ptr) : bool :=
  match sm_heap sm !! p with Some s => P s | None => false end.

(** The entries of the map whose object satisfies a test, in [range] order. *)
Definition matching `{!RangeOrder} (P : ProxySession → bool) (sm : SessionManager) :
    list (string * Ptr) :=
  filter (λ e, object_is P sm e.2 = true) (range (sm_sessions sm)).

Definition GetPending `{!RangeOrder} (sm : SessionManager) (workerID : string) : list Ptr :=
  (matching (λ s, bool_decide (ps_WorkerID s = workerID)
                  && bool_decide (ps_State s = SessionPending)) sm).*2.

Definition store_conn (role : string) (conn : Conn) (s : ProxySession) : ProxySession :=
  if bool_decide (role = "client"%string) then
    mkSession (ps_ID s) (ps_Target s) (ps_VMID s) (ps_WorkerID s) (ps_Port s) (ps_Token s)
      (ps_State s) (ps_CreatedAt s) (Some conn) (ps_workerConn s) (ps_ready s) (ps_done s)
  else if bool_decide (role = "worker"%string) then
    mkSession (ps_ID s) (ps_Target s) (ps_VMID s) (ps_WorkerID s) (ps_Port s) (ps_Token s)
      (ps_State s) (ps_CreatedAt s) (ps_clientConn s) (Some conn) (ps_ready s) (ps_done s)
  else s.

Definition both_connected (s : ProxySession) : bool :=
  bool_decide (ps_clientConn s ≠ None) && bool_decide (ps_workerConn s ≠ None).

Definition activate (s : ProxySession) (ready : bool) : ProxySession :=
  mkSession (ps_ID s) (ps_Target s) (ps_VMID s) (ps_WorkerID s) (ps_Port s) (ps_Token s)
    SessionActive (ps_CreatedAt s) (ps_clientConn s) (ps_workerConn s) ready (ps_done s).

(** What [SetConn] does while it holds [s.mu]; [None] is a panic. *)
Definition SetConn_locked (s : ProxySession) (role : string) (conn : Conn) :
    option (bool * ProxySession) :=
  let s := store_conn role conn s in
  if both_connected s then
    ready ← close_once (ps_ready s);
    Some (true, activate s ready)
  else Some (false, s).

Definition SetConn (sm : SessionManager) (sessionID role : string) (conn : Conn) :
    option (bool * SessionManager) :=
  match Get sm sessionID with
  | None => Some (false, sm)
  | Some p =>
      s ← sm_heap sm !! p;
      '(both, s') ← SetConn_locked s role conn;
      Some (both, set_object p s' sm)
  end.

(** The two locked sections of [Close]. *)
Definition Close_unlink (sm : SessionManager) (sessionID : string) : option Ptr * SessionManager :=
  (sm_sessions sm !! sessionID,
   mkManager (sm_heap sm) (delete sessionID (sm_sessions sm)) (sm_closed_conns sm)
     (sm_AllowedPorts sm)).

Definition shut (s : ProxySession) (done : bool) : ProxySession :=
  mkSession (ps_ID s) (ps_Target s) (ps_VMID s) (ps_WorkerID s) (ps_Port s) (ps_Token s)
    SessionClosed (ps_CreatedAt s) (ps_clientConn s) (ps_workerConn s) (ps_ready s) done.

Definition conns_of (s : ProxySession) : gset Conn :=
  match ps_clientConn s with Some c => {[c]} | None => ∅ end ∪
  match ps_workerConn s with Some c => {[c]} | None => ∅ end.

Definition Close_shut (sm : SessionManager) (p : Ptr) : option SessionManager :=
  s ← sm_heap sm !! p;
  done ← close_once (ps_done s);
  Some (mkManager (<[p := shut s done]> (sm_heap sm)) (sm_sessions sm)
          (conns_of s ∪ sm_closed_conns sm) (sm_AllowedPorts sm)).

Definition Close (sm : SessionManager) (sessionID : string) : option SessionManager :=
  match Close_unlink sm sessionID with
  | (None, sm) => Some sm
  | (Some p, sm) => Close_shut sm p
  end.

Fixpoint CloseAll (sm : SessionManager) (ids : list string) : option SessionManager :=
  match ids with
  | [] => Some sm
  | id :: ids => sm ← Close sm id; CloseAll sm ids
  end.

Definition close_matching `{!RangeOrder} (P : ProxySession → bool) (sm : SessionManager) :
    option (Z * SessionManager) :=
  let sessionIDs := (matching P sm).*1 in
  sm ← CloseAll sm sessionIDs;
  Some (Z.of_nat (length sessionIDs), sm).

Definition CloseByWorker `{!RangeOrder} (sm : SessionManager) (workerID : string) :
    option (Z * SessionManager) :=
  close_matching (λ s, bool_decide (ps_WorkerID s = workerID)) sm.

Definition CloseByVM `{!RangeOrder} (sm : SessionManager) (vmID : string) :
    option (Z * SessionManager) :=
  close_matching (λ s, bool_decide (ps_VMID s = vmID)) sm.

Definition reapInterval : Z := 10 * Second.
Definition pendingSessionMaxAge : Z := 60 * Second.

Definition stale (now : Z) (s : ProxySession) : bool :=
  bool_decide (ps_State s = SessionPending) && (pendingSessionMaxAge <? now - ps_CreatedAt s).

Definition reap `{!RangeOrder} (sm : SessionManager) (now : Z) : option SessionManager :=
  '(_, sm) ← close_matching (stale now) sm;
  Some sm.

(** [StartReaper] until its context is cancelled: one [reap] per tick. *)
Fixpoint StartReaper `{!RangeOrder} (sm : SessionManager) (ticks : list Z) : option SessionManager :=
  match ticks with
  | [] => Some sm
  | now :: ticks => sm ← reap sm now; StartReaper sm ticks
  end.

(** ** The invariant of the manager between calls *)

Record wf_manager (sm : SessionManager) : Prop := mk_wf_manager {
  wf_registered : ∀ id p, sm_sessions sm !! id = Some p →
    ∃ s, sm_heap sm !! p = Some s ∧ ps_ID s = id ∧ ps_done s = false ∧ ps_State s ≠ SessionClosed;
  wf_unregistered : ∀ p s, sm_heap sm !! p = Some s → sm_sessions sm !! ps_ID s ≠ Some p →
    ps_done s = true ∧ ps_State s = SessionClosed ∧ conns_of s ⊆ sm_closed_conns sm;
  wf_active : ∀ p s, sm_heap sm !! p = Some s → ps_State s = SessionActive → ps_ready s = true;
  wf_ready : ∀ p s, sm_heap sm !! p = Some s → ps_ready s = true → both_connected s = true;
  wf_pending : ∀ p s, sm_heap sm !! p = Some s → ps_State s = SessionPending →
    both_connected s = false
}.

Lemma wf_new_manager : wf_manager NewSessionManager.
Proof. split; intros *; simpl; by rewrite lookup_empty. Qed.

Lemma Create_fresh (sm : SessionManager) : sm_heap sm !! fresh (dom (sm_heap sm)) = None.
Proof. apply not_elem_of_dom, is_fresh. Qed.

Lemma Create_wf sm uuid bytes now target vm worker port :
  wf_manager sm → sm_sessions sm !! uuid = None →
  wf_manager (Create sm uuid bytes now target vm worker port).2.
Proof.
  intros [Hr Hu Ha Hy Hp] Hnew. pose proof (Create_fresh sm) as Hf. unfold Create. simpl.
  set (p0 := fresh _) in *. split; simpl.
  - intros id p [[<- <-]|[Hne Hid]]%lookup_insert_Some.
    + eexists. by rewrite lookup_insert_eq.
    + destruct (Hr _ _ Hid) as (s & Hs & Hrest). exists s. split; [|done].
      rewrite lookup_insert_ne; [done|]. intros ->. congruence.
  - intros p s [[<- <-]|[Hne Hs]]%lookup_insert_Some; simpl; [by rewrite lookup_insert_eq|].
    intros Hn. apply (Hu p s Hs). intros E. apply Hn. rewrite lookup_insert_ne; [done|].
    intros E'. by rewrite <- E', Hnew in E.
  - intros p s [[<- <-]|[_ Hs]]%lookup_insert_Some; [done|]. by apply (Ha p).
  - intros p s [[<- <-]|[_ Hs]]%lookup_insert_Some; [done|]. by apply (Hy p).
  - intros p s [[<- <-]|[_ Hs]]%lookup_insert_Some; [done|]. by apply (Hp p).
Qed.

Lemma store_conn_fields role conn s :
  ps_ID (store_conn role conn s) = ps_ID s ∧ ps_State (store_conn role conn s) = ps_State s ∧
  ps_ready (store_conn role conn s) = ps_ready s ∧ ps_done (store_conn role conn s) = ps_done s ∧
  (both_connected s = true → both_connected (store_conn role conn s) = true).
Proof.
  unfold store_conn, both_connected. repeat case_bool_decide; simpl; repeat split; try done;
    intros H; apply andb_true_iff in H as [H1 H2]; rewrite ?H1, ?H2; by case_bool_decide.
Qed.

(** [SetConn_locked] never panics, and its result in terms of the session. *)
Lemma SetConn_locked_spec s role conn :
  SetConn_locked s role conn =
  Some (both_connected (store_conn role conn s),
        if both_connected (store_conn role conn s) then activate (store_conn role conn s) true
        else store_conn role conn s).
Proof.
  unfold SetConn_locked. destruct (both_connected _); [|done].
  unfold close_once, close_chan. by destruct (ps_ready _).
Qed.

Lemma close_once_true b : close_once b = Some true.
Proof. by destruct b. Qed.

Lemma set_object_wf sm p s s' :
  wf_manager sm → sm_heap sm !! p = Some s → sm_sessions sm !! ps_ID s = Some p →
  ps_ID s' = ps_ID s → ps_done s' = false → ps_State s' ≠ SessionClosed →
  (ps_State s' = SessionActive → ps_ready s' = true) →
  (ps_ready s' = true → both_connected s' = true) →
  (ps_State s' = SessionPending → both_connected s' = false) →
  wf_manager (set_object p s' sm).
Proof.
  intros [Hr Hu Ha Hy Hp] Hs Hreg Hid Hd Hc HA HR HP. split; simpl.
  - intros id q Hq. destruct (Hr _ _ Hq) as (r & Hq' & Eid & Hrest).
    destruct (decide (p = q)) as [<-|Hne].
    + exists s'. rewrite lookup_insert_eq. simplify_eq. by rewrite Hid.
    + exists r. by rewrite lookup_insert_ne.
  - intros q r [[<- <-]|[Hne Hq]]%lookup_insert_Some; [by rewrite Hid|]. by apply Hu.
  - intros q r [[<- <-]|[_ Hq]]%lookup_insert_Some; [done|]. by apply (Ha q).
  - intros q r [[<- <-]|[_ Hq]]%lookup_insert_Some; [done|]. by apply (Hy q).
  - intros q r [[<- <-]|[_ Hq]]%lookup_insert_Some; [done|]. by apply (Hp q).
Qed.

Lemma SetConn_wf sm id role conn :
  wf_manager sm → ∃ both sm', SetConn sm id role conn = Some (both, sm') ∧ wf_manager sm'.
Proof.
  intros Hwf. unfold SetConn, Get. destruct (sm_sessions sm !! id) as [p|] eqn:E; [|by eauto].
  destruct (wf_registered _ Hwf _ _ E) as (s & Hs & <- & Hd & Hc). rewrite Hs. simpl.
  rewrite SetConn_locked_spec. simpl. eexists _, _. split; [done|].
  destruct (store_conn_fields role conn s) as (E1 & E2 & E3 & E4 & E5).
  apply (set_object_wf sm p s); try done; destruct (both_connected (store_conn role conn s)) eqn:Eb;
    simpl; rewrite ?E1, ?E2, ?E3, ?E4; try done.
  - intros HA. pose proof (wf_active _ Hwf _ _ Hs HA) as HR. exact HR.
  - intros HR. by rewrite (wf_ready _ Hwf _ _ Hs HR) in E5; rewrite E5 in Eb.
Qed.

(** What [Close] leaves behind. *)
Definition closed_manager (sm : SessionManager) (id : string) (p : Ptr) (s : ProxySession) :
    SessionManager :=
  mkManager (<[p := shut s true]> (sm_heap sm)) (delete id (sm_sessions sm))
    (conns_of s ∪ sm_closed_conns sm) (sm_AllowedPorts sm).

Lemma Close_spec sm id :
  wf_manager sm →
  match sm_sessions sm !! id with
  | None => Close sm id = Some sm
  | Some p => ∃ s, sm_heap sm !! p = Some s ∧ ps_ID s = id ∧
                   Close sm id = Some (closed_manager sm id p s)
  end.
Proof.
  intros Hwf. unfold Close, Close_unlink. destruct (sm_sessions sm !! id) as [p|] eqn:E.
  - destruct (wf_registered _ Hwf _ _ E) as (s & Hs & Hid & _). exists s.
    split; [done|]. split; [done|]. unfold Close_shut. simpl. rewrite Hs. simpl.
    by rewrite close_once_true.
  - rewrite delete_id by done. by destruct sm.
Qed.

Lemma closed_manager_wf sm id p s :
  wf_manager sm → sm_sessions sm !! id = Some p → sm_heap sm !! p = Some s → ps_ID s = id →
  wf_manager (closed_manager sm id p s).
Proof.
  intros [Hr Hu Ha Hy Hp] Hid Hs Eid.
  split; simpl.
  - intros k q [Hne Hq]%lookup_delete_Some. destruct (Hr _ _ Hq) as (r & Hq' & Ek & Hrest).
    exists r. split; [|done]. rewrite lookup_insert_ne; [done|]. intros ->. congruence.
  - intros q r [[<- <-]|[Hne Hq]]%lookup_insert_Some Hn.
    + split; [done|]. split; [done|]. change (conns_of (shut s true)) with (conns_of s). set_solver.
    + destruct (decide (ps_ID r = id)) as [E|Hne'].
      * destruct (Hu q r Hq) as (? & ? & ?); [congruence|]. set_solver.
      * rewrite lookup_delete_ne in Hn by done. destruct (Hu q r Hq Hn) as (? & ? & ?). set_solver.
  - intros q r [[<- <-]|[_ Hq]]%lookup_insert_Some; [done|]. by apply (Ha q).
  - intros q r [[<- <-]|[_ Hq]]%lookup_insert_Some; [exact (Hy p s Hs)|]. by apply (Hy q).
  - intros q r [[<- <-]|[_ Hq]]%lookup_insert_Some; [done|]. by apply (Hp q).
Qed.

(** Closing leaves every other registration, and its object, alone. *)
Definition same_except (gone : string → Prop) (sm sm' : SessionManager) : Prop :=
  (∀ k, gone k → sm_sessions sm' !! k = None) ∧
  (∀ k, ¬ gone k → sm_sessions sm' !! k = sm_sessions sm !! k) ∧
  (∀ k p, ¬ gone k → sm_sessions sm !! k = Some p → sm_heap sm' !! p = sm_heap sm !! p).

Lemma CloseAll_spec ids sm :
  wf_manager sm →
  ∃ sm', CloseAll sm ids = Some sm' ∧ wf_manager sm' ∧ same_except (λ k, k ∈ ids) sm sm' ∧
    dom (sm_heap sm') = dom (sm_heap sm).
Proof.
  revert sm. induction ids as [|id ids IH]; intros sm Hwf; simpl.
  { exists sm. do 2 (split; [done|]). split; [|done]. split_and!; [by intros k Hk%elem_of_nil|done..]. }
  assert (∃ sm1, Close sm id = Some sm1 ∧ wf_manager sm1 ∧ same_except (λ k, k = id) sm sm1 ∧
    dom (sm_heap sm1) = dom (sm_heap sm)) as (sm1 & -> & Hwf1 & (G1 & K1 & H1) & D1).
  { pose proof (Close_spec sm id Hwf) as HC. destruct (sm_sessions sm !! id) as [p|] eqn:E.
    - destruct HC as (s & Hs & Hid & ->). eexists. split; [done|].
      split; [by apply closed_manager_wf|]. split; [split_and!|].
      + intros k ->. apply lookup_delete_eq.
      + intros k Hk. simpl. by rewrite lookup_delete_ne.
      + intros k q Hk Hq. simpl. rewrite lookup_insert_ne; [done|]. intros ->.
        destruct (wf_registered _ Hwf _ _ Hq) as (s' & Hs' & Hid' & _). simplify_eq.
      + simpl. rewrite dom_insert_L. apply elem_of_dom_2 in Hs. set_solver.
    - exists sm. do 2 (split; [done|]). split; [|done]. split_and!; [by intros k ->|done|done]. }
  simpl. destruct (IH sm1 Hwf1) as (sm' & -> & Hwf' & (G & K & HH) & D).
  exists sm'. split; [done|]. split; [done|]. split; [|congruence]. split_and!.
  - intros k Hk. destruct (decide (k ∈ ids)) as [Hin|Hin]; [by apply G|].
    rewrite K by done. apply G1. set_solver.
  - intros k Hk. rewrite K, K1; set_solver.
  - intros k p Hk Hp. rewrite (HH k p), (H1 k p); [done|set_solver|done|set_solver|].
    by rewrite K1 by set_solver.
Qed.

(** Closing changes an object only by shutting it. *)
Lemma CloseAll_objects ids sm sm' p s :
  wf_manager sm → CloseAll sm ids = Some sm' → sm_heap sm !! p = Some s →
  ∃ s', sm_heap sm' !! p = Some s' ∧ (s' = s ∨ s' = shut s true).
Proof.
  revert sm s. induction ids as [|id ids IH]; intros sm s Hwf; simpl; [intros [= <-]; eauto|].
  intros E Hp. pose proof (Close_spec sm id Hwf) as HC.
  destruct (sm_sessions sm !! id) as [q|] eqn:Eid.
  2: { rewrite HC in E. by apply (IH sm). }
  destruct HC as (r & Hr & Er & HC). rewrite HC in E. simpl in E.
  pose proof (closed_manager_wf sm id q r Hwf Eid Hr Er) as Hwf1.
  destruct (decide (q = p)) as [->|Hne].
  - simplify_eq.
    destruct (IH _ (shut s true) Hwf1 E) as (s' & Hs' & Hc); [apply lookup_insert_eq|].
    exists s'. split; [done|]. right. by destruct Hc as [->| ->].
  - apply (IH _ s Hwf1 E). simpl. by rewrite lookup_insert_ne.
Qed.

Section Matching.
Context `{!RangeOrder}.

Lemma elem_of_matching P sm id :
  id ∈ (matching P sm).*1 ↔
  ∃ p s, sm_sessions sm !! id = Some p ∧ sm_heap sm !! p = Some s ∧ P s = true.
Proof.
  unfold matching, object_is. rewrite list_elem_of_fmap. setoid_rewrite list_elem_of_filter.
  setoid_rewrite range_perm. split.
  - intros ([k p] & -> & HP & Hin%elem_of_map_to_list). simpl in *.
    destruct (sm_heap sm !! p) as [s|] eqn:E; [|done]. eauto.
  - intros (p & s & Hid & Hs & HP). exists (id, p). simpl. rewrite Hs.
    split; [done|]. split; [done|]. by apply elem_of_map_to_list.
Qed.

(** A session that is over: closed, its [done] channel closed, and with it the
    connections the session had. *)
Definition torn_down (sm' : SessionManager) (p : Ptr) (s : ProxySession) : Prop :=
  (∃ s', sm_heap sm' !! p = Some s' ∧ ps_State s' = SessionClosed ∧ ps_done s' = true) ∧
  (∀ c, ps_clientConn s = Some c ∨ ps_workerConn s = Some c → c ∈ sm_closed_conns sm').

(** What closing by a property of the session does, in whatever order the map is
    traversed. *)
Lemma close_matching_spec P sm :
  wf_manager sm →
  ∃ ids sm', close_matching P sm = Some (Z.of_nat (length ids), sm') ∧ wf_manager sm' ∧
    NoDup ids ∧
    (∀ k, k ∈ ids ↔ ∃ p s, sm_sessions sm !! k = Some p ∧ sm_heap sm !! p = Some s ∧ P s = true) ∧
    (∀ k p s, sm_sessions sm !! k = Some p → sm_heap sm !! p = Some s →
       if P s then sm_sessions sm' !! k = None ∧ torn_down sm' p s
       else sm_sessions sm' !! k = Some p ∧ sm_heap sm' !! p = Some s).
Proof.
  intros Hwf. unfold close_matching. exists (matching P sm).*1.
  destruct (CloseAll_spec (matching P sm).*1 sm Hwf) as (sm' & E & Hwf' & (G & K & HH) & D).
  exists sm'. rewrite E. simpl. do 2 (split; [done|]). split.
  { unfold matching. eapply sublist_NoDup; [|apply fmap_sublist, sublist_filter].
    rewrite range_perm. apply NoDup_fst_map_to_list. }
  split; [apply elem_of_matching|]. intros k p s Hk Hs. destruct (P s) eqn:HP.
  - assert (k ∈ (matching P sm).*1) as Hin by (apply elem_of_matching; eauto).
    split; [by apply G|].
    destruct (CloseAll_objects _ _ _ p s Hwf E Hs) as (s' & Hs' & Hc).
    destruct (wf_registered _ Hwf _ _ Hk) as (s0 & Hs0 & Hid & _). simplify_eq.
    assert (ps_ID s' = ps_ID s ∧ conns_of s' = conns_of s) as [Eid Ec]
      by (destruct Hc as [->| ->]; done).
    destruct (wf_unregistered _ Hwf' p s' Hs') as (Hd & Hst & Hcl).
    { by rewrite Eid, (G _ Hin). }
    split; [by eauto|]. intros c Hcc. apply Hcl. rewrite Ec. unfold conns_of.
    destruct Hcc as [->| ->]; set_solver.
  - assert (k ∉ (matching P sm).*1) as Hn.
    { rewrite elem_of_matching. intros (p' & s' & Hp' & Hs' & HP'). congruence. }
    by rewrite (K k Hn), (HH k p Hn Hk).
Qed.

(** Closing the sessions of a worker, whatever order Go iterates the map in:
    it never panics and returns their number; each of them is unregistered and
    torn down (state "closed", [done] signalled, its connections closed); every
    other session stays registered with its object unchanged. *)
Theorem CloseByWorker_spec sm workerID :
  wf_manager sm →
  ∃ ids sm', CloseByWorker sm workerID = Some (Z.of_nat (length ids), sm') ∧
    NoDup ids ∧
    (∀ k, k ∈ ids ↔ ∃ p s, sm_sessions sm !! k = Some p ∧ sm_heap sm !! p = Some s ∧
                           ps_WorkerID s = workerID) ∧
    (∀ k p s, sm_sessions sm !! k = Some p → sm_heap sm !! p = Some s →
       if decide (ps_WorkerID s = workerID)
       then sm_sessions sm' !! k = None ∧ torn_down sm' p s
       else sm_sessions sm' !! k = Some p ∧ sm_heap sm' !! p = Some s).
Proof.
  intros Hwf.
  destruct (close_matching_spec (λ s, bool_decide (ps_WorkerID s = workerID)) sm Hwf)
    as (ids & sm' & E & _ & Hnd & Hids & Hall).
  exists ids, sm'. split; [exact E|]. split; [done|].
  setoid_rewrite bool_decide_eq_true in Hids. split; [done|].
  intros k p s Hk Hs. specialize (Hall k p s Hk Hs).
  destruct (decide (ps_WorkerID s = workerID)); [rewrite bool_decide_true in Hall by done
    |rewrite bool_decide_false in Hall by done]; exact Hall.
Qed.

(** C34. The reaper removes exactly the pending sessions older than a minute, and
    tears them down: an active session, or one created within the last 60
    seconds, stays registered with its object unchanged. *)
Theorem reap_spec sm now :
  wf_manager sm →
  ∃ sm', reap sm now = Some sm' ∧ wf_manager sm' ∧
    ∀ k p s, sm_sessions sm !! k = Some p → sm_heap sm !! p = Some s →
      if bool_decide (ps_State s = SessionPending ∧ 60 * Second < now - ps_CreatedAt s)
      then sm_sessions sm' !! k = None ∧ torn_down sm' p s
      else sm_sessions sm' !! k = Some p ∧ sm_heap sm' !! p = Some s.
Proof.
  intros Hwf. unfold reap.
  destruct (close_matching_spec (stale now) sm Hwf) as (ids & sm' & -> & Hwf' & _ & _ & Hall).
  exists sm'. simpl. do 2 (split; [done|]). intros k p s Hk Hs.
  assert (stale now s = bool_decide (ps_State s = SessionPending ∧ 60 * Second < now - ps_CreatedAt s))
    as <-; [|by apply Hall].
  apply eq_bool_prop_intro. unfold stale, pendingSessionMaxAge.
  rewrite !Is_true_true, andb_true_iff, !bool_decide_eq_true, Z.ltb_lt. done.
Qed.
End Matching.

(** A connection that is replaced is never closed by the session: when a
    second client connects to a session whose client is already connected, the
    first connection is forgotten, and closing the session leaves it open. *)
Theorem replaced_connection_leaks sm id p s c1 c2 :
  wf_manager sm → sm_sessions sm !! id = Some p → sm_heap sm !! p = Some s →
  ps_clientConn s = Some c1 → ps_workerConn s ≠ Some c1 → c2 ≠ c1 →
  c1 ∉ sm_closed_conns sm →
  ∃ both sm1 sm2, SetConn sm id "client" c2 = Some (both, sm1) ∧ Close sm1 id = Some sm2 ∧
    c1 ∉ sm_closed_conns sm2.
Proof.
  intros Hwf Hid Hs Hc1 Hw Hne Hopen.
  destruct (wf_registered _ Hwf _ _ Hid) as (s' & Hs' & Eid & _). simplify_eq.
  destruct (SetConn_wf sm (ps_ID s) "client" c2 Hwf) as (both & sm1 & E1 & Hwf1).
  exists both, sm1. revert E1. unfold SetConn, Get. rewrite Hid, Hs. simpl.
  rewrite SetConn_locked_spec. simpl. intros [= <- <-].
  pose proof (Close_spec _ (ps_ID s) Hwf1) as HC. simpl in HC. rewrite Hid in HC.
  destruct HC as (s1 & Hs1 & _ & HC). eexists. split; [done|]. split; [exact HC|].
  rewrite lookup_insert_eq in Hs1. simplify_eq. simpl.
  unfold conns_of. destruct (both_connected _); simpl; destruct (ps_workerConn s); set_solver.
Qed.

(** A manager with one session of worker "w", created at instant 0, whose client
    is connection 7. *)
Definition one_session : SessionManager :=
  match SetConn (Create NewSessionManager "s1" [1; 2] 0 ProxyTargetVM "vm1" "w" 22).2 "s1" "client" 7%nat with
  | Some (_, sm) => sm
  | None => NewSessionManager
  end.

Lemma wf_one_session : wf_manager one_session.
Proof.
  pose proof (Create_wf NewSessionManager "s1" [1; 2] 0 ProxyTargetVM "vm1" "w" 22
    wf_new_manager eq_refl) as H.
  destruct (SetConn_wf _ "s1" "client" 7%nat H) as (b & sm' & E & Hwf).
  unfold one_session. by rewrite E.
Qed.

Lemma CloseByWorker_spec_witness :
  wf_manager one_session ∧
  ∃ sm', CloseByWorker (H := key_order) one_session "w" = Some (1, sm') ∧
    sm_closed_conns sm' = {[7%nat]}.
Proof.
  split; [exact wf_one_session|].
  destruct (CloseByWorker_spec (H := key_order) one_session "w" wf_one_session)
    as (ids & sm' & E & _ & Hids & _).
  assert (CloseByWorker (H := key_order) one_session "w" = Some (1, sm')) as E1.
  { rewrite E. revert E. vm_compute. congruence. }
  exists sm'. split; [exact E1|]. revert E1. vm_compute. intros [= <-]. reflexivity.
Defined.

Lemma reap_spec_witness :
  wf_manager one_session ∧
  (∃ sm', reap (H := key_order) one_session (61 * Second) = Some sm' ∧
     sm_sessions sm' !! "s1"%string = None).
Proof.
  split; [exact wf_one_session|].
  destruct (reap_spec (H := key_order) one_session (61 * Second) wf_one_session)
    as (sm' & E & _ & H).
  exists sm'. split; [exact E|].
  assert (∃ p s, sm_sessions one_session !! "s1"%string = Some p ∧ sm_heap one_session !! p = Some s ∧
    ps_State s = SessionPending ∧ ps_CreatedAt s = 0) as (p & s & Hp & Hs & Hst & Hc).
  { eexists _, _. vm_compute. repeat split. }
  specialize (H _ p s Hp Hs). rewrite Hst, Hc in H. vm_compute in H. apply (proj1 H).
Defined.

Lemma replaced_connection_leaks_witness :
  ∃ both sm1 sm2, SetConn one_session "s1" "client" 8%nat = Some (both, sm1) ∧
    Close sm1 "s1" = Some sm2 ∧ 7%nat ∉ sm_closed_conns sm2.
Proof.
  eapply (replaced_connection_leaks one_session "s1" _ _ 7%nat 8%nat wf_one_session).
  - vm_compute. reflexivity.
  - vm_compute. reflexivity.
  - vm_compute. reflexivity.
  - vm_compute. discriminate.
  - discriminate.
  - apply not_elem_of_empty.
Defined.
