(* ===== verification/ProxyRace.v ===== *)
(** * Concurrent use of the session manager

    Goroutines run the methods of [SessionManager] concurrently.  Each method is
    a sequence of sections under a lock; a step runs the next section of one
    goroutine, so the reachable configurations are all interleavings.  Shown
    for all of them: no channel is closed twice, and once no [Close] is in
    progress a session is registered exactly when its [done] channel is still
    open, so a goroutine waiting on [Done] is released when its session is
    unregistered.  Also shown: the window between the lookup and the locked
    part of [SetConn] lets a connection slip into a session that has been
    closed. *)

From stdpp Require Import gmap strings list.
From Stdlib Require Import ZArith Lia.
From S2P Require Import Prelude GoStrings Encoding ProxySession.

(** What a goroutine has left to run. *)
Inductive Thread :=
| TCreate (uuid : string) (bytes : list Z) (now : Z) (target : ProxyTarget)
    (vmID workerID : string) (port : Z)
| TSetConn (sessionID role : string) (conn : Conn)
| TSetConnLocked (p : Ptr) (role : string) (conn : Conn)
| TCollect (P : ProxySession → bool)   (* the loop over the map of CloseByWorker, CloseByVM, reap *)
| TClose (ids : list string)
| TCloseShut (p : Ptr) (ids : list string)
| TEnd.

Section Race.
Context `{!RangeOrder}.

(** One locked section; [None] is a panic. *)
Definition section (sm : SessionManager) (th : Thread) : option (SessionManager * Thread) :=
  match th with
  | TCreate uuid bytes now target vm worker port =>
      Some ((Create sm uuid bytes now target vm worker port).2, TEnd)
  | TSetConn id role conn =>
      match Get sm id with
      | None => Some (sm, TEnd)
      | Some p => Some (sm, TSetConnLocked p role conn)
      end
  | TSetConnLocked p role conn =>
      s ← sm_heap sm !! p;
      '(_, s') ← SetConn_locked s role conn;
      Some (set_object p s' sm, TEnd)
  | TCollect P => Some (sm, TClose (matching P sm).*1)
  | TClose [] => Some (sm, TEnd)
  | TClose (id :: ids) =>
      match Close_unlink sm id with
      | (None, sm') => Some (sm', TClose ids)
      | (Some p, sm') => Some (sm', TCloseShut p ids)
      end
  | TCloseShut p ids => sm' ← Close_shut sm p; Some (sm', TClose ids)
  | TEnd => Some (sm, TEnd)
  end.

Definition Config : Type := SessionManager * list Thread.

(** Session identifiers are version 4 UUIDs: a new one is not in use. *)
Definition fresh_id (sm : SessionManager) (th : Thread) : Prop :=
  match th with TCreate uuid _ _ _ _ _ _ => sm_sessions sm !! uuid = None | _ => True end.

Inductive race_step : Config → Config → Prop :=
| race_section sm ts k th sm' th' :
    ts !! k = Some th → fresh_id sm th → section sm th = Some (sm', th') →
    race_step (sm, ts) (sm', <[k := th']> ts).

(** A goroutine that has not started. *)
Definition starting (th : Thread) : Prop :=
  match th with TSetConnLocked _ _ _ | TCloseShut _ _ => False | _ => True end.

Record race_inv (c : Config) : Prop := mk_race_inv {
  ri_registered : ∀ id p, sm_sessions c.1 !! id = Some p →
    ∃ s, sm_heap c.1 !! p = Some s ∧ ps_ID s = id ∧ ps_done s = false;
  ri_unregistered : ∀ p s, sm_heap c.1 !! p = Some s → sm_sessions c.1 !! ps_ID s ≠ Some p →
    ps_done s = true ∨ ∃ ids, TCloseShut p ids ∈ c.2;
  ri_ready : ∀ p s, sm_heap c.1 !! p = Some s → ps_ready s = true → both_connected s = true;
  ri_setting : ∀ p role conn, TSetConnLocked p role conn ∈ c.2 → is_Some (sm_heap c.1 !! p);
  ri_closing : ∀ p ids, TCloseShut p ids ∈ c.2 →
    ∃ s, sm_heap c.1 !! p = Some s ∧ sm_sessions c.1 !! ps_ID s ≠ Some p
}.

Lemma race_inv_start ts : Forall starting ts → race_inv (NewSessionManager, ts).
Proof.
  rewrite Forall_forall. intros Hts.
  split; intros *; simpl; rewrite ?lookup_empty; try done; by intros ?%Hts.
Qed.

(** Threads after a step: the one that ran, or one of the others. *)
Lemma elem_of_insert (ts : list Thread) k th th' x :
  ts !! k = Some th → x ∈ <[k := th']> ts → x = th' ∨ x ∈ ts.
Proof.
  intros Hk [j Hj]%list_elem_of_lookup. destruct (decide (k = j)) as [<-|Hne].
  - rewrite list_lookup_insert_eq in Hj by (by eapply lookup_lt_Some). left. congruence.
  - rewrite list_lookup_insert_ne in Hj by done. right. by eapply list_elem_of_lookup_2.
Qed.

Lemma elem_of_insert_other (ts : list Thread) k th th' x :
  ts !! k = Some th → x ∈ ts → x ≠ th → x ∈ <[k := th']> ts.
Proof.
  intros Hk [j Hj]%list_elem_of_lookup Hne. apply list_elem_of_lookup. exists j.
  rewrite list_lookup_insert_ne; [done|]. intros ->. congruence.
Qed.

(** Only one map entry points to an object. *)
Lemma registered_once c p id s :
  race_inv c → sm_sessions c.1 !! id = Some p → sm_heap c.1 !! p = Some s → ps_ID s = id.
Proof. intros Hi Hid Hs. destruct (ri_registered _ Hi _ _ Hid) as (s' & Hs' & E & _). congruence. Qed.

(** A goroutine moves on without touching the sessions. *)
Lemma race_inv_thread sm ts k th th' :
  race_inv (sm, ts) → ts !! k = Some th → starting th →
  (∀ p role conn, th' = TSetConnLocked p role conn → is_Some (sm_heap sm !! p)) →
  (∀ p ids, th' = TCloseShut p ids →
     ∃ s, sm_heap sm !! p = Some s ∧ sm_sessions sm !! ps_ID s ≠ Some p) →
  race_inv (sm, <[k := th']> ts).
Proof.
  intros Hi Hk Hst H1 H2. split; simpl.
  - apply (ri_registered _ Hi).
  - intros p s Hs Hn. destruct (ri_unregistered _ Hi p s Hs Hn) as [?|[ids Hin]]; [by left|].
    right. exists ids. eapply elem_of_insert_other; [done..|]. by intros <-.
  - apply (ri_ready _ Hi).
  - intros p role conn [<-|Hin]%(elem_of_insert _ _ _ _ _ Hk); [by eapply H1|].
    by eapply (ri_setting _ Hi).
  - intros p ids [<-|Hin]%(elem_of_insert _ _ _ _ _ Hk); [by eapply H2|].
    by eapply (ri_closing _ Hi).
Qed.

(** A goroutine that ends its section with nothing pending. *)
Lemma race_inv_idle sm ts k th th' :
  race_inv (sm, ts) → ts !! k = Some th → starting th → starting th' →
  race_inv (sm, <[k := th']> ts).
Proof. intros Hi Hk Hst Hst'. eapply race_inv_thread; try done; by intros * ->. Qed.

(** An object is updated in place, keeping its identity and [done]. *)
Lemma race_inv_object sm ts p s s' :
  race_inv (sm, ts) → sm_heap sm !! p = Some s →
  ps_ID s' = ps_ID s → ps_done s' = ps_done s →
  (ps_ready s' = true → both_connected s' = true) →
  race_inv (set_object p s' sm, ts).
Proof.
  intros Hi Hs Hid Hd Hr. split; simpl.
  - intros id q Hq. destruct (ri_registered _ Hi _ _ Hq) as (r & Hq' & Er & Hdr). simpl in *.
    destruct (decide (p = q)) as [<-|Hne].
    + exists s'. rewrite lookup_insert_eq. simplify_eq. by rewrite Hid, Hd.
    + exists r. by rewrite lookup_insert_ne.
  - intros q r [[<- <-]|[Hne Hq]]%lookup_insert_Some Hn.
    + rewrite Hd. rewrite Hid in Hn. by apply (ri_unregistered _ Hi).
    + by apply (ri_unregistered _ Hi).
  - intros q r [[<- <-]|[_ Hq]]%lookup_insert_Some; [done|]. by apply (ri_ready _ Hi q).
  - intros q role conn Hin. apply lookup_insert_is_Some.
    destruct (decide (p = q)); [by left|right]. split; [done|]. by eapply (ri_setting _ Hi).
  - intros q ids Hin. destruct (ri_closing _ Hi _ _ Hin) as (r & Hq & Hn). simpl in *.
    destruct (decide (p = q)) as [<-|Hne].
    + exists s'. rewrite lookup_insert_eq, Hid. by simplify_eq.
    + exists r. by rewrite lookup_insert_ne.
Qed.

Lemma race_inv_create sm ts uuid bytes now target vm worker port :
  race_inv (sm, ts) → sm_sessions sm !! uuid = None →
  race_inv ((Create sm uuid bytes now target vm worker port).2, ts).
Proof.
  intros Hi Hnew. pose proof (Create_fresh sm) as Hf. unfold Create. simpl.
  set (p0 := fresh _) in *.
  assert (∀ q r, sm_heap sm !! q = Some r → q ≠ p0) as Hp0 by (intros q r Hq ->; congruence).
  split; simpl.
  - intros id q [[<- <-]|[Hne Hq]]%lookup_insert_Some.
    + eexists. by rewrite lookup_insert_eq.
    + destruct (ri_registered _ Hi _ _ Hq) as (r & Hr & ?). exists r.
      rewrite lookup_insert_ne; [done|]. by apply not_eq_sym, (Hp0 q r).
  - intros q r [[<- <-]|[Hne Hq]]%lookup_insert_Some; simpl; [by rewrite lookup_insert_eq|].
    intros Hn. apply (ri_unregistered _ Hi q r Hq). simpl. intros E. apply Hn.
    rewrite lookup_insert_ne; [done|]. intros E'. rewrite <- E' in E. congruence.
  - intros q r [[<- <-]|[_ Hq]]%lookup_insert_Some; [done|]. by apply (ri_ready _ Hi q).
  - intros q role conn Hin. apply lookup_insert_is_Some.
    destruct (decide (p0 = q)); [by left|right]. split; [done|]. by eapply (ri_setting _ Hi).
  - intros q ids Hin. destruct (ri_closing _ Hi _ _ Hin) as (r & Hq & Hn). simpl in *.
    exists r. pose proof (Hp0 q r Hq) as Hne. rewrite lookup_insert_ne by done. split; [done|].
    destruct (decide (uuid = ps_ID r)) as [<-|Hne'].
    + rewrite lookup_insert_eq. intros [= <-]. done.
    + by rewrite lookup_insert_ne.
Qed.

(** Unlinking a session: its goroutine now owes the closing of the object. *)
Lemma race_inv_unlink sm ts k id ids p :
  race_inv (sm, ts) → ts !! k = Some (TClose (id :: ids)) → sm_sessions sm !! id = Some p →
  race_inv ((Close_unlink sm id).2, <[k := TCloseShut p ids]> ts).
Proof.
  intros Hi Hk Hid. destruct (ri_registered _ Hi _ _ Hid) as (s & Hs & Eid & Hd). simpl in *.
  split; simpl.
  - intros j q [Hne Hq]%lookup_delete_Some. by apply (ri_registered _ Hi).
  - intros q r Hq Hn. destruct (decide (p = q)) as [<-|Hne].
    + right. exists ids. apply list_elem_of_lookup. exists k.
      rewrite list_lookup_insert_eq; [done|]. by eapply lookup_lt_Some.
    + destruct (ri_unregistered _ Hi q r Hq) as [?|[ids' Hin]].
      * simpl. intros E. apply Hn. rewrite lookup_delete_ne; [done|]. intros ->. congruence.
      * by left.
      * right. exists ids'. by eapply elem_of_insert_other.
  - apply (ri_ready _ Hi).
  - intros q role conn [E|Hin]%(elem_of_insert _ _ _ _ _ Hk); [done|]. by eapply (ri_setting _ Hi).
  - intros q ids' [E|Hin]%(elem_of_insert _ _ _ _ _ Hk).
    + injection E as -> ->. exists s. split; [done|]. rewrite Eid. by rewrite lookup_delete_eq.
    + destruct (ri_closing _ Hi _ _ Hin) as (r & Hq & Hn). exists r. split; [done|].
      intros [_ ?]%lookup_delete_Some. done.
Qed.

(** Closing an unlinked object. *)
Lemma race_inv_shut sm ts k p ids s :
  race_inv (sm, ts) → ts !! k = Some (TCloseShut p ids) → sm_heap sm !! p = Some s →
  race_inv (mkManager (<[p := shut s true]> (sm_heap sm)) (sm_sessions sm)
              (conns_of s ∪ sm_closed_conns sm) (sm_AllowedPorts sm),
            <[k := TClose ids]> ts).
Proof.
  intros Hi Hk Hs.
  destruct (ri_closing _ Hi p ids) as (s' & Hs' & Hun); [by eapply list_elem_of_lookup_2|].
  simpl in *. simplify_eq. split; simpl.
  - intros id q Hq. destruct (ri_registered _ Hi _ _ Hq) as (r & Hr & Er & Hd). exists r.
    rewrite lookup_insert_ne; [done|]. intros ->. simpl in *. congruence.
  - intros q r [[<- <-]|[Hne Hq]]%lookup_insert_Some Hn; [by left|].
    destruct (ri_unregistered _ Hi q r Hq Hn) as [?|[ids' Hin]]; [by left|].
    right. exists ids'. eapply elem_of_insert_other; [done..|]. by intros [= -> _].
  - intros q r [[<- <-]|[_ Hq]]%lookup_insert_Some; [exact (ri_ready _ Hi p s Hs)|].
    by apply (ri_ready _ Hi q).
  - intros q role conn [E|Hin]%(elem_of_insert _ _ _ _ _ Hk); [done|].
    apply lookup_insert_is_Some. destruct (decide (p = q)); [by left|right].
    split; [done|]. by eapply (ri_setting _ Hi).
  - intros q ids' [E|Hin]%(elem_of_insert _ _ _ _ _ Hk); [done|].
    destruct (ri_closing _ Hi _ _ Hin) as (r & Hq & Hn). simpl in *.
    destruct (decide (p = q)) as [<-|Hne].
    + exists (shut s true). rewrite lookup_insert_eq. by simplify_eq.
    + exists r. by rewrite lookup_insert_ne.
Qed.

(** The next section of any goroutine runs without a panic and keeps the
    invariant. *)
Lemma race_section_inv sm ts k th :
  race_inv (sm, ts) → ts !! k = Some th → fresh_id sm th →
  ∃ sm' th', section sm th = Some (sm', th') ∧ race_inv (sm', <[k := th']> ts).
Proof.
  intros Hi Hk Hf. destruct th as [| |p role conn| |[|id ids]|p ids|]; simpl in *.
  - eexists _, _. split; [done|]. eapply race_inv_idle; [by apply race_inv_create|done..].
  - unfold Get. destruct (sm_sessions sm !! sessionID) as [p|] eqn:E.
    + eexists _, _. split; [done|]. eapply race_inv_thread; try done. intros ? ? ? [= <- <- <-].
      destruct (ri_registered _ Hi _ _ E) as (s & ? & _). by exists s.
    + eexists _, _. split; [done|]. by eapply race_inv_idle.
  - destruct (ri_setting _ Hi p role conn) as [s Hs]; [by eapply list_elem_of_lookup_2|].
    simpl in Hs. rewrite Hs. simpl. rewrite SetConn_locked_spec. simpl.
    eexists _, _. split; [done|].
    destruct (store_conn_fields role conn s) as (E1 & E2 & E3 & E4 & E5).
    assert (race_inv (sm, <[k := TEnd]> ts)) as Hi'.
    { split; simpl; try apply Hi.
      - intros q r Hq Hn. destruct (ri_unregistered _ Hi q r Hq Hn) as [?|[ids Hin]]; [by left|].
        right. exists ids. by eapply elem_of_insert_other.
      - intros * [?|Hin]%(elem_of_insert _ _ _ _ _ Hk); [done|]. by eapply (ri_setting _ Hi).
      - intros * [?|Hin]%(elem_of_insert _ _ _ _ _ Hk); [done|]. by eapply (ri_closing _ Hi). }
    apply (race_inv_object sm _ p s); try done;
      destruct (both_connected (store_conn role conn s)) eqn:Eb; simpl; try done.
    rewrite E3. intros HR. rewrite (ri_ready _ Hi _ _ Hs HR) in E5. by rewrite E5 in Eb.
  - eexists _, _. split; [done|]. by eapply race_inv_idle.
  - eexists _, _. split; [done|]. by eapply race_inv_idle.
  - destruct (sm_sessions sm !! id) as [p|] eqn:E.
    + eexists _, _. split; [done|]. by apply (race_inv_unlink sm ts k id).
    + eexists _, _. split; [done|]. rewrite delete_id by done. destruct sm. by eapply race_inv_idle.
  - destruct (ri_closing _ Hi p ids) as (s & Hs & _); [by eapply list_elem_of_lookup_2|].
    simpl in Hs. unfold Close_shut. rewrite Hs. simpl. rewrite close_once_true. simpl.
    eexists _, _. split; [done|]. by apply race_inv_shut.
  - eexists _, _. split; [done|]. by eapply race_inv_idle.
Qed.

Lemma race_reachable_inv ts c :
  Forall starting ts → rtc race_step (NewSessionManager, ts) c → race_inv c.
Proof.
  intros Hts. apply rtc_invariant; [|by apply race_inv_start].
  intros a b Hi Hab. destruct Hab as [sm ts0 k th sm' th' Hk Hf Hs].
  destruct (race_section_inv sm ts0 k th Hi Hk Hf) as (sm1 & th1 & E & Hi'). by simplify_eq.
Qed.

(** C33. Safety of the session manager under every interleaving of its methods:
    no goroutine ever panics by closing a closed channel, and whenever no
    [Close] is between its two sections, each session object is registered
    exactly when its [done] channel is still open, so whoever waits on [Done] is
    released once the session is gone from the map. *)
Theorem race_safety ts sm ts' :
  Forall starting ts → rtc race_step (NewSessionManager, ts) (sm, ts') →
  (∀ k th, ts' !! k = Some th → fresh_id sm th → is_Some (section sm th)) ∧
  ((∀ p ids, TCloseShut p ids ∉ ts') →
   ∀ p s, sm_heap sm !! p = Some s →
     (ps_done s = true ↔ sm_sessions sm !! ps_ID s ≠ Some p)).
Proof.
  intros Hts Hr. pose proof (race_reachable_inv _ _ Hts Hr) as Hi. split.
  - intros k th Hk Hf. destruct (race_section_inv sm ts' k th Hi Hk Hf) as (? & ? & -> & _).
    by eexists.
  - intros Hq p s Hs. split.
    + intros Hd E. destruct (ri_registered _ Hi _ _ E) as (s' & Hs' & _ & Hd'). simpl in *. congruence.
    + intros Hn. destruct (ri_unregistered _ Hi p s Hs Hn) as [?|[ids Hin]]; [done|].
      by destruct (Hq p ids).
Qed.
End Race.

(** ** The window in [SetConn] *)

Definition race_threads : list Thread :=
  [TCreate "s1" [1%Z] 0 ProxyTargetVM "vm1" "w" 22;
   TSetConn "s1" "client" 1; TSetConn "s1" "worker" 2; TClose ["s1"]%string].

(** Run the sections of the goroutines in the given order. *)
Fixpoint run_sections `{!RangeOrder} (c : Config) (ks : list nat) : option Config :=
  match ks with
  | [] => Some c
  | k :: ks =>
      th ← c.2 !! k;
      '(sm', th') ← section c.1 th;
      run_sections (sm', <[k := th']> c.2) ks
  end.

Definition not_create (th : Thread) : Prop :=
  match th with TCreate _ _ _ _ _ _ _ => False | _ => True end.

Lemma section_not_create `{!RangeOrder} sm th sm' th' :
  section sm th = Some (sm', th') → not_create th'.
Proof.
  destruct th as [| | | |[|id ids]| |]; simpl; try (by intros [= <- <-]).
  - destruct (Get _ _); by intros [= <- <-].
  - destruct (sm_heap sm !! p) as [s|]; [|done]. simpl. rewrite SetConn_locked_spec.
    by intros [= <- <-].
  - destruct (sm_sessions sm !! id); by intros [= <- <-].
  - destruct (Close_shut sm p); [|done]. by intros [= <- <-].
Qed.

Lemma run_sections_reachable `{!RangeOrder} c ks c' :
  Forall not_create c.2 → run_sections c ks = Some c' → rtc race_step c c'.
Proof.
  revert c. induction ks as [|k ks IH]; intros [sm ts] Hts; simpl; [by intros [= <-]|].
  destruct (ts !! k) as [th|] eqn:Hk; [|done]. simpl.
  destruct (section sm th) as [[sm' th']|] eqn:Hs; [|done]. simpl. intros Hr.
  pose proof (Forall_lookup_1 _ _ _ _ Hts Hk) as Hth. eapply rtc_l.
  - eapply race_section; [done| |done]. by destruct th.
  - apply IH; [|done]. simpl. apply Forall_insert; [done|]. by eapply section_not_create.
Qed.

(** A connection can be added to a session that is already closed: [SetConn]
    looks the session up, [Close] runs to its end, then [SetConn] stores the
    connection.  The session is unregistered and its [done] channel closed, yet
    its state is "active" and the connection is never closed by the manager. *)
Theorem setconn_after_close `{!RangeOrder} :
  ∃ sm ts p s, rtc race_step (NewSessionManager, race_threads) (sm, ts) ∧
    Forall (λ th, th = TEnd ∨ th = TClose []) ts ∧
    sm_heap sm !! p = Some s ∧ sm_sessions sm !! ps_ID s = None ∧
    ps_done s = true ∧ ps_State s = SessionActive ∧
    ps_workerConn s = Some 2 ∧ 2 ∉ sm_closed_conns sm.
Proof.
  set (c0 := ((Create NewSessionManager "s1" [1%Z] 0 ProxyTargetVM "vm1" "w" 22).2,
              <[0 := TEnd]> race_threads)).
  destruct (run_sections c0 [1; 1; 2; 3; 3; 2]) as [[sm ts]|] eqn:E; [|by vm_compute in E].
  assert (rtc race_step (NewSessionManager, race_threads) (sm, ts)) as Hr.
  { eapply rtc_l; [by eapply (race_section _ _ 0)|]. eapply run_sections_reachable; [|exact E].
    by repeat constructor. }
  exists sm, ts, 0. vm_compute in E. injection E as <- <-. eexists. split; [done|].
  split; [repeat constructor; (by left) || (by right)|]. vm_compute.
  repeat split. by intros ?.
Qed.

(** After the creation ran and before anything else did. *)
Lemma race_safety_witness :
  let sm := (Create NewSessionManager "s1" [1%Z] 0 ProxyTargetVM "vm1" "w" 22).2 in
  Forall starting race_threads ∧
  (∀ p s, sm_heap sm !! p = Some s → (ps_done s = true ↔ sm_sessions sm !! ps_ID s ≠ Some p)) ∧
  is_Some (sm_heap sm !! 0).
Proof.
  intros sm. assert (Forall starting race_threads) as Hts by (repeat constructor).
  split; [exact Hts|]. split; [|eexists; vm_compute; reflexivity].
  apply (race_safety (H := key_order) race_threads sm (<[0 := TEnd]> race_threads) Hts).
  - apply rtc_once. apply (race_section (H := key_order) _ _ 0 (TCreate "s1" [1%Z] 0 ProxyTargetVM "vm1" "w" 22));
      reflexivity.
  - intros p ids Hin. simpl in Hin. rewrite !elem_of_cons in Hin.
    destruct Hin as [?|[?|[?|[?|Hn]]]]; try discriminate. apply elem_of_nil in Hn. exact Hn.
Defined.
