(* ===== verification/Relay.v ===== *)
(** * Relaying frames ([internal/proxy/relay.go])

    The WebSocket library is not part of the repository: a connection is what
    the relay observes of it, one event per call.  [copyWS] loops until a call
    fails; on a script of events it either returns an error or is still waiting
    for the next frame. *)

From stdpp Require Import gmap strings list.
From Stdlib Require Import ZArith Lia.
From S2P Require Import Prelude GoStrings Encoding ProxySession.

Record Frame := mkFrame { fr_type : Z; fr_payload : list Z }.

(** What [src.Reader] and reading from the reader give. *)
Inductive ReadEvent :=
| ReadFrame (f : Frame)                     (* a whole frame can be read *)
| ReadBroken (f : Frame) (e : string)       (* reading fails after [fr_payload f] *)
| ReadFails (e : string).                   (* [Reader] itself fails *)

(** What [dst.Writer], writing and [writer.Close] give for one frame. *)
Inductive WriteEvent :=
| WriteOK
| WriterFails (e : string)
| WriteBroken (n : nat) (e : string)        (* fails after [n] bytes *)
| CloseFails (e : string).

(** What arrives at the destination: complete messages and possibly the bytes of
    one that was never finished. *)
Record Delivered := mkDelivered { dl_complete : list Frame; dl_partial : option Frame }.

Definition deliver (f : Frame) (d : Delivered) : Delivered :=
  mkDelivered (f :: dl_complete d) (dl_partial d).
Definition nothing : Delivered := mkDelivered [] None.
Definition unfinished (f : Frame) : Delivered := mkDelivered [] (Some f).

(** [copyWS ctx dst src]: [None] is "still in the loop", waiting for a frame (or
    for the peer to accept one). *)
Fixpoint copyWS (src : list ReadEvent) (dst : list WriteEvent) : Delivered * option string :=
  match src with
  | [] => (nothing, None)
  | ReadFails e :: _ => (nothing, Some e)
  | ReadBroken f e :: _ =>
      match dst with
      | [] => (nothing, None)
      | WriterFails e' :: _ => (nothing, Some e')
      | WriteBroken n e' :: _ =>
          if (n <? length (fr_payload f))%nat
          then (unfinished (mkFrame (fr_type f) (take n (fr_payload f))), Some e')
          else (unfinished f, Some e)
      | _ => (unfinished f, Some e)
      end
  | ReadFrame f :: src' =>
      match dst with
      | [] => (nothing, None)
      | WriterFails e :: _ => (nothing, Some e)
      | WriteBroken n e :: _ =>
          (unfinished (mkFrame (fr_type f) (take n (fr_payload f))), Some e)
      | CloseFails e :: _ => (unfinished f, Some e)
      | WriteOK :: dst' =>
          let '(d, r) := copyWS src' dst' in (deliver f d, r)
      end
  end.

Inductive Direction := ClientToWorker | WorkerToClient.

Inductive RelayOutcome :=
| RelayBlocked                                     (* waiting on [ready] and the context *)
| RelayCancelled                                   (* the context ended first *)
| RelayUnconnected                                 (* a connection is missing *)
| RelayEnded (dir : Direction) (err : string)
| RelayRunning.                                    (* neither copy has failed yet *)

(** [Relay].  When both branches of the [select] are possible Go picks one
    ([pick]); when both copies have failed either result may come first
    ([first]). *)
Definition Relay (ctxDone pick : bool) (session : ProxySession)
    (c2w w2c : option string) (first : Direction) : RelayOutcome :=
  if ps_ready session && (negb ctxDone || pick) then
    match ps_clientConn session, ps_workerConn session with
    | Some _, Some _ =>
        match c2w, w2c, first with
        | Some e, None, _ | Some e, Some _, ClientToWorker => RelayEnded ClientToWorker e
        | None, Some e, _ | Some _, Some e, WorkerToClient => RelayEnded WorkerToClient e
        | None, None, _ => RelayRunning
        end
    | _, _ => RelayUnconnected
    end
  else if ctxDone then RelayCancelled else RelayBlocked.

Definition frames_of (src : list ReadEvent) : list Frame :=
  omap (λ ev, match ev with ReadFrame f => Some f | _ => None end) src.

Definition is_frame (ev : ReadEvent) : bool :=
  match ev with ReadFrame _ => true | _ => false end.

(** The message being read at a position of the script. *)
Definition message_at (src : list ReadEvent) (n : nat) : option Frame :=
  match drop n src with
  | ReadFrame f :: _ | ReadBroken f _ :: _ => Some f
  | _ => None
  end.

Definition part_of (f whole : Frame) : Prop :=
  fr_type f = fr_type whole ∧ fr_payload f `prefix_of` fr_payload whole.

Lemma part_of_take n f : part_of (mkFrame (fr_type f) (take n (fr_payload f))) f.
Proof. split; [done|]. exists (drop n (fr_payload f)). simpl. by rewrite take_drop. Qed.
Lemma part_of_refl f : part_of f f.
Proof. by split. Qed.

#[local] Hint Resolve part_of_take part_of_refl : minis.

(** C35. One direction of the relay forwards messages faithfully: what arrives
    complete is a prefix of the messages the source sent, in order and with
    their types and bytes unchanged; a message left unfinished is a part of the
    next one and occurs only when the copy has returned an error; and if all
    reads and writes succeed, every message arrives and the loop goes on. *)
Theorem copyWS_faithful src dst :
  let '(d, r) := copyWS src dst in
  dl_complete d `prefix_of` frames_of src ∧
  (∀ f, dl_partial d = Some f → r ≠ None ∧
     ∃ f', message_at src (length (dl_complete d)) = Some f' ∧ part_of f f') ∧
  (forallb is_frame src = true → dst = replicate (length src) WriteOK →
   dl_complete d = frames_of src ∧ r = None).
Proof.
  revert dst. induction src as [|[f|f e|e] src IH]; intros [|w dst]; simpl.
  all: try (destruct w as [|e'|n e'|e']); simpl; try (destruct (n <? _)%nat).
  all: try (split_and!; [apply prefix_nil| |done]; intros ? [= <-]; split; [done|];
            exists f; split; [done|]; by auto with minis).
  all: try (split_and!; [apply prefix_nil|done|done]).
  specialize (IH dst). destruct (copyWS src dst) as [d r].
  destruct IH as (H1 & H2 & H3). split_and!; simpl.
  - by apply prefix_cons.
  - exact H2.
  - intros Hall [= Hd]. by destruct (H3 Hall Hd) as [-> ->].
Qed.

(** [Relay] run by the side that completed the pair starts at once. *)
Lemma Relay_after_SetConn s role conn s' pick c2w w2c first :
  SetConn_locked s role conn = Some (true, s') →
  Relay false pick s' c2w w2c first =
  match c2w, w2c with
  | None, None => RelayRunning
  | Some e, None => RelayEnded ClientToWorker e
  | None, Some e => RelayEnded WorkerToClient e
  | Some e1, Some e2 =>
      match first with
      | ClientToWorker => RelayEnded ClientToWorker e1
      | WorkerToClient => RelayEnded WorkerToClient e2
      end
  end.
Proof.
  rewrite SetConn_locked_spec. destruct (both_connected _) eqn:E; [|done]. intros [= <-].
  unfold Relay. simpl. unfold both_connected in E. apply andb_true_iff in E as [E1 E2]. to_prop.
  destruct (ps_clientConn _); [|done]. destruct (ps_workerConn _); [|done].
  by destruct c2w, w2c, first.
Qed.
