(* ===== verification/Http.v ===== *)
(** * HTTP requests and responses, and the helpers of [handler.go]

    A request is what the handlers read of [*http.Request]: the host, headers,
    cookies, query values, path values, the values the authentication
    middleware put in the context, and the decoded JSON body.  A response is
    the status and JSON value written, or a panic, which [net/http] turns into
    an aborted connection. *)

From stdpp Require Import gmap strings list.
From Stdlib Require Import ZArith Lia.
From S2P Require Import Prelude GoStrings Encoding Model.

Local Open Scope string_scope.

Inductive Json :=
| JNull
| JBool (b : bool)
| JNum (z : Z)
| JStr (s : string)
| JTime (instant : Z)              (* a timestamp, as [time.Time] marshals *)
| JArr (l : list Json)
| JObj (l : list (string * Json)).

Record authenticatedWorker := mkAuthWorker { aw_ID : string; aw_HardwareUUID : string }.

(** [http.Header.Get], [url.Values.Get] and [r.PathValue] return the empty
    string for a missing key. *)
Record Request := mkRequest {
  rq_Host : string;
  rq_Header : string → string;
  rq_Cookie : string → option string;
  rq_Query : string → string;
  rq_PathValue : string → string;
  rq_member : option Member;
  rq_worker : option authenticatedWorker
}.

Inductive Response :=
| Reply (status : Z) (body : Json)
| NotFoundPage                      (* [http.NotFound] *)
| Panic.                            (* nil dereference *)

Definition writeJSON (status : Z) (v : Json) : Response := Reply status v.
Definition writeError (status : Z) (message : string) : Response :=
  writeJSON status (JObj [("error", JStr message)]).

Record apiError := mkApiError { ae_status : Z; ae_message : string }.
Definition apiError_write (e : apiError) : Response := writeError (ae_status e) (ae_message e).

(** Status codes. *)
Definition StatusOK : Z := 200.
Definition StatusCreated : Z := 201.
Definition StatusBadRequest : Z := 400.
Definition StatusUnauthorized : Z := 401.
Definition StatusForbidden : Z := 403.
Definition StatusNotFound : Z := 404.
Definition StatusConflict : Z := 409.
Definition StatusInternalServerError : Z := 500.
Definition StatusServiceUnavailable : Z := 503.

Record HandlerConfig := mkHandlerConfig {
  hc_AdminToken : string;
  hc_EnrollmentToken : string;
  hc_PoolSize : Z;
  hc_BaseImage : string;
  hc_HTTPAddr : string;
  hc_TLSEnabled : bool;
  hc_WorkerPublicHost : string;
  hc_BrowserPublicHost : string;
  hc_AccessTeamDomain : string;
  hc_AccessAUD : string;
  hc_AccessIssuerURL : string;
  hc_AccessJWKSURL : string;
  hc_AccessAllowedEmailDomain : string
}.

(** ** Helpers *)

Definition bearerToken (header : string) : string :=
  match CutPrefix header "Bearer " with
  | Some token => TrimSpace token
  | None => ""
  end.

(** [subtle.ConstantTimeCompare] is 1 exactly on equal byte strings. *)
Definition tokensMatch (expected actual : string) : bool :=
  if String.eqb expected "" || String.eqb actual "" then false
  else String.eqb expected actual.

Definition parsePositiveQueryInt (r : Request) (key : string) (fallback : Z) : Z :=
  let value := TrimSpace (rq_Query r key) in
  if String.eqb value "" then fallback
  else match Atoi value with
       | Some parsed => if (parsed <=? 0)%Z then fallback else parsed
       | None => fallback
       end.

Definition currentWorker (r : Request) : option authenticatedWorker := rq_worker r.
Definition currentMember (r : Request) : option Member := rq_member r.

Definition requireCurrentWorker (r : Request) : Response + authenticatedWorker :=
  match currentWorker r with
  | Some worker => inr worker
  | None => inl (writeError StatusUnauthorized "unauthorized")
  end.

Definition requireWorkerPathMatch (r : Request) : Response + authenticatedWorker :=
  match requireCurrentWorker r with
  | inl resp => inl resp
  | inr worker =>
      if String.eqb (rq_PathValue r "id") (aw_ID worker) then inr worker
      else inl (writeError StatusForbidden "worker_id mismatch")
  end.

Lemma tokensMatch_true e a : tokensMatch e a = true ↔ e ≠ "" ∧ e = a.
Proof.
  unfold tokensMatch. destruct (String.eqb_spec e ""), (String.eqb_spec a ""); simpl;
    rewrite ?String.eqb_eq; naive_solver.
Qed.

Lemma requireWorkerPathMatch_ok r w :
  requireWorkerPathMatch r = inr w ↔ rq_worker r = Some w ∧ rq_PathValue r "id" = aw_ID w.
Proof.
  unfold requireWorkerPathMatch, requireCurrentWorker, currentWorker.
  destruct (rq_worker r) as [w'|]; simpl; [|naive_solver].
  destruct (String.eqb_spec (rq_PathValue r "id") (aw_ID w')); naive_solver.
Qed.

(** A positive query parameter is used as given and everything else (absent,
    malformed, zero, negative, out of range) falls back, so with a positive
    fallback the result is always a positive [int]. *)
Theorem parsePositiveQueryInt_spec r key fallback :
  let value := TrimSpace (rq_Query r key) in
  parsePositiveQueryInt r key fallback =
    match Atoi value with
    | Some z => if bool_decide (0 < z)%Z then z else fallback
    | None => fallback
    end ∧
  ((0 < fallback ≤ int64_max)%Z → (0 < parsePositiveQueryInt r key fallback ≤ int64_max)%Z).
Proof.
  cbv zeta. unfold parsePositiveQueryInt. set (value := TrimSpace _).
  pose proof (Atoi_range value) as Hmax.
  destruct (String.eqb_spec value "") as [->|_]; [by split|].
  destruct (Atoi value) as [z|]; [|by split]. specialize (Hmax z eq_refl).
  destruct (Z.leb_spec z 0); case_bool_decide; try lia; split; lia.
Qed.

Definition query_only (q : string → string) : Request :=
  mkRequest "" (λ _, "") (λ _, None) q (λ _, "") None None.

Lemma parsePositiveQueryInt_spec_witness :
  (0 < 80 ≤ int64_max)%Z ∧
  (0 < parsePositiveQueryInt (query_only (λ _, "-5")) "cols" 80 ≤ int64_max)%Z.
Proof.
  assert (0 < 80 ≤ int64_max)%Z as H by (vm_compute; split; congruence).
  split; [exact H|].
  exact (proj2 (parsePositiveQueryInt_spec (query_only (λ _, "-5")) "cols" 80) H).
Defined.
