(* ===== verification/Host.v ===== *)
(** * Host-based routing ([host.go])

    The server answers the worker API and the browser API on different public
    host names; every route is guarded by a comparison of normalised hosts.
    [url.Parse] is used only on values that contain "://"; its [Host] field is
    the parameter [url_Host] ([None]: parse error). *)

From stdpp Require Import gmap strings list.
From Stdlib Require Import ZArith Lia Ascii.
From S2P Require Import Prelude GoStrings Encoding Model Http.

Local Open Scope string_scope.

Class HostEnv := {
  unicode_ToLower : string → string;
  url_Host : string → option string
}.

Section Host.
Context `{!HostEnv}.

Definition normalizeHost (value : string) : string :=
  let value := TrimSpace (ToLower unicode_ToLower value) in
  if String.eqb value "" then ""
  else
    let value :=
      if Contains value "://" then
        match url_Host value with
        | Some host => TrimSpace host
        | None => value
        end
      else value in
    if HasPrefix value "[" then
      match Cut value "]" with
      | Some (address, _) => TrimPrefix address "["
      | None => value
      end
    else
      match Cut value ":" with
      | Some (host, _) =>
          if negb (Contains host ":") && negb (String.eqb host "") then host else value
      | None => value
      end.

Definition requestHost (r : Request) : string :=
  let forwarded := TrimSpace (rq_Header r "X-Forwarded-Host") in
  if negb (String.eqb forwarded "") then
    match Cut forwarded "," with
    | Some (first, _) => normalizeHost first
    | None => normalizeHost forwarded
    end
  else normalizeHost (rq_Host r).

Definition hostMatches (configuredHost actualHost : string) : bool :=
  let configured := normalizeHost configuredHost in
  let actual := normalizeHost actualHost in
  if String.eqb configured "" then true else String.eqb configured actual.

Definition matchesBrowserHost (cfg : HandlerConfig) (r : Request) : bool :=
  hostMatches (hc_BrowserPublicHost cfg) (requestHost r).
Definition matchesWorkerHost (cfg : HandlerConfig) (r : Request) : bool :=
  hostMatches (hc_WorkerPublicHost cfg) (requestHost r).

Definition workerScriptAddress (cfg : HandlerConfig) (r : Request) : string :=
  let configured := normalizeHost (hc_WorkerPublicHost cfg) in
  if negb (String.eqb configured "") then configured else requestHost r.

(** The middleware: the guarded handler runs only when the host matches. *)
Definition requireBrowserHost {S} (cfg : HandlerConfig) (next : Request → S → Response * S)
    (r : Request) (st : S) : Response * S :=
  if negb (matchesBrowserHost cfg r) then (NotFoundPage, st) else next r st.
Definition requireWorkerHost {S} (cfg : HandlerConfig) (next : Request → S → Response * S)
    (r : Request) (st : S) : Response * S :=
  if negb (matchesWorkerHost cfg r) then (NotFoundPage, st) else next r st.

(** ** DNS names *)

(** A lower-case DNS name or IPv4 address: letters, digits, dots and hyphens. *)
Definition dns_byte (a : ascii) : bool :=
  let n := nat_of_ascii a in
  (((97 <=? n) && (n <=? 122)) || ((48 <=? n) && (n <=? 57)) || (n =? 45) || (n =? 46))%nat.
Definition dns_name (s : string) : bool := all_bytes dns_byte s && negb (String.eqb s "").

Lemma dns_byte_props a :
  dns_byte a = true →
  graphic a = true ∧ is_ascii a = true ∧ is_upper a = false ∧
  Ascii.eqb ":" a = false ∧ Ascii.eqb "[" a = false ∧ Ascii.eqb "/" a = false.
Proof. destruct a as [[] [] [] [] [] [] [] []]; vm_compute; done. Qed.

Lemma dns_bytes s :
  all_bytes dns_byte s = true →
  all_bytes graphic s = true ∧ all_bytes is_ascii s = true ∧
  all_bytes (λ a, negb (is_upper a)) s = true ∧
  all_bytes (λ a, negb (Ascii.eqb ":" a)) s = true ∧
  all_bytes (λ a, negb (Ascii.eqb "[" a)) s = true ∧
  all_bytes (λ a, negb (Ascii.eqb "/" a)) s = true.
Proof.
  intros Hs. split_and!; (eapply all_bytes_impl; [|exact Hs]); intros a Ha;
    destruct (dns_byte_props a Ha) as (? & ? & Hu & H1 & H2 & H3); rewrite ?Hu, ?H1, ?H2, ?H3; done.
Qed.

(** Where a value carries no scheme and no bracket, normalising cuts at the
    first colon. *)
Lemma normalizeHost_cut s h r :
  s = h +:+ r → dns_name h = true → r = "" ∨ (∃ port, r = String ":" port) →
  all_bytes graphic r = true → all_bytes is_ascii r = true →
  all_bytes (λ a, negb (is_upper a)) r = true → Contains s "://" = false →
  normalizeHost s = h.
Proof.
  intros -> [Hh Hne]%andb_true_iff Hr Hg Ha Hu Hc.
  destruct (dns_bytes h Hh) as (Hg' & Ha' & Hu' & Hcol & Hbr & _).
  unfold normalizeHost. rewrite ToLower_lower; [|by rewrite all_bytes_app, Ha', Ha|by rewrite all_bytes_app, Hu', Hu].
  rewrite TrimSpace_graphic by by rewrite all_bytes_app, Hg', Hg.
  destruct h as [|a h]; [done|]. change (String a h +:+ r) with (String a (h +:+ r)) in *.
  cbn [String.eqb]. rewrite Hc. cbn [all_bytes] in Hbr.
  apply andb_true_iff in Hbr as [Hbr%negb_true_iff _].
  unfold HasPrefix. cbn [CutPrefix]. rewrite Hbr.
  change (String a (h +:+ r)) with (String a h +:+ r).
  destruct Hr as [->|[port ->]].
  - rewrite str_app_nil_r. by rewrite Cut_absent.
  - rewrite Cut_first by done. unfold Contains. by rewrite Cut_absent.
Qed.

Lemma normalizeHost_dns h : dns_name h = true → normalizeHost h = h.
Proof.
  intros Hh. pose proof Hh as [Hb _]%andb_true_iff.
  destruct (dns_bytes h Hb) as (_ & _ & _ & Hcol & _).
  apply (normalizeHost_cut h h ""); try done; [by rewrite str_app_nil_r|by left|].
  unfold Contains. by rewrite Cut_absent.
Qed.

(** A name with or without a port. *)
Definition port_suffix (suffix : string) : Prop :=
  suffix = "" ∨ ∃ port, suffix = ":" +:+ port ∧ all_bytes dns_byte port = true.

Lemma port_suffix_bytes suffix :
  port_suffix suffix →
  all_bytes graphic suffix = true ∧ all_bytes is_ascii suffix = true ∧
  all_bytes (λ a, negb (is_upper a)) suffix = true ∧
  all_bytes (λ a, negb (Ascii.eqb "/" a)) suffix = true ∧
  all_bytes (λ a, negb (Ascii.eqb "," a)) suffix = true.
Proof.
  intros [->|(port & -> & Hp)]; [done|].
  destruct (dns_bytes port Hp) as (Hg & Hi & Hu & _ & _ & Hsl).
  change (":" +:+ port) with (String ":" port). cbn [all_bytes]. rewrite Hg, Hi, Hu, Hsl.
  split_and!; try done. eapply all_bytes_impl; [|exact Hp].
  intros a. destruct a as [[] [] [] [] [] [] [] []]; vm_compute; done.
Qed.

Lemma normalizeHost_port name suffix :
  dns_name name = true → port_suffix suffix → normalizeHost (name +:+ suffix) = name.
Proof.
  intros Hn Hs. destruct (port_suffix_bytes suffix Hs) as (Hg & Hi & Hu & Hsl & _).
  pose proof Hn as [Hb _]%andb_true_iff. destruct (dns_bytes name Hb) as (_ & _ & _ & _ & _ & Hsl').
  apply (normalizeHost_cut _ name suffix); try done.
  - destruct Hs as [->|(port & -> & _)]; [by left|right; by eexists].
  - unfold Contains. rewrite (Cut_no_byte _ ":" "/" "/"); [done|]. by rewrite all_bytes_app, Hsl', Hsl.
Qed.

(** For DNS names the guard does what it should: the configured host, in any
    case the configuration gives it after lower-casing, matches a request to that
    name with or without a port, and matches no request to another name.  An
    unset host matches every request. *)
Theorem hostMatches_dns configured actual port :
  dns_name configured = true → dns_name actual = true → all_bytes dns_byte port = true →
  hostMatches configured (actual +:+ ":" +:+ port) = bool_decide (configured = actual) ∧
  hostMatches configured actual = bool_decide (configured = actual) ∧
  hostMatches "" actual = true.
Proof.
  intros Hc Ha Hp.
  assert (normalizeHost (actual +:+ ":" +:+ port) = actual) as Hport
    by (apply normalizeHost_port; [done|right; eauto]).
  unfold hostMatches. rewrite Hport, (normalizeHost_dns configured), (normalizeHost_dns actual) by done.
  pose proof Hc as [_ Hne]%andb_true_iff. apply negb_true_iff in Hne. rewrite Hne.
  assert (∀ a b : string, String.eqb a b = bool_decide (a = b)) as Heq.
  { intros a b. destruct (String.eqb_spec a b); by case_bool_decide. }
  by rewrite !Heq.
Qed.

Definition config_with_hosts (worker browser : string) : HandlerConfig :=
  mkHandlerConfig "" "" 2 "" "" false worker browser "" "" "" "" "".
Definition request_to (host : string) : Request :=
  mkRequest host (λ _, "") (λ _, None) (λ _, "") (λ _, "") None None.

(** IPv6 hosts are not compared as the comment in [normalizeHost] says: a
    bare IPv6 address does not stay untouched but is cut at its first colon, so
    different addresses match; and because the request's host is normalised
    twice, a server configured with a bracketed address does not recognise a
    request to that very address. *)
Theorem ipv6_hosts_confused :
  normalizeHost "2001:db8::1" = "2001" ∧
  hostMatches "2001:db8::1" "2001:beef::2" = true ∧
  matchesBrowserHost (config_with_hosts "" "[2001:db8::1]") (request_to "[2001:db8::1]:443") = false.
Proof. vm_compute. done. Qed.

(** The host a request names: the first entry of X-Forwarded-Host when a proxy
    sets it, else the Host header; with or without a port. *)
Inductive names_host (r : Request) (name : string) : Prop :=
| named_direct suffix :
    rq_Header r "X-Forwarded-Host" = "" → rq_Host r = name +:+ suffix → port_suffix suffix →
    names_host r name
| named_forwarded suffix :
    rq_Header r "X-Forwarded-Host" = name +:+ suffix → port_suffix suffix → names_host r name
| named_forwarded_first suffix more :
    rq_Header r "X-Forwarded-Host" = (name +:+ suffix) +:+ String "," more →
    port_suffix suffix → all_bytes graphic more = true → names_host r name.

Lemma requestHost_names r name :
  dns_name name = true → names_host r name → requestHost r = name.
Proof.
  intros Hn Hr. pose proof Hn as [Hb Hne]%andb_true_iff.
  destruct (dns_bytes name Hb) as (Hg & _).
  assert (all_bytes (λ a, negb (Ascii.eqb "," a)) name = true) as Hc.
  { eapply all_bytes_impl; [|exact Hb]. intros a. by destruct a as [[] [] [] [] [] [] [] []]. }
  assert (∀ t, String.eqb (name +:+ t) "" = false) as Hnil by (intros t; by destruct name).
  unfold requestHost. destruct Hr as [suffix -> -> Hs|suffix -> Hs|suffix more -> Hs Hm].
  - simpl. by apply normalizeHost_port.
  - destruct (port_suffix_bytes suffix Hs) as (Hg' & _ & _ & _ & Hc').
    rewrite TrimSpace_graphic by by rewrite all_bytes_app, Hg, Hg'. rewrite Hnil. simpl.
    rewrite Cut_absent by by rewrite all_bytes_app, Hc, Hc'. by apply normalizeHost_port.
  - destruct (port_suffix_bytes suffix Hs) as (Hg' & _ & _ & _ & Hc').
    rewrite TrimSpace_graphic.
    2: { rewrite !all_bytes_app, Hg, Hg'. cbn [all_bytes]. by rewrite Hm. }
    rewrite Cut_first by by rewrite all_bytes_app, Hc, Hc'.
    replace (String.eqb _ "") with false by (by destruct name). by apply normalizeHost_port.
Qed.

Lemma hostMatches_names r name c :
  dns_name c = true → dns_name name = true → names_host r name →
  hostMatches c (requestHost r) = bool_decide (name = c).
Proof.
  intros Hc Hn Hr. rewrite (requestHost_names r name) by done. unfold hostMatches.
  rewrite !normalizeHost_dns by done.
  pose proof Hc as [_ Hne%negb_true_iff]%andb_true_iff. rewrite Hne.
  destruct (String.eqb_spec c name); by case_bool_decide.
Qed.

(** C38. The host guards, exactly: with DNS names configured, a request that names
    a host (directly or through a proxy, with or without a port) reaches the
    handler behind the browser guard if that is the configured browser host and
    the handler behind the worker guard if it is the worker host; otherwise it is
    answered as not found and the server's state does not change.  So with
    different names configured no request reaches both sides. *)
Theorem host_guards_exact {S} cfg (next : Request → S → Response * S) r st name :
  dns_name (hc_WorkerPublicHost cfg) = true → dns_name (hc_BrowserPublicHost cfg) = true →
  dns_name name = true → names_host r name →
  requireBrowserHost cfg next r st =
    (if decide (name = hc_BrowserPublicHost cfg) then next r st else (NotFoundPage, st)) ∧
  requireWorkerHost cfg next r st =
    (if decide (name = hc_WorkerPublicHost cfg) then next r st else (NotFoundPage, st)).
Proof.
  intros Hw Hb Hn Hr.
  unfold requireBrowserHost, requireWorkerHost, matchesBrowserHost, matchesWorkerHost.
  rewrite !(hostMatches_names r name) by done. split; case_bool_decide; by case_decide.
Qed.
End Host.

Definition ascii_env : HostEnv := Build_HostEnv (λ s, s) (λ _, None).

Lemma hostMatches_dns_witness :
  dns_name "mini.example.com" = true ∧
  @hostMatches ascii_env "mini.example.com" "mini.example.com:8443" = true.
Proof.
  split; [vm_compute; reflexivity|].
  exact (proj1 (@hostMatches_dns ascii_env "mini.example.com" "mini.example.com" "8443"
    ltac:(vm_compute; reflexivity) ltac:(vm_compute; reflexivity) ltac:(vm_compute; reflexivity))).
Defined.

Lemma host_guards_exact_witness :
  let cfg := config_with_hosts "w.example.com" "b.example.com" in
  @requireBrowserHost ascii_env unit cfg (λ _ st, (Panic, st)) (request_to "w.example.com:443") tt =
    (NotFoundPage, tt) ∧
  @requireWorkerHost ascii_env unit cfg (λ _ st, (Panic, st)) (request_to "w.example.com:443") tt =
    (Panic, tt).
Proof.
  intros cfg.
  apply (@host_guards_exact ascii_env unit cfg (λ _ st, (Panic, st)) (request_to "w.example.com:443")
    tt "w.example.com").
  - vm_compute. reflexivity.
  - vm_compute. reflexivity.
  - vm_compute. reflexivity.
  - apply (named_direct _ _ ":443"); [reflexivity|reflexivity|].
    right. exists "443". split; [reflexivity|vm_compute; reflexivity].
Defined.
