(* ===== verification/Base64.v ===== *)
(** * Unpadded URL-safe base64 ([base64.RawURLEncoding])

    The decoder skips carriage returns and line feeds, rejects any other byte
    outside the alphabet (padding included) and a final group of one digit, and
    ignores the unused low bits of a final short group, as the Go decoder does
    outside strict mode. *)

From stdpp Require Import gmap strings list.
From Stdlib Require Import ZArith Lia Ascii.
From S2P Require Import Prelude GoStrings Encoding.

Local Open Scope Z_scope.

Definition digit_value (a : ascii) : option Z :=
  let n := byte_of_ascii a in
  if (65 <=? n) && (n <=? 90) then Some (n - 65)
  else if (97 <=? n) && (n <=? 122) then Some (n - 71)
  else if (48 <=? n) && (n <=? 57) then Some (n + 4)
  else if n =? 45 then Some 62
  else if n =? 95 then Some 63
  else None.

Definition digit_byte (d : Z) : ascii :=
  ascii_of_byte
    (if d <? 26 then d + 65
     else if d <? 52 then d + 71
     else if d <? 62 then d - 4
     else if d =? 62 then 45
     else 95).

Fixpoint digits_of (s : string) : option (list Z) :=
  match s with
  | EmptyString => Some []
  | String a s' =>
      if (byte_of_ascii a =? 10) || (byte_of_ascii a =? 13) then digits_of s'
      else d ← digit_value a; ds ← digits_of s'; Some (d :: ds)
  end.

Fixpoint decode_digits (ds : list Z) : option (list Z) :=
  match ds with
  | [] => Some []
  | [_] => None
  | [a; b] => Some [a * 4 + b / 16]
  | [a; b; c] => Some [a * 4 + b / 16; b mod 16 * 16 + c / 4]
  | a :: b :: c :: d :: ds' =>
      rest ← decode_digits ds';
      Some (a * 4 + b / 16 :: b mod 16 * 16 + c / 4 :: c mod 4 * 64 + d :: rest)
  end.

Definition DecodeString (s : string) : option (list Z) :=
  ds ← digits_of s; decode_digits ds.

Fixpoint encode_digits (l : list Z) : list Z :=
  match l with
  | [] => []
  | [x] => [x / 4; x mod 4 * 16]
  | [x; y] => [x / 4; x mod 4 * 16 + y / 16; y mod 16 * 4]
  | x :: y :: z :: l' =>
      x / 4 :: x mod 4 * 16 + y / 16 :: y mod 16 * 4 + z / 64 :: z mod 64 :: encode_digits l'
  end.

Definition EncodeToString (l : list Z) : string :=
  foldr (λ d s, String (digit_byte d) s) EmptyString (encode_digits l).

(** ** Round trip *)

Definition is_digit (d : Z) : Prop := 0 ≤ d < 64.

(** Induction by groups of three bytes. *)
Lemma list_ind3 {A} (P : list A → Prop) :
  P [] → (∀ x, P [x]) → (∀ x y, P [x; y]) → (∀ x y z l, P l → P (x :: y :: z :: l)) →
  ∀ l, P l.
Proof.
  intros H0 H1 H2 H3. fix IH 1. intros [|x [|y [|z l]]]; [exact H0|apply H1|apply H2|].
  apply H3, IH.
Qed.


Lemma encode_digits_range l : Forall is_byte l → Forall is_digit (encode_digits l).
Proof.
  induction l as [|x|x y|x y z l IH] using list_ind3; intros Hl; simpl;
    repeat match goal with H : Forall _ (_ :: _) |- _ => apply Forall_cons in H as [? H] end;
    unfold is_byte in *; repeat (constructor; [unfold is_digit; Z.to_euclidean_division_equations; lia|]);
    [constructor..|]. by apply IH.
Qed.

Lemma decode_encode_digits l : Forall is_byte l → decode_digits (encode_digits l) = Some l.
Proof.
  induction l as [|x|x y|x y z l IH] using list_ind3; intros Hl; simpl; [done|..];
    repeat match goal with H : Forall _ (_ :: _) |- _ => apply Forall_cons in H as [? H] end;
    unfold is_byte in *.
  - do 2 f_equal. Z.to_euclidean_division_equations. lia.
  - do 2 f_equal; [|f_equal]; Z.to_euclidean_division_equations; lia.
  - rewrite IH by done. simpl. do 2 f_equal; [|f_equal; [|f_equal]];
      Z.to_euclidean_division_equations; lia.
Qed.

Lemma digit_value_byte d :
  is_digit d → digit_value (digit_byte d) = Some d ∧
  (byte_of_ascii (digit_byte d) =? 10) || (byte_of_ascii (digit_byte d) =? 13) = false.
Proof.
  intros Hd.
  assert (forallb (λ d, bool_decide (digit_value (digit_byte d) = Some d)
    && negb ((byte_of_ascii (digit_byte d) =? 10) || (byte_of_ascii (digit_byte d) =? 13)))
    (seqZ 0 64) = true) as Hall by (vm_compute; reflexivity).
  rewrite forallb_forall in Hall. specialize (Hall d).
  assert (In d (seqZ 0 64)) as Hin.
  { apply list_elem_of_In, elem_of_seqZ. unfold is_digit in Hd. lia. }
  apply Hall in Hin. apply andb_true_iff in Hin as [Hv Hn%negb_true_iff].
  split; [by apply bool_decide_eq_true in Hv|exact Hn].
Qed.

Lemma digits_of_encoded ds :
  Forall is_digit ds →
  digits_of (foldr (λ d s, String (digit_byte d) s) EmptyString ds) = Some ds.
Proof.
  induction 1 as [|d ds Hd Hds IH]; [done|]. simpl.
  destruct (digit_value_byte d Hd) as [-> ->]. simpl. by rewrite IH.
Qed.

(** Decoding an encoded byte string gives it back. *)
Lemma base64_roundtrip l : Forall is_byte l → DecodeString (EncodeToString l) = Some l.
Proof.
  intros Hl. unfold DecodeString, EncodeToString.
  rewrite digits_of_encoded by by apply encode_digits_range. by apply decode_encode_digits.
Qed.
