(* ===== verification/Access.v ===== *)
(** * Verification of Cloudflare Access tokens ([access.go])

    The JWT decoder, the claim checks and the key cache.  JSON decoding into the
    Go structs, PEM and X.509 parsing, RSA signature verification and URL
    parsing are parameters ([AccessEnv]): each is a function of its input, with
    [None] or [false] for an error.  What the certificate endpoint answers is an
    argument of the calls that fetch it. *)

From stdpp Require Import gmap strings list.
From Stdlib Require Import ZArith Lia Ascii.
From S2P Require Import Prelude GoStrings Encoding Base64 Model Http Host.

Local Open Scope string_scope.

Record accessJWTHeaderFields := mkJWTHeader { jh_Alg : string; jh_Kid : string; jh_Typ : string }.

Record AccessClaims := mkClaims {
  ac_Audience : list string;
  ac_Email : string;
  ac_Expires : Z;
  ac_IssuedAt : Z;
  ac_NotBefore : Z;
  ac_Issuer : string;
  ac_Type : string;
  ac_Subject : string
}.

(** The payload before its [aud] claim is decoded ([None]: no such member). *)
Record accessPayload := mkPayload {
  pl_aud : option Json;
  pl_email : string;
  pl_exp : Z;
  pl_iat : Z;
  pl_nbf : Z;
  pl_iss : string;
  pl_type : string;
  pl_sub : string
}.

Record PublicKey := mkPublicKey { pk_N : Z; pk_E : Z }.

(** The members of the certificate response. *)
Record publicCert := mkCert { pc_Kid : string; pc_Cert : string }.
Record jwk := mkJWK {
  jwk_Kid : string; jwk_Kty : string; jwk_Use : string; jwk_Alg : string; jwk_N : string; jwk_E : string
}.
Record certResponse := mkCertResponse { cr_PublicCerts : list publicCert; cr_Keys : list jwk }.

Class AccessEnv := {
  access_host_env :: HostEnv;
  json_header : list Z → option accessJWTHeaderFields;
  json_payload : list Z → option accessPayload;
  json_certs : list Z → option certResponse;
  pem_public_key : string → option PublicKey;
  VerifyPKCS1v15 : PublicKey → list Z → list Z → bool;
  (* [url.Parse]: the host, and [String()] once path, query and fragment are cleared *)
  url_origin : string → option (string * string)
}.

Inductive AccessError :=
| ErrFormat | ErrDecode | ErrJSON | ErrAlg | ErrNoKid | ErrAud
| ErrIssuer | ErrType | ErrAudience | ErrExpired | ErrNotYet | ErrNoSubject | ErrNoEmail | ErrDomain
| ErrFetch | ErrStatus | ErrCerts | ErrPEM | ErrExponent | ErrNoKeys | ErrUnknownKey | ErrSignature
| ErrTeamDomain.

Record AccessVerifier := mkVerifier {
  av_audience : string;
  av_issuerURL : string;
  av_certsURL : string;
  av_allowedEmailDomain : string;
  av_keys : gmap string PublicKey;
  av_fetchedAt : Z
}.

(** The zero [time.Time], January 1, year 1. *)
Definition zero_time : Z := -62135596800 * Second.

(** [accessAudience.UnmarshalJSON]: a list of strings (a null element leaves the
    zero value, a null list none), or a single string. *)
Definition UnmarshalJSON_audience (data : Json) : option (list string) :=
  match data with
  | JArr l => mapM (λ j, match j with JStr s => Some s | JNull => Some "" | _ => None end) l
  | JNull => Some []
  | JStr single => Some [single]
  | _ => None
  end.

Section Access.
Context `{!AccessEnv}.

Definition normalizeAccessEmailDomain (domain : string) : string :=
  let domain := TrimSpace (ToLower unicode_ToLower domain) in
  TrimPrefix domain "@".

Definition accessEmailMatchesDomain (email domain : string) : bool :=
  let email := TrimSpace (ToLower unicode_ToLower email) in
  let domain := normalizeAccessEmailDomain domain in
  if String.eqb email "" || String.eqb domain "" then false
  else HasSuffix email ("@" +:+ domain).

(** [Ok None]: Access is not configured. *)
Definition NewAccessVerifier (cfg : HandlerConfig) : AccessError + option AccessVerifier :=
  if String.eqb (hc_AccessAUD cfg) "" then inr None
  else
    let build issuerURL :=
      let certsURL := TrimSpace (hc_AccessJWKSURL cfg) in
      let certsURL := if String.eqb certsURL "" then issuerURL +:+ "/cdn-cgi/access/certs" else certsURL in
      inr (Some (mkVerifier (hc_AccessAUD cfg) issuerURL certsURL
        (normalizeAccessEmailDomain (hc_AccessAllowedEmailDomain cfg)) ∅ zero_time)) in
    let issuerURL := TrimRight (hc_AccessIssuerURL cfg) "/" in
    if String.eqb issuerURL "" then
      if String.eqb (hc_AccessTeamDomain cfg) "" then inl ErrTeamDomain
      else
        let raw := TrimSpace (hc_AccessTeamDomain cfg) in
        let raw := if negb (Contains raw "://") then "https://" +:+ raw else raw in
        match url_origin raw with
        | Some (host, origin) =>
            if String.eqb host "" then inl ErrTeamDomain else build (TrimRight origin "/")
        | None => inl ErrTeamDomain
        end
    else build issuerURL.

Definition containsString (values : list string) (target : string) : bool :=
  existsb (λ value, String.eqb value target) values.

(** [now] in seconds. *)
Definition validateClaims (v : AccessVerifier) (now : Z) (claims : AccessClaims) :
    AccessError + unit :=
  if negb (String.eqb (ac_Issuer claims) (av_issuerURL v)) then inl ErrIssuer
  else if negb (String.eqb (ac_Type claims) "app") then inl ErrType
  else if negb (containsString (ac_Audience claims) (av_audience v)) then inl ErrAudience
  else if (ac_Expires claims =? 0)%Z || (ac_Expires claims <=? now)%Z then inl ErrExpired
  else if negb (ac_NotBefore claims =? 0)%Z && (now + 60 <? ac_NotBefore claims)%Z then inl ErrNotYet
  else if String.eqb (ac_Subject claims) "" then inl ErrNoSubject
  else if String.eqb (ac_Email claims) "" then inl ErrNoEmail
  else if negb (String.eqb (av_allowedEmailDomain v) "")
          && negb (accessEmailMatchesDomain (ac_Email claims) (av_allowedEmailDomain v))
  then inl ErrDomain
  else inr tt.

(** ** Keys *)

Definition big_of_bytes (l : list Z) : Z := fold_left (λ acc b, acc * 256 + b)%Z l 0%Z.

(** [int(e.Int64())] is the identity on a 64-bit server. *)
Definition parseJWKPublicKey (nRaw eRaw : string) : AccessError + PublicKey :=
  match DecodeString nRaw with
  | None => inl ErrDecode
  | Some nBytes =>
      match DecodeString eRaw with
      | None => inl ErrDecode
      | Some eBytes =>
          let n := big_of_bytes nBytes in
          let e := big_of_bytes eBytes in
          if (e <=? int64_max)%Z then inr (mkPublicKey n e) else inl ErrExponent
      end
  end.

Definition parsePEMPublicKey (raw : string) : AccessError + PublicKey :=
  match pem_public_key raw with Some k => inr k | None => inl ErrPEM end.

Fixpoint add_certs (certs : list publicCert) (result : gmap string PublicKey) :
    AccessError + gmap string PublicKey :=
  match certs with
  | [] => inr result
  | cert :: certs =>
      match parsePEMPublicKey (pc_Cert cert) with
      | inl err => inl err
      | inr publicKey => add_certs certs (<[pc_Kid cert := publicKey]> result)
      end
  end.

Fixpoint add_jwks (keys : list jwk) (result : gmap string PublicKey) :
    AccessError + gmap string PublicKey :=
  match keys with
  | [] => inr result
  | key :: keys =>
      if negb (String.eqb (jwk_Kty key) "RSA") || String.eqb (jwk_Kid key) "" then add_jwks keys result
      else
        match parseJWKPublicKey (jwk_N key) (jwk_E key) with
        | inl err => inl err
        | inr publicKey => add_jwks keys (<[jwk_Kid key := publicKey]> result)
        end
  end.

Definition parseAccessCerts (body : list Z) : AccessError + gmap string PublicKey :=
  match json_certs body with
  | None => inl ErrCerts
  | Some payload =>
      match add_certs (cr_PublicCerts payload) ∅ with
      | inl err => inl err
      | inr result =>
          match add_jwks (cr_Keys payload) result with
          | inl err => inl err
          | inr result => if bool_decide (result = ∅) then inl ErrNoKeys else inr result
          end
      end
  end.

(** What the certificate endpoint answers: no answer, or a status and a body. *)
Inductive Fetch := FetchFails | FetchAnswers (status : Z) (body : list Z).

Definition refreshKeys (v : AccessVerifier) (now : Z) (fetch : Fetch) :
    (AccessError + unit) * AccessVerifier :=
  match fetch with
  | FetchFails => (inl ErrFetch, v)
  | FetchAnswers status body =>
      if negb (status =? StatusOK)%Z then (inl ErrStatus, v)
      else
        match parseAccessCerts (take (Z.to_nat (2 ^ 20)) body) with
        | inl err => (inl err, v)
        | inr keys =>
            (inr tt, mkVerifier (av_audience v) (av_issuerURL v) (av_certsURL v)
                       (av_allowedEmailDomain v) keys now)
        end
  end.

(** [now] in nanoseconds; both clock readings of one call are the same instant. *)
Definition lookupKey (v : AccessVerifier) (now : Z) (fetch : Fetch) (kid : string) :
    (AccessError + PublicKey) * AccessVerifier :=
  let stale := (5 * Minute <? now - av_fetchedAt v)%Z in
  match av_keys v !! kid, stale with
  | Some key, false => (inr key, v)
  | _, _ =>
      match refreshKeys v now fetch with
      | (inl err, v) => (inl err, v)
      | (inr _, v) =>
          match av_keys v !! kid with
          | Some key => (inr key, v)
          | None => (inl ErrUnknownKey, v)
          end
      end
  end.

(** ** Tokens *)

Definition claims_of (p : accessPayload) (audience : list string) : AccessClaims :=
  mkClaims audience (pl_email p) (pl_exp p) (pl_iat p) (pl_nbf p) (pl_iss p) (pl_type p) (pl_sub p).

Definition decode_claims (payloadBytes : list Z) : AccessError + AccessClaims :=
  match json_payload payloadBytes with
  | None => inl ErrJSON
  | Some p =>
      match pl_aud p with
      | None => inr (claims_of p [])
      | Some data =>
          match UnmarshalJSON_audience data with
          | Some audience => inr (claims_of p audience)
          | None => inl ErrAud
          end
      end
  end.

Definition Verify (v : AccessVerifier) (now : Z) (fetch : Fetch) (token : string) :
    (AccessError + AccessClaims) * AccessVerifier :=
  match Split token "." with
  | [h; p; s] =>
      match DecodeString h with
      | None => (inl ErrDecode, v)
      | Some headerBytes =>
          match json_header headerBytes with
          | None => (inl ErrJSON, v)
          | Some header =>
              if negb (String.eqb (jh_Alg header) "RS256") then (inl ErrAlg, v)
              else if String.eqb (jh_Kid header) "" then (inl ErrNoKid, v)
              else
                match DecodeString p with
                | None => (inl ErrDecode, v)
                | Some payloadBytes =>
                    match decode_claims payloadBytes with
                    | inl err => (inl err, v)
                    | inr claims =>
                        match validateClaims v (now / Second) claims with
                        | inl err => (inl err, v)
                        | inr _ =>
                            match lookupKey v now fetch (jh_Kid header) with
                            | (inl err, v) => (inl err, v)
                            | (inr publicKey, v) =>
                                match DecodeString s with
                                | None => (inl ErrDecode, v)
                                | Some signature =>
                                    let sum := Sum256 (h +:+ "." +:+ p) in
                                    if VerifyPKCS1v15 publicKey sum signature
                                    then (inr claims, v) else (inl ErrSignature, v)
                                end
                            end
                        end
                    end
                end
          end
      end
  | _ => (inl ErrFormat, v)
  end.

(** ** Claims *)

Lemma containsString_true values target : containsString values target = true ↔ target ∈ values.
Proof.
  unfold containsString. rewrite existsb_exists. setoid_rewrite String.eqb_eq.
  rewrite list_elem_of_In. naive_solver.
Qed.

Lemma HasSuffix_true s p : HasSuffix s p = true ↔ ∃ r, s = r +:+ p.
Proof.
  unfold HasSuffix. rewrite HasPrefix_true. split.
  - intros [r Hr]. exists (String.rev r). rewrite <- (rev_involutive s), Hr, rev_app.
    by rewrite rev_involutive.
  - intros [r ->]. exists (String.rev r). apply rev_app.
Qed.

(** An address of a domain: what follows some "@" is the configured domain (with
    or without its own "@"), ignoring case and surrounding blanks.  A look-alike
    such as "user@evil-example.com" is no address of "example.com". *)
Definition address_in (email domain : string) : Prop :=
  ∃ local d, d = TrimPrefix (TrimSpace (ToLower unicode_ToLower domain)) "@" ∧ d ≠ "" ∧
    TrimSpace (ToLower unicode_ToLower email) = local +:+ "@" +:+ d.

Lemma accessEmailMatchesDomain_true email domain :
  accessEmailMatchesDomain email domain = true ↔ address_in email domain.
Proof.
  unfold accessEmailMatchesDomain, address_in, normalizeAccessEmailDomain.
  destruct (String.eqb_spec (TrimSpace (ToLower unicode_ToLower email)) "") as [E|_]; simpl.
  - rewrite E. split; [done|]. intros (local & d & _ & _ & Hl). by destruct local.
  - destruct (String.eqb_spec (TrimPrefix (TrimSpace (ToLower unicode_ToLower domain)) "@") "");
      simpl; [naive_solver|]. rewrite HasSuffix_true. naive_solver.
Qed.

(** What a claim set must satisfy to be accepted. *)
Definition acceptable (v : AccessVerifier) (now : Z) (c : AccessClaims) : Prop :=
  ac_Issuer c = av_issuerURL v ∧ ac_Type c = "app" ∧ av_audience v ∈ ac_Audience c ∧
  (now < ac_Expires c)%Z ∧ ac_Expires c ≠ 0%Z ∧
  (ac_NotBefore c = 0 ∨ ac_NotBefore c ≤ now + 60)%Z ∧
  ac_Subject c ≠ "" ∧ ac_Email c ≠ "" ∧
  (av_allowedEmailDomain v = "" ∨ address_in (ac_Email c) (av_allowedEmailDomain v)).

Lemma guard_passes (b : bool) (e : AccessError) (k : AccessError + unit) :
  (if b then inl e else k) = inr tt ↔ b = false ∧ k = inr tt.
Proof. destruct b; naive_solver. Qed.

Lemma validateClaims_ok v now c : validateClaims v now c = inr tt ↔ acceptable v now c.
Proof.
  unfold validateClaims, acceptable.
  rewrite !guard_passes, <- containsString_true, <- accessEmailMatchesDomain_true.
  rewrite !negb_false_iff, orb_false_iff, !andb_false_iff, !negb_false_iff.
  rewrite !String.eqb_eq, !String.eqb_neq, Z.eqb_neq, Z.eqb_eq, Z.leb_gt, Z.ltb_ge.
  intuition.
Qed.

(** ** The key cache *)

(** How a key is obtained: from the cache while that is at most five minutes old,
    else from a fresh set of certificates, which then replaces the cache.  When
    the certificates cannot be fetched or parsed there is no key, even if the
    stale cache holds it. *)
Inductive key_obtained (v : AccessVerifier) (now : Z) (fetch : Fetch) (kid : string)
    (key : PublicKey) : AccessVerifier → Prop :=
| key_cached :
    av_keys v !! kid = Some key → (now - av_fetchedAt v ≤ 5 * Minute)%Z →
    key_obtained v now fetch kid key v
| key_fetched body keys :
    av_keys v !! kid = None ∨ (5 * Minute < now - av_fetchedAt v)%Z →
    fetch = FetchAnswers 200 body →
    parseAccessCerts (take (Z.to_nat (2 ^ 20)) body) = inr keys → keys !! kid = Some key →
    key_obtained v now fetch kid key
      (mkVerifier (av_audience v) (av_issuerURL v) (av_certsURL v) (av_allowedEmailDomain v) keys now).

Lemma refreshKeys_ok v now fetch v' :
  refreshKeys v now fetch = (inr tt, v') ↔
  ∃ body keys, fetch = FetchAnswers 200 body ∧
    parseAccessCerts (take (Z.to_nat (2 ^ 20)) body) = inr keys ∧
    v' = mkVerifier (av_audience v) (av_issuerURL v) (av_certsURL v) (av_allowedEmailDomain v) keys now.
Proof.
  unfold refreshKeys. destruct fetch as [|st body]; [naive_solver|].
  destruct (Z.eqb_spec st StatusOK) as [->|Hne]; cbn [negb].
  - destruct (parseAccessCerts _) as [e|keys] eqn:E.
    + split; [done|]. intros (b & k & [= <-] & Hk & _). congruence.
    + split; [intros [= <-]; by eauto|]. intros (b & k & [= <-] & Hk & ->). congruence.
  - split; [done|]. by intros (b & k & [= -> <-] & _).
Qed.

Lemma lookupKey_ok v now fetch kid key v' :
  lookupKey v now fetch kid = (inr key, v') ↔ key_obtained v now fetch kid key v'.
Proof.
  unfold lookupKey.
  assert (av_keys v !! kid = None ∨ (5 * Minute < now - av_fetchedAt v)%Z →
    (match refreshKeys v now fetch with
     | (inl err, v) => (inl err, v)
     | (inr _, v) => match av_keys v !! kid with
                     | Some key => (inr key, v)
                     | None => (inl ErrUnknownKey, v)
                     end
     end) = (inr key, v') ↔ key_obtained v now fetch kid key v') as Hrefresh.
  { intros Hwhy. pose proof (refreshKeys_ok v now fetch) as Hok. split.
    - destruct (refreshKeys v now fetch) as [[e|[]] v1]; [done|].
      destruct (proj1 (Hok v1) eq_refl) as (body & keys & -> & Hp & ->). simpl.
      destruct (keys !! kid) as [k|] eqn:Ek; [|done]. intros [= <- <-]. by eapply key_fetched.
    - intros [Hk Hf|body keys _ -> Hp Hk].
      + destruct Hwhy; [congruence|lia].
      + rewrite (proj2 (Hok _) (ex_intro _ body (ex_intro _ keys (conj eq_refl (conj Hp eq_refl))))).
        simpl. by rewrite Hk. }
  destruct (av_keys v !! kid) as [k|] eqn:Ek; [|apply Hrefresh; by left].
  destruct (Z.ltb_spec (5 * Minute) (now - av_fetchedAt v)); [apply Hrefresh; by right|].
  split.
  - intros [= -> ->]. by apply key_cached.
  - intros [Hk Hf|body keys [|] _ _ _]; [congruence|congruence|lia].
Qed.

(** ** Exactness *)

Lemma Split_three token h p s :
  Split token "." = [h; p; s] ↔
  token = h +:+ "." +:+ p +:+ "." +:+ s ∧
  without "." h = true ∧ without "." p = true ∧ without "." s = true.
Proof.
  split.
  - intros E. split; [by rewrite <- (Split_join token "."), E|].
    pose proof (Split_pieces token ".") as HF. rewrite E, !Forall_cons in HF. tauto.
  - intros (-> & Hh & Hp & Hs). change ("." +:+ s) with (String "." s).
    change ("." +:+ p +:+ String "." s) with (String "." (p +:+ String "." s)).
    by rewrite !Split_piece, Split_without by done.
Qed.

(** The audience a payload states: none, one, or a list (a null entry counts as
    an empty string). *)
Inductive audience_claim : option Json → list string → Prop :=
| audience_missing : audience_claim None []
| audience_null : audience_claim (Some JNull) []
| audience_single s : audience_claim (Some (JStr s)) [s]
| audience_list l ss :
    Forall2 (λ j s, j = JStr s ∨ (j = JNull ∧ s = "")) l ss → audience_claim (Some (JArr l)) ss.

Lemma UnmarshalJSON_audience_ok data auds :
  UnmarshalJSON_audience data = Some auds ↔ audience_claim (Some data) auds.
Proof.
  split.
  - destruct data; simpl; try done.
    + intros [= <-]. constructor.
    + intros [= <-]. constructor.
    + intros Hm%mapM_Some. constructor. eapply Forall2_impl; [exact Hm|].
      intros j t. destruct j; naive_solver.
  - inversion 1; subst; simpl; try done. apply mapM_Some. eapply Forall2_impl; [done|].
    intros j t [->|[-> ->]]; done.
Qed.

Lemma decode_claims_ok bytes claims :
  decode_claims bytes = inr claims ↔
  ∃ p auds, json_payload bytes = Some p ∧ audience_claim (pl_aud p) auds ∧
    claims = mkClaims auds (pl_email p) (pl_exp p) (pl_iat p) (pl_nbf p) (pl_iss p) (pl_type p) (pl_sub p).
Proof.
  unfold decode_claims, claims_of. destruct (json_payload bytes) as [p|]; [|naive_solver].
  split.
  - destruct (pl_aud p) as [data|] eqn:Ea.
    + destruct (UnmarshalJSON_audience data) as [auds|] eqn:Eu; [|done]. intros [= <-].
      exists p, auds. rewrite Ea. by apply UnmarshalJSON_audience_ok in Eu.
    + intros [= <-]. exists p, []. rewrite Ea. split; [done|]. split; [constructor|done].
  - intros (p' & auds & [= <-] & Ha & ->). destruct (pl_aud p) as [data|].
    + by rewrite (proj2 (UnmarshalJSON_audience_ok data auds) Ha).
    + by inversion Ha.
Qed.

(** A token that deserves to be accepted, with the claims it makes. *)
Definition verified (v : AccessVerifier) (now : Z) (fetch : Fetch) (token : string)
    (claims : AccessClaims) (v' : AccessVerifier) : Prop :=
  ∃ h p s headerBytes header payloadBytes payload auds key signature,
    token = h +:+ "." +:+ p +:+ "." +:+ s ∧
    (without "." h = true ∧ without "." p = true ∧ without "." s = true) ∧
    (DecodeString h = Some headerBytes ∧ json_header headerBytes = Some header) ∧
    (jh_Alg header = "RS256" ∧ jh_Kid header ≠ "") ∧
    (DecodeString p = Some payloadBytes ∧ json_payload payloadBytes = Some payload) ∧
    audience_claim (pl_aud payload) auds ∧
    claims = mkClaims auds (pl_email payload) (pl_exp payload) (pl_iat payload) (pl_nbf payload)
               (pl_iss payload) (pl_type payload) (pl_sub payload) ∧
    acceptable v (now / Second) claims ∧
    key_obtained v now fetch (jh_Kid header) key v' ∧
    DecodeString s = Some signature ∧
    VerifyPKCS1v15 key (Sum256 (h +:+ "." +:+ p)) signature = true.

Lemma Verify_complete v now fetch token claims v' :
  verified v now fetch token claims v' → Verify v now fetch token = (inr claims, v').
Proof.
  intros (h & p & s & hb & header & pb & payload & auds & key & sig & -> & Hd & [Hh Hj] &
    [Halg Hkid] & [Hp Hpl] & Ha & Hc & Hok & Hkey & Hs & Hsig).
  unfold Verify. rewrite (proj2 (Split_three _ h p s)) by done. rewrite Hh, Hj.
  apply String.eqb_eq in Halg. apply String.eqb_neq in Hkid. rewrite Halg, Hkid. simpl.
  rewrite Hp, (proj2 (decode_claims_ok pb claims)) by eauto.
  rewrite (proj2 (validateClaims_ok v _ claims)) by done.
  rewrite (proj2 (lookupKey_ok v now fetch _ key v')) by done. by rewrite Hs, Hsig.
Qed.

Lemma Verify_sound v now fetch token claims v' :
  Verify v now fetch token = (inr claims, v') → verified v now fetch token claims v'.
Proof.
  unfold Verify. destruct (Split token ".") as [|h [|p [|s [|]]]] eqn:Es; try done.
  apply Split_three in Es as [Et Hd].
  destruct (DecodeString h) as [hb|] eqn:Eh; [|done].
  destruct (json_header hb) as [header|] eqn:Ej; [|done].
  destruct (String.eqb_spec (jh_Alg header) "RS256") as [Ealg|]; [|done]. simpl.
  destruct (String.eqb_spec (jh_Kid header) "") as [|Ekid]; [done|].
  destruct (DecodeString p) as [pb|] eqn:Ep; [|done].
  destruct (decode_claims pb) as [|c] eqn:Ec; [done|].
  apply decode_claims_ok in Ec as (payload & auds & Hpl & Ha & Hc).
  destruct (validateClaims v _ c) as [|[]] eqn:Ev; [done|]. apply validateClaims_ok in Ev.
  destruct (lookupKey v now fetch _) as [[|key] v1] eqn:Ek; [done|]. apply lookupKey_ok in Ek.
  destruct (DecodeString s) as [sig|] eqn:Esig; [|done].
  destruct (VerifyPKCS1v15 _ _ sig) eqn:Erv; [|done]. intros [= <- <-].
  exists h, p, s, hb, header, pb, payload, auds, key, sig. done.
Qed.

(** C22. A token is accepted exactly when it should be.  It has three parts; its
    header names RS256 and a key; its claims are those of its own payload and
    pass every check (issuer, type "app", audience, not expired, not used more
    than a minute early, subject, email, allowed domain); the key comes from a
    key set fetched within the last five minutes; and the signature verifies
    under it over the SHA-256 digest of the signed part.  Then the result is
    those claims. *)
Theorem Verify_exact v now fetch token claims v' :
  Verify v now fetch token = (inr claims, v') ↔ verified v now fetch token claims v'.
Proof. split; [apply Verify_sound|apply Verify_complete]. Qed.
End Access.

(** ** A concrete environment

    One key, one header and one payload, and a signature scheme in which the
    digest signs itself: enough to run the verifier. *)
Definition toy_payload : accessPayload :=
  mkPayload (Some (JArr [JStr "aud-1"])) "Ann@Example.com" 2000 1000 0 "https://team.example" "app" "sub-ann".
Definition toy_env : AccessEnv :=
  Build_AccessEnv ascii_env
    (λ _, Some (mkJWTHeader "RS256" "k1" "JWT"))
    (λ _, Some toy_payload)
    (λ _, Some (mkCertResponse [] [mkJWK "k1" "RSA" "sig" "RS256" "AQAB" "AQAB"]))
    (λ _, None) (λ _ digest signature, bool_decide (digest = signature)) (λ _, None).

Definition toy_verifier : AccessVerifier :=
  mkVerifier "aud-1" "https://team.example" "https://team.example/cdn-cgi/access/certs"
    "example.com" ∅ zero_time.

Definition toy_token : string :=
  "aGVhZGVy.cGF5bG9hZA." +:+ EncodeToString (Sum256 "aGVhZGVy.cGF5bG9hZA").

Lemma toy_accepted :
  ∃ v', @Verify toy_env toy_verifier (1500 * Second) (FetchAnswers 200 []) toy_token =
    (inr (@claims_of toy_payload ["aud-1"]), v').
Proof. eexists. vm_compute. reflexivity. Qed.

Lemma Verify_exact_witness :
  ∃ v' key, @Verify toy_env toy_verifier (1500 * Second) (FetchAnswers 200 []) toy_token =
      (inr (@claims_of toy_payload ["aud-1"]), v') ∧
    av_keys v' !! "k1" = Some key ∧
    @acceptable toy_env toy_verifier 1500 (@claims_of toy_payload ["aud-1"]).
Proof.
  destruct toy_accepted as [v' E]. exists v'.
  destruct (proj1 (@Verify_exact toy_env _ _ _ _ _ _) E)
    as (h & p & s & hb & header & pb & payload & auds & key & sig & _ & _ & [_ Hh] & _ & _ & _ & _ &
        Ha & Hk & _).
  exists key. split; [exact E|]. simpl in Hh. injection Hh as <-. split; [|exact Ha].
  destruct Hk as [Hk _|body keys _ _ _ Hk]; exact Hk.
Defined.
