(* ===== verification/Server.v ===== *)
(** * The server's state and the authentication middleware ([auth.go])

    A handler is a function from a request and the server's state to a response
    and the new state.  The state is the database, the proxy sessions and the
    Access verifier with its key cache ([None]: Access is not configured). *)

From stdpp Require Import gmap strings list.
From Stdlib Require Import ZArith Lia Ascii.
From S2P Require Import Prelude GoStrings Encoding Model Database Schema Scheduler.
From S2P Require Import Workstations Workers Catalog System ProxySession Http Host Access.

Local Open Scope string_scope.

Record Server := mkServer {
  sv_world : World;
  sv_proxy : SessionManager;
  sv_access : option AccessVerifier
}.

Definition HandlerFunc : Type := Request → Server → Response * Server.

Definition set_world (w : World) (st : Server) : Server := mkServer w (sv_proxy st) (sv_access st).
Definition set_proxy (sm : SessionManager) (st : Server) : Server :=
  mkServer (sv_world st) sm (sv_access st).
Definition set_access (v : option AccessVerifier) (st : Server) : Server :=
  mkServer (sv_world st) (sv_proxy st) v.

(** A database call of a handler. *)
Definition db_call {A} (m : DB A) (st : Server) : (Error + A) * Server :=
  let (r, w) := m (sv_world st) in (r, set_world w st).

(** The committed tables. *)
Definition sv_tables (st : Server) : Tables := durable (sv_world st).

Definition with_worker (w : authenticatedWorker) (r : Request) : Request :=
  mkRequest (rq_Host r) (rq_Header r) (rq_Cookie r) (rq_Query r) (rq_PathValue r) (rq_member r) (Some w).
Definition with_member (m : Member) (r : Request) : Request :=
  mkRequest (rq_Host r) (rq_Header r) (rq_Cookie r) (rq_Query r) (rq_PathValue r) (Some m) (rq_worker r).

Definition requireAdminAuth (cfg : HandlerConfig) (next : HandlerFunc) : HandlerFunc := λ r st,
  if negb (tokensMatch (hc_AdminToken cfg) (bearerToken (rq_Header r "Authorization")))
  then (writeError StatusUnauthorized "unauthorized", st)
  else next r st.

Definition requireEnrollmentAuth (cfg : HandlerConfig) (next : HandlerFunc) : HandlerFunc := λ r st,
  if negb (tokensMatch (hc_EnrollmentToken cfg) (bearerToken (rq_Header r "Authorization")))
  then (writeError StatusUnauthorized "unauthorized", st)
  else next r st.

(** Who the request comes from: the answer that refuses it, or the request with
    the identity in its context. *)
Definition authenticate_worker (dbnow : Z) (r : Request) (st : Server) : (Response + Request) * Server :=
  let token := bearerToken (rq_Header r "Authorization") in
  match db_call (AuthenticateWorkerToken token) st with
  | (inl _, st) => (inl (writeError StatusUnauthorized "unauthorized"), st)
  | (inr worker, st) =>
      let (_, st) := db_call (TouchWorkerTokenUsage dbnow (wk_ID worker)) st in
      (inr (with_worker (mkAuthWorker (wk_ID worker) (wk_HardwareUUID worker)) r), st)
  end.

Definition requireWorkerAuth (dbnow : Z) (next : HandlerFunc) : HandlerFunc := λ r st,
  match authenticate_worker dbnow r st with
  | (inl resp, st) => (resp, st)
  | (inr r, st) => next r st
  end.

Definition accessJWTHeader : string := "Cf-Access-Jwt-Assertion".

Definition access_token (r : Request) : string :=
  let token := TrimSpace (rq_Header r accessJWTHeader) in
  if String.eqb token "" then
    match rq_Cookie r "CF_Authorization" with
    | Some value => TrimSpace value
    | None => token
    end
  else token.

Section Auth.
Context `{!AccessEnv}.

(** [now] and [fetch] are what the verifier's clock and certificate endpoint
    give, [dbnow] and [newID] what the database gives. *)
Definition authenticate_member (now dbnow : Z) (fetch : Fetch) (newID : string)
    (r : Request) (st : Server) : (Response + Request) * Server :=
  match sv_access st with
  | None => (inl (writeError StatusServiceUnavailable "access auth not configured"), st)
  | Some v =>
      let token := access_token r in
      if String.eqb token "" then (inl (writeError StatusUnauthorized "missing access token"), st)
      else
        let (res, v') := Verify v now fetch token in
        let st := set_access (Some v') st in
        match res with
        | inl _ => (inl (writeError StatusUnauthorized "invalid access token"), st)
        | inr claims =>
            match db_call (UpsertMemberFromAccess dbnow newID (ac_Subject claims) (ac_Email claims)) st with
            | (inl _, st) => (inl (writeError StatusInternalServerError "failed to load member"), st)
            | (inr member, st) => (inr (with_member member r), st)
            end
        end
  end.

Definition requireAccessAuth (now dbnow : Z) (fetch : Fetch) (newID : string)
    (next : HandlerFunc) : HandlerFunc := λ r st,
  match authenticate_member now dbnow fetch newID r st with
  | (inl resp, st) => (resp, st)
  | (inr r, st) => next r st
  end.

(** The token a request presents: what follows "Bearer " in the Authorization
    header, blanks around it ignored, and nothing for any other header. *)
Inductive presents (r : Request) : string → Prop :=
| presents_bearer rest :
    rq_Header r "Authorization" = "Bearer " +:+ rest → presents r (TrimSpace rest)
| presents_nothing :
    (∀ rest, rq_Header r "Authorization" ≠ "Bearer " +:+ rest) → presents r "".

Lemma presents_bearerToken r token :
  presents r token ↔ bearerToken (rq_Header r "Authorization") = token.
Proof.
  unfold bearerToken. split.
  - intros [rest E|Hn].
    + by rewrite (proj2 (CutPrefix_Some _ _ _) E).
    + destruct (CutPrefix _ _) as [rest|] eqn:E; [|done]. by apply CutPrefix_Some, Hn in E.
  - destruct (CutPrefix _ _) as [rest|] eqn:E; intros <-.
    + apply presents_bearer. by apply CutPrefix_Some.
    + apply presents_nothing. intros rest Hr. apply CutPrefix_Some in Hr. congruence.
Qed.

(** C25. The bearer-token guards are exact and fail closed: the guarded handler
    runs when the configured token is not empty and the request presents it;
    otherwise the answer is 401 and the server's state is untouched.  With no
    token configured nobody passes. *)
Theorem bearer_guards_exact cfg (next : HandlerFunc) r st :
  (hc_AdminToken cfg ≠ "" ∧ presents r (hc_AdminToken cfg) →
   requireAdminAuth cfg next r st = next r st) ∧
  (¬ (hc_AdminToken cfg ≠ "" ∧ presents r (hc_AdminToken cfg)) →
   requireAdminAuth cfg next r st = (writeError 401 "unauthorized", st)) ∧
  (hc_EnrollmentToken cfg ≠ "" ∧ presents r (hc_EnrollmentToken cfg) →
   requireEnrollmentAuth cfg next r st = next r st) ∧
  (¬ (hc_EnrollmentToken cfg ≠ "" ∧ presents r (hc_EnrollmentToken cfg)) →
   requireEnrollmentAuth cfg next r st = (writeError 401 "unauthorized", st)).
Proof.
  rewrite !presents_bearerToken. set (token := bearerToken _).
  assert (∀ e, (e ≠ "" ∧ token = e) ↔ tokensMatch e token = true) as Hm.
  { intros e. rewrite tokensMatch_true. naive_solver. }
  unfold requireAdminAuth, requireEnrollmentAuth. fold token. rewrite !Hm.
  split_and!; intros E; try (by rewrite E); by apply not_true_is_false in E as ->.
Qed.

(** The row of a worker whose token was just used. *)
Definition token_used (dbnow : Z) (w : Worker) : Worker :=
  mkWorker (wk_ID w) (wk_Hostname w) (wk_HardwareUUID w) (wk_CPUCores w) (wk_MemoryBytes w)
    (wk_TartVersion w) (wk_WorkerVersion w) (wk_PoolSize w) (wk_BaseImage w) (wk_Status w)
    (wk_RegisteredAt w) (wk_LastHeartbeat w) (wk_AuthTokenHash w) (Some dbnow)
    (wk_AuthTokenRevokedAt w).

Definition holds_credential (token : string) (w : Worker) : Prop :=
  wk_AuthTokenHash w = Some (hex_encode (Sum256 token)) ∧ wk_AuthTokenRevokedAt w = None.

Lemma worker_auth_cases dbnow r st :
  let token := bearerToken (rq_Header r "Authorization") in
  (∃ w i st1, workers (sv_tables st) !! i = Some w ∧ holds_credential token w ∧
     authenticate_worker dbnow r st =
       (inr (with_worker (mkAuthWorker (wk_ID w) (wk_HardwareUUID w)) r), st1) ∧
     sv_proxy st1 = sv_proxy st ∧ sv_access st1 = sv_access st ∧
     (sv_tables st1 = sv_tables st ∨
      sv_tables st1 = set_workers (alter (token_used dbnow) (wk_ID w)) (sv_tables st)) ∧
     (faults (sv_world st) = [] →
      sv_tables st1 = set_workers (alter (token_used dbnow) (wk_ID w)) (sv_tables st))) ∨
  (∃ st1, authenticate_worker dbnow r st = (inl (writeError 401 "unauthorized"), st1) ∧
     sv_tables st1 = sv_tables st ∧ sv_proxy st1 = sv_proxy st ∧ sv_access st1 = sv_access st ∧
     (faults (sv_world st) = [] →
      ∀ i w, workers (sv_tables st) !! i = Some w → ¬ holds_credential token w)).
Proof.
  cbv zeta. unfold authenticate_worker, db_call, sv_tables.
  set (token := bearerToken _). destruct st as [[d wk fs] sm v]. simpl.
  unfold AuthenticateWorkerToken, pool_exec, next_fault, select_row. simpl.
  destruct (find_row (holds_token (HashWorkerToken token)) (workers d)) as [w|] eqn:Ef.
  2: { right. assert (∀ i w, workers d !! i = Some w → ¬ holds_credential token w) as Hno.
       { intros i w Hw Hh%holds_token_spec. rewrite find_row_None in Ef.
         specialize (Ef _ _ Hw). unfold HashWorkerToken in Ef. congruence. }
       destruct fs as [|[] fs]; simpl; rewrite ?Ef; eexists; (split; [reflexivity|]); by split_and!. }
  apply find_row_Some in Ef as Hw. destruct Hw as [Hh%holds_token_spec [i Hi]].
  unfold TouchWorkerTokenUsage, pool_exec, next_fault, update.
  destruct fs as [|[] fs]; simpl; rewrite ?Ef; simpl; try (right; by eexists).
  - left. eexists w, i, _. do 2 (split; [done|]). split; [reflexivity|]. by split_and!; auto.
  - left. destruct fs as [|[] fs]; simpl; eexists w, i, _; do 2 (split; [done|]);
      (split; [reflexivity|]); do 2 (split; [done|]); (split; [by auto|done]).
Qed.

(** C24. Worker authentication.  Soundness: the guarded handler runs only as a
    worker whose stored, unrevoked hash is the hex SHA-256 digest of the token
    the request presents, and until it runs the only change to the server is that
    worker's token usage time; in every other case, database failures included,
    the answer is 401 and nothing changes.  Completeness: while the database
    answers, a request that presents the credential of one worker runs the
    handler as that worker, with the usage time recorded. *)
Theorem worker_auth_exact dbnow (next : HandlerFunc) r st token :
  presents r token →
  ((∃ w i st1, workers (sv_tables st) !! i = Some w ∧ holds_credential token w ∧
      requireWorkerAuth dbnow next r st =
        next (with_worker (mkAuthWorker (wk_ID w) (wk_HardwareUUID w)) r) st1 ∧
      sv_proxy st1 = sv_proxy st ∧ sv_access st1 = sv_access st ∧
      (sv_tables st1 = sv_tables st ∨
       sv_tables st1 = set_workers (alter (token_used dbnow) (wk_ID w)) (sv_tables st))) ∨
   (∃ st1, requireWorkerAuth dbnow next r st = (writeError 401 "unauthorized", st1) ∧
      sv_tables st1 = sv_tables st ∧ sv_proxy st1 = sv_proxy st ∧ sv_access st1 = sv_access st)) ∧
  (∀ i w, faults (sv_world st) = [] → workers (sv_tables st) !! i = Some w →
     holds_credential token w →
     (∀ j w', workers (sv_tables st) !! j = Some w' → holds_credential token w' → w' = w) →
     ∃ st1, requireWorkerAuth dbnow next r st =
         next (with_worker (mkAuthWorker (wk_ID w) (wk_HardwareUUID w)) r) st1 ∧
       sv_tables st1 = set_workers (alter (token_used dbnow) (wk_ID w)) (sv_tables st)).
Proof.
  intros <-%presents_bearerToken. pose proof (worker_auth_cases dbnow r st) as Hc.
  cbv zeta in Hc. unfold requireWorkerAuth. split.
  - destruct Hc as [(w & i & st1 & ? & ? & -> & Hc)|(st1 & -> & Hc)];
      [left; exists w, i, st1|right; exists st1]; tauto.
  - intros i w Hf Hw Hh Huniq.
    destruct Hc as [(w' & j & st1 & Hj & Hh' & E & _ & _ & _ & Ht)|(st1 & _ & _ & _ & _ & Hno)].
    + rewrite E, (Huniq j w' Hj Hh') in *. exists st1. split; [done|by apply Ht].
    + by destruct (Hno Hf i w Hw).
Qed.

Lemma upsert_member_result dbnow newID sub email display t m t' :
  upsert_member_row dbnow newID sub email display t = inr (m, t') →
  mb_AccessSub m = sub ∧ mb_Email m = email ∧ members t' !! mb_ID m = Some m ∧
  (∀ i, i ≠ mb_ID m → members t' !! i = members t !! i) ∧ same_but TMembers t t'.
Proof.
  unfold upsert_member_row. destruct (by_access_sub sub t) as [old|] eqn:E.
  - unfold by_access_sub in E. apply find_row_Some in E as [Hs _]. to_prop.
    intros [= <- <-]. simpl. rewrite lookup_insert_eq. split_and!; try done.
    intros i Hi. by rewrite lookup_insert_ne.
  - case_bool_decide; [done|]. intros [= <- <-]. simpl. rewrite lookup_insert_eq. split_and!; try done.
    intros i Hi. by rewrite lookup_insert_ne.
Qed.

(** The Access token a request carries: the assertion header, or the cookie when
    the header is blank. *)
Inductive carries (r : Request) : string → Prop :=
| carries_header :
    TrimSpace (rq_Header r "Cf-Access-Jwt-Assertion") ≠ "" →
    carries r (TrimSpace (rq_Header r "Cf-Access-Jwt-Assertion"))
| carries_cookie value :
    TrimSpace (rq_Header r "Cf-Access-Jwt-Assertion") = "" →
    rq_Cookie r "CF_Authorization" = Some value → carries r (TrimSpace value).

Lemma carries_access_token r token : carries r token → access_token r = token.
Proof.
  unfold access_token, accessJWTHeader. intros [Hh|value Hh Hc].
  - by apply String.eqb_neq in Hh as ->.
  - by rewrite Hh, Hc.
Qed.

Lemma access_token_carries r : access_token r ≠ "" → carries r (access_token r).
Proof.
  unfold access_token, accessJWTHeader.
  destruct (String.eqb_spec (TrimSpace (rq_Header r "Cf-Access-Jwt-Assertion")) "") as [E|E].
  - destruct (rq_Cookie r "CF_Authorization") as [value|] eqn:Ec; [|done]. intros _.
    by apply (carries_cookie r value).
  - intros _. by apply carries_header.
Qed.

(** Signing in writes nothing but members. *)
Definition keeps_fleet (st st1 : Server) : Prop :=
  sv_proxy st1 = sv_proxy st ∧ same_but TMembers (sv_tables st) (sv_tables st1).

Definition signed_in (st1 : Server) (claims : AccessClaims) (member : Member) : Prop :=
  mb_AccessSub member = ac_Subject claims ∧ mb_Email member = ac_Email claims ∧
  members (sv_tables st1) !! mb_ID member = Some member.

(** A member row written is that of the member signing in. *)
Definition signs_in (st st1 : Server) (claims : AccessClaims) : Prop :=
  ∀ i, members (sv_tables st1) !! i = members (sv_tables st) !! i ∨
    ∃ member, signed_in st1 claims member ∧ mb_ID member = i.

Lemma access_auth_cases now dbnow fetch newID r st :
  (∃ v claims v' member st1, sv_access st = Some v ∧ access_token r ≠ "" ∧
     Verify v now fetch (access_token r) = (inr claims, v') ∧
     authenticate_member now dbnow fetch newID r st = (inr (with_member member r), st1) ∧
     signed_in st1 claims member ∧ keeps_fleet st st1 ∧ signs_in st st1 claims) ∨
  (∃ status msg st1, authenticate_member now dbnow fetch newID r st = (inl (writeError status msg), st1) ∧
     status ∈ [401; 500; 503]%Z ∧ keeps_fleet st st1 ∧
     (members (sv_tables st1) = members (sv_tables st) ∨
      ∃ v claims v', sv_access st = Some v ∧ access_token r ≠ "" ∧
        Verify v now fetch (access_token r) = (inr claims, v') ∧ signs_in st st1 claims) ∧
     (∀ v claims v', sv_access st = Some v → access_token r ≠ "" →
        Verify v now fetch (access_token r) = (inr claims, v') → faults (sv_world st) = [] →
        members (sv_tables st) !! newID ≠ None)).
Proof.
  unfold keeps_fleet, signs_in, signed_in, authenticate_member.
  destruct (sv_access st) as [v|];
    [|by right; eexists _, _, _; split; [done|]; split; [set_solver|]; split_and!; auto].
  destruct (String.eqb_spec (access_token r) "") as [|Hne].
  { by right; eexists _, _, _; split; [done|]; split; [set_solver|]; split_and!; auto. }
  destruct (Verify v now fetch (access_token r)) as [[e|claims] v'] eqn:Ev.
  { right; eexists _, _, _; split; [done|]; split; [set_solver|]. split; [done|]. split; [by left|].
    intros * [= <-] _ E; congruence. }
  unfold db_call, sv_tables in *. destruct st as [[d wk fs] sm ov]. simpl in *.
  unfold UpsertMemberFromAccess, pool_exec, next_fault. simpl.
  destruct (upsert_member_row dbnow newID (ac_Subject claims) (ac_Email claims)
    (display_name (ac_Email claims)) d)
    as [e|[m t']] eqn:Eu.
  - right. assert (members d !! newID ≠ None) as Hused.
    { unfold upsert_member_row in Eu. destruct (by_access_sub _ d); [done|].
      case_bool_decide as Hn; [by apply not_eq_None_Some|done]. }
    destruct fs as [|[] fs]; simpl; rewrite ?Eu; eexists _, _, _; (split; [done|]);
      (split; [set_solver|]); by split_and!; auto.
  - apply upsert_member_result in Eu as Hm. destruct Hm as (H1 & H2 & H3 & H4 & H5).
    assert (∀ i, members t' !! i = members d !! i ∨ ∃ member, (mb_AccessSub member = ac_Subject claims ∧
      mb_Email member = ac_Email claims ∧ members t' !! mb_ID member = Some member) ∧ mb_ID member = i) as Hrow.
    { intros i. destruct (decide (i = mb_ID m)) as [->|Hi]; [right; by exists m|left; by apply H4]. }
    destruct fs as [|[] fs]; simpl; rewrite ?Eu; simpl.
    1,2: left; eexists v, claims, v', m, _; by split_and!.
    + right. eexists _, _, _; split; [done|]; split; [set_solver|]. by split_and!; auto.
    + right. eexists _, _, _; split; [done|]; split; [set_solver|]. split_and!; try done. right. eauto 10.
Qed.

(** C23. Member authentication.  Soundness: the guarded handler runs only when
    Access is configured and the token the request carries deserves to be
    accepted, and then as the member whose Access subject and email are the
    token's, a row the database holds; otherwise the answer is 401, 500 or 503;
    either way nothing but the members table changes.  Completeness: while the
    database answers (and hands out an unused identifier), a request carrying an
    acceptable token runs the handler as that member. *)
Theorem access_auth_exact now dbnow fetch newID (next : HandlerFunc) r st :
  ((∃ v token claims v' member st1, sv_access st = Some v ∧ carries r token ∧
      verified v now fetch token claims v' ∧
      requireAccessAuth now dbnow fetch newID next r st = next (with_member member r) st1 ∧
      signed_in st1 claims member ∧ keeps_fleet st st1) ∨
   (∃ status msg st1, requireAccessAuth now dbnow fetch newID next r st = (writeError status msg, st1) ∧
      status ∈ [401; 500; 503]%Z ∧ keeps_fleet st st1)) ∧
  (∀ v token claims v', sv_access st = Some v → carries r token →
     verified v now fetch token claims v' → faults (sv_world st) = [] →
     members (sv_tables st) !! newID = None →
     ∃ member st1, requireAccessAuth now dbnow fetch newID next r st = next (with_member member r) st1 ∧
       signed_in st1 claims member).
Proof.
  pose proof (access_auth_cases now dbnow fetch newID r st) as Hc. unfold requireAccessAuth. split.
  - destruct Hc as [(v & claims & v' & m & st1 & Hv & Hne & HV & -> & Hs & Hk & _)|
      (status & msg & st1 & -> & Hs & Hk & _)]; [left|right; by eauto 10].
    exists v, (access_token r), claims, v', m, st1. split; [done|].
    split; [by apply access_token_carries|]. split; [by apply Verify_sound|done].
  - intros v token claims v' Hv Ht%carries_access_token Hver Hf Hnew. subst token.
    assert (access_token r ≠ "") as Hne.
    { destruct Hver as (h & ? & ? & ? & ? & ? & ? & ? & ? & ? & -> & _). by destruct h. }
    apply Verify_complete in Hver.
    destruct Hc as [(v1 & c1 & v1' & m & st1 & Hv1 & _ & HV & E & Hs & _)|(? & ? & ? & _ & _ & _ & _ & Hno)].
    + simplify_eq. rewrite E. exists m, st1. naive_solver congruence.
    + by destruct (Hno v claims v' Hv Hne Hver Hf).
Qed.
End Auth.

(** ** Database calls of handlers *)

Lemma db_call_keeps {A} (I : Tables → Prop) (m : DB A) st :
  keeps I m → I (sv_tables st) → I (sv_tables (db_call m st).2).
Proof. intros Hm HI. unfold db_call, sv_tables in *. specialize (Hm _ HI). by destruct (m (sv_world st)). Qed.

Lemma db_call_rest {A} (m : DB A) st :
  sv_proxy (db_call m st).2 = sv_proxy st ∧ sv_access (db_call m st).2 = sv_access st.
Proof. unfold db_call. by destruct (m (sv_world st)). Qed.

(** A query leaves the committed tables alone and, when it succeeds, answers from
    them. *)
Lemma db_call_row {A} (q : Tables → option A) st :
  sv_tables (db_call (pool_exec (select_row q)) st).2 = sv_tables st ∧
  match (db_call (pool_exec (select_row q)) st).1 with
  | inr a => q (sv_tables st) = Some a
  | inl e => e = ErrConn ∨ (e = ErrNoRows ∧ q (sv_tables st) = None)
  end.
Proof.
  unfold db_call, sv_tables. destruct st as [[d wk fs] sm v]. simpl.
  unfold pool_exec, next_fault, select_row. simpl.
  destruct fs as [|[] fs]; simpl; destruct (q d); simpl; auto.
Qed.

Lemma db_call_row_calm {A} (q : Tables → option A) st :
  faults (sv_world st) = [] →
  db_call (pool_exec (select_row q)) st =
  (match q (sv_tables st) with Some a => inr a | None => inl ErrNoRows end, st).
Proof.
  destruct st as [[d wk fs] sm v]. simpl. intros ->. unfold db_call. simpl sv_world.
  change (mkWorld d wk []) with (quiet d wk). run_db. unfold sv_tables. simpl. by destruct (q d).
Qed.

Lemma db_call_select {A} (q : Tables → A) st :
  sv_tables (db_call (pool_exec (select q)) st).2 = sv_tables st ∧
  match (db_call (pool_exec (select q)) st).1 with
  | inr a => a = q (sv_tables st)
  | inl e => e = ErrConn
  end.
Proof.
  unfold db_call, sv_tables. destruct st as [[d wk fs] sm v]. simpl.
  unfold pool_exec, next_fault, select. simpl. destruct fs as [|[] fs]; simpl; auto.
Qed.

(** What a run of database calls may have changed: nothing, or one table. *)
Definition writes (tb : option Table) (st st' : Server) : Prop :=
  sv_proxy st' = sv_proxy st ∧ sv_access st' = sv_access st ∧
  match tb with
  | None => sv_tables st' = sv_tables st
  | Some tb => same_but tb (sv_tables st) (sv_tables st')
  end.

Lemma writes_refl tb st : writes tb st st.
Proof. split; [done|]. split; [done|]. destruct tb; [apply same_but_refl|done]. Qed.

Lemma writes_weaken tb st st' : writes None st st' → writes (Some tb) st st'.
Proof. intros (? & ? & E). split; [done|]. split; [done|]. simpl. rewrite E. apply same_but_refl. Qed.

Lemma writes_trans tb st1 st2 st3 : writes tb st1 st2 → writes tb st2 st3 → writes tb st1 st3.
Proof.
  intros (P1 & A1 & T1) (P2 & A2 & T2). split; [congruence|]. split; [congruence|].
  destruct tb as [tb|]; [|congruence].
  destruct T1 as (A & B & C & D & E), T2 as (A' & B' & C' & D' & E').
  repeat split; intros Ht; [rewrite A' by done; auto|rewrite B' by done; auto|rewrite C' by done; auto|
    rewrite D' by done; auto|rewrite E' by done; auto].
Qed.

Lemma writes_op {A} `{!Collation} op (q : DB A) st :
  (∀ w, durable (exec op w).2 = durable (q w).2) → writes (Some (table_of op)) st (db_call q st).2.
Proof.
  intros Hq. destruct (db_call_rest q st) as [Hp Ha]. split; [done|]. split; [done|].
  unfold sv_tables, db_call. pose proof (Hq (sv_world st)) as E.
  destruct (q (sv_world st)) as [res w]. simpl in *. rewrite <- E.
  apply (exec_confined op _ (sv_world st)), same_but_refl.
Qed.

Lemma writes_row {A} (q : Tables → option A) st :
  writes None st (db_call (pool_exec (select_row q)) st).2.
Proof. destruct (db_call_rest (pool_exec (select_row q)) st), (db_call_row q st). by split_and!. Qed.

Lemma writes_select {A} (q : Tables → A) st : writes None st (db_call (pool_exec (select q)) st).2.
Proof. destruct (db_call_rest (pool_exec (select q)) st), (db_call_select q st). by split_and!. Qed.

(** A fleet of two machines, the first of which holds the token "t0". *)
Definition enrolled : Worker := worker_with_token (Some (HashWorkerToken "t0")) None None Sample.mac1.
Definition fleet : Tables :=
  set_workers <[wk_ID Sample.mac1 := enrolled]> Sample.machines.

Lemma fleet_credential j w :
  workers fleet !! j = Some w → holds_credential "t0" w → w = enrolled.
Proof.
  unfold fleet, Sample.machines. simpl. intros Hw [Hh _].
  rewrite !lookup_insert_Some, lookup_empty in Hw.
  destruct Hw as [[_ <-]|[_ [[_ <-]|[_ [[_ <-]|[_ ?]]]]]]; done.
Qed.

Lemma worker_auth_exact_witness :
  let r := mkRequest "" (λ k, if String.eqb k "Authorization" then "Bearer t0" else "") (λ _, None)
             (λ _, "") (λ _, "") None None in
  let next : HandlerFunc := λ r st,
    (Reply 200 (match rq_worker r with Some w => JStr (aw_HardwareUUID w) | None => JNull end), st) in
  let st := mkServer (calm fleet) NewSessionManager None in
  presents r "t0" ∧ (requireWorkerAuth 5 next r st).1 = Reply 200 (JStr "HW-1").
Proof.
  intros r next st. assert (presents r "t0") as Hp by exact (presents_bearer r "t0" eq_refl).
  split; [exact Hp|].
  destruct (proj2 (worker_auth_exact 5 next r st "t0" Hp) (wk_ID Sample.mac1) enrolled)
    as (st1 & E & _).
  - reflexivity.
  - apply lookup_insert_eq.
  - split; reflexivity.
  - exact fleet_credential.
  - rewrite E. reflexivity.
Defined.
