(* ===== verification/WorkerApi.v ===== *)
(** * The worker API ([workers.go])

    Registration, heartbeat, VM state reports, hostname assignment and the list
    of workers.  A handler that decodes a JSON body takes the result of
    [decodeJSONBody] as an argument ([None]: the decoder failed), and one that
    reads clocks, random bytes or database time takes them too.  [None] as the
    result of closing proxy sessions would be a panic; it does not occur
    ([CloseAll_spec]). *)

From stdpp Require Import gmap strings list.
From Stdlib Require Import ZArith Lia Ascii.
From S2P Require Import Prelude GoStrings Encoding Model Database Schema Scheduler.
From S2P Require Import Workstations Workers Catalog Lifecycle System ProxySession Http Server.

Local Open Scope string_scope.

Record WorkerRegisterRequest := mkRegister {
  rr_Hostname : string;
  rr_HardwareUUID : string;
  rr_CPUCores : Z;
  rr_MemoryBytes : Z;
  rr_TartVersion : string;
  rr_WorkerVersion : string;
  rr_WorkerToken : string
}.

(** [true]: a new token is to be issued; an error [ErrNoRows] means the token was
    not accepted. *)
Definition shouldIssueWorkerToken (cfg : HandlerConfig) (hardwareUUID presentedToken : string)
    (st : Server) : (Error + bool) * Server :=
  let enrolled := tokensMatch (hc_EnrollmentToken cfg) presentedToken in
  match db_call (GetWorkerByHardwareUUID hardwareUUID) st with
  | (inl err, st) =>
      if negb (IsNotFound err) then (inl err, st)
      else if enrolled then (inr true, st) else (inl ErrNoRows, st)
  | (inr existingWorker, st) =>
      let own :=
        match wk_AuthTokenHash existingWorker with
        | Some hash => negb (String.eqb hash "")
                       && bool_decide (wk_AuthTokenRevokedAt existingWorker = None)
                       && tokensMatch hash (HashWorkerToken presentedToken)
        | None => false
        end in
      if own then (inr false, st)
      else if enrolled then (inr true, st) else (inl ErrNoRows, st)
  end.

Section Handlers.
Context `{!RangeOrder} `{!Collation}.

(** [h.proxy.CloseByWorker]. *)
Definition close_worker_sessions (workerID : string) (st : Server) : option Server :=
  '(_, sm) ← CloseByWorker (sv_proxy st) workerID; Some (set_proxy sm st).

Definition registration_of (cfg : HandlerConfig) (dbnow : Z) (req : WorkerRegisterRequest) : Worker :=
  mkWorker (GenerateWorkerID (rr_HardwareUUID req)) (rr_Hostname req) (rr_HardwareUUID req)
    (rr_CPUCores req) (rr_MemoryBytes req) (rr_TartVersion req) (rr_WorkerVersion req)
    (hc_PoolSize cfg) (hc_BaseImage cfg) WorkerStatusActive dbnow None None None None.

Definition register_reply (cfg : HandlerConfig) (workerID : string) (token : option string) : Response :=
  writeJSON StatusOK (JObj
    ([("worker_id", JStr workerID); ("pool_size", JNum (hc_PoolSize cfg));
      ("base_image", JStr (hc_BaseImage cfg))]
     ++ match token with Some t => [("worker_token", JStr t)] | None => [] end)%list).

Definition handleWorkerRegister (cfg : HandlerConfig) (dbnow : Z) (random : option (list Z))
    (body : option WorkerRegisterRequest) : HandlerFunc := λ r st,
  match body with
  | None => (writeError StatusBadRequest "invalid json", st)
  | Some req =>
      if String.eqb (rr_Hostname req) "" then (writeError StatusBadRequest "hostname is required", st)
      else if String.eqb (rr_HardwareUUID req) ""
      then (writeError StatusBadRequest "hardware_uuid is required", st)
      else if String.eqb (rr_WorkerToken req) ""
      then (writeError StatusUnauthorized "invalid token", st)
      else
        let workerID := GenerateWorkerID (rr_HardwareUUID req) in
        match shouldIssueWorkerToken cfg (rr_HardwareUUID req) (rr_WorkerToken req) st with
        | (inl err, st) =>
            if IsNotFound err then (writeError StatusUnauthorized "invalid token", st)
            else (writeError StatusInternalServerError "registration failed", st)
        | (inr issue, st) =>
            match db_call (UpsertWorker dbnow (registration_of cfg dbnow req)) st with
            | (inl _, st) => (writeError StatusInternalServerError "registration failed", st)
            | (inr _, st) =>
                match close_worker_sessions workerID st with
                | None => (Panic, st)
                | Some st =>
                    if issue then
                      match db_call (IssueWorkerToken dbnow random workerID) st with
                      | (inl _, st) => (writeError StatusInternalServerError "registration failed", st)
                      | (inr issuedToken, st) => (register_reply cfg workerID (Some issuedToken), st)
                      end
                    else (register_reply cfg workerID None, st)
                end
            end
        end
  end.

(** The reports of a heartbeat, one transaction each; failures are logged. *)
Fixpoint apply_reports (dbnow : Z) (workerID : string) (reports : list WorkstationStatusReport)
    (st : Server) : Server :=
  match reports with
  | [] => st
  | report :: reports =>
      let (_, st) := db_call (UpdateWorkstationStatus dbnow workerID report) st in
      apply_reports dbnow workerID reports st
  end.

Definition desired_json (d : DesiredWorkstation) : Json :=
  JObj [("id", JStr (dw_ID d)); ("vm_name", JStr (dw_VMName d)); ("slot", JNum (dw_Slot d));
        ("desired_power_state", JStr (desired_text (dw_DesiredPowerState d)))].

Definition handleWorkerHeartbeat (dbnow : Z) (body : option (list WorkstationStatusReport)) :
    HandlerFunc := λ r st,
  match requireWorkerPathMatch r with
  | inl resp => (resp, st)
  | inr worker =>
      let workerID := aw_ID worker in
      let (_, st) := db_call (UpdateHeartbeat dbnow workerID) st in
      match body with
      | None => (writeError StatusBadRequest "invalid json", st)
      | Some statuses =>
          let st := apply_reports dbnow workerID statuses st in
          match db_call (ListDesiredWorkstationsByWorker workerID) st with
          | (inl _, st) =>
              (writeError StatusInternalServerError "failed to list desired workstations", st)
          | (inr desired, st) =>
              (writeJSON StatusOK (JObj [("status", JStr "ok");
                 ("desired_workstations", JArr (desired_json <$> desired))]), st)
          end
      end
  end.

Record VMStateRequest := mkVMState {
  vr_WorkerID : string; vr_State : string; vr_IPAddress : string; vr_ErrorMessage : string
}.

Definition handleVMState (dbnow : Z) (body : option VMStateRequest) : HandlerFunc := λ r st,
  match requireCurrentWorker r with
  | inl resp => (resp, st)
  | inr worker =>
      let vmID := rq_PathValue r "id" in
      match body with
      | None => (writeError StatusBadRequest "invalid json", st)
      | Some body =>
          if negb (String.eqb (vr_WorkerID body) "") && negb (String.eqb (vr_WorkerID body) (aw_ID worker))
          then (writeError StatusForbidden "worker_id mismatch", st)
          else
            let (found, st) := db_call (GetWorkstationByID vmID) st in
            let report := mkReport vmID (vr_State body) (vr_IPAddress body) (vr_ErrorMessage body) in
            let update st :=
              match db_call (UpdateWorkstationStatus dbnow (aw_ID worker) report) st with
              | (inl _, st) => (writeError StatusInternalServerError "failed", st)
              | (inr _, st) => (writeJSON StatusOK (JObj [("status", JStr "ok")]), st)
              end in
            match found with
            | inl err =>
                if negb (IsNotFound err) then (writeError StatusInternalServerError "failed", st)
                else update st
            | inr workstation =>
                if negb (String.eqb (ws_WorkerID workstation) (aw_ID worker))
                then (writeError StatusForbidden "workstation does not belong to worker", st)
                else update st
            end
      end
  end.

Definition handleAssignHostname (dbnow : Z) (body : option string) : HandlerFunc := λ r st,
  match body with
  | None => (writeError StatusBadRequest "invalid json", st)
  | Some hardwareUUID =>
      if String.eqb hardwareUUID "" then (writeError StatusBadRequest "hardware_uuid is required", st)
      else
        match db_call (AssignHostname dbnow hardwareUUID) st with
        | (inl _, st) => (writeError StatusInternalServerError "failed to assign hostname", st)
        | (inr hostname, st) => (writeJSON StatusOK (JObj [("hostname", JStr hostname)]), st)
        end
  end.

(** ** The list of workers *)

(** [vmsByWorker[id] = append(vmsByWorker[id], vm)]. *)
Definition group_by_worker (l : list Workstation) : gmap string (list Workstation) :=
  fold_left (λ m s, <[ws_WorkerID s := (default [] (m !! ws_WorkerID s) ++ [s])%list]> m) l ∅.

(** Each worker with the workstations shown for it. *)
Definition workers_view (workers : list Worker) (allWorkstations : list Workstation)
    (member : option Member) : list (Worker * list Workstation) :=
  let shown :=
    match member with
    | Some m => filter (λ s, ws_MemberID s = mb_ID m) allWorkstations
    | None => allWorkstations
    end in
  let vmsByWorker := group_by_worker shown in
  (λ w, (w, default [] (vmsByWorker !! wk_ID w))) <$> workers.

Definition worker_status_text (s : WorkerStatus) : string :=
  match s with
  | WorkerStatusActive => "active"
  | WorkerStatusDraining => "draining"
  | WorkerStatusOffline => "offline"
  end.

Definition browser_vm_json (s : Workstation) : Json :=
  JObj ([("id", JStr (ws_ID s)); ("worker_id", JStr (ws_WorkerID s));
         ("state", JStr (power_state_text (ws_PowerState s)))]
        ++ (if String.eqb (ws_IPAddress s) "" then [] else [("ip_address", JStr (ws_IPAddress s))])
        ++ [("state_since", JTime (ws_UpdatedAt s)); ("created_at", JTime (ws_CreatedAt s))])%list.

(** The token columns are not selected and not marshalled ([json:"-"]). *)
Definition worker_json (w : Worker) (vms : list Workstation) : Json :=
  JObj ([("id", JStr (wk_ID w)); ("hostname", JStr (wk_Hostname w));
         ("hardware_uuid", JStr (wk_HardwareUUID w)); ("cpu_cores", JNum (wk_CPUCores w));
         ("memory_bytes", JNum (wk_MemoryBytes w)); ("tart_version", JStr (wk_TartVersion w));
         ("worker_version", JStr (wk_WorkerVersion w)); ("pool_size", JNum (wk_PoolSize w));
         ("base_image", JStr (wk_BaseImage w)); ("status", JStr (worker_status_text (wk_Status w)));
         ("registered_at", JTime (wk_RegisteredAt w))]
        ++ match wk_LastHeartbeat w with Some t => [("last_heartbeat", JTime t)] | None => [] end
        ++ [("vms", JArr (browser_vm_json <$> vms))])%list.

Definition handleListWorkers : HandlerFunc := λ r st,
  match db_call ListWorkers st with
  | (inl _, st) => (writeError StatusInternalServerError "failed to list workers", st)
  | (inr workers, st) =>
      let (res, st) := db_call ListAllWorkstations st in
      let allWorkstations := match res with inr l => l | inl _ => [] end in
      (writeJSON StatusOK (JArr ((λ p, worker_json p.1 p.2) <$>
         workers_view workers allWorkstations (currentMember r))), st)
  end.
End Handlers.

(** ** Registration *)

(** A registration is authorised by the enrolment token, or by the machine's own
    unrevoked token. *)
Definition authorised (cfg : HandlerConfig) (req : WorkerRegisterRequest) (t : Tables) : Prop :=
  (hc_EnrollmentToken cfg ≠ "" ∧ rr_WorkerToken req = hc_EnrollmentToken cfg) ∨
  (∃ i w, workers t !! i = Some w ∧ wk_HardwareUUID w = rr_HardwareUUID req ∧
          holds_credential (rr_WorkerToken req) w).

Lemma shouldIssue_spec cfg hw token st :
  let run := shouldIssueWorkerToken cfg hw token st in
  sv_tables run.2 = sv_tables st ∧ sv_proxy run.2 = sv_proxy st ∧
  (∀ b, run.1 = inr b →
     (hc_EnrollmentToken cfg ≠ "" ∧ token = hc_EnrollmentToken cfg) ∨
     (∃ i w, workers (sv_tables st) !! i = Some w ∧ wk_HardwareUUID w = hw ∧
             holds_credential token w)).
Proof.
  cbv zeta. unfold shouldIssueWorkerToken, GetWorkerByHardwareUUID.
  destruct (db_call_row (by_hardware_uuid hw) st) as [Ht Hq].
  destruct (db_call_rest (pool_exec (select_row (by_hardware_uuid hw))) st) as [Hp _].
  destruct (db_call _ st) as [[e|w] st1]; simpl in *.
  - destruct (IsNotFound e); simpl; [|done].
    destruct (tokensMatch _ token) eqn:Em; simpl; [|done].
    do 2 (split; [done|]). intros b _. apply tokensMatch_true in Em. naive_solver.
  - destruct (match wk_AuthTokenHash w with Some _ => _ | None => false end) eqn:Eown; simpl.
    + do 2 (split; [done|]). intros b _. right.
      unfold by_hardware_uuid in Hq. apply find_row_Some in Hq as [Hhw [i Hi]].
      exists i, w. split; [done|]. split; [by to_prop|]. unfold holds_credential.
      destruct (wk_AuthTokenHash w) as [hash|]; [|done]. to_prop.
      match goal with H : tokensMatch _ _ = true |- _ => apply tokensMatch_true in H as [_ ->] end. done.
    + destruct (tokensMatch _ token) eqn:Em; simpl; [|done].
      do 2 (split; [done|]). intros b _. apply tokensMatch_true in Em. naive_solver.
Qed.

Section Registration.
Context `{!RangeOrder} `{!Collation}.

(** Registration needs a credential: whatever faults occur, a registration that
    presents neither the configured enrolment token nor the registering
    machine's own unrevoked token is answered with an error and changes neither
    the database nor the proxy sessions. *)
Lemma register_authorised cfg dbnow random req r st :
  let run := handleWorkerRegister cfg dbnow random (Some req) r st in
  authorised cfg req (sv_tables st) ∨
  (∃ status msg, run.1 = writeError status msg ∧ (400 ≤ status)%Z) ∧
  sv_tables run.2 = sv_tables st ∧ sv_proxy run.2 = sv_proxy st.
Proof.
  cbv zeta. unfold handleWorkerRegister.
  do 3 (destruct (String.eqb _ ""); [right; split; [by eexists _, _|done]|]).
  destruct (shouldIssue_spec cfg (rr_HardwareUUID req) (rr_WorkerToken req) st) as (Ht & Hp & Hok).
  destruct (shouldIssueWorkerToken _ _ _ st) as [[e|b] st1]; simpl in *.
  - right. destruct (IsNotFound e); (split; [by eexists _, _|done]).
  - left. exact (Hok b eq_refl).
Qed.

Lemma HashWorkerToken_nonempty token : HashWorkerToken token ≠ "".
Proof.
  unfold HashWorkerToken. destruct (Sum256_spec token) as [Hl _]. by destruct (Sum256 token).
Qed.

(** An authorised registration passes; no token is issued only if the one
    presented is the machine's own. *)
Lemma shouldIssue_accepts cfg req t wk sm v :
  wf_tables t → authorised cfg req t →
  let st := mkServer (quiet t wk) sm v in
  ∃ b, shouldIssueWorkerToken cfg (rr_HardwareUUID req) (rr_WorkerToken req) st = (inr b, st) ∧
    (b = false → ∃ w, workers t !! GenerateWorkerID (rr_HardwareUUID req) = Some w ∧
                      holds_credential (rr_WorkerToken req) w).
Proof.
  intros Hwf Hauth st.
  assert (db_call (GetWorkerByHardwareUUID (rr_HardwareUUID req)) st =
    (match by_hardware_uuid (rr_HardwareUUID req) t with Some w => inr w | None => inl ErrNoRows end, st))
    as Hget.
  { unfold db_call, GetWorkerByHardwareUUID, st. simpl sv_world. run_db.
    by destruct (by_hardware_uuid _ t). }
  unfold shouldIssueWorkerToken. rewrite Hget. clear Hget.
  assert (∀ w, holds_credential (rr_WorkerToken req) w ↔
    match wk_AuthTokenHash w with
    | Some hash => negb (String.eqb hash "") && bool_decide (wk_AuthTokenRevokedAt w = None)
                   && tokensMatch hash (HashWorkerToken (rr_WorkerToken req))
    | None => false
    end = true) as Hown.
  { intros w. unfold holds_credential. fold (HashWorkerToken (rr_WorkerToken req)).
    destruct (wk_AuthTokenHash w) as [hash|]; [|naive_solver].
    rewrite !andb_true_iff, negb_true_iff, String.eqb_neq, bool_decide_eq_true, tokensMatch_true.
    pose proof (HashWorkerToken_nonempty (rr_WorkerToken req)). naive_solver. }
  destruct (by_hardware_uuid (rr_HardwareUUID req) t) as [w|] eqn:E.
  - apply by_hardware_uuid_Some in E as [Hw Hhw]; [|done].
    destruct (match wk_AuthTokenHash w with Some _ => _ | None => false end) eqn:Eo.
    { exists false. split; [done|]. intros _. exists w. by rewrite Hown. }
    exists true. split; [|done]. destruct Hauth as [Hen|(i & w' & Hi & Hu & Hc)].
    + rewrite (proj2 (tokensMatch_true _ _)); [done|naive_solver].
    + assert (w' = w) as ->; [|by apply Hown in Hc; congruence].
      assert (i = GenerateWorkerID (rr_HardwareUUID req)) as -> by (rewrite <- Hu; by apply (wf_worker_id _ Hwf)).
      congruence.
  - exists true. split; [|done]. destruct Hauth as [Hen|(i & w' & Hi & Hu & Hc)].
    + simpl. rewrite (proj2 (tokensMatch_true _ _)); [done|naive_solver].
    + exfalso. assert (i = GenerateWorkerID (rr_HardwareUUID req)) as ->
        by (rewrite <- Hu; by apply (wf_worker_id _ Hwf)).
      by rewrite (proj2 (by_hardware_uuid_Some _ _ _ Hwf) (conj Hi Hu)) in E.
Qed.

(** The row of a machine that has registered. *)
Definition registered_as (req : WorkerRegisterRequest) (w : Worker) : Prop :=
  wk_ID w = GenerateWorkerID (rr_HardwareUUID req) ∧ wk_Hostname w = rr_Hostname req ∧
  wk_CPUCores w = rr_CPUCores req ∧ wk_MemoryBytes w = rr_MemoryBytes req ∧
  wk_TartVersion w = rr_TartVersion req ∧ wk_WorkerVersion w = rr_WorkerVersion req ∧
  wk_Status w = WorkerStatusActive.

Lemma UpsertWorker_accepts cfg dbnow req t wk :
  wf_tables t → in_int4 (rr_CPUCores req) = true → in_int4 (hc_PoolSize cfg) = true →
  ∃ t1 new, UpsertWorker dbnow (registration_of cfg dbnow req) (quiet t wk) = (inr tt, quiet t1 wk) ∧
    workers t1 !! GenerateWorkerID (rr_HardwareUUID req) = Some new ∧ registered_as req new ∧
    (∀ old token, workers t !! GenerateWorkerID (rr_HardwareUUID req) = Some old →
       holds_credential token old → holds_credential token new) ∧
    (∀ i, i ≠ GenerateWorkerID (rr_HardwareUUID req) → workers t1 !! i = workers t !! i).
Proof.
  intros Hwf Hc Hp. unfold UpsertWorker. run_db. unfold upsert_worker_row. simpl. rewrite Hc, Hp. simpl.
  destruct (workers t !! GenerateWorkerID (rr_HardwareUUID req)) as [old|] eqn:E.
  - eexists _, _. split; [done|]. simpl. rewrite lookup_insert_eq. split; [done|].
    split; [repeat split; exact (wf_worker_key _ Hwf _ _ E)|]. split; [naive_solver|].
    intros i Hi. by rewrite lookup_insert_ne.
  - rewrite bool_decide_false.
    2: { intros [w [Hu [i Hi]]%find_row_Some]. to_prop.
         rewrite (wf_worker_id _ Hwf _ _ Hi), Hu in Hi. congruence. }
    eexists _, _. split; [done|]. simpl. rewrite lookup_insert_eq. split; [done|].
    split; [done|]. split; [done|]. intros i Hi. by rewrite lookup_insert_ne.
Qed.

(** C28. An authorised registration succeeds while the database answers: a request
    that names its host and machine, presents an accepted credential and gives a
    processor count the column can hold (as the configured pool size must) is
    answered with 200; its row is stored
    as registered and active, no other worker's row changes, every proxy session
    of the worker is closed, and the worker ends up with a working credential:
    the token in the reply or, when there is none, the one it presented. *)
Theorem register_accepts cfg dbnow bytes req r st t :
  wf_tables t → sv_world st = calm t → wf_manager (sv_proxy st) →
  rr_Hostname req ≠ "" → rr_HardwareUUID req ≠ "" → rr_WorkerToken req ≠ "" →
  in_int4 (rr_CPUCores req) = true → in_int4 (hc_PoolSize cfg) = true →
  authorised cfg req t →
  let id := GenerateWorkerID (rr_HardwareUUID req) in
  ∃ token new st',
    handleWorkerRegister cfg dbnow (Some bytes) (Some req) r st =
      (Reply 200 (JObj ([("worker_id", JStr id); ("pool_size", JNum (hc_PoolSize cfg));
         ("base_image", JStr (hc_BaseImage cfg))]
         ++ match token with Some tk => [("worker_token", JStr tk)] | None => [] end)%list), st') ∧
    workers (sv_tables st') !! id = Some new ∧ registered_as req new ∧
    holds_credential (default (rr_WorkerToken req) token) new ∧
    (∀ i, i ≠ id → workers (sv_tables st') !! i = workers t !! i) ∧
    (∀ k p s, sm_sessions (sv_proxy st) !! k = Some p → sm_heap (sv_proxy st) !! p = Some s →
       ps_WorkerID s = id → sm_sessions (sv_proxy st') !! k = None ∧ torn_down (sv_proxy st') p s).
Proof.
  intros Hwf Hst Hsm Hh Hu Ht Hc Hp Hauth. cbv zeta.
  destruct st as [w sm v]. simpl in Hst, Hsm. subst w. unfold handleWorkerRegister.
  rewrite (proj2 (String.eqb_neq _ _) Hh), (proj2 (String.eqb_neq _ _) Hu), (proj2 (String.eqb_neq _ _) Ht).
  destruct (shouldIssue_accepts cfg req t t sm v Hwf Hauth) as (b & Hissue & Hown).
  rewrite calm_quiet, Hissue.
  destruct (UpsertWorker_accepts cfg dbnow req t t Hwf Hc Hp) as (t1 & new & Hup & Hnew & Hreg & Hkeep & Hoth).
  unfold db_call at 1. simpl sv_world. rewrite Hup. unfold set_world. simpl sv_proxy. simpl sv_access.
  unfold close_worker_sessions, CloseByWorker. simpl sv_proxy.
  destruct (close_matching_spec (λ s, bool_decide (ps_WorkerID s = GenerateWorkerID (rr_HardwareUUID req)))
    sm Hsm) as (ids & sm' & -> & _ & _ & _ & Hall). simpl.
  assert (∀ k p s, sm_sessions sm !! k = Some p → sm_heap sm !! p = Some s →
    ps_WorkerID s = GenerateWorkerID (rr_HardwareUUID req) →
    sm_sessions sm' !! k = None ∧ torn_down sm' p s) as Hclosed.
  { intros k p s Hk Hs Hw. specialize (Hall k p s Hk Hs). by rewrite bool_decide_true in Hall. }
  destruct b.
  - eexists (Some _), _, _. split; [done|]. simpl. rewrite lookup_alter_eq, Hnew. split; [done|].
    split; [done|]. split; [done|]. split; [|done].
    intros i Hi. rewrite lookup_alter_ne by done. by apply Hoth.
  - destruct (Hown eq_refl) as (old & Hold & Hcred).
    eexists None, _, _. split; [done|]. split; [done|]. split; [done|]. split; [by eapply Hkeep|]. done.
Qed.

(** What a registration leaves of the machine's row. *)
Lemma register_keeps (I : Tables → Prop) cfg dbnow random body r st :
  (∀ req, body = Some req → keeps I (UpsertWorker dbnow (registration_of cfg dbnow req))) →
  (∀ req, body = Some req →
     keeps I (IssueWorkerToken dbnow random (GenerateWorkerID (rr_HardwareUUID req)))) →
  I (sv_tables st) → I (sv_tables (handleWorkerRegister cfg dbnow random body r st).2).
Proof.
  intros Hup Hissue HI. unfold handleWorkerRegister. destruct body as [req|]; [|done].
  do 3 (destruct (String.eqb _ ""); [done|]).
  destruct (shouldIssue_spec cfg (rr_HardwareUUID req) (rr_WorkerToken req) st) as (Ht & _ & _).
  destruct (shouldIssueWorkerToken _ _ _ st) as [[e|b] st1]; simpl in *.
  { destruct (IsNotFound e); simpl; by rewrite Ht. }
  rewrite <- Ht in HI. pose proof (db_call_keeps I _ st1 (Hup req eq_refl) HI) as HI2.
  destruct (db_call _ st1) as [[e|u] st2]; simpl in *; [done|].
  unfold close_worker_sessions. destruct (CloseByWorker _ _) as [[n sm]|]; simpl; [|done].
  destruct b; [|done].
  pose proof (db_call_keeps I (IssueWorkerToken dbnow random (GenerateWorkerID (rr_HardwareUUID req)))
    (set_proxy sm st2) (Hissue req eq_refl) HI2) as HI3.
  by destruct (db_call _ (set_proxy sm st2)) as [[e|tk] st3].
Qed.

(** Registration does not apply the configured pool size to a known machine:
    a machine that already has a row (for instance from hostname assignment,
    which stores 2) keeps its stored pool size and base image, while every 200
    answer reports the configured ones. *)
Theorem register_pool_not_applied cfg dbnow random req r st old :
  let id := GenerateWorkerID (rr_HardwareUUID req) in
  let run := handleWorkerRegister cfg dbnow random (Some req) r st in
  workers (sv_tables st) !! id = Some old →
  (∃ new, workers (sv_tables run.2) !! id = Some new ∧
     wk_PoolSize new = wk_PoolSize old ∧ wk_BaseImage new = wk_BaseImage old) ∧
  (∀ b, run.1 = Reply StatusOK b →
     ∃ token, Reply StatusOK b = register_reply cfg id token).
Proof.
  cbv zeta. intros Hold. split.
  - apply (register_keeps (λ t, ∃ new, workers t !! GenerateWorkerID (rr_HardwareUUID req) = Some new ∧
      wk_PoolSize new = wk_PoolSize old ∧ wk_BaseImage new = wk_BaseImage old)); [| |by eauto].
    + intros req' [= <-]. apply keeps_pool. intros t u t' (new & Hn & Hps & Hbi).
      unfold upsert_worker_row, registration_of. simpl. rewrite Hn.
      destruct (negb _); [done|]. intros [= _ <-]. simpl. rewrite lookup_insert_eq. eauto.
    + intros req' [= <-]. unfold IssueWorkerToken. apply keeps_bind; [auto with minis|]. intros tk.
      apply keeps_bind; [|auto with minis]. apply keeps_pool. intros t u t' (new & Hn & Hps & Hbi) E.
      sql_inv. simpl. rewrite lookup_alter_eq, Hn. simpl. eauto.
  - intros b. unfold handleWorkerRegister.
    do 3 (destruct (String.eqb _ ""); [done|]).
    destruct (shouldIssueWorkerToken _ _ _ st) as [[e|issue] st1]; [by destruct (IsNotFound e)|].
    destruct (db_call _ st1) as [[e|u] st2]; [done|].
    destruct (close_worker_sessions _ st2) as [st3|]; [|done].
    destruct issue; [|by eauto]. destruct (db_call _ st3) as [[e|tk] st4]; [done|]. by eauto.
Qed.
End Registration.

(** ** Reports *)

(** What worker [w] may do to the workstations: nothing to those of other
    workers and nothing new; its own keep their placement and desired state, and
    disappear only if deletion was requested. *)
Definition worker_frame (w : string) (t t' : Tables) : Prop := ∀ i,
  match workstations t !! i with
  | None => workstations t' !! i = None
  | Some s =>
      workstations t' !! i = Some s ∨
      (ws_WorkerID s = w ∧
       match workstations t' !! i with
       | None => ws_DesiredPowerState s = WorkstationDesiredPowerStateDeleted
       | Some s' => same_placement s s' ∧ ws_DesiredPowerState s' = ws_DesiredPowerState s
       end)
  end.

Lemma worker_frame_refl w t : worker_frame w t t.
Proof. intros i. destruct (workstations t !! i); auto. Qed.

Lemma worker_frame_same w t t' : workstations t' = workstations t → worker_frame w t t'.
Proof. intros E i. rewrite E. destruct (workstations t !! i); auto. Qed.

Lemma worker_frame_trans w t1 t2 t3 :
  worker_frame w t1 t2 → worker_frame w t2 t3 → worker_frame w t1 t3.
Proof.
  intros H12 H23 i. specialize (H12 i). specialize (H23 i).
  destruct (workstations t1 !! i) as [s1|]; [|by rewrite H12 in H23].
  destruct H12 as [E|[Hw Hs2]]; [by rewrite E in H23|].
  destruct (workstations t2 !! i) as [s2|].
  - destruct Hs2 as [(P1 & P2 & P3 & P4 & P5) Hd]. right. split; [done|].
    destruct H23 as [->|[_ Hs3]]; [by repeat split|].
    destruct (workstations t3 !! i) as [s3|]; [|congruence].
    destruct Hs3 as [(Q1 & Q2 & Q3 & Q4 & Q5) Hd3]. repeat split; congruence.
  - right. split; [done|]. by rewrite H23.
Qed.

(** One report, from any world. *)
Lemma report_frame `{!Collation} dbnow w report st :
  wf_tables (sv_tables st) →
  worker_frame w (sv_tables st) (sv_tables (db_call (UpdateWorkstationStatus dbnow w report) st).2).
Proof.
  intros Hwf i. pose proof (exec_entitled (OpReport dbnow w report) (sv_world st) i Hwf) as He.
  unfold sv_tables, db_call in *. simpl in He.
  destruct (UpdateWorkstationStatus dbnow w report (sv_world st)) as [res w']. simpl in *.
  destruct He as [->|He]; [destruct (workstations _ !! i); auto|].
  inversion He as [|? | |? s s' ? Hs Hid Hp Hd|? s ? Hs Hid Hd Hrep]; subst; rewrite Hs; auto.
Qed.

Section Reports.
Context `{!RangeOrder} `{!Collation}.

Lemma apply_reports_frame dbnow w reports st :
  wf_tables (sv_tables st) →
  worker_frame w (sv_tables st) (sv_tables (apply_reports dbnow w reports st)) ∧
  writes (Some TWorkstations) st (apply_reports dbnow w reports st).
Proof.
  revert st. induction reports as [|report reports IH]; intros st Hwf; simpl.
  { split; [apply worker_frame_refl|apply writes_refl]. }
  pose proof (report_frame dbnow w report st Hwf) as Hf.
  pose proof (db_call_keeps wf_tables (UpdateWorkstationStatus dbnow w report) st
    (triple_keeps _ _ _ (UpdateStatus_triple dbnow w report)) Hwf) as Hwf1.
  pose proof (writes_op (OpReport dbnow w report) (UpdateWorkstationStatus dbnow w report) st
    (λ _, eq_refl)) as Hw1.
  destruct (db_call _ st) as [res st1]. simpl in *.
  destruct (IH st1 Hwf1) as [Hf1 Hw2]. split; [by eapply worker_frame_trans|by eapply writes_trans].
Qed.

(** A heartbeat acts within the worker's authority: whatever it reports and
    whatever fails, workstations of other workers are untouched, none appears,
    its own keep their member, slot, VM name and desired state and disappear
    only if their deletion was requested; of the workers' rows only its own
    changes, and nothing else does.  A request whose path does not name the
    authenticated worker changes nothing. *)
Lemma heartbeat_frame dbnow body r st :
  wf_tables (sv_tables st) →
  let st' := (handleWorkerHeartbeat dbnow body r st).2 in
  match rq_worker r with
  | Some w =>
      worker_frame (aw_ID w) (sv_tables st) (sv_tables st') ∧
      (∀ i, i ≠ aw_ID w → workers (sv_tables st') !! i = workers (sv_tables st) !! i) ∧
      members (sv_tables st') = members (sv_tables st) ∧ vms (sv_tables st') = vms (sv_tables st) ∧
      releases (sv_tables st') = releases (sv_tables st) ∧ sv_proxy st' = sv_proxy st ∧
      (rq_PathValue r "id" ≠ aw_ID w → st' = st)
  | None => st' = st
  end.
Proof.
  intros Hwf. cbv zeta. unfold handleWorkerHeartbeat, requireWorkerPathMatch, requireCurrentWorker, currentWorker.
  destruct (rq_worker r) as [w|]; [|done].
  destruct (String.eqb_spec (rq_PathValue r "id") (aw_ID w)) as [Epath|];
    [|by split_and!; try done; apply worker_frame_refl].
  pose proof (db_call_keeps wf_tables (UpdateHeartbeat dbnow (aw_ID w)) st
    (exec_keeps (OpHeartbeat dbnow (aw_ID w))) Hwf) as Hwf1.
  pose proof (writes_op (OpHeartbeat dbnow (aw_ID w)) (UpdateHeartbeat dbnow (aw_ID w)) st (λ _, eq_refl)) as H1.
  pose proof (db_call_keeps (λ t, ∀ i, i ≠ aw_ID w → workers t !! i = workers (sv_tables st) !! i)
    (UpdateHeartbeat dbnow (aw_ID w)) st) as H2.
  destruct (db_call (UpdateHeartbeat dbnow (aw_ID w)) st) as [res st1]. simpl in *.
  destruct H1 as (Hp1 & _ & _ & Hws & Hm & Hv & Hr).
  specialize (H2 ltac:(apply keeps_pool; intros t u t' Ht E; sql_inv; intros i Hi; simpl;
    rewrite lookup_alter_ne by done; by apply Ht) ltac:(done)).
  specialize (Hws ltac:(done)). specialize (Hm ltac:(done)). specialize (Hv ltac:(done)).
  specialize (Hr ltac:(done)).
  destruct body as [reports|]; simpl; [|by split; [apply worker_frame_same|auto 10]].
  destruct (apply_reports_frame dbnow (aw_ID w) reports st1 Hwf1) as [Hf (Hp2 & _ & Hw2 & _ & Hm2 & Hv2 & Hr2)].
  destruct (writes_select (desired_workstations (aw_ID w)) (apply_reports dbnow (aw_ID w) reports st1))
    as (Hp3 & _ & Ht).
  unfold ListDesiredWorkstationsByWorker.
  destruct (db_call _ (apply_reports _ _ _ _)) as [[e|l] st2]; simpl in *; rewrite Ht, Hp3, Hp2, Hp1;
    (split; [eapply worker_frame_trans; [by apply worker_frame_same|done]|]);
    (split; [intros i Hi; rewrite Hw2 by done; by apply H2|]);
    rewrite Hm2, Hv2, Hr2 by done; by split_and!; auto.
Qed.

(** A report of a machine's state acts within the same authority. *)
Lemma vm_state_frame dbnow body r st w :
  wf_tables (sv_tables st) → rq_worker r = Some w →
  let st' := (handleVMState dbnow body r st).2 in
  worker_frame (aw_ID w) (sv_tables st) (sv_tables st') ∧ writes (Some TWorkstations) st st'.
Proof.
  intros Hwf Hw. cbv zeta. unfold handleVMState, requireCurrentWorker, currentWorker. rewrite Hw.
  assert (worker_frame (aw_ID w) (sv_tables st) (sv_tables st) ∧ writes (Some TWorkstations) st st) as Hsame
    by (split; [apply worker_frame_refl|apply writes_refl]).
  destruct body as [req|]; [|done]. destruct (_ && _); [done|]. unfold GetWorkstationByID.
  pose proof (writes_row (λ t, workstations t !! rq_PathValue r "id") st) as H1.
  destruct (db_call _ st) as [found st1]. simpl in H1. pose proof H1 as (_ & _ & Ht1).
  set (report := mkReport _ _ _ _).
  pose proof (report_frame dbnow (aw_ID w) report st1) as Hf. rewrite Ht1 in Hf. specialize (Hf Hwf).
  pose proof (writes_trans _ _ _ _ (writes_weaken TWorkstations _ _ H1) (writes_op (OpReport dbnow (aw_ID w) report)
    (UpdateWorkstationStatus dbnow (aw_ID w) report) st1 (λ _, eq_refl))) as Hwr.
  assert (∀ resp : Response, worker_frame (aw_ID w) (sv_tables st) (sv_tables (resp, st1).2) ∧
    writes (Some TWorkstations) st (resp, st1).2) as Hread.
  { intros resp. simpl. split; [rewrite Ht1; apply worker_frame_refl|by apply writes_weaken]. }
  destruct found as [err|ws].
  - destruct (negb _); [done|]. by destruct (db_call _ st1) as [[e|u] st2].
  - destruct (negb _); [done|]. by destruct (db_call _ st1) as [[e|u] st2].
Qed.

(** The tables after one report on a quiet database. *)
Definition after_report (dbnow : Z) (w : string) (t : Tables) (report : WorkstationStatusReport) : Tables :=
  durable (UpdateWorkstationStatus dbnow w report (calm t)).2.

Lemma report_quiet dbnow w report t wk sm v :
  wf_tables t →
  ∃ res, db_call (UpdateWorkstationStatus dbnow w report) (mkServer (quiet t wk) sm v) =
    (res, mkServer (calm (after_report dbnow w t report)) sm v) ∧
    wf_tables (after_report dbnow w t report).
Proof.
  intros Hwf. unfold db_call, after_report.
  assert (UpdateWorkstationStatus dbnow w report (quiet t wk) =
          UpdateWorkstationStatus dbnow w report (calm t)) as E.
  { unfold UpdateWorkstationStatus. by rewrite calm_quiet, !run_bind, !run_begin. }
  pose proof (triple_keeps _ _ _ (UpdateStatus_triple dbnow w report) (calm t) Hwf) as Hwf'.
  pose proof (UpdateStatus_settles dbnow w report t Hwf) as Hrun. unfold settles in Hrun.
  simpl sv_world. rewrite E. destruct (UpdateWorkstationStatus dbnow w report (calm t)) as [res w'].
  exists res. split; [|done]. simpl.
  destruct (match workstations t !! rep_WorkstationID report with Some _ => _ | None => _ end)
    as [e|[a t']]; by simplify_eq.
Qed.

Lemma apply_reports_quiet dbnow w reports t wk sm v :
  wf_tables t →
  ∃ wk', apply_reports dbnow w reports (mkServer (quiet t wk) sm v) =
      mkServer (quiet (fold_left (after_report dbnow w) reports t) wk') sm v ∧
    wf_tables (fold_left (after_report dbnow w) reports t).
Proof.
  revert t wk. induction reports as [|report reports IH]; intros t wk Hwf; simpl; [by eauto|].
  destruct (report_quiet dbnow w report t wk sm v Hwf) as (res & -> & Hwf1). by apply IH.
Qed.

End Reports.

(** ** The list of workers *)

Lemma group_by_worker_lookup l w :
  default [] (group_by_worker l !! w) = filter (λ s, ws_WorkerID s = w) l.
Proof.
  unfold group_by_worker.
  assert (∀ m : gmap string (list Workstation), default [] (fold_left (λ m s, <[ws_WorkerID s := (default [] (m !! ws_WorkerID s) ++ [s])%list]> m)
    l m !! w) = (default [] (m !! w) ++ filter (λ s, ws_WorkerID s = w) l)%list) as H.
  { induction l as [|s l IH]; intros m; simpl; [by rewrite app_nil_r|]. rewrite IH. clear IH.
    destruct (decide (ws_WorkerID s = w)) as [<-|Hne].
    - rewrite lookup_insert_eq, filter_cons_True by done. simpl. by rewrite <- app_assoc.
    - rewrite lookup_insert_ne, filter_cons_False by done. done. }
  by rewrite H, lookup_empty.
Qed.

(** The list of workers shows a member only their own workstations: on a
    quiet database the answer has every worker, in the order of the query, each
    with exactly the workstations it hosts, restricted to the member's when a
    member asks. *)
Theorem list_workers_shows `{!Collation} r st t :
  sv_world st = calm t →
  ∃ ws all,
    ListWorkers (calm t) = (inr ws, calm t) ∧ ListAllWorkstations (calm t) = (inr all, calm t) ∧
    handleListWorkers r st =
      (writeJSON StatusOK (JArr ((λ w, worker_json w
         (match rq_member r with
          | Some m => filter (λ s, ws_WorkerID s = wk_ID w) (filter (λ s, ws_MemberID s = mb_ID m) all)
          | None => filter (λ s, ws_WorkerID s = wk_ID w) all
          end)) <$> ws)), st).
Proof.
  intros Hst. eexists _, _. split; [reflexivity|]. split; [reflexivity|].
  destruct st as [w sm v]. simpl in Hst. subst w.
  unfold handleListWorkers, db_call. simpl. unfold workers_view, currentMember.
  rewrite <- list_fmap_compose. unfold compose. simpl. f_equal. unfold writeJSON. do 2 f_equal. apply list_fmap_ext. intros i w _.
  rewrite group_by_worker_lookup. by destruct (rq_member r).
Qed.

(** ** Witnesses *)

Definition sample_config : HandlerConfig :=
  mkHandlerConfig "admin" "enrol" 5 "base-image" ":8080" false "" "" "" "" "" "" "".
Definition sample_server : Server := mkServer (calm Sample.tables) NewSessionManager None.
Definition sample_request : WorkerRegisterRequest := mkRegister "mac-1" "HW-1" 8 16 "2" "1" "enrol".
Definition as_worker (w : Worker) : Request :=
  mkRequest "" (λ _, "") (λ _, None) (λ _, "") (λ _, wk_ID w) None
    (Some (mkAuthWorker (wk_ID w) (wk_HardwareUUID w))).

Lemma register_accepts_witness :
  ∃ token new st',
    @handleWorkerRegister key_order sample_config 50 (Some [1%Z]) (Some sample_request)
      (query_only (λ _, "")) sample_server = (Reply 200 (JObj ([("worker_id", JStr (wk_ID Sample.mac1));
         ("pool_size", JNum 5); ("base_image", JStr "base-image")]
         ++ match token with Some tk => [("worker_token", JStr tk)] | None => [] end)%list), st') ∧
    workers (sv_tables st') !! wk_ID Sample.mac1 = Some new ∧
    holds_credential (default "enrol" token) new.
Proof.
  destruct (@register_accepts key_order sample_config 50 [1%Z] sample_request
    (query_only (λ _, "")) sample_server Sample.tables) as (token & new & st' & E & Hn & _ & Hc & _).
  - exact Sample.wf_sample.
  - reflexivity.
  - exact wf_new_manager.
  - discriminate.
  - discriminate.
  - discriminate.
  - vm_compute. reflexivity.
  - vm_compute. reflexivity.
  - left. split; [discriminate|reflexivity].
  - exists token, new, st'. split; [exact E|]. split; [exact Hn|exact Hc].
Defined.

Lemma register_pool_not_applied_witness :
  ∃ new, workers (sv_tables (@handleWorkerRegister key_order sample_config 50 (Some [1%Z])
    (Some sample_request) (query_only (λ _, "")) sample_server).2) !! wk_ID Sample.mac1 = Some new ∧
    wk_PoolSize new = 2%Z ∧ hc_PoolSize sample_config = 5%Z.
Proof.
  destruct (@register_pool_not_applied key_order sample_config 50 (Some [1%Z]) sample_request
    (query_only (λ _, "")) sample_server Sample.mac1) as [(new & Hn & Hp & _) _].
  - vm_compute. reflexivity.
  - exists new. split; [exact Hn|]. split; [exact Hp|reflexivity].
Defined.


Lemma list_workers_shows_witness :
  sv_world sample_server = calm Sample.tables ∧
  ∃ ws all, ListWorkers (H := C_collation) (calm Sample.tables) = (inr ws, calm Sample.tables) ∧
    ListAllWorkstations (H := C_collation) (calm Sample.tables) = (inr all, calm Sample.tables) ∧
    length ws = 2%nat ∧ length all = 1%nat.
Proof.
  split; [reflexivity|].
  destruct (@list_workers_shows C_collation (as_worker Sample.mac1) sample_server Sample.tables eq_refl)
    as (ws & all & H1 & H2 & _).
  exists ws, all. split; [exact H1|]. split; [exact H2|].
  assert (length (match (ListWorkers (H := C_collation) (calm Sample.tables)).1 with
                  | inr l => l | inl _ => [] end) = 2%nat) as L1 by (vm_compute; reflexivity).
  assert (length (match (ListAllWorkstations (H := C_collation) (calm Sample.tables)).1 with
                  | inr l => l | inl _ => [] end) = 1%nat) as L2 by (vm_compute; reflexivity).
  rewrite H1 in L1. rewrite H2 in L2. split; [exact L1|exact L2].
Defined.
