(* ===== verification/WorkstationApi.v ===== *)
(** * The member API ([workstation.go] and [handleMe])

    A member lists, opens, claims and releases workstations.  The decoded body
    is an argument ([None]: the decoder failed; a server request always has a
    body).  Where the code dereferences a nil pointer the response is
    [Panic]. *)

From stdpp Require Import gmap strings list sorting.
From Stdlib Require Import ZArith Lia Ascii.
From S2P Require Import Prelude GoStrings Encoding Model Database Schema Scheduler.
From S2P Require Import Workstations Allocator Workers Catalog Lifecycle System.
From S2P Require Import ProxySession Http Server.

Local Open Scope string_scope.

Definition workstation_json (s : Workstation) : Json :=
  let omitempty k v := if String.eqb v "" then [] else [(k, JStr v)] in
  JObj ([("id", JStr (ws_ID s)); ("member_id", JStr (ws_MemberID s)); ("worker_id", JStr (ws_WorkerID s));
         ("slot", JNum (ws_Slot s)); ("vm_name", JStr (ws_VMName s));
         ("power_state", JStr (power_state_text (ws_PowerState s)));
         ("desired_power_state", JStr (desired_text (ws_DesiredPowerState s)))]
        ++ omitempty "ip_address" (ws_IPAddress s) ++ omitempty "last_error" (ws_LastError s)
        ++ [("created_at", JTime (ws_CreatedAt s)); ("updated_at", JTime (ws_UpdatedAt s))])%list.

Definition member_json (m : Member) : Json :=
  JObj [("id", JStr (mb_ID m)); ("access_sub", JStr (mb_AccessSub m)); ("email", JStr (mb_Email m));
        ("display_name", JStr (mb_DisplayName m)); ("role", JStr (mb_Role m));
        ("created_at", JTime (mb_CreatedAt m)); ("updated_at", JTime (mb_UpdatedAt m));
        ("last_seen_at", JTime (mb_LastSeenAt m))].

Definition handleMe : HandlerFunc := λ r st,
  match currentMember r with
  | None => (writeError StatusUnauthorized "unauthorized", st)
  | Some member => (writeJSON StatusOK (member_json member), st)
  end.

(** [err.Error()] of the errors a claim reports. *)
Definition error_text (err : Error) : string :=
  match err with
  | ErrWorkstationBeingDeleted => "workstation is being deleted"
  | ErrNoActiveWorkers => "no active workers available"
  | ErrNoSlotsAvailable => "no workstation slots available"
  | ErrTargetWorkerFull => "no workstation slots available on target worker"
  | ErrTargetWorkerUnavailable => "target worker is not available"
  | ErrText msg => msg
  | _ => ""
  end.

Definition isClaimConflict (err : Error) : bool :=
  match err with
  | ErrWorkstationBeingDeleted | ErrNoActiveWorkers | ErrNoSlotsAvailable
  | ErrTargetWorkerFull | ErrTargetWorkerUnavailable => true
  | _ => false
  end.

Section Handlers.
Context `{!Collation}.

Definition handleListMyWorkstations : HandlerFunc := λ r st,
  match currentMember r with
  | None => (writeError StatusUnauthorized "unauthorized", st)
  | Some member =>
      match db_call (ListWorkstationsByMemberID (mb_ID member)) st with
      | (inl _, st) => (writeError StatusInternalServerError "failed to list workstations", st)
      | (inr l, st) => (writeJSON StatusOK (JArr (workstation_json <$> l)), st)
      end
  end.

Definition resolveMemberWorkstation (r : Request) (requestedWorkstationID : string) (st : Server) :
    (apiError + Workstation) * Server :=
  match currentMember r with
  | None => (inl (mkApiError StatusUnauthorized "unauthorized"), st)
  | Some member =>
      if negb (String.eqb requestedWorkstationID "") then
        match db_call (GetWorkstationByIDForMember (mb_ID member) requestedWorkstationID) st with
        | (inl err, st) =>
            if IsNotFound err then (inl (mkApiError StatusNotFound "workstation not found"), st)
            else (inl (mkApiError StatusInternalServerError "failed to load workstation"), st)
        | (inr workstation, st) => (inr workstation, st)
        end
      else
        match db_call (ListWorkstationsByMemberID (mb_ID member)) st with
        | (inl _, st) => (inl (mkApiError StatusInternalServerError "failed to load workstation"), st)
        | (inr [], st) => (inl (mkApiError StatusNotFound "workstation not found"), st)
        | (inr [workstation], st) => (inr workstation, st)
        | (inr _, st) =>
            (inl (mkApiError StatusBadRequest
               "workstation_id is required when multiple workstations exist"), st)
        end
  end.

(** On a failure other than "not found" the logging call reads the field of the
    pointer the failed call just set to nil. *)
Definition handleGetMyWorkstation (dbnow : Z) : HandlerFunc := λ r st,
  match currentMember r with
  | None => (writeError StatusUnauthorized "unauthorized", st)
  | Some member =>
      let requestedWorkstationID := TrimSpace (rq_Query r "workstation_id") in
      match resolveMemberWorkstation r requestedWorkstationID st with
      | (inl e, st) => (apiError_write e, st)
      | (inr workstation, st) =>
          match db_call (EnsureWorkstationRunningByIDForMember dbnow (mb_ID member) (ws_ID workstation)) st with
          | (inl err, st) =>
              if IsNotFound err then (writeError StatusNotFound "workstation not found", st)
              else (Panic, st)
          | (inr workstation, st) => (writeJSON StatusOK (workstation_json workstation), st)
          end
      end
  end.

Definition handleClaimMyWorkstation (gonow dbnow : Z) (uuid : string) (body : option string) :
    HandlerFunc := λ r st,
  match currentMember r with
  | None => (writeError StatusUnauthorized "unauthorized", st)
  | Some member =>
      match body with
      | None => (writeError StatusBadRequest "invalid json", st)
      | Some workerID =>
          match db_call (ClaimWorkstation gonow dbnow uuid (mb_ID member) (TrimSpace workerID)) st with
          | (inl err, st) =>
              if isClaimConflict err then (writeError StatusConflict (error_text err), st)
              else (writeError StatusInternalServerError "failed to claim workstation", st)
          | (inr (workstation, created), st) =>
              if (created : bool) then (writeJSON StatusCreated (workstation_json workstation), st)
              else (writeJSON StatusOK (workstation_json workstation), st)
          end
      end
  end.

Definition handleMyWorkstationDesiredState (dbnow : Z) (desired : WorkstationDesiredPowerState)
    (body : option string) : HandlerFunc := λ r st,
  match currentMember r with
  | None => (writeError StatusUnauthorized "unauthorized", st)
  | Some member =>
      match body with
      | None => (writeError StatusBadRequest "invalid json", st)
      | Some workstationID =>
          match resolveMemberWorkstation r (TrimSpace workstationID) st with
          | (inl e, st) => (apiError_write e, st)
          | (inr workstation, st) =>
              match db_call (UpdateWorkstationDesiredPowerStateByID dbnow (mb_ID member)
                      (ws_ID workstation) desired) st with
              | (inl err, st) =>
                  if IsNotFound err then (writeError StatusNotFound "workstation not found", st)
                  else if bool_decide (err = ErrWorkstationBeingDeleted)
                  then (writeError StatusConflict "workstation is being deleted", st)
                  else (Panic, st)
              | (inr workstation, st) => (writeJSON StatusOK (workstation_json workstation), st)
              end
          end
      end
  end.

Definition handleStartMyWorkstation (dbnow : Z) (body : option string) : HandlerFunc :=
  handleMyWorkstationDesiredState dbnow WorkstationDesiredPowerStateRunning body.
Definition handleStopMyWorkstation (dbnow : Z) (body : option string) : HandlerFunc :=
  handleMyWorkstationDesiredState dbnow WorkstationDesiredPowerStateStopped body.
Definition handleReleaseMyWorkstation (dbnow : Z) (body : option string) : HandlerFunc :=
  handleMyWorkstationDesiredState dbnow WorkstationDesiredPowerStateDeleted body.

(** ** Resolving the workstation a request is about *)

Lemma resolve_spec r id st m :
  wf_tables (sv_tables st) → rq_member r = Some m →
  let run := resolveMemberWorkstation r id st in
  sv_tables run.2 = sv_tables st ∧
  match run.1 with
  | inr s => workstations (sv_tables st) !! ws_ID s = Some s ∧ ws_MemberID s = mb_ID m ∧
      (id ≠ "" → ws_ID s = id)
  | inl e => True
  end.
Proof.
  intros Hwf Hm. cbv zeta. unfold resolveMemberWorkstation, currentMember. rewrite Hm.
  destruct (String.eqb_spec id "") as [->|Hid]; simpl.
  - destruct (db_call_select (member_workstations (mb_ID m)) st) as [Ht Hq].
    unfold ListWorkstationsByMemberID. destruct (db_call _ st) as [[e|l] st1]; simpl in *; [done|].
    destruct l as [|s [|]]; simpl; try done. split; [done|].
    assert (s ∈ member_workstations (mb_ID m) (sv_tables st)) as Hin by (rewrite <- Hq; by left).
    unfold member_workstations, ws_rows in Hin.
    rewrite merge_sort_Permutation, list_elem_of_filter, bool_decide_eq_true in Hin.
    destruct Hin as [Hmem [k Hk]%elem_of_rows]. by rewrite (wf_ws_key _ Hwf _ _ Hk).
  - destruct (db_call_row (by_id_for_member (mb_ID m) id) st) as [Ht Hq].
    unfold GetWorkstationByIDForMember. destruct (db_call _ st) as [[e|s] st1]; simpl in *.
    + by destruct (IsNotFound e).
    + split; [done|]. apply by_id_for_member_Some in Hq as [Hs Hmem].
      by rewrite (wf_ws_key _ Hwf _ _ Hs).
Qed.

(** Resolving only reads. *)
Lemma resolve_proxy r id st :
  let run := resolveMemberWorkstation r id st in
  sv_proxy run.2 = sv_proxy st ∧ sv_access run.2 = sv_access st.
Proof.
  cbv zeta. unfold resolveMemberWorkstation. destruct (currentMember r) as [m|]; [|done].
  destruct (negb _).
  - destruct (db_call_rest (GetWorkstationByIDForMember (mb_ID m) id) st) as [? ?].
    destruct (db_call _ st) as [[e|s] st1]; [by destruct (IsNotFound e)|done].
  - destruct (db_call_rest (ListWorkstationsByMemberID (mb_ID m)) st) as [? ?].
    by destruct (db_call _ st) as [[e|[|s [|]]] st1].
Qed.

(** ** Isolation of members *)

(** What member [m] may do to the workstations: those of other members are
    untouched, new ones are [m]'s, and none moves or disappears. *)
Definition member_frame (m : string) (t t' : Tables) : Prop := ∀ i,
  match workstations t !! i with
  | None => ∀ s', workstations t' !! i = Some s' → ws_MemberID s' = m
  | Some s =>
      workstations t' !! i = Some s ∨
      (ws_MemberID s = m ∧ ∃ s', workstations t' !! i = Some s' ∧ same_placement s s')
  end.

Lemma member_frame_same m t t' : workstations t' = workstations t → member_frame m t t'.
Proof. intros E i. rewrite E. destruct (workstations t !! i); [by left|done]. Qed.

(** A database call made for the member. *)
Lemma member_call_frame {A} op (q : DB A) m st :
  wf_tables (sv_tables st) →
  (∀ w, durable (exec op w).2 = durable (q w).2) →
  match op with
  | OpClaim _ _ _ m' _ | OpEnsure _ m' _ | OpSetDesired _ m' _ _ => m' = m
  | _ => False
  end →
  member_frame m (sv_tables st) (sv_tables (db_call q st).2).
Proof.
  intros Hwf Hq Hop i. pose proof (exec_entitled op (sv_world st) i Hwf) as He.
  rewrite Hq in He. unfold sv_tables, db_call in *. destruct (q (sv_world st)) as [res w']. simpl in *.
  destruct He as [->|He]; [by destruct (workstations _ !! i); [left|]|].
  destruct He as [? ? ? ? s' Hi Hf|? s s' Hi ? ? Hr|? s s' d Hi ? Hw|? ? ? ? Hi|? ? ? Hi];
    try done; rewrite Hi.
  - intros s1 [= <-]. destruct Hf as (_ & Hm & _). congruence.
  - right. split; [done|]. exists s'. split; [done|]. by destruct Hr.
  - right. split; [done|]. exists s'. split; [done|]. apply Hw.
Qed.

Lemma void_durable {A} (q : DB A) w : durable (void q w).2 = durable (q w).2.
Proof. unfold void, mbind, DB_bind. by destruct (q w) as [[]]. Qed.

(** Members are isolated from each other: whatever a member's requests to
    open, claim, start, stop or release a workstation contain, and whatever
    fails, no workstation of another member changes, every workstation created
    is theirs, and none is moved or removed. *)
Lemma member_isolation gonow dbnow uuid desired body r st m :
  wf_tables (sv_tables st) → rq_member r = Some m →
  member_frame (mb_ID m) (sv_tables st) (sv_tables (handleGetMyWorkstation dbnow r st).2) ∧
  member_frame (mb_ID m) (sv_tables st)
    (sv_tables (handleClaimMyWorkstation gonow dbnow uuid body r st).2) ∧
  member_frame (mb_ID m) (sv_tables st)
    (sv_tables (handleMyWorkstationDesiredState dbnow desired body r st).2).
Proof.
  intros Hwf Hm.
  unfold handleGetMyWorkstation, handleClaimMyWorkstation, handleMyWorkstationDesiredState, currentMember.
  rewrite Hm. split_and!.
  - destruct (resolve_spec r (TrimSpace (rq_Query r "workstation_id")) st m Hwf Hm) as [Ht Hs].
    destruct (resolveMemberWorkstation _ _ _) as [[e|s] st1]; simpl in *.
    { apply member_frame_same. by rewrite Ht. }
    rewrite <- Ht. rewrite <- Ht in Hwf.
    pose proof (member_call_frame (OpEnsure dbnow (mb_ID m) (ws_ID s)) _ (mb_ID m) st1 Hwf
      (void_durable _) eq_refl) as Hf.
    destruct (db_call _ st1) as [[e|s'] st2]; [by destruct (IsNotFound e)|done].
  - destruct body as [workerID|]; [|by apply member_frame_same].
    pose proof (member_call_frame (OpClaim gonow dbnow uuid (mb_ID m) (TrimSpace workerID)) _ (mb_ID m)
      st Hwf (void_durable _) eq_refl) as Hf.
    destruct (db_call _ st) as [[e|[s' []]] st2]; [by destruct (isClaimConflict e)|done|done].
  - destruct body as [id|]; [|by apply member_frame_same].
    destruct (resolve_spec r (TrimSpace id) st m Hwf Hm) as [Ht Hs].
    destruct (resolveMemberWorkstation _ _ _) as [[e|s] st1]; simpl in *.
    { apply member_frame_same. by rewrite Ht. }
    rewrite <- Ht. rewrite <- Ht in Hwf.
    pose proof (member_call_frame (OpSetDesired dbnow (mb_ID m) (ws_ID s) desired) _ (mb_ID m) st1 Hwf
      (void_durable _) eq_refl) as Hf.
    destruct (db_call _ st1) as [[e|s'] st2]; [|done]. destruct (IsNotFound e); [done|].
    by case_bool_decide.
Qed.

(** Losing the database connection at the wrong moment makes the handlers
    panic: when the member's only workstation has been found and the transaction
    that would open or release it cannot begin, the logging statement
    dereferences a nil pointer instead of answering 500. *)
Theorem connection_loss_panics dbnow r d wk fs sm v m s :
  rq_member r = Some m → TrimSpace (rq_Query r "workstation_id") = "" →
  member_workstations (mb_ID m) d = [s] →
  let st := mkServer (mkWorld d wk (NoFault :: FailBefore :: fs)) sm v in
  (handleGetMyWorkstation dbnow r st).1 = Panic ∧
  (handleReleaseMyWorkstation dbnow (Some "") r st).1 = Panic.
Proof.
  intros Hm Hq Hs st.
  assert (resolveMemberWorkstation r "" st =
    (inr s, mkServer (mkWorld d wk (FailBefore :: fs)) sm v)) as Hr.
  { unfold resolveMemberWorkstation, currentMember, ListWorkstationsByMemberID, db_call.
    rewrite Hm. simpl. unfold pool_exec, select. simpl. by rewrite Hs. }
  unfold handleReleaseMyWorkstation, handleMyWorkstationDesiredState, handleGetMyWorkstation, currentMember.
  change (TrimSpace "") with "". rewrite Hm, Hq, Hr. done.
Qed.

Lemma refuses_conflict a pref e : refuses a pref e → isClaimConflict e = true.
Proof. by destruct 1. Qed.

(** What the member reads when a claim is refused. *)
Definition refusals : list (Error * string) :=
  [(ErrNoActiveWorkers, "no active workers available");
   (ErrNoSlotsAvailable, "no workstation slots available");
   (ErrTargetWorkerFull, "no workstation slots available on target worker");
   (ErrTargetWorkerUnavailable, "target worker is not available")].

Lemma refuses_text a pref e : refuses a pref e → (e, error_text e) ∈ refusals.
Proof. destruct 1; unfold refusals; set_solver. Qed.


(** ** Starting, stopping and releasing *)

Definition owned (t : Tables) (m : string) (s : Workstation) : Prop :=
  workstations t !! ws_ID s = Some s ∧ ws_MemberID s = m.

(** The workstation a request is about: the named one, or the only one. *)
Definition addressed (t : Tables) (m id : string) (s : Workstation) : Prop :=
  owned t m s ∧ ((id ≠ "" ∧ id = ws_ID s) ∨ (id = "" ∧ ∀ s', owned t m s' → s' = s)).

Lemma elem_of_member_workstations t m s :
  wf_tables t → s ∈ member_workstations m t ↔ owned t m s.
Proof.
  intros Hwf. unfold member_workstations, ws_rows, owned.
  rewrite merge_sort_Permutation, list_elem_of_filter, bool_decide_eq_true, elem_of_rows. split.
  - intros [Hm [k Hk]]. by rewrite (wf_ws_key _ Hwf _ _ Hk).
  - intros [Hs Hm]. eauto.
Qed.

Lemma member_workstations_NoDup t m : wf_tables t → NoDup (member_workstations m t).
Proof.
  intros Hwf. unfold member_workstations, ws_rows. rewrite merge_sort_Permutation. apply NoDup_filter.
  unfold rows. apply NoDup_fmap_2_strong; [|apply NoDup_map_to_list].
  intros [i1 s1] [i2 s2] H1%elem_of_map_to_list H2%elem_of_map_to_list E. simpl in E. subst.
  pose proof (wf_ws_key _ Hwf _ _ H1). pose proof (wf_ws_key _ Hwf _ _ H2). congruence.
Qed.

(** Which workstation a request resolves to on a quiet database. *)
Lemma resolve_calm r id t wk sm v m :
  wf_tables t → rq_member r = Some m →
  let st := mkServer (quiet t wk) sm v in
  (∃ s, addressed t (mb_ID m) id s ∧ resolveMemberWorkstation r id st = (inr s, st)) ∨
  ((∀ s, owned t (mb_ID m) s → id ≠ "" ∧ id ≠ ws_ID s) ∧
   resolveMemberWorkstation r id st = (inl (mkApiError 404 "workstation not found"), st)) ∨
  (id = "" ∧ (∃ s1 s2, owned t (mb_ID m) s1 ∧ owned t (mb_ID m) s2 ∧ s1 ≠ s2) ∧
   resolveMemberWorkstation r id st =
     (inl (mkApiError 400 "workstation_id is required when multiple workstations exist"), st)).
Proof.
  intros Hwf Hm st. unfold resolveMemberWorkstation, currentMember. rewrite Hm.
  destruct (String.eqb_spec id "") as [->|Hid]; cbn [negb].
  - assert (db_call (ListWorkstationsByMemberID (mb_ID m)) st =
      (inr (member_workstations (mb_ID m) t), st)) as -> by done.
    pose proof (member_workstations_NoDup t (mb_ID m) Hwf) as Hnd.
    pose proof (λ s, elem_of_member_workstations t (mb_ID m) s Hwf) as Hin.
    destruct (member_workstations (mb_ID m) t) as [|s1 [|s2 l]].
    + right; left. split; [|done]. intros s Hs%Hin. by apply elem_of_nil in Hs.
    + left. exists s1. split; [|done]. split; [apply Hin; by left|]. right. split; [done|].
      intros s' Hs'%Hin. by apply list_elem_of_singleton in Hs'.
    + right; right. split; [done|]. split; [|done]. exists s1, s2.
      split; [apply Hin; by left|]. split; [apply Hin; right; by left|].
      apply NoDup_cons in Hnd as [Hnd _]. intros ->. apply Hnd. by left.
  - assert (db_call (GetWorkstationByIDForMember (mb_ID m) id) st =
      (match by_id_for_member (mb_ID m) id t with Some s => inr s | None => inl ErrNoRows end, st)) as ->.
    { unfold db_call, GetWorkstationByIDForMember, st. simpl sv_world. run_db.
      by destruct (by_id_for_member _ _ t). }
    destruct (by_id_for_member (mb_ID m) id t) as [s|] eqn:E.
    + left. exists s. apply by_id_for_member_Some in E as [Hs Hmem]. split; [|done].
      pose proof (wf_ws_key _ Hwf _ _ Hs) as Hk. unfold addressed, owned. rewrite Hk. auto.
    + right; left. split; [|done]. intros s [Hs Hmem]. split; [done|]. intros ->.
      by rewrite (proj2 (by_id_for_member_Some _ _ _ _) (conj Hs Hmem)) in E.
Qed.

End Handlers.

(** ** Witnesses *)

Definition as_member (m : Member) : Request :=
  mkRequest "" (λ _, "") (λ _, None) (λ _, "") (λ _, "") (Some m) None.

Lemma connection_loss_panics_witness :
  (handleGetMyWorkstation (H := C_collation) 9 (as_member Sample.ann)
     (mkServer (mkWorld Sample.tables Sample.tables [NoFault; FailBefore]) NewSessionManager None)).1 = Panic.
Proof.
  apply (connection_loss_panics (H := C_collation) 9 (as_member Sample.ann) Sample.tables Sample.tables []
    NewSessionManager None Sample.ann Sample.ws1 eq_refl eq_refl).
  vm_compute. reflexivity.
Defined.


