(* ===== verification/ProxyApi.v ===== *)
(** * Proxy sessions over HTTP ([proxy_sessions.go])

    Creating a session, the worker's poll for pending sessions, and the
    WebSocket endpoint both sides connect to.  The endpoint's goroutine hands
    its connection to the manager and then relays or waits; what the other
    goroutines do to the server meanwhile is the argument [meanwhile]. *)

From stdpp Require Import gmap strings list.
From Stdlib Require Import ZArith Lia Ascii.
From S2P Require Import Prelude GoStrings Encoding Model Database Schema Scheduler.
From S2P Require Import Workstations Workers Catalog Lifecycle System.
From S2P Require Import ProxySession Relay Http Host Access Server WorkstationApi.

Local Open Scope string_scope.

Record CreateProxyRequest := mkCreateProxy {
  cp_Target : string; cp_VMID : string; cp_WorkerID : string; cp_Port : Z
}.

Definition target_text (t : ProxyTarget) : string :=
  match t with ProxyTargetVM => "vm" | ProxyTargetHost => "host" end.

(** [h.proxy.Create] and its answer. *)
Definition create_and_reply (uuid : string) (bytes : list Z) (now : Z) (target : ProxyTarget)
    (vmID workerID : string) (port : Z) (st : Server) : Response * Server :=
  let (p, sm) := Create (sv_proxy st) uuid bytes now target vmID workerID port in
  (writeJSON StatusCreated (JObj [("session_id", JStr uuid); ("token", JStr (hex_encode bytes))]),
   set_proxy sm st).

Definition resolveProxyTarget (target vmID workerID : string) (st : Server) :
    (apiError + (ProxyTarget * string * string)) * Server :=
  let target := if String.eqb target "" then "vm" else target in
  if String.eqb target "host" then
    if String.eqb workerID ""
    then (inl (mkApiError StatusBadRequest "worker_id is required for host target"), st)
    else (inr (ProxyTargetHost, workerID, ""), st)
  else if String.eqb target "vm" then
    if String.eqb vmID ""
    then (inl (mkApiError StatusBadRequest "vm_id is required for vm target"), st)
    else
      match db_call (GetWorkstationByID vmID) st with
      | (inr workstation, st) =>
          if negb (bool_decide (ws_PowerState workstation = WorkstationPowerStateRunning))
          then (inl (mkApiError StatusConflict "workstation not running"), st)
          else (inr (ProxyTargetVM, ws_WorkerID workstation, ws_ID workstation), st)
      | (inl err, st) =>
          if negb (IsNotFound err)
          then (inl (mkApiError StatusInternalServerError "failed to load workstation"), st)
          else
            match db_call (GetVM vmID) st with
            | (inl _, st) => (inl (mkApiError StatusNotFound "vm not found"), st)
            | (inr vm, st) =>
                if bool_decide (vm_State vm = VMStateReady) || bool_decide (vm_State vm = VMStateBusy)
                   || bool_decide (vm_State vm = VMStateBootstrapping)
                then (inr (ProxyTargetVM, vm_WorkerID vm, vmID), st)
                else (inl (mkApiError StatusConflict "vm not available"), st)
            end
      end
  else (inl (mkApiError StatusBadRequest "target must be 'vm' or 'host'"), st).

Section Handlers.
Context `{!Collation} `{!RangeOrder}.

Definition handleCreateProxySession (uuid : string) (bytes : list Z) (now : Z)
    (body : option CreateProxyRequest) : HandlerFunc := λ r st,
  match body with
  | None => (writeError StatusBadRequest "invalid json", st)
  | Some req =>
      if (cp_Port req <=? 0)%Z then (writeError StatusBadRequest "port is required", st)
      else if negb (bool_decide (cp_Port req ∈ sm_AllowedPorts (sv_proxy st)))
      then (writeError StatusForbidden "port not allowed", st)
      else
        match currentMember r with
        | Some _ =>
            if String.eqb (cp_Target req) "host"
            then (writeError StatusForbidden "host access is not available for members", st)
            else
              match resolveMemberWorkstation r (TrimSpace (cp_VMID req)) st with
              | (inl e, st) => (apiError_write e, st)
              | (inr workstation, st) =>
                  if negb (bool_decide (ws_PowerState workstation = WorkstationPowerStateRunning))
                  then (writeError StatusConflict "workstation not running", st)
                  else create_and_reply uuid bytes now ProxyTargetVM (ws_ID workstation)
                         (ws_WorkerID workstation) (cp_Port req) st
              end
        | None =>
            match resolveProxyTarget (cp_Target req) (cp_VMID req) (cp_WorkerID req) st with
            | (inl e, st) => (apiError_write e, st)
            | (inr (target, workerID, vmID), st) =>
                create_and_reply uuid bytes now target vmID workerID (cp_Port req) st
            end
        end
  end.

Definition pendingSessionBelongsToWorker (s : ProxySession) (workerID : string) (st : Server) :
    bool * Server :=
  match db_call (GetWorkstationByID (ps_VMID s)) st with
  | (inr workstation, st) => (String.eqb (ws_WorkerID workstation) workerID, st)
  | (inl err, st) =>
      if negb (IsNotFound err) then (false, st)
      else
        match db_call (GetVM (ps_VMID s)) st with
        | (inr vm, st) => (String.eqb (vm_WorkerID vm) workerID, st)
        | (inl _, st) => (false, st)
        end
  end.

Definition pending_json (s : ProxySession) : Json :=
  JObj ([("session_id", JStr (ps_ID s)); ("target", JStr (target_text (ps_Target s)))]
        ++ (if String.eqb (ps_VMID s) "" then [] else [("vm_id", JStr (ps_VMID s))])
        ++ [("port", JNum (ps_Port s)); ("token", JStr (ps_Token s))])%list.

(** The loop over the pending sessions; the sessions handed out.  [None] is a
    panic of [Close]. *)
Fixpoint collect_pending (workerID : string) (sessions : list ProxySession) (st : Server) :
    option (list ProxySession * Server) :=
  match sessions with
  | [] => Some ([], st)
  | s :: sessions =>
      let (keep, st) :=
        if bool_decide (ps_Target s = ProxyTargetVM) then pendingSessionBelongsToWorker s workerID st
        else (true, st) in
      if (keep : bool) then
        '(result, st) ← collect_pending workerID sessions st;
        Some (s :: result, st)
      else
        sm ← Close (sv_proxy st) (ps_ID s);
        collect_pending workerID sessions (set_proxy sm st)
  end.

Definition pending_sessions (workerID : string) (st : Server) : list ProxySession :=
  omap (λ p, sm_heap (sv_proxy st) !! p) (GetPending (sv_proxy st) workerID).

Definition handlePendingProxySessions : HandlerFunc := λ r st,
  match requireCurrentWorker r with
  | inl resp => (resp, st)
  | inr worker =>
      let requestedWorkerID := rq_Query r "worker_id" in
      if negb (String.eqb requestedWorkerID "") && negb (String.eqb requestedWorkerID (aw_ID worker))
      then (writeError StatusForbidden "worker_id mismatch", st)
      else
        match collect_pending (aw_ID worker) (pending_sessions (aw_ID worker) st) st with
        | None => (Panic, st)
        | Some (result, st) => (writeJSON StatusOK (JArr (pending_json <$> result)), st)
        end
  end.
End Handlers.

(** ** The WebSocket endpoint *)

Inductive Wake := WakeDone | WakeContext.

Inductive WSOutcome :=
| WSReply (resp : Response)
| WSAcceptFailed
| WSPanic
| WSRelayed (outcome : RelayOutcome)
| WSWaited (why : Wake).

Section WebSocket.
Context `{!HostEnv}.

(** The checks before the connection is accepted. *)
Definition ws_admit (cfg : HandlerConfig) (r : Request) (st : Server) : Response + Ptr :=
  let sessionID := rq_Query r "session" in
  let role := rq_Query r "role" in
  let token := rq_Query r "token" in
  if String.eqb sessionID "" || String.eqb role "" || String.eqb token ""
  then inl (writeError StatusBadRequest "missing parameters")
  else if negb (String.eqb role "client") && negb (String.eqb role "worker")
  then inl (writeError StatusBadRequest "invalid role")
  else if String.eqb role "client" && negb (matchesBrowserHost cfg r) then inl NotFoundPage
  else if String.eqb role "worker" && negb (matchesWorkerHost cfg r) then inl NotFoundPage
  else
    match Get (sv_proxy st) sessionID with
    | None => inl (writeError StatusNotFound "session not found")
    | Some p =>
        match sm_heap (sv_proxy st) !! p with
        | None => inl Panic
        | Some session =>
            if negb (tokensMatch (ps_Token session) token)
            then inl (writeError StatusUnauthorized "invalid token")
            else inr p
        end
    end.

Definition close_session (sessionID : string) (out : WSOutcome) (st : Server) : WSOutcome * Server :=
  match Close (sv_proxy st) sessionID with
  | Some sm => (out, set_proxy sm st)
  | None => (WSPanic, st)
  end.

(** [conn]: the accepted connection ([None]: the handshake failed); [meanwhile]:
    the other goroutines, while this one relays or waits; [relayed] and [wake]:
    how the relay and the wait end. *)
Definition handleProxyWebSocket (cfg : HandlerConfig) (conn : option Conn)
    (meanwhile : Server → Server) (relayed : RelayOutcome) (wake : Wake)
    (r : Request) (st : Server) : WSOutcome * Server :=
  let sessionID := rq_Query r "session" in
  match ws_admit cfg r st with
  | inl resp => (WSReply resp, st)
  | inr p =>
      match conn with
      | None => (WSAcceptFailed, st)
      | Some conn =>
          match SetConn (sv_proxy st) sessionID (rq_Query r "role") conn with
          | None => (WSPanic, st)
          | Some (bothReady, sm) =>
              let st := meanwhile (set_proxy sm st) in
              if bothReady then close_session sessionID (WSRelayed relayed) st
              else
                match wake with
                | WakeDone => (WSWaited WakeDone, st)
                | WakeContext => close_session sessionID (WSWaited WakeContext) st
                end
          end
      end
  end.
End WebSocket.

(** ** What a session may be opened to *)

(** The session manager with one more session, pending and unconnected. *)
Definition session_opened (new : ProxySession) (sm sm' : SessionManager) : Prop :=
  ∃ p, sm_heap sm !! p = None ∧ sm_heap sm' = <[p := new]> (sm_heap sm) ∧
    sm_sessions sm' = <[ps_ID new := p]> (sm_sessions sm) ∧
    sm_closed_conns sm' = sm_closed_conns sm ∧ sm_AllowedPorts sm' = sm_AllowedPorts sm.

Definition pending_session (uuid : string) (bytes : list Z) (now : Z) (s : Workstation) (port : Z) :
    ProxySession :=
  mkSession uuid ProxyTargetVM (ws_ID s) (ws_WorkerID s) port (hex_encode bytes) SessionPending now
    None None false false.

Lemma create_opens uuid bytes now s port st :
  ∃ st', create_and_reply uuid bytes now ProxyTargetVM (ws_ID s) (ws_WorkerID s) port st =
      (Reply 201 (JObj [("session_id", JStr uuid); ("token", JStr (hex_encode bytes))]), st') ∧
    session_opened (pending_session uuid bytes now s port) (sv_proxy st) (sv_proxy st') ∧
    sv_tables st' = sv_tables st.
Proof.
  eexists. split; [reflexivity|]. split; [|done].
  exists (fresh (dom (sm_heap (sv_proxy st)))). split; [apply Create_fresh|done].
Qed.

(** C30. A member's proxy session.  Whatever the request asks for and whatever
    fails, the tables do not change, and if the session manager does, then by one
    new pending session to the port that was asked for, an allowed one, whose
    target is a running workstation the database holds for that member, on the
    worker that hosts it.  And while the database answers, a request for an
    allowed port of the member's running workstation (named, or the only one) is
    answered with 201 and opens exactly that session. *)
Theorem member_session_spec `{!Collation} uuid bytes now req r st m :
  wf_tables (sv_tables st) → rq_member r = Some m →
  let run := handleCreateProxySession uuid bytes now (Some req) r st in
  sv_tables run.2 = sv_tables st ∧
  (sv_proxy run.2 = sv_proxy st ∨
   ∃ s, owned (sv_tables st) (mb_ID m) s ∧ ws_PowerState s = WorkstationPowerStateRunning ∧
     cp_Port req ∈ sm_AllowedPorts (sv_proxy st) ∧
     session_opened (pending_session uuid bytes now s (cp_Port req)) (sv_proxy st) (sv_proxy run.2)) ∧
  (∀ s, faults (sv_world st) = [] → (0 < cp_Port req)%Z →
     cp_Port req ∈ sm_AllowedPorts (sv_proxy st) → cp_Target req ≠ "host" →
     addressed (sv_tables st) (mb_ID m) (TrimSpace (cp_VMID req)) s →
     ws_PowerState s = WorkstationPowerStateRunning →
     run.1 = Reply 201 (JObj [("session_id", JStr uuid); ("token", JStr (hex_encode bytes))]) ∧
     session_opened (pending_session uuid bytes now s (cp_Port req)) (sv_proxy st) (sv_proxy run.2)).
Proof.
  intros Hwf Hm. cbv zeta. apply and_assoc. split.
  - unfold handleCreateProxySession, currentMember. rewrite Hm.
    destruct (cp_Port req <=? 0)%Z; [by auto|].
    case_bool_decide as Hport; [|by auto]. simpl.
    destruct (String.eqb _ "host"); [by auto|].
    destruct (resolve_spec r (TrimSpace (cp_VMID req)) st m Hwf Hm) as [Ht Hs].
    destruct (resolve_proxy r (TrimSpace (cp_VMID req)) st) as [Hp _].
    destruct (resolveMemberWorkstation _ _ st) as [[e|s] st1]; cbn [fst snd] in *; [by auto|].
    destruct Hs as (Hs & Hmem & _). case_bool_decide as Hrun; cbn [negb]; [|by auto].
    destruct (create_opens uuid bytes now s (cp_Port req) st1) as (st' & -> & Ho & Ht').
    cbn [snd]. split; [congruence|]. right. exists s. rewrite Hp in Ho. by split_and!.
  - intros s Hf Hpos Hport Htarget Ha Hrun. unfold handleCreateProxySession, currentMember. rewrite Hm.
    destruct (Z.leb_spec (cp_Port req) 0); [lia|]. rewrite bool_decide_true by done. cbn [negb].
    rewrite (proj2 (String.eqb_neq _ _) Htarget).
    destruct st as [[d wk fs] sm v]. unfold sv_tables in *. simpl in *. subst fs.
    destruct (resolve_calm r (TrimSpace (cp_VMID req)) d wk sm v m Hwf Hm)
      as [(s1 & Ha1 & E)|[[Hn E]|(Hid & (s1 & s2 & H1 & H2 & Hne) & E)]]; cbv zeta in E;
      unfold quiet in E; rewrite E.
    + assert (s1 = s) as ->.
      { destruct Ha as [[Hs _] [[Hi Ei]|[Hi Hu]]], Ha1 as [[Hs1 Hm1] [[Hi1 Ei1]|[Hi1 Hu1]]]; try done.
        - congruence.
        - apply Hu. by split. }
      rewrite bool_decide_true by done. cbn [negb].
      destruct (create_opens uuid bytes now s (cp_Port req) (mkServer (mkWorld d wk []) sm v))
        as (st' & -> & Ho & _). done.
    + destruct Ha as [Ho [[Hi Ei]|[Hi _]]]; by destruct (Hn s Ho).
    + destruct Ha as [Ho [[Hi _]|[_ Hu]]]; [done|]. destruct Hne. by rewrite (Hu s1 H1), (Hu s2 H2).
Qed.

(** ** What a worker is told *)

(** The database places the machine on the worker. *)
Definition hosted_by (w machine : string) (t : Tables) : Prop :=
  (∃ s, workstations t !! machine = Some s ∧ ws_WorkerID s = w) ∨
  (workstations t !! machine = None ∧ ∃ v, vms t !! machine = Some v ∧ vm_WorkerID v = w).

Lemma belongs_spec s w st :
  let run := pendingSessionBelongsToWorker s w st in
  sv_tables run.2 = sv_tables st ∧ sv_proxy run.2 = sv_proxy st ∧
  (run.1 = true → hosted_by w (ps_VMID s) (sv_tables st)).
Proof.
  cbv zeta. unfold pendingSessionBelongsToWorker, GetWorkstationByID, GetVM.
  destruct (db_call_row (λ t, workstations t !! ps_VMID s) st) as [Ht Hq].
  destruct (db_call_rest (pool_exec (select_row (λ t, workstations t !! ps_VMID s))) st) as [Hp _].
  destruct (db_call _ st) as [[e|x] st1]; simpl in *.
  - destruct (IsNotFound e) eqn:Ee; simpl; [|done]. unfold IsNotFound in Ee. to_prop. subst e.
    destruct Hq as [|[_ Hnone]]; [done|].
    destruct (db_call_row (λ t, vms t !! ps_VMID s) st1) as [Ht1 Hq1].
    destruct (db_call_rest (pool_exec (select_row (λ t, vms t !! ps_VMID s))) st1) as [Hp1 _].
    destruct (db_call _ st1) as [[e|v] st2]; simpl in *; (split; [congruence|]); (split; [congruence|]);
      [done|]. intros E%String.eqb_eq. right. split; [done|]. rewrite <- Ht. eauto.
  - do 2 (split; [done|]). intros E%String.eqb_eq. left. eauto.
Qed.

Lemma belongs_calm s w st :
  let run := pendingSessionBelongsToWorker s w st in
  faults (sv_world st) = [] →
  faults (sv_world run.2) = [] ∧ (hosted_by w (ps_VMID s) (sv_tables st) → run.1 = true).
Proof.
  cbv zeta. intros Hf. unfold pendingSessionBelongsToWorker, GetWorkstationByID, GetVM.
  rewrite db_call_row_calm by done. unfold hosted_by.
  destruct (workstations (sv_tables st) !! ps_VMID s) as [x|]; simpl.
  - split; [done|]. rewrite String.eqb_eq. naive_solver.
  - rewrite db_call_row_calm by done.
    destruct (vms (sv_tables st) !! ps_VMID s); simpl; rewrite ?String.eqb_eq; naive_solver.
Qed.

Lemma collect_pending_spec w l st :
  wf_manager (sv_proxy st) →
  ∃ result st', collect_pending w l st = Some (result, st') ∧ sv_tables st' = sv_tables st ∧
    wf_manager (sv_proxy st') ∧ result `sublist_of` l ∧
    (∀ s, s ∈ result → ps_Target s = ProxyTargetVM → hosted_by w (ps_VMID s) (sv_tables st)) ∧
    (faults (sv_world st) = [] → ∀ s, s ∈ l →
       (ps_Target s = ProxyTargetVM → hosted_by w (ps_VMID s) (sv_tables st)) → s ∈ result).
Proof.
  revert st. induction l as [|s l IH]; intros st Hwf; simpl.
  { exists [], st. split_and!; try done. by intros s ?%elem_of_nil. }
  set (step := if bool_decide (ps_Target s = ProxyTargetVM) then pendingSessionBelongsToWorker s w st
               else (true, st)).
  assert (sv_tables step.2 = sv_tables st ∧ sv_proxy step.2 = sv_proxy st ∧
    (step.1 = true → ps_Target s = ProxyTargetVM → hosted_by w (ps_VMID s) (sv_tables st)) ∧
    (faults (sv_world st) = [] → faults (sv_world step.2) = [] ∧
       ((ps_Target s = ProxyTargetVM → hosted_by w (ps_VMID s) (sv_tables st)) → step.1 = true)))
    as (Ht & Hp & Hok & Hcalm).
  { unfold step. case_bool_decide; [|by repeat split].
    destruct (belongs_spec s w st) as (? & ? & ?). split_and!; auto. intros Hnil.
    destruct (belongs_calm s w st Hnil). auto. }
  destruct step as [keep st1]. simpl in *. destruct keep.
  - destruct (IH st1) as (res & st' & -> & Ht' & Hwf' & Hsub & Hall & Hcomp); [by rewrite Hp|].
    exists (s :: res), st'. simpl. split; [done|]. split; [congruence|]. split; [done|].
    split; [by apply sublist_skip|]. rewrite Ht in Hall, Hcomp. split.
    + intros s' [->|Hin]%elem_of_cons; [by apply Hok|by apply Hall].
    + intros Hf s' [->|Hin]%elem_of_cons Hh; [by left|right]. apply Hcomp; [by apply Hcalm|done|done].
  - destruct (CloseAll_spec [ps_ID s] (sv_proxy st1)) as (sm & Hc & Hwf1 & _); [by rewrite Hp|].
    simpl in Hc. destruct (Close (sv_proxy st1) (ps_ID s)) as [sm'|]; [|done]. simpl in *.
    injection Hc as ->.
    destruct (IH (set_proxy sm st1)) as (res & st' & -> & Ht' & Hwf' & Hsub & Hall & Hcomp); [done|].
    change (sv_tables (set_proxy sm st1)) with (sv_tables st1) in *. rewrite Ht in Ht', Hall, Hcomp.
    exists res, st'. split; [done|]. split; [done|]. split; [done|].
    split; [by apply sublist_cons|]. split; [done|].
    intros Hf s' [->|Hin]%elem_of_cons Hh; [|apply Hcomp; [by apply Hcalm|done|done]].
    destruct (Hcalm Hf) as [_ Hk]. by specialize (Hk Hh).
Qed.

(** A session the worker is to be told about. *)
Definition awaits (w : string) (st : Server) (s : ProxySession) : Prop :=
  (∃ k p, sm_sessions (sv_proxy st) !! k = Some p ∧ sm_heap (sv_proxy st) !! p = Some s) ∧
  ps_WorkerID s = w ∧ ps_State s = SessionPending ∧
  (ps_Target s = ProxyTargetVM → hosted_by w (ps_VMID s) (sv_tables st)).

Lemma elem_of_pending `{!RangeOrder} w st s :
  s ∈ pending_sessions w st ↔
  (∃ k p, sm_sessions (sv_proxy st) !! k = Some p ∧ sm_heap (sv_proxy st) !! p = Some s) ∧
  ps_WorkerID s = w ∧ ps_State s = SessionPending.
Proof.
  unfold pending_sessions, GetPending, matching, object_is. rewrite list_elem_of_omap.
  setoid_rewrite list_elem_of_fmap. setoid_rewrite list_elem_of_filter. setoid_rewrite range_perm. split.
  - intros (p & ([k p'] & -> & Hm & Hin%elem_of_map_to_list) & Hs). simpl in *. rewrite Hs in Hm.
    to_prop. eauto 10.
  - intros ((k & p & Hk & Hs) & Hw & Hst). exists p. split; [|done]. exists (k, p).
    split; [done|]. simpl. rewrite Hs. rewrite !bool_decide_true by done.
    split; [done|]. by apply elem_of_map_to_list.
Qed.

(** C31. A worker is offered the sessions it should serve: the poll never panics
    and is answered with 200; every session in the answer is registered, pending,
    was created for the polling worker and, if its target is a machine, that
    machine is on this worker according to the database at the time of the poll;
    and while the database answers, every such session is in it. *)
Theorem pending_spec `{!RangeOrder} r st worker :
  wf_manager (sv_proxy st) → rq_worker r = Some worker →
  rq_Query r "worker_id" = "" ∨ rq_Query r "worker_id" = aw_ID worker →
  ∃ result st', handlePendingProxySessions r st =
      (Reply 200 (JArr (pending_json <$> result)), st') ∧
    sv_tables st' = sv_tables st ∧ wf_manager (sv_proxy st') ∧
    (∀ s, s ∈ result → awaits (aw_ID worker) st s) ∧
    (faults (sv_world st) = [] → ∀ s, awaits (aw_ID worker) st s → s ∈ result).
Proof.
  intros Hwf Hw Hq. unfold handlePendingProxySessions, requireCurrentWorker, currentWorker. rewrite Hw.
  assert (negb (String.eqb (rq_Query r "worker_id") "")
    && negb (String.eqb (rq_Query r "worker_id") (aw_ID worker)) = false) as ->.
  { destruct Hq as [->| ->]; [done|]. by rewrite String.eqb_refl, andb_false_r. }
  destruct (collect_pending_spec (aw_ID worker) (pending_sessions (aw_ID worker) st) st Hwf)
    as (res & st' & -> & Ht & Hwf' & Hsub & Hall & Hcomp).
  exists res, st'. do 3 (split; [done|]). split.
  - intros s Hin. assert (s ∈ pending_sessions (aw_ID worker) st) as Hs.
    { eapply elem_of_submseteq; [done|by apply sublist_submseteq]. }
    apply elem_of_pending in Hs as (Hreg & Hwk & Hst). split_and!; auto.
  - intros Hf s (Hreg & Hwk & Hst & Hh). apply Hcomp; [done|by apply elem_of_pending|done].
Qed.

(** ** Who may connect *)

(** A connection that may join: it names a registered session, presents its
    token, and takes a role on the host of that role. *)
Definition admitted (cfg : HandlerConfig) (name : string) (r : Request) (st : Server)
    (p : Ptr) (s : ProxySession) : Prop :=
  rq_Query r "session" ≠ "" ∧
  sm_sessions (sv_proxy st) !! rq_Query r "session" = Some p ∧ sm_heap (sv_proxy st) !! p = Some s ∧
  ps_Token s ≠ "" ∧ rq_Query r "token" = ps_Token s ∧
  ((rq_Query r "role" = "client" ∧ name = hc_BrowserPublicHost cfg) ∨
   (rq_Query r "role" = "worker" ∧ name = hc_WorkerPublicHost cfg)).

Definition is_error (resp : Response) : Prop :=
  resp = NotFoundPage ∨ ∃ status msg, resp = writeError status msg ∧ (400 ≤ status)%Z.

(** The session once the connection has joined: active when both sides are
    there. *)
Definition joined (role : string) (c : Conn) (s s1 : ProxySession) : Prop :=
  ps_ID s1 = ps_ID s ∧ ps_Token s1 = ps_Token s ∧ ps_WorkerID s1 = ps_WorkerID s ∧
  ps_clientConn s1 = (if decide (role = "client") then Some c else ps_clientConn s) ∧
  ps_workerConn s1 = (if decide (role = "client") then ps_workerConn s else Some c) ∧
  (if decide (ps_clientConn s1 ≠ None ∧ ps_workerConn s1 ≠ None)
   then ps_State s1 = SessionActive ∧ ps_ready s1 = true else ps_State s1 = ps_State s).

Section Admission.
Context `{!HostEnv}.

Lemma ws_admit_cases cfg name r st :
  dns_name (hc_WorkerPublicHost cfg) = true → dns_name (hc_BrowserPublicHost cfg) = true →
  dns_name name = true → names_host r name → wf_manager (sv_proxy st) →
  (∃ p s, admitted cfg name r st p s ∧ ws_admit cfg r st = inr p) ∨
  ((∀ p s, ¬ admitted cfg name r st p s) ∧ ∃ resp, is_error resp ∧ ws_admit cfg r st = inl resp).
Proof.
  intros Hw Hb Hn Hr Hwf. unfold ws_admit, matchesBrowserHost, matchesWorkerHost, admitted, Get.
  rewrite !(hostMatches_names r name) by done.
  assert (∀ status msg, (400 ≤ status)%Z → is_error (writeError status msg)) as Herr
    by (intros; right; eauto).
  assert (is_error NotFoundPage) as H404 by by left.
  destruct (String.eqb_spec (rq_Query r "session") "") as [|Hs]; simpl.
  { right. split; [naive_solver|]. eexists. split; [|done]. by apply Herr. }
  destruct (String.eqb_spec (rq_Query r "role") "") as [Er|Hro]; simpl.
  { right. split; [rewrite Er; naive_solver|]. eexists. split; [|done]. by apply Herr. }
  destruct (String.eqb_spec (rq_Query r "token") "") as [Et|Ht]; simpl.
  { right. split; [rewrite Et; naive_solver|]. eexists. split; [|done]. by apply Herr. }
  destruct (String.eqb_spec (rq_Query r "role") "client") as [Er|Hc];
    [destruct (String.eqb_spec (rq_Query r "role") "worker") as [Er'|Hwo]; [congruence|]
    |destruct (String.eqb_spec (rq_Query r "role") "worker") as [Er|Hwo]]; simpl.
  3: { right. split; [naive_solver|]. eexists. split; [|done]. by apply Herr. }
  all: case_bool_decide as Hhost; simpl; [|right; split; [naive_solver congruence|by eauto]].
  all: destruct (sm_sessions (sv_proxy st) !! rq_Query r "session") as [p|] eqn:Ep;
    [|right; split; [naive_solver|]; eexists; split; [|done]; by apply Herr].
  all: destruct (wf_registered _ Hwf _ _ Ep) as (s & Hsp & _); rewrite Hsp.
  all: destruct (tokensMatch (ps_Token s) (rq_Query r "token")) eqn:Em; simpl;
    [left|right; split; [|eexists; split; [|done]; by apply Herr]].
  1,3: apply tokensMatch_true in Em as [? ?]; exists p, s; by auto 10.
  all: intros p' s' (_ & E1 & E2 & E3 & E4 & _); simplify_eq;
    by rewrite (proj2 (tokensMatch_true _ _)) in Em.
Qed.

(** C32. The WebSocket endpoint, exactly (with DNS names configured and a request
    that names a host): a connection that names a registered session, presents
    its token (never empty) and takes the role "client" on the browser host or
    "worker" on the worker host is accepted; once the handshake is done it is
    stored as that side of the session, which becomes active and ready when both
    sides are there; the goroutine that completes the pair relays and then
    closes the session, the other one waits.  Every other request gets an error
    page and leaves the server as it was. *)
Theorem ws_admission_exact cfg conn meanwhile relayed wake r st name :
  dns_name (hc_WorkerPublicHost cfg) = true → dns_name (hc_BrowserPublicHost cfg) = true →
  dns_name name = true → names_host r name → wf_manager (sv_proxy st) →
  let run := handleProxyWebSocket cfg conn meanwhile relayed wake r st in
  ((∀ p s, ¬ admitted cfg name r st p s) → ∃ resp, is_error resp ∧ run = (WSReply resp, st)) ∧
  (∀ p s, admitted cfg name r st p s →
     match conn with
     | None => run = (WSAcceptFailed, st)
     | Some c =>
         ∃ s1 sm1, joined (rq_Query r "role") c s s1 ∧
           sm_heap sm1 = <[p := s1]> (sm_heap (sv_proxy st)) ∧
           sm_sessions sm1 = sm_sessions (sv_proxy st) ∧
           let st1 := meanwhile (set_proxy sm1 st) in
           wf_manager (sv_proxy st1) →
           if decide (ps_clientConn s1 ≠ None ∧ ps_workerConn s1 ≠ None) then
             ∃ st2, run = (WSRelayed relayed, st2) ∧
               sm_sessions (sv_proxy st2) !! rq_Query r "session" = None
           else
             ∃ st2, run = (WSWaited wake, st2) ∧
               (wake = WakeContext → sm_sessions (sv_proxy st2) !! rq_Query r "session" = None)
     end).
Proof.
  intros Hw Hb Hn Hr Hwf. cbv zeta. unfold handleProxyWebSocket.
  destruct (ws_admit_cases cfg name r st Hw Hb Hn Hr Hwf) as [(p & s & Ha & ->)|(Hno & resp & He & ->)].
  2: { split; [by eauto|]. intros p s Ha. by destruct (Hno p s). }
  split; [intros Hno; by destruct (Hno p s)|]. intros p' s' Ha'.
  assert (p' = p ∧ s' = s) as [-> ->].
  { destruct Ha as (_ & E1 & E2 & _), Ha' as (_ & E1' & E2' & _). split; congruence. }
  destruct conn as [c|]; [|done]. destruct Ha as (_ & Ep & Es & _ & _ & Hrole).
  unfold SetConn, Get. rewrite Ep, Es. simpl. rewrite SetConn_locked_spec. simpl.
  set (s1 := if both_connected _ then activate _ _ else _). exists s1, (set_object p s1 (sv_proxy st)).
  assert (both_connected (store_conn (rq_Query r "role") c s) =
    bool_decide (ps_clientConn s1 ≠ None ∧ ps_workerConn s1 ≠ None)) as Hboth.
  { unfold s1, both_connected. case_bool_decide; case_bool_decide; simpl; symmetry;
      (apply bool_decide_eq_true || apply bool_decide_eq_false); naive_solver. }
  split; [|split; [done|split; [done|]]].
  - unfold joined. destruct (decide (ps_clientConn s1 ≠ None ∧ _)) as [Hd|Hd];
      [rewrite bool_decide_true in Hboth by done|rewrite bool_decide_false in Hboth by done];
      unfold s1; rewrite Hboth; unfold store_conn;
      destruct Hrole as [[-> _]|[-> _]]; simpl; done.
  - intros Hwf1. rewrite Hboth.
    assert (∀ out, ∃ st2, close_session (rq_Query r "session") out
        (meanwhile (set_proxy (set_object p s1 (sv_proxy st)) st)) = (out, st2) ∧
      sm_sessions (sv_proxy st2) !! rq_Query r "session" = None) as Hclose.
    { intros out. unfold close_session. set (st1 := meanwhile _) in *.
      pose proof (Close_spec (sv_proxy st1) (rq_Query r "session") Hwf1) as HC.
      destruct (sm_sessions (sv_proxy st1) !! rq_Query r "session") as [q|] eqn:Eq.
      - destruct HC as (x & _ & _ & ->). eexists. split; [done|]. simpl. apply lookup_delete_eq.
      - rewrite HC. eexists. split; [done|]. done. }
    destruct (decide (ps_clientConn s1 ≠ None ∧ _)) as [Hd|Hd];
      [rewrite bool_decide_true by done; apply Hclose|rewrite bool_decide_false by done].
    destruct wake; [by eexists|]. destruct (Hclose (WSWaited WakeContext)) as (st2 & -> & ?).
    exists st2. by split.
Qed.
End Admission.

(** ** Witnesses *)

Lemma member_session_spec_witness :
  let st := mkServer (calm Sample.tables) NewSessionManager None in
  let run := handleCreateProxySession (H := C_collation) "s1" [1%Z] 0 (Some (mkCreateProxy "vm" "ws-id-1" "" 22))
               (as_member Sample.ann) st in
  run.1 = Reply 201 (JObj [("session_id", JStr "s1"); ("token", JStr "01")]) ∧
  session_opened (pending_session "s1" [1%Z] 0 Sample.ws1 22) NewSessionManager (sv_proxy run.2).
Proof.
  intros st run.
  apply (member_session_spec (H := C_collation) "s1" [1%Z] 0 (mkCreateProxy "vm" "ws-id-1" "" 22)
    (as_member Sample.ann) st Sample.ann).
  - exact Sample.wf_sample.
  - reflexivity.
  - reflexivity.
  - reflexivity.
  - vm_compute. auto.
  - discriminate.
  - split; [split; vm_compute; reflexivity|]. left. split; [discriminate|reflexivity].
  - reflexivity.
Defined.

Definition polling_server : Server :=
  mkServer (calm Sample.tables)
    (Create NewSessionManager "s1" [1%Z] 0 ProxyTargetVM "ws-id-1" (wk_ID Sample.mac1) 22).2 None.

Lemma wf_polling : wf_manager (sv_proxy polling_server).
Proof. by apply Create_wf; [exact wf_new_manager|]. Qed.

Lemma pending_spec_witness :
  ∃ result st', handlePendingProxySessions (H0 := key_order)
      (with_worker (mkAuthWorker (wk_ID Sample.mac1) "HW-1") (query_only (λ _, ""))) polling_server =
      (Reply 200 (JArr (pending_json <$> result)), st') ∧
    ∀ s, s ∈ result → ps_WorkerID s = wk_ID Sample.mac1.
Proof.
  destruct (pending_spec (H := key_order)
    (with_worker (mkAuthWorker (wk_ID Sample.mac1) "HW-1") (query_only (λ _, ""))) polling_server
    (mkAuthWorker (wk_ID Sample.mac1) "HW-1") wf_polling eq_refl (or_introl eq_refl))
    as (result & st' & E & _ & _ & Hall & _).
  exists result, st'. split; [exact E|]. intros s Hs. exact (proj1 (proj2 (Hall s Hs))).
Defined.

(** The token of another session is refused. *)
Lemma ws_admission_exact_witness :
  let cfg := config_with_hosts "w.example.com" "b.example.com" in
  let q k := if String.eqb k "session" then "s1" else if String.eqb k "role" then "client"
             else if String.eqb k "token" then "02" else "" in
  let r := mkRequest "b.example.com:443" (λ _, "") (λ _, None) q (λ _, "") None None in
  ∃ resp, is_error resp ∧
    @handleProxyWebSocket ascii_env cfg (Some 4%nat) (λ st, st) RelayRunning WakeDone r
      polling_server = (WSReply resp, polling_server).
Proof.
  intros cfg q r.
  assert (names_host r "b.example.com") as Hname.
  { apply (named_direct r _ ":443"); [reflexivity|reflexivity|].
    right. exists "443". split; [reflexivity|vm_compute; reflexivity]. }
  apply (@ws_admission_exact ascii_env cfg (Some 4%nat) (λ st, st) RelayRunning WakeDone r
    polling_server "b.example.com" eq_refl eq_refl eq_refl Hname wf_polling).
  intros p s (_ & Hp & Hs & _ & Ht & _). vm_compute in Hp. injection Hp as <-.
  vm_compute in Hs. injection Hs as <-. discriminate Ht.
Defined.
