(* ===== verification/FilePath.v ===== *)
(** * Lexical file paths ([path/filepath] on Unix)

    [Clean], [Join] and [Rel] work on the slash-separated components of a path.
    Each is the library function on every input; the lemmas describe them on
    absolute clean paths, which is how the release store uses them. *)

From stdpp Require Import gmap strings list.
From Stdlib Require Import ZArith Lia Ascii.
From S2P Require Import Prelude GoStrings.

Local Open Scope string_scope.

Definition rooted (path : string) : bool := HasPrefix path "/".

(** One component onto the stack of components kept so far. *)
Definition clean_push (is_rooted : bool) (stack : list string) (c : string) : list string :=
  if String.eqb c "" || String.eqb c "." then stack
  else if String.eqb c ".." then
    match stack with
    | [] => if is_rooted then [] else [".."]
    | top :: rest => if String.eqb top ".." then ".." :: stack else rest
    end
  else c :: stack.

Definition components (path : string) : list string :=
  rev (fold_left (clean_push (rooted path)) (Split path "/") []).

Definition Clean (path : string) : string :=
  if rooted path then "/" +:+ GoStrings.Join (components path) "/"
  else match components path with
       | [] => "."
       | cs => GoStrings.Join cs "/"
       end.

(** [filepath.Join] ignores empty elements. *)
Definition Join (elems : list string) : string :=
  match filter (λ e, e ≠ "") elems with
  | [] => ""
  | es => Clean (GoStrings.Join es "/")
  end.

(** The components left of two lists once their common prefix is removed. *)
Fixpoint diverge (base targ : list string) : list string * list string :=
  match base, targ with
  | b :: base', t :: targ' => if String.eqb b t then diverge base' targ' else (base, targ)
  | _, _ => (base, targ)
  end.

(** [filepath.Rel]: [None] when no relative path exists without knowing the
    working directory. *)
Definition Rel (basepath targpath : string) : option string :=
  if negb (Bool.eqb (rooted basepath) (rooted targpath)) then None
  else
    let (b, t) := diverge (components basepath) (components targpath) in
    if existsb (String.eqb "..") b then None
    else match (replicate (length b) ".." ++ t)%list with
         | [] => Some "."
         | cs => Some (GoStrings.Join cs "/")
         end.

(** ** Absolute clean paths *)

Definition no_slash (s : string) : bool := all_bytes (λ a, negb (Ascii.eqb "/" a)) s.

(** A component that cleaning keeps. *)
Definition plain (c : string) : Prop := c ≠ "" ∧ c ≠ "." ∧ c ≠ ".." ∧ no_slash c = true.

Definition abs_path (cs : list string) : string := "/" +:+ GoStrings.Join cs "/".

Lemma Split_no_slash c : no_slash c = true → Split c "/" = [c].
Proof.
  induction c as [|a c IH]; [done|]. unfold no_slash. cbn [all_bytes Split]. intros H. to_prop.
  assert (Ascii.eqb a "/" = false) as ->.
  { rewrite Ascii.eqb_sym. done. }
  by rewrite IH.
Qed.

Lemma Split_app c rest : no_slash c = true → Split (c +:+ String "/" rest) "/" = c :: Split rest "/".
Proof.
  induction c as [|a c IH]; unfold no_slash; cbn [all_bytes]; intros H.
  - by change ("" +:+ String "/" rest) with (String "/" rest).
  - to_prop. change (String a c +:+ String "/" rest) with (String a (c +:+ String "/" rest)).
    cbn [Split]. assert (Ascii.eqb a "/" = false) as ->.
    { rewrite Ascii.eqb_sym. done. }
    by rewrite IH.
Qed.

Lemma Split_Join cs :
  Forall (λ c, no_slash c = true) cs → cs ≠ [] → Split (GoStrings.Join cs "/") "/" = cs.
Proof.
  induction 1 as [|c cs Hc Hcs IH]; [done|]. intros _. destruct cs as [|c' cs].
  - by apply Split_no_slash.
  - change (GoStrings.Join (c :: c' :: cs) "/") with (c +:+ String "/" (GoStrings.Join (c' :: cs) "/")).
    rewrite Split_app by done. f_equal. by apply IH.
Qed.

Lemma fold_push_plain r cs stack :
  Forall plain cs → fold_left (clean_push r) cs stack = (rev cs ++ stack)%list.
Proof.
  intros Hcs. revert stack. induction Hcs as [|c cs (H1 & H2 & H3 & _) Hcs IH]; intros stack; [done|].
  simpl. rewrite IH. unfold clean_push.
  destruct (String.eqb_spec c ""), (String.eqb_spec c "."), (String.eqb_spec c ".."); try done. simpl.
  by rewrite <- app_assoc.
Qed.

Lemma components_abs cs : Forall plain cs → components (abs_path cs) = cs.
Proof.
  intros Hcs. unfold components, abs_path. change (rooted ("/" +:+ _)) with true.
  change ("/" +:+ GoStrings.Join cs "/") with (String "/" (GoStrings.Join cs "/")).
  cbn [Split]. change (Ascii.eqb "/" "/") with true. cbv iota. cbn [fold_left].
  change (clean_push true [] "") with (@nil string).
  destruct (decide (cs = [])) as [->|Hne]; [done|].
  rewrite Split_Join; [|by eapply Forall_impl; [exact Hcs|intros c (_ & _ & _ & ?)]|done].
  rewrite fold_push_plain by done. by rewrite app_nil_r, List.rev_involutive.
Qed.

Lemma Clean_abs cs : Forall plain cs → Clean (abs_path cs) = abs_path cs.
Proof.
  intros Hcs. unfold Clean. change (rooted (abs_path cs)) with true. by rewrite components_abs.
Qed.

Lemma Join_snoc cs c :
  GoStrings.Join (cs ++ [c])%list "/" =
  match cs with [] => c | _ => GoStrings.Join cs "/" +:+ "/" +:+ c end.
Proof.
  induction cs as [|d cs IH]; [done|]. destruct cs as [|e cs]; [done|].
  change ((d :: e :: cs) ++ [c])%list with (d :: ((e :: cs) ++ [c]))%list.
  change (GoStrings.Join (d :: ((e :: cs) ++ [c])%list) "/")
    with (d +:+ "/" +:+ GoStrings.Join ((e :: cs) ++ [c])%list "/").
  rewrite IH. change (GoStrings.Join (d :: e :: cs) "/") with (d +:+ "/" +:+ GoStrings.Join (e :: cs) "/").
  by rewrite !str_app_assoc.
Qed.

(** Joining a plain component to an absolute clean path appends it. *)
Lemma Join_plain cs c :
  Forall plain cs → plain c → Join [abs_path cs; c] = abs_path (cs ++ [c])%list.
Proof.
  intros Hcs Hc. unfold Join. rewrite filter_cons_True by done.
  rewrite filter_cons_True by apply Hc.
  change (GoStrings.Join (abs_path cs :: c :: filter (λ e, e ≠ "") []) "/")
    with (abs_path cs +:+ "/" +:+ c).
  destruct cs as [|d cs].
  - unfold Clean. change (rooted _) with true. cbv iota.
    change (abs_path [] +:+ "/" +:+ c) with (String "/" (String "/" c)).
    unfold components. change (rooted _) with true. cbn [Split].
    change (Ascii.eqb "/" "/") with true. cbv iota.
    rewrite Split_no_slash by apply Hc. destruct Hc as (H1 & H2 & H3 & _). cbn [fold_left].
    unfold clean_push. simpl.
    by destruct (String.eqb_spec c ""), (String.eqb_spec c "."), (String.eqb_spec c "..").
  - assert (abs_path (d :: cs) +:+ "/" +:+ c = abs_path ((d :: cs) ++ [c])%list) as ->.
    { unfold abs_path. rewrite Join_snoc. by rewrite str_app_assoc. }
    apply Clean_abs. apply Forall_app. auto.
Qed.

Lemma diverge_prefix b t : diverge b (b ++ t)%list = ([], t).
Proof. induction b as [|c b IH]; simpl; [by destruct t|]. by rewrite String.eqb_refl. Qed.

Lemma diverge_nil b t : (diverge b t).1 = [] → b `prefix_of` t.
Proof.
  revert t. induction b as [|c b IH]; intros [|d t]; simpl; try done.
  - intros _. by exists (d :: t).
  - destruct (String.eqb_spec c d) as [->|]; [|done]. intros H. by apply prefix_cons, IH.
Qed.

Lemma diverge_sub b t : (diverge b t).1 `suffix_of` b ∧ (diverge b t).2 `suffix_of` t.
Proof.
  revert t. induction b as [|c b IH]; intros [|d t]; simpl; try (split; apply suffix_refl || done).
  destruct (String.eqb c d); simpl; [|by split].
  destruct (IH t) as [? ?]. split; by apply suffix_cons_r.
Qed.
