(* ===== verification/ReleaseStore.v ===== *)
(** * The release store ([internal/release])

    Binaries on disk and their metadata in the database.  The file system is a
    map from paths to contents; the failures of its calls, the uploaded bytes
    and the name of the temporary file are an argument ([UploadEnv]).  Mach-O
    parsing is done by a third-party package and the CMS blob is decoded with
    ASN.1 and X.509 parsers: both are parameters ([CodesignEnv]). *)

From stdpp Require Import gmap strings list.
From Stdlib Require Import ZArith Lia Ascii.
From S2P Require Import Prelude GoStrings Encoding Model Database Schema Catalog FilePath.

Local Open Scope string_scope.

(** ** Versions and paths *)

Definition alnum (a : ascii) : bool :=
  let n := nat_of_ascii a in
  (((65 <=? n) && (n <=? 90)) || ((97 <=? n) && (n <=? 122)) || ((48 <=? n) && (n <=? 57)))%nat.
Definition version_byte (a : ascii) : bool :=
  alnum a || Ascii.eqb a "." || Ascii.eqb a "_" || Ascii.eqb a "-".

(** The pattern [^[A-Za-z0-9][A-Za-z0-9._-]{0,63}$]. *)
Definition ValidateVersion (version : string) : bool :=
  match version with
  | EmptyString => false
  | String a rest => alnum a && all_bytes version_byte rest && (String.length rest <=? 63)%nat
  end.

Definition isWithinStorage (storagePath path : string) : bool :=
  match Rel storagePath path with
  | None => false
  | Some relPath => if String.eqb relPath ".." then false else negb (HasPrefix relPath "../")
  end.

Inductive StoreError :=
| ErrInvalidVersion | ErrEscapes | ErrEmptyPath | ErrVersionExists
| ErrCheck | ErrTemp | ErrWrite | ErrSignature | ErrExtract | ErrMkdir | ErrRename | ErrChmod | ErrInsert.

Definition releasePaths (storagePath version : string) : StoreError + (string * string) :=
  if negb (ValidateVersion version) then inl ErrInvalidVersion
  else
    let versionDir := FilePath.Join [storagePath; version] in
    if negb (isWithinStorage storagePath versionDir) then inl ErrEscapes
    else
      let finalPath := FilePath.Join [versionDir; "minicontrol-worker"] in
      if negb (isWithinStorage storagePath finalPath) then inl ErrEscapes
      else inr (versionDir, finalPath).

(** [filepath.Abs]: a relative path is joined to the working directory. *)
Definition Abs (cwd path : string) : string :=
  if rooted path then Clean path else FilePath.Join [cwd; path].

Definition BinaryPath (cwd storagePath : string) (r : Release) : StoreError + string :=
  if String.eqb (rl_FilePath r) "" then inl ErrEmptyPath
  else
    let absPath := Abs cwd (rl_FilePath r) in
    if negb (isWithinStorage storagePath absPath) then inl ErrEscapes else inr absPath.

(** ** Code signatures *)

Record SigningInfo := mkSigningInfo {
  si_ID : string; si_TeamID : string; si_CommonName : string; si_CDHash : string
}.

Record CodeDirectory := mkCodeDirectory { cd_ID : string; cd_TeamID : string; cd_CDHash : string }.
Record CodeSignature := mkCodeSignature {
  cs_CodeDirectories : list CodeDirectory; cs_CMSSignature : list Z
}.
(** A certificate of the CMS blob: is it a CA, and its subject's common name. *)
Record Certificate := mkCertificate { ct_IsCA : bool; ct_CommonName : string }.

(** A Mach-O file is what [CodeSignature] returns of it. *)
Class CodesignEnv := {
  macho_Open : list Z → option (option CodeSignature);
  macho_OpenFat : list Z → option (list (option CodeSignature));
  cms_certificates : list Z → option (list Certificate)
}.

Section Codesign.
Context `{!CodesignEnv}.

Definition extractCNFromCMS (cmsData : list Z) : option string :=
  match cms_certificates cmsData with
  | None | Some [] => None
  | Some (first :: rest) =>
      match head (filter (λ c, ct_IsCA c = false) (first :: rest)) with
      | Some cert => Some (ct_CommonName cert)
      | None => Some (ct_CommonName first)
      end
  end.

Definition extractFromFile (f : option CodeSignature) : option SigningInfo :=
  match f with
  | None => None
  | Some cs =>
      let '(id, team, cdhash) :=
        match cs_CodeDirectories cs with
        | [] => ("", "", "")
        | cd :: _ => (cd_ID cd, cd_TeamID cd, cd_CDHash cd)
        end in
      let commonName :=
        match cs_CMSSignature cs with
        | [] => ""
        | blob =>
            match extractCNFromCMS blob with
            | Some cn => cn
            | None =>
                if negb (String.eqb team "")
                then "(team: " +:+ team +:+ ", id: " +:+ id +:+ ")" else ""
            end
        end in
      if String.eqb team "" && String.eqb commonName "" then None
      else Some (mkSigningInfo id team commonName cdhash)
  end.

Definition ExtractSigningInfo (binary : list Z) : option SigningInfo :=
  match macho_Open binary with
  | Some f => extractFromFile f
  | None =>
      match macho_OpenFat binary with
      | None | Some [] => None
      | Some (arch :: _) => extractFromFile arch
      end
  end.

Definition ValidateSigningIdentity (binary : list Z) (requiredIdentity : string) : bool :=
  match ExtractSigningInfo binary with
  | None => false
  | Some info => String.eqb (si_CommonName info) requiredIdentity
  end.
End Codesign.

(** ** Uploading *)

Record Disk := mkDisk { dk_files : gmap string (list Z) }.

Definition write_file (path : string) (content : list Z) (d : Disk) : Disk :=
  mkDisk (<[path := content]> (dk_files d)).
Definition remove_file (path : string) (d : Disk) : Disk := mkDisk (delete path (dk_files d)).
Definition rename_file (old new : string) (d : Disk) : Disk :=
  match dk_files d !! old with
  | Some content => mkDisk (<[new := content]> (delete old (dk_files d)))
  | None => d
  end.

(** One upload: the temporary name, the bytes received (and whether all were),
    and which file-system calls succeed. *)
Record UploadEnv := mkUploadEnv {
  up_tmp : string;
  up_bytes : list Z;
  up_create_ok : bool;
  up_copy_ok : bool;
  up_mkdir_ok : bool;
  up_rename_ok : bool;
  up_chmod_ok : bool
}.

Record Store := mkStore { st_storagePath : string; st_requiredSigningID : string }.

Section Upload.
Context `{!CodesignEnv}.

Definition StoreState : Type := World * Disk.

(** The check for an existing version. *)
Definition Upload_check (version : string) (st : StoreState) : (StoreError + unit) * StoreState :=
  let (r, w) := GetReleaseByVersion version st.1 in
  match r with
  | inr _ => (inl ErrVersionExists, (w, st.2))
  | inl err => if IsNotFound err then (inr tt, (w, st.2)) else (inl ErrCheck, (w, st.2))
  end.

Definition release_record (env : UploadEnv) (version finalPath : string) : Release :=
  mkRelease "" version (hex_encode (Sha256.digest (up_bytes env))) (Z.of_nat (length (up_bytes env)))
    (match ExtractSigningInfo (up_bytes env) with Some info => si_CommonName info | None => "" end)
    finalPath 0.

(** Receiving and validating the binary: the temporary file. *)
Definition Upload_receive (s : Store) (env : UploadEnv) (d : Disk) : (StoreError + unit) * Disk :=
  if negb (up_create_ok env) then (inl ErrTemp, d)
  else
    let d := write_file (up_tmp env) (up_bytes env) d in
    let cleanup := remove_file (up_tmp env) d in
    if negb (up_copy_ok env) then (inl ErrWrite, cleanup)
    else if negb (String.eqb (st_requiredSigningID s) "")
            && negb (ValidateSigningIdentity (up_bytes env) (st_requiredSigningID s))
    then (inl ErrSignature, cleanup)
    else if bool_decide (ExtractSigningInfo (up_bytes env) = None)
            && negb (String.eqb (st_requiredSigningID s) "")
    then (inl ErrExtract, cleanup)
    else (inr tt, d).

(** Publishing it: the final file, then the database row.  A failed insertion
    removes the final file. *)
Definition Upload_publish (env : UploadEnv) (dbnow : Z) (newID version finalPath : string)
    (st : StoreState) : (StoreError + Release) * StoreState :=
  let '(w, d) := st in
  if negb (up_mkdir_ok env) then (inl ErrMkdir, (w, remove_file (up_tmp env) d))
  else if negb (up_rename_ok env) then (inl ErrRename, (w, remove_file (up_tmp env) d))
  else
    let d := remove_file (up_tmp env) (rename_file (up_tmp env) finalPath d) in
    if negb (up_chmod_ok env) then (inl ErrChmod, (w, d))
    else
      let (r, w) := InsertRelease dbnow newID (release_record env version finalPath) w in
      match r with
      | inr release => (inr release, (w, d))
      | inl ErrReleaseVersionExists => (inl ErrVersionExists, (w, remove_file finalPath d))
      | inl _ => (inl ErrInsert, (w, remove_file finalPath d))
      end.

Definition Upload (s : Store) (env : UploadEnv) (dbnow : Z) (newID version : string)
    (st : StoreState) : (StoreError + Release) * StoreState :=
  match releasePaths (st_storagePath s) version with
  | inl err => (inl err, st)
  | inr (_, finalPath) =>
      match Upload_check version st with
      | (inl err, st) => (inl err, st)
      | (inr _, (w, d)) =>
          match Upload_receive s env d with
          | (inl err, d) => (inl err, (w, d))
          | (inr _, d) => Upload_publish env dbnow newID version finalPath (w, d)
          end
      end
  end.
End Upload.

(** ** Paths stay within the store *)

Lemma alnum_version_byte a : alnum a = true → version_byte a = true.
Proof. unfold version_byte. by intros ->. Qed.

Lemma version_byte_no_slash a : version_byte a = true → negb (Ascii.eqb "/" a) = true.
Proof. destruct a as [[] [] [] [] [] [] [] []]; vm_compute; done. Qed.

Lemma alnum_not_dot a : alnum a = true → a ≠ "."%char.
Proof. by intros H ->. Qed.

(** A valid version is a plain path component. *)
Lemma ValidateVersion_plain version : ValidateVersion version = true → plain version.
Proof.
  destruct version as [|a rest]; [done|]. simpl. intros H. to_prop.
  pose proof (alnum_not_dot _ H) as Hdot. split; [done|]. split; [congruence|]. split; [congruence|].
  unfold no_slash. cbn [all_bytes]. rewrite version_byte_no_slash by by apply alnum_version_byte.
  eapply all_bytes_impl; [apply version_byte_no_slash|done].
Qed.

(** A relative path climbs out exactly when its first component is "..". *)
Lemma climbs_out c cs :
  Forall (λ c, no_slash c = true) (c :: cs) →
  (if String.eqb (GoStrings.Join (c :: cs) "/") ".." then false
   else negb (HasPrefix (GoStrings.Join (c :: cs) "/") "../")) = negb (String.eqb c "..").
Proof.
  intros Hns. pose proof (Split_Join (c :: cs) Hns ltac:(done)) as Hsplit.
  destruct (String.eqb_spec (GoStrings.Join (c :: cs) "/") "..") as [E|Hne].
  - rewrite E in Hsplit. simpl in Hsplit. injection Hsplit as <- <-. done.
  - destruct (HasPrefix _ "../") eqn:Ep; simpl.
    + apply HasPrefix_true in Ep as [r Hr]. rewrite Hr in Hsplit.
      change ("../" +:+ r) with (".." +:+ String "/" r) in Hsplit.
      rewrite Split_app in Hsplit by done. injection Hsplit as <- _. done.
    + destruct (String.eqb_spec c "..") as [->|]; [|done]. exfalso.
      destruct cs as [|d cs]; [done|].
      assert (HasPrefix (GoStrings.Join (".." :: d :: cs) "/") "../" = true) as Hp; [|congruence].
      apply HasPrefix_true. by exists (GoStrings.Join (d :: cs) "/").
Qed.

Lemma isWithinStorage_abs root p :
  Forall plain root → Forall plain p →
  isWithinStorage (abs_path root) (abs_path p) = true ↔ root `prefix_of` p.
Proof.
  intros Hr Hp. unfold isWithinStorage, Rel.
  change (rooted (abs_path root)) with true. change (rooted (abs_path p)) with true. cbn [Bool.eqb negb].
  rewrite !components_abs by done.
  destruct (diverge_sub root p) as [Hb Ht]. pose proof (diverge_nil root p) as Hnil.
  pose proof (diverge_prefix root) as Hpre.
  destruct (diverge root p) as [b t] eqn:Ed. simpl in Hb, Ht, Hnil.
  assert (Forall plain b ∧ Forall plain t) as [Hpb Hpt].
  { destruct Hb as [k1 ->], Ht as [k2 ->]. apply Forall_app in Hr as [_ ?], Hp as [_ ?]. done. }
  assert (existsb (String.eqb "..") b = false) as ->.
  { clear -Hpb. induction Hpb as [|c b (_ & _ & Hc & _) _ IH]; [done|]. cbn [existsb]. rewrite IH.
    destruct (String.eqb_spec ".." c); [congruence|done]. }
  assert (Forall (λ c, no_slash c = true) t) as Hns.
  { eapply Forall_impl; [exact Hpt|]. by intros c (_ & _ & _ & ?). }
  destruct b as [|c b]; cbn [length replicate app].
  - split; [by intros _; apply Hnil|]. intros _. destruct t as [|c t]; [done|].
    rewrite climbs_out by done. apply Forall_cons in Hpt as [(_ & _ & Hc & _) _].
    by destruct (String.eqb_spec c "..").
  - assert (Forall (λ c, no_slash c = true) (".." :: replicate (length b) ".." ++ t)%list) as Hns'.
    { constructor; [done|]. apply Forall_app. split; [|done]. by apply Forall_replicate. }
    rewrite climbs_out by done. split; [done|]. intros [k ->]. by rewrite Hpre in Ed.
Qed.

Lemma releasePaths_spec' root version :
  Forall plain root →
  releasePaths (abs_path root) version =
  (if ValidateVersion version
   then inr (abs_path (root ++ [version])%list, abs_path (root ++ [version; "minicontrol-worker"])%list)
   else inl ErrInvalidVersion).
Proof.
  intros Hr. assert (plain "minicontrol-worker") as Hw by by vm_compute.
  unfold releasePaths. destruct (ValidateVersion version) eqn:Ev; [|done]. simpl.
  pose proof (ValidateVersion_plain _ Ev) as Hv.
  rewrite Join_plain by done.
  rewrite (proj2 (isWithinStorage_abs root (root ++ [version])%list Hr ltac:(apply Forall_app; auto)))
    by by eexists.
  simpl. rewrite Join_plain; [|by apply Forall_app; auto|done]. rewrite <- app_assoc. simpl.
  rewrite (proj2 (isWithinStorage_abs root (root ++ [version; "minicontrol-worker"])%list Hr
    ltac:(apply Forall_app; auto))) by by eexists.
  done.
Qed.

(** Where releases are stored: for a store at an absolute clean path and a
    version the pattern admits, [releasePaths] returns "root/version" and
    "root/version/minicontrol-worker", which lie within the store; any other
    version is refused.  Different versions have different files. *)
Theorem releasePaths_spec root version :
  Forall plain root →
  releasePaths (abs_path root) version =
  (if ValidateVersion version
   then inr (abs_path (root ++ [version])%list, abs_path (root ++ [version; "minicontrol-worker"])%list)
   else inl ErrInvalidVersion) ∧
  (∀ version', abs_path (root ++ [version; "minicontrol-worker"])%list =
               abs_path (root ++ [version'; "minicontrol-worker"])%list →
     ValidateVersion version = true → ValidateVersion version' = true → version = version').
Proof.
  intros Hr. assert (plain "minicontrol-worker") as Hw by by vm_compute.
  split.
  - by apply releasePaths_spec'.
  - intros version' E Hv%ValidateVersion_plain Hv'%ValidateVersion_plain.
    assert (components (abs_path (root ++ [version; "minicontrol-worker"])%list) =
            components (abs_path (root ++ [version'; "minicontrol-worker"])%list)) as Ec by by rewrite E.
    rewrite !components_abs in Ec by (apply Forall_app; auto).
    apply app_inv_head in Ec. congruence.
Qed.

Lemma releasePaths_spec_witness :
  Forall plain ["var"; "releases"] ∧
  releasePaths "/var/releases" "1.2.0" =
    inr ("/var/releases/1.2.0", "/var/releases/1.2.0/minicontrol-worker").
Proof.
  assert (Forall plain ["var"; "releases"]) as Hr by (repeat constructor; vm_compute; congruence).
  split; [exact Hr|]. exact (proj1 (releasePaths_spec ["var"; "releases"] "1.2.0" Hr)).
Defined.

(** ** Published releases *)

Definition release_file (root : list string) (version : string) : string :=
  abs_path (root ++ [version; "minicontrol-worker"])%list.

(** Every release of the database is on disk under its own path, and its digest
    and size are those of the file. *)
Definition published (root : list string) (t : Tables) (d : Disk) : Prop :=
  ∀ id r, releases t !! id = Some r →
    ValidateVersion (rl_Version r) = true ∧ rl_FilePath r = release_file root (rl_Version r) ∧
    ∃ content, dk_files d !! rl_FilePath r = Some content ∧
      rl_SHA256 r = hex_encode (Sha256.digest content) ∧
      rl_SizeBytes r = Z.of_nat (length content).

Lemma release_file_inj root v v' :
  Forall plain root → ValidateVersion v = true → ValidateVersion v' = true →
  release_file root v = release_file root v' → v = v'.
Proof.
  intros Hr Hv%ValidateVersion_plain Hv'%ValidateVersion_plain E.
  assert (plain "minicontrol-worker") as Hw by by vm_compute.
  apply (f_equal components) in E. unfold release_file in E.
  rewrite !components_abs in E by (apply Forall_app; auto). apply app_inv_head in E. congruence.
Qed.

(** The temporary file is directly in the store's directory. *)
Lemma temp_not_release root name v :
  Forall plain root → plain name → ValidateVersion v = true →
  abs_path (root ++ [name])%list ≠ release_file root v.
Proof.
  intros Hr Hn Hv%ValidateVersion_plain E. assert (plain "minicontrol-worker") as Hw by by vm_compute.
  apply (f_equal components) in E. unfold release_file in E.
  rewrite !components_abs in E by (apply Forall_app; auto).
  apply app_inv_head in E. done.
Qed.

(** Files that no release of the database names may change freely. *)
Lemma published_disk root t d d' :
  published root t d →
  (∀ v, ValidateVersion v = true → (∃ id r, releases t !! id = Some r ∧ rl_Version r = v) →
     dk_files d' !! release_file root v = dk_files d !! release_file root v) →
  published root t d'.
Proof.
  intros Hp Hd id r Hr. destruct (Hp id r Hr) as (Hv & Hf & content & Hc & Hrest).
  split; [done|]. split; [done|]. exists content. split; [|done].
  rewrite Hf in *. rewrite Hd; eauto.
Qed.

(** Inserting a release when no reply is lost. *)
Lemma InsertRelease_reliable dbnow newID r d wk fs :
  FailAfter ∉ fs →
  let run := InsertRelease dbnow newID r (mkWorld d wk fs) in
  (∃ e, run.1 = inl e ∧ durable run.2 = d) ∨
  (∃ r', run.1 = inr r' ∧ durable run.2 = set_releases <[newID := r']> d ∧
     rl_Version r' = rl_Version r ∧ rl_SHA256 r' = rl_SHA256 r ∧ rl_SizeBytes r' = rl_SizeBytes r ∧
     rl_FilePath r' = rl_FilePath r ∧ releases d !! newID = None).
Proof.
  intros Hfs. cbv zeta. unfold InsertRelease, mbind, DB_bind, try, pool_exec, next_fault. simpl.
  set (row := mkRelease newID _ _ _ _ _ _).
  assert (∀ fs', let run := match insert_release_row row d with
      | inl e => (inl e, mkWorld d wk fs')
      | inr (a, t) => (inr a, mkWorld t wk fs')
      end in
    (∃ e, run.1 = inl e ∧ durable run.2 = d) ∨
    (run.1 = inr row ∧ durable run.2 = set_releases <[newID := row]> d ∧ releases d !! newID = None))
    as Hrow.
  { intros fs'. unfold insert_release_row. destruct (_ || _) eqn:Eb; [left; by eexists|].
    right. apply orb_false_iff in Eb as [Eb%bool_decide_eq_false _]. by apply eq_None_not_Some in Eb. }
  destruct fs as [|[] fs]; [| |left; by eauto|by exfalso; apply Hfs; left]; simpl;
    [specialize (Hrow [])|specialize (Hrow fs)];
    (destruct (insert_release_row row d) as [e|[r' t']]; simpl in *;
     [left; destruct e as [|[]| | | | | | | |]; by eauto|]);
    (destruct Hrow as [(e & He & _)|([= ->] & Ht & Hn)]; [done|]); right; exists row; done.
Qed.

Section UploadSpec.
Context `{!CodesignEnv}.

Lemma check_reads version w d :
  ∃ w', (Upload_check version (w, d)).2 = (w', d) ∧ durable w' = durable w ∧
    faults w' `suffix_of` faults w ∧
    ((Upload_check version (w, d)).1 = inr tt → by_version version (durable w) = None).
Proof.
  unfold Upload_check, GetReleaseByVersion, pool_exec, next_fault, select_row. destruct w as [t wk fs].
  simpl. destruct fs as [|[] fs]; simpl; destruct (by_version version t); simpl;
    eexists; (split; [reflexivity|]); simpl; (split; [done|]); (split; [|done]);
    try done; try (by apply suffix_cons_r).
Qed.

(** Receiving leaves at most the temporary file, holding the bytes received. *)
Lemma receive_disk s env d p :
  p ≠ up_tmp env → dk_files (Upload_receive s env d).2 !! p = dk_files d !! p.
Proof.
  intros Hp. unfold Upload_receive. destruct (negb (up_create_ok env)); [done|].
  repeat case_match; simpl; rewrite ?lookup_delete_ne, ?lookup_insert_ne by done; done.
Qed.

Lemma receive_ok s env d :
  (Upload_receive s env d).1 = inr tt →
  dk_files (Upload_receive s env d).2 !! up_tmp env = Some (up_bytes env) ∧
  (st_requiredSigningID s ≠ "" →
   ∃ info, ExtractSigningInfo (up_bytes env) = Some info ∧ si_CommonName info = st_requiredSigningID s).
Proof.
  unfold Upload_receive. destruct (negb (up_create_ok env)); [done|].
  destruct (negb (up_copy_ok env)); [done|].
  destruct (String.eqb_spec (st_requiredSigningID s) "") as [->|Hne]; simpl.
  - rewrite andb_false_r. intros _. simpl. by rewrite lookup_insert_eq.
  - unfold ValidateSigningIdentity. destruct (ExtractSigningInfo (up_bytes env)) as [info|] eqn:Ei;
      [|done].
    destruct (String.eqb_spec (si_CommonName info) (st_requiredSigningID s)) as [E|]; [|done]. simpl.
    rewrite lookup_insert_eq. eauto.
Qed.

Lemma publish_disk env finalPath d p :
  p ≠ up_tmp env → p ≠ finalPath →
  dk_files (remove_file (up_tmp env) (rename_file (up_tmp env) finalPath d)) !! p = dk_files d !! p.
Proof.
  intros H1 H2. unfold rename_file. destruct (dk_files d !! up_tmp env); simpl;
    rewrite ?lookup_delete_ne, ?lookup_insert_ne, ?lookup_delete_ne by done; done.
Qed.

Lemma upload_publish_keeps root env dbnow newID version required w d :
  Forall plain root → ValidateVersion version = true →
  (∀ v, ValidateVersion v = true → release_file root v ≠ up_tmp env) →
  published root (durable w) d → by_version version (durable w) = None →
  FailAfter ∉ faults w → dk_files d !! up_tmp env = Some (up_bytes env) →
  (required ≠ "" → ∃ info, ExtractSigningInfo (up_bytes env) = Some info ∧ si_CommonName info = required) →
  let run := Upload_publish env dbnow newID version (release_file root version) (w, d) in
  published root (durable run.2.1) run.2.2 ∧
  (∀ r, run.1 = inr r →
     releases (durable run.2.1) !! newID = Some r ∧ rl_Version r = version ∧
     dk_files run.2.2 !! release_file root version = Some (up_bytes env) ∧
     rl_SHA256 r = hex_encode (Sha256.digest (up_bytes env)) ∧
     (required ≠ "" → ∃ info, ExtractSigningInfo (up_bytes env) = Some info ∧
        si_CommonName info = required)).
Proof.
  intros Hroot Hv Htmp Hpub Hnone Hfs Hfile Hsig. cbv zeta. unfold Upload_publish.
  set (final := release_file root version).
  assert (∀ v, ValidateVersion v = true →
    (∃ id r, releases (durable w) !! id = Some r ∧ rl_Version r = v) → release_file root v ≠ final) as Hother.
  { intros v Hv' (id & r & Hr & Er) E. apply release_file_inj in E; try done.
    rewrite by_version_None in Hnone. apply (Hnone id r Hr). congruence. }
  assert (∀ d', (∀ p, p ≠ up_tmp env → p ≠ final → dk_files d' !! p = dk_files d !! p) →
    published root (durable w) d') as Hdisk.
  { intros d' Hd'. apply (published_disk root (durable w) d); [done|]. auto. }
  destruct (negb (up_mkdir_ok env)).
  { split; [|done]. apply Hdisk. intros p H1 H2. simpl. by rewrite lookup_delete_ne. }
  destruct (negb (up_rename_ok env)).
  { split; [|done]. apply Hdisk. intros p H1 H2. simpl. by rewrite lookup_delete_ne. }
  set (d1 := remove_file _ _).
  assert (∀ p, p ≠ up_tmp env → p ≠ final → dk_files d1 !! p = dk_files d !! p) as Hd1
    by (intros; by apply publish_disk).
  assert (dk_files d1 !! final = Some (up_bytes env)) as Hfinal.
  { unfold d1, rename_file. rewrite Hfile. simpl. rewrite lookup_delete_ne by by apply not_eq_sym, Htmp.
    by rewrite lookup_insert_eq. }
  destruct (negb (up_chmod_ok env)); [by split; [apply Hdisk|]|].
  destruct w as [t wk fs]. simpl in *.
  destruct (InsertRelease_reliable dbnow newID (release_record env version final) t wk fs Hfs)
    as [(e & He & Hd)|(r & Hr & Hd & Hrv & Hrs & Hrz & Hrf & Hnew)];
    destruct (InsertRelease _ _ _ _) as [res w']; simpl in *; subst res.
  - assert (published root (durable w') (remove_file final d1)) as Hp.
    { rewrite Hd. apply Hdisk. intros p H1 H2. simpl. rewrite lookup_delete_ne by done. auto. }
    by destruct e as [|[]| | | | | | | |].
  - split.
    + simpl. rewrite Hd. intros id r0 Hid. simpl in Hid.
      apply lookup_insert_Some in Hid as [[<- <-]|[Hne Hr0]].
      * rewrite Hrv, Hrf, Hrs, Hrz. split; [done|]. split; [done|]. by exists (up_bytes env).
      * by apply (Hdisk d1 Hd1 id r0).
    + intros r0 [= <-]. simpl. rewrite Hd. simpl. rewrite lookup_insert_eq. done.
Qed.

Lemma upload_keeps_run root s env dbnow newID version name t d fs :
  Forall plain root → st_storagePath s = abs_path root →
  plain name → up_tmp env = abs_path (root ++ [name])%list →
  FailAfter ∉ fs → published root t d →
  let run := Upload s env dbnow newID version (mkWorld t t fs, d) in
  published root (durable run.2.1) run.2.2 ∧
  (∀ r, run.1 = inr r →
     releases (durable run.2.1) !! newID = Some r ∧ rl_Version r = version ∧
     dk_files run.2.2 !! release_file root version = Some (up_bytes env) ∧
     rl_SHA256 r = hex_encode (Sha256.digest (up_bytes env)) ∧
     (st_requiredSigningID s ≠ "" → ∃ info, ExtractSigningInfo (up_bytes env) = Some info ∧
        si_CommonName info = st_requiredSigningID s)).
Proof.
  intros Hroot Hsp Hname Htmp Hfs Hpub. cbv zeta. unfold Upload.
  rewrite Hsp, (releasePaths_spec' root version Hroot).
  destruct (ValidateVersion version) eqn:Hv; [|by split].
  destruct (check_reads version (mkWorld t t fs) d) as (w1 & E1 & Hd1 & Hsuf & Hnone).
  destruct (Upload_check version _) as [[e|[]] st1]; simpl in E1; subst st1.
  { simpl. by rewrite Hd1. }
  specialize (Hnone eq_refl). simpl in Hd1, Hsuf, Hnone.
  pose proof (receive_disk s env d) as Hrd. pose proof (receive_ok s env d) as Hrok.
  assert (∀ v, ValidateVersion v = true → release_file root v ≠ up_tmp env) as Htmpv.
  { intros v Hv' E. rewrite Htmp in E. by apply (temp_not_release root name v). }
  destruct (Upload_receive s env d) as [[e|[]] d2]; simpl in *.
  { split; [|done]. rewrite Hd1. apply (published_disk root t d); [done|]. intros v Hv' _. auto. }
  destruct (Hrok eq_refl) as [Htf Hsig].
  apply upload_publish_keeps; try done.
  - rewrite Hd1. apply (published_disk root t d); [done|]. intros v Hv' _. auto.
  - by rewrite Hd1.
  - intros Hin. apply Hfs. destruct Hsuf as [k ->]. set_solver.
Qed.

Definition signed_as (required : string) (binary : list Z) : Prop :=
  required = "" ∨
  ∃ info, ExtractSigningInfo binary = Some info ∧ si_CommonName info = required.

Lemma upload_succeeds root s env dbnow newID version t d :
  Forall plain root → st_storagePath s = abs_path root → ValidateVersion version = true →
  (∀ id r, releases t !! id = Some r → rl_Version r ≠ version) → releases t !! newID = None →
  up_create_ok env = true → up_copy_ok env = true → up_mkdir_ok env = true →
  up_rename_ok env = true → up_chmod_ok env = true → signed_as (st_requiredSigningID s) (up_bytes env) →
  ∃ r, (Upload s env dbnow newID version (mkWorld t t [], d)).1 = inr r.
Proof.
  intros Hroot Hsp Hv Hno Hnew H1 H2 H3 H4 H5 Hsig. unfold Upload.
  rewrite Hsp, (releasePaths_spec' root version Hroot), Hv.
  apply by_version_None in Hno as Hbv.
  assert (Upload_check version (mkWorld t t [], d) = (inr tt, (mkWorld t t [], d))) as ->.
  { unfold Upload_check, GetReleaseByVersion, pool_exec, next_fault, select_row. simpl. by rewrite Hbv. }
  assert (Upload_receive s env d = (inr tt, write_file (up_tmp env) (up_bytes env) d)) as ->.
  { unfold Upload_receive, ValidateSigningIdentity. rewrite H1, H2. cbn [negb].
    destruct Hsig as [->|(info & -> & Hcn)]; [by rewrite andb_false_r|].
    rewrite (proj2 (String.eqb_eq _ _) Hcn). by destruct (String.eqb _ ""). }
  unfold Upload_publish. rewrite H3, H4, H5. cbn [negb].
  unfold InsertRelease, mbind, DB_bind, try, pool_exec, next_fault. simpl.
  unfold insert_release_row. simpl. rewrite Hbv, Hnew.
  rewrite !bool_decide_eq_false_2 by apply is_Some_None. simpl. by eexists.
Qed.

(** C39. Uploading keeps the store consistent: starting from a state in which every
    release row has its file, with the recorded digest and size, and whatever
    file-system call or database statement fails (short of a lost reply), after
    an upload the same holds; when it reports success, the new row is among
    them, its file holds exactly the bytes received and its digest is theirs,
    and when a signing identity is required the binary's is that one.  And it
    does report success when nothing fails, the version is well formed and new,
    and the binary names the required identity. *)
Theorem upload_spec root s env dbnow newID version name t d fs :
  Forall plain root → st_storagePath s = abs_path root →
  plain name → up_tmp env = abs_path (root ++ [name])%list →
  FailAfter ∉ fs → published root t d →
  let run := Upload s env dbnow newID version (mkWorld t t fs, d) in
  published root (durable run.2.1) run.2.2 ∧
  (∀ r, run.1 = inr r →
     releases (durable run.2.1) !! newID = Some r ∧ rl_Version r = version ∧
     dk_files run.2.2 !! release_file root version = Some (up_bytes env) ∧
     rl_SHA256 r = hex_encode (Sha256.digest (up_bytes env)) ∧
     signed_as (st_requiredSigningID s) (up_bytes env)) ∧
  (fs = [] → ValidateVersion version = true →
     (∀ id r, releases t !! id = Some r → rl_Version r ≠ version) → releases t !! newID = None →
     up_create_ok env = true → up_copy_ok env = true → up_mkdir_ok env = true →
     up_rename_ok env = true → up_chmod_ok env = true →
     signed_as (st_requiredSigningID s) (up_bytes env) →
     ∃ r, run.1 = inr r).
Proof.
  intros Hroot Hsp Hname Htmp Hfs Hpub. cbv zeta.
  destruct (upload_keeps_run root s env dbnow newID version name t d fs Hroot Hsp Hname Htmp Hfs Hpub)
    as [Hp Hr].
  split; [done|]. split; [|intros ->; by apply upload_succeeds with (root := root)].
  intros r Er. destruct (Hr r Er) as (E1 & E2 & E3 & E4 & E5). split_and!; try done.
  unfold signed_as. destruct (decide (st_requiredSigningID s = "")); auto.
Qed.

(** Two uploads of the same version under way at once: both check before either
    publishes. *)
Definition interleaved_uploads (s : Store) (envA envB : UploadEnv) (dbnow : Z) (idA idB version finalPath : string)
    (st : StoreState) : (StoreError + Release) * (StoreError + Release) * StoreState :=
  match Upload_check version st with
  | (inl err, st) => (inl err, inl err, st)
  | (inr _, st) =>
      match Upload_check version st with
      | (inl err, st) => (inl err, inl err, st)
      | (inr _, (w, d)) =>
          match Upload_receive s envA d with
          | (inl err, d) => (inl err, inl err, (w, d))
          | (inr _, d) =>
              match Upload_receive s envB d with
              | (inl err, d) => (inl err, inl err, (w, d))
              | (inr _, d) =>
                  let (rA, st) := Upload_publish envA dbnow idA version finalPath (w, d) in
                  let (rB, st) := Upload_publish envB dbnow idB version finalPath st in
                  (rA, rB, st)
              end
          end
      end
  end.

Definition smooth (tmp : string) (bytes : list Z) : UploadEnv := mkUploadEnv tmp bytes true true true true true.

Lemma insert_release_dup r t : is_Some (by_version (rl_Version r) t) →
  insert_release_row r t = inl (PgError UniqueViolation).
Proof. intros Hv. unfold insert_release_row. by rewrite (bool_decide_eq_true_2 _ Hv), orb_true_r. Qed.

Lemma insert_release_fresh r t : by_version (rl_Version r) t = None → releases t !! rl_ID r = None →
  insert_release_row r t = inr (r, set_releases <[rl_ID r := r]> t).
Proof.
  intros H1 H2. unfold insert_release_row. rewrite H1, H2. by rewrite !bool_decide_eq_false_2 by apply is_Some_None.
Qed.

(** A race between uploads of one version, with no fault at all: when both
    have looked the version up before either publishes, the first succeeds, the
    second is refused because the version exists and, cleaning up, removes the
    final file that the first one's row names. *)
Theorem concurrent_uploads_unpublish storage tmpA tmpB bytesA bytesB dbnow idA idB version finalPath t d :
  by_version version t = None → releases t !! idA = None →
  tmpA ≠ tmpB → tmpA ≠ finalPath → tmpB ≠ finalPath →
  let '(rA, rB, (w, d')) :=
    interleaved_uploads (mkStore storage "") (smooth tmpA bytesA) (smooth tmpB bytesB)
      dbnow idA idB version finalPath (mkWorld t t [], d) in
  (∃ r, rA = inr r ∧ releases (durable w) !! idA = Some r ∧
        rl_Version r = version ∧ rl_FilePath r = finalPath) ∧
  rB = inl ErrVersionExists ∧ dk_files d' !! finalPath = None.
Proof.
  intros Hv Hid Hne HA HB. unfold interleaved_uploads.
  unfold Upload_check, GetReleaseByVersion, pool_exec, next_fault, select_row. simpl. rewrite Hv. simpl.
  rewrite Hv. simpl. unfold Upload_receive. simpl.
  rewrite !andb_false_r. simpl. unfold Upload_publish, InsertRelease, mbind, DB_bind, try, pool_exec, next_fault.
  simpl. rewrite insert_release_fresh by done. simpl.
  rewrite insert_release_dup; simpl.
  - split; [|split; [done|by rewrite lookup_delete_eq]].
    eexists. split; [done|]. by rewrite lookup_insert_eq.
  - apply not_eq_None_Some. rewrite by_version_None. intros Hno.
    by apply (Hno idA (mkRelease idA version (hex_encode (Sha256.digest bytesA)) (Z.of_nat (length bytesA))
      (match ExtractSigningInfo bytesA with Some info => si_CommonName info | None => "" end) finalPath dbnow));
      [apply lookup_insert_eq|].
Qed.

(** A lost reply has the same effect: when the connection breaks after the
    database has stored the row, the upload reports a failure and removes the
    file, so the row that stays names a file that does not exist. *)
Theorem lost_reply_unpublishes tmp bytes dbnow newID version finalPath t d :
  by_version version t = None → releases t !! newID = None → tmp ≠ finalPath →
  let '(r, (w, d')) := Upload_publish (smooth tmp bytes) dbnow newID version finalPath
                         (mkWorld t t [FailAfter], write_file tmp bytes d) in
  r = inl ErrInsert ∧
  (∃ row, releases (durable w) !! newID = Some row ∧ rl_FilePath row = finalPath) ∧
  dk_files d' !! finalPath = None.
Proof.
  intros Hv Hid Hne.
  unfold Upload_publish, InsertRelease, mbind, DB_bind, try, pool_exec, next_fault. simpl.
  rewrite insert_release_fresh by done. simpl. split; [done|].
  split; [eexists; by rewrite lookup_insert_eq|by rewrite lookup_delete_eq].
Qed.
End UploadSpec.

(** No binary has a signature. *)
Definition unsigned : CodesignEnv :=
  {| macho_Open := λ _, None; macho_OpenFat := λ _, None; cms_certificates := λ _, None |}.

Lemma upload_spec_witness :
  let env := smooth "/var/releases/upload-1.tmp" [97; 98; 99]%Z in
  let run := Upload (H := unsigned) (mkStore "/var/releases" "") env 1 "r-1" "1.0"
               (mkWorld empty_tables empty_tables [], mkDisk ∅) in
  published ["var"; "releases"] (durable run.2.1) run.2.2 ∧
  match run.1 with
  | inr r => rl_SHA256 r = "ba7816bf8f01cfea414140de5dae2223b00361a396177a9cb410ff61f20015ad"
  | inl _ => False
  end.
Proof.
  cbv zeta. split; [|by vm_compute].
  apply (upload_spec (H := unsigned) ["var"; "releases"]
    (mkStore "/var/releases" "") (smooth "/var/releases/upload-1.tmp" [97; 98; 99]%Z)
    1 "r-1" "1.0" "upload-1.tmp" empty_tables (mkDisk ∅) []).
  - repeat constructor; vm_compute; congruence.
  - reflexivity.
  - repeat constructor; vm_compute; congruence.
  - reflexivity.
  - apply not_elem_of_nil.
  - intros id r H. simpl in H. by rewrite lookup_empty in H.
Defined.

Lemma concurrent_uploads_unpublish_witness :
  let '(rA, rB, (w, d)) :=
    interleaved_uploads (H := unsigned) (mkStore "/var/releases" "")
      (smooth "/var/releases/upload-1.tmp" [1; 2]%Z) (smooth "/var/releases/upload-2.tmp" [3]%Z)
      1 "r-1" "r-2" "1.0" "/var/releases/1.0/minicontrol-worker"
      (mkWorld empty_tables empty_tables [], mkDisk ∅) in
  (∃ r, rA = inr r ∧ releases (durable w) !! "r-1" = Some r ∧
        rl_Version r = "1.0" ∧ rl_FilePath r = "/var/releases/1.0/minicontrol-worker") ∧
  rB = inl ErrVersionExists ∧ dk_files d !! "/var/releases/1.0/minicontrol-worker" = None.
Proof.
  by apply (concurrent_uploads_unpublish (H := unsigned) "/var/releases").
Defined.
