(* ===== verification/ReleaseApi.v ===== *)
(** * Releases over HTTP ([releases.go])

    Uploading, the latest release and downloading.  The handlers work on the
    server's state and the disk.  What [ParseMultipartForm] and [FormFile] found
    is an argument, and so are the texts of the store's errors.  [http.ServeFile]
    serves the whole file, except that it redirects a request whose path ends in
    "/index.html" and answers 404 for a file that is not there. *)

From stdpp Require Import gmap strings list sorting.
From Stdlib Require Import ZArith Lia Ascii.
From S2P Require Import Prelude GoStrings Encoding Model Database Schema Catalog.
From S2P Require Import Http Server FilePath ReleaseStore.

Local Open Scope string_scope.

Inductive ReleaseOutcome :=
| ROReply (resp : Response)
| ROStatus (status : Z)                            (* [WriteHeader] alone *)
| ROFile (content : list Z) (sha256 version : string)
| RORedirect
| ROMissing.

Definition release_json (r : Release) : Json :=
  JObj [("id", JStr (rl_ID r)); ("version", JStr (rl_Version r)); ("sha256", JStr (rl_SHA256 r));
        ("size_bytes", JNum (rl_SizeBytes r)); ("signing_identity", JStr (rl_SigningIdentity r));
        ("uploaded_at", JTime (rl_UploadedAt r))].

Section Handlers.
Context `{!CodesignEnv} (error_message : StoreError → string).

Definition ReleaseHandler : Type := Request → Server * Disk → ReleaseOutcome * (Server * Disk).

(** [h.releases.Upload] and the answer. *)
Definition upload_and_reply (s : Store) (env : UploadEnv) (dbnow : Z) (newID version : string)
    (st : Server * Disk) : ReleaseOutcome * (Server * Disk) :=
  let '(res, (w, d)) := Upload s env dbnow newID version (sv_world st.1, st.2) in
  let st := (set_world w st.1, d) in
  match res with
  | inl ErrVersionExists => (ROReply (writeError StatusConflict "release version already exists"), st)
  | inl err => (ROReply (writeError StatusBadRequest (error_message err)), st)
  | inr rel => (ROReply (writeJSON StatusCreated (release_json rel)), st)
  end.

(** The multipart form: [None] if it cannot be parsed, else its version and
    whether it has the file. *)
Definition handleReleaseUpload (store : option Store) (env : UploadEnv) (dbnow : Z) (newID : string)
    (form : option (string * bool)) : ReleaseHandler := λ r st,
  match store with
  | None => (ROReply (writeError StatusServiceUnavailable "release management not configured"), st)
  | Some s =>
      match form with
      | None => (ROReply (writeError StatusBadRequest "invalid multipart form"), st)
      | Some (version, has_binary) =>
          if String.eqb version "" then (ROReply (writeError StatusBadRequest "version is required"), st)
          else if negb (ValidateVersion version)
          then (ROReply (writeError StatusBadRequest "invalid version"), st)
          else if negb has_binary then (ROReply (writeError StatusBadRequest "binary file is required"), st)
          else upload_and_reply s env dbnow newID version st
      end
  end.

(** The body of a server request is never nil. *)
Definition handleReleaseUploadBinary (store : option Store) (env : UploadEnv) (dbnow : Z)
    (newID : string) : ReleaseHandler := λ r st,
  match store with
  | None => (ROReply (writeError StatusServiceUnavailable "release management not configured"), st)
  | Some s =>
      let version := rq_PathValue r "version" in
      if negb (ValidateVersion version)
      then (ROReply (writeError StatusBadRequest "invalid version"), st)
      else upload_and_reply s env dbnow newID version st
  end.

Definition handleReleaseLatest (store : option Store) : ReleaseHandler := λ r st,
  match store with
  | None => (ROStatus StatusNotFound, st)
  | Some _ =>
      match db_call GetLatestRelease st.1 with
      | (inl _, sv) => (ROReply (writeError StatusNotFound "no releases available"), (sv, st.2))
      | (inr latest, sv) => (ROReply (writeJSON StatusOK (release_json latest)), (sv, st.2))
      end
  end.

Definition handleReleaseDownload (store : option Store) (cwd : string) : ReleaseHandler := λ r st,
  match store with
  | None => (ROStatus StatusNotFound, st)
  | Some s =>
      let version := rq_PathValue r "version" in
      if negb (ValidateVersion version)
      then (ROReply (writeError StatusBadRequest "invalid version"), st)
      else
        match db_call (GetReleaseByVersion version) st.1 with
        | (inl _, sv) => (ROReply (writeError StatusNotFound "version not found"), (sv, st.2))
        | (inr rel, sv) =>
            match BinaryPath cwd (st_storagePath s) rel with
            | inl _ => (ROReply (writeError StatusInternalServerError "release unavailable"), (sv, st.2))
            | inr binaryPath =>
                if String.eqb version "index.html" then (RORedirect, (sv, st.2))
                else
                  match dk_files st.2 !! binaryPath with
                  | Some content => (ROFile content (rl_SHA256 rel) (rl_Version rel), (sv, st.2))
                  | None => (ROMissing, (sv, st.2))
                  end
            end
        end
  end.

(** ** Downloads *)

(** The path of a release file is its own absolute path, within the store. *)
Lemma BinaryPath_release cwd root r :
  Forall plain root → ValidateVersion (rl_Version r) = true →
  rl_FilePath r = release_file root (rl_Version r) →
  BinaryPath cwd (abs_path root) r = inr (rl_FilePath r).
Proof.
  intros Hroot Hv Hf. assert (plain "minicontrol-worker") as Hw by by vm_compute.
  apply ValidateVersion_plain in Hv. unfold BinaryPath. rewrite Hf. unfold release_file, Abs.
  set (p := (root ++ [rl_Version r; "minicontrol-worker"])%list).
  assert (Forall plain p) as Hp by (apply Forall_app; auto).
  change (String.eqb (abs_path p) "") with false. change (rooted (abs_path p)) with true.
  cbv zeta. rewrite Clean_abs by done.
  by rewrite (proj2 (isWithinStorage_abs root p Hroot Hp)) by by eexists.
Qed.

Lemma by_version_Some t v r :
  wf_tables t → by_version v t = Some r ↔ releases t !! rl_ID r = Some r ∧ rl_Version r = v.
Proof.
  intros Hwf. unfold by_version. split.
  - intros [HP [k Hk]]%find_row_Some. to_prop. by rewrite (wf_release_key _ Hwf _ _ Hk).
  - intros [Hk <-]. eapply find_row_unique; [done|by apply bool_decide_eq_true|].
    intros k' r' Hk' HP. to_prop.
    assert (k' = rl_ID r) as -> by by eapply (wf_release_version _ Hwf). congruence.
Qed.

(** C40. A download serves what was uploaded: on a consistent store, while the
    database answers, a request for a published version (other than one named
    "index.html", which the file server redirects) is answered with the bytes of
    that release, whose recorded digest and size are theirs, and with that
    digest and version in the headers; a request for a version that was never
    published is answered 404; a malformed version 400.  Nothing changes. *)
Theorem download_spec cwd root s r sv d :
  Forall plain root → st_storagePath s = abs_path root →
  wf_tables (sv_tables sv) → published root (sv_tables sv) d → faults (sv_world sv) = [] →
  let version := rq_PathValue r "version" in
  let run := handleReleaseDownload (Some s) cwd r (sv, d) in
  (∀ id rel, releases (sv_tables sv) !! id = Some rel → rl_Version rel = version →
     version ≠ "index.html" →
     ∃ content, run = (ROFile content (hex_encode (Sha256.digest content)) version, (sv, d)) ∧
       dk_files d !! rl_FilePath rel = Some content ∧
       rl_SHA256 rel = hex_encode (Sha256.digest content) ∧
       rl_SizeBytes rel = Z.of_nat (length content)) ∧
  ((∀ id rel, releases (sv_tables sv) !! id = Some rel → rl_Version rel ≠ version) →
   run = (ROReply (if ValidateVersion version
                   then Reply 404 (JObj [("error", JStr "version not found")])
                   else Reply 400 (JObj [("error", JStr "invalid version")])), (sv, d))).
Proof.
  intros Hroot Hsp Hwf Hpub Hf version run.
  assert (ValidateVersion version = true → run =
    (match by_version version (sv_tables sv) with
     | None => (ROReply (writeError 404 "version not found"), (sv, d))
     | Some rel =>
         match BinaryPath cwd (st_storagePath s) rel with
         | inl _ => (ROReply (writeError 500 "release unavailable"), (sv, d))
         | inr binaryPath =>
             if String.eqb version "index.html" then (RORedirect, (sv, d))
             else match dk_files d !! binaryPath with
                  | Some content => (ROFile content (rl_SHA256 rel) (rl_Version rel), (sv, d))
                  | None => (ROMissing, (sv, d))
                  end
         end
     end)) as Hrun.
  { intros Hv. unfold run, handleReleaseDownload, GetReleaseByVersion. fold version. rewrite Hv.
    cbn [negb fst snd]. rewrite db_call_row_calm by done. by destruct (by_version version _). }
  split.
  - intros id rel Hrel Hver Hne. destruct (Hpub id rel Hrel) as (Hv & Hpath & content & Hc & Hsha & Hsize).
    rewrite Hver in Hv. exists content. split; [|done]. rewrite Hrun by done.
    rewrite (proj2 (by_version_Some (sv_tables sv) version rel Hwf)).
    2: { by rewrite (wf_release_key _ Hwf _ _ Hrel). }
    rewrite Hsp, (BinaryPath_release cwd root rel) by (rewrite ?Hver; congruence || done).
    by rewrite (proj2 (String.eqb_neq _ _) Hne), Hc, Hsha, Hver.
  - intros Hno. apply by_version_None in Hno. destruct (ValidateVersion version) eqn:Hv.
    + rewrite Hrun by done. by rewrite Hno.
    + unfold run, handleReleaseDownload. fold version. by rewrite Hv.
Qed.
End Handlers.

(** A store with one release, "1.0", holding the bytes of "abc". *)
Definition sample_release : Release :=
  mkRelease "r-1" "1.0" "ba7816bf8f01cfea414140de5dae2223b00361a396177a9cb410ff61f20015ad" 3 ""
    "/var/releases/1.0/minicontrol-worker" 7.
Definition release_tables : Tables := set_releases <["r-1" := sample_release]> empty_tables.
Definition release_disk : Disk := mkDisk {["/var/releases/1.0/minicontrol-worker" := [97; 98; 99]%Z]}.

Lemma release_published : published ["var"; "releases"] release_tables release_disk.
Proof.
  intros id r Hr. unfold release_tables in Hr. simpl in Hr.
  apply lookup_insert_Some in Hr as [[_ <-]|[_ Hr]]; [|by rewrite lookup_empty in Hr].
  split; [by vm_compute|]. split; [by vm_compute|]. exists [97; 98; 99]%Z.
  split; [by vm_compute|]. split; by vm_compute.
Qed.

Lemma wf_release_tables : wf_tables release_tables.
Proof. apply wf_new_release; [apply wf_empty|done|]. intros i r. simpl. by rewrite lookup_empty. Qed.

Lemma download_spec_witness :
  let sv := mkServer (calm release_tables) ProxySession.NewSessionManager None in
  let r := mkRequest "" (λ _, "") (λ _, None) (λ _, "") (λ _, "1.0") None None in
  ∃ content, handleReleaseDownload (Some (mkStore "/var/releases" "")) "/" r (sv, release_disk) =
    (ROFile content (hex_encode (Sha256.digest content)) "1.0", (sv, release_disk)) ∧
    content = [97; 98; 99]%Z.
Proof.
  intros sv r.
  destruct (proj1 (download_spec "/" ["var"; "releases"] (mkStore "/var/releases" "") r sv release_disk
    ltac:(repeat constructor; vm_compute; congruence) eq_refl wf_release_tables release_published eq_refl)
    "r-1" sample_release) as (content & E & Hc & _).
  - apply lookup_insert_eq.
  - reflexivity.
  - discriminate.
  - exists content. split; [exact E|]. vm_compute in Hc. injection Hc as <-. reflexivity.
Defined.
