(* ===== verification/TerminalHistory.v ===== *)
(** * The scroll-back of a terminal ([terminal_sessions.go])

    A terminal session keeps the output frames it published last in a
    [container/ring] of 256 cells, from which a browser that attaches is
    brought up to date.  The ring is modelled as its cells and the position
    the session points to.  Abstractly the scroll-back is the tail of the log of
    all published frames; [history_refines] is the refinement, and what a
    snapshot returns follows from it. *)

From stdpp Require Import gmap strings list.
From Stdlib Require Import ZArith Lia.
From S2P Require Import Prelude.

Local Open Scope nat_scope.

(** ** [container/ring] *)

Record Ring (A : Type) := mkRing { ring_cells : list (option A); ring_pos : nat }.
Arguments mkRing {A} _ _.
Arguments ring_cells {A} _.
Arguments ring_pos {A} _.

Definition Ring_New {A} (n : nat) : Ring A := mkRing (replicate n None) 0.
Definition Ring_Len {A} (r : Ring A) : nat := length (ring_cells r).
(** [r.Value]: a cell whose value was never set holds nil. *)
Definition Ring_Value {A} (r : Ring A) : option A := mjoin (ring_cells r !! ring_pos r).
Definition Ring_SetValue {A} (v : A) (r : Ring A) : Ring A :=
  mkRing (<[ring_pos r := Some v]> (ring_cells r)) (ring_pos r).
Definition Ring_Next {A} (r : Ring A) : Ring A :=
  mkRing (ring_cells r) ((ring_pos r + 1) mod Ring_Len r).
(** [r.Move(n)]: backward for negative [n], as many cells as [n] modulo the
    length. *)
Definition Ring_Move {A} (n : Z) (r : Ring A) : Ring A :=
  mkRing (ring_cells r) (Z.to_nat ((Z.of_nat (ring_pos r) + n) mod Z.of_nat (Ring_Len r))).

(** ** Frames and the history fields of a session *)

Inductive MessageType := MessageText | MessageBinary.

Record terminalHistoryFrame := mkFrame {
  fr_seq : Z;
  fr_message : MessageType;
  fr_payload : list Z
}.

Definition terminalHistoryFrames : nat := 256.

(** [history], [historyLen] and [nextSeq] of [terminalSession]; [nextSeq] is a
    [uint64]. *)
Record History := mkHistory {
  hs_ring : option (Ring terminalHistoryFrame);
  hs_len : nat;
  hs_nextSeq : Z
}.

Definition empty_history : History := mkHistory None 0 0.

Definition uint64_succ (n : Z) : Z := ((n + 1) mod 2 ^ 64)%Z.

Definition appendFrameLocked (frame : terminalHistoryFrame) (h : History) : History :=
  let ring := default (Ring_New terminalHistoryFrames) (hs_ring h) in
  let ring := Ring_Next (Ring_SetValue frame ring) in
  mkHistory (Some ring)
    (if hs_len h <? terminalHistoryFrames then S (hs_len h) else hs_len h) (hs_nextSeq h).

(** The numbered frame and the history after it, as [publishBinary] makes them
    under the lock. *)
Definition publish_frame (payload : list Z) (h : History) : terminalHistoryFrame * History :=
  let seq := uint64_succ (hs_nextSeq h) in
  let frame := mkFrame seq MessageBinary payload in
  (frame, appendFrameLocked frame (mkHistory (hs_ring h) (hs_len h) seq)).

(** The loop of [snapshotFramesAfter] over [n] cells. *)
Fixpoint collect_frames (n : nat) (afterSeq : Z) (current : Ring terminalHistoryFrame) :
    list terminalHistoryFrame :=
  match n with
  | O => []
  | S n =>
      let rest := collect_frames n afterSeq (Ring_Next current) in
      match Ring_Value current with
      | Some frame => if (afterSeq <? fr_seq frame)%Z then frame :: rest else rest
      | None => rest
      end
  end.

(** With no history the ring is nil, but then [historyLen] is 0 as well. *)
Definition snapshotFramesAfter (afterSeq : Z) (h : History) : list terminalHistoryFrame * Z :=
  if hs_len h =? 0 then ([], hs_nextSeq h)
  else
    let ring := default (Ring_New terminalHistoryFrames) (hs_ring h) in
    let oldest := Ring_Move (- Z.of_nat (hs_len h)) ring in
    (collect_frames (hs_len h) afterSeq oldest, hs_nextSeq h).

(** ** The abstract scroll-back: the last 256 frames of the log *)

Definition recent {A} (n : nat) (log : list A) : list A := drop (length log - n) log.

(** The log of a session: its frames are numbered from 1. *)
Definition numbered (payloads : list (list Z)) : list terminalHistoryFrame :=
  imap (λ i p, mkFrame (Z.of_nat i + 1) MessageBinary p) payloads.

(** A ring of [N] cells holds the last frames of [log]: frame number [i] is in
    cell [i mod N], and the session points to the next one to write. *)
Record ring_holds {A} (N : nat) (log : list A) (cells : list (option A)) (pos : nat) : Prop :=
  mk_ring_holds {
    rh_length : length cells = N;
    rh_pos : pos = length log mod N;
    rh_cells : ∀ i, length log - N ≤ i < length log → cells !! (i mod N) = Some (log !! i)
  }.

Definition history_refines (log : list terminalHistoryFrame) (h : History) : Prop :=
  hs_len h = length log `min` terminalHistoryFrames ∧
  hs_nextSeq h = Z.of_nat (length log) ∧
  match hs_ring h with
  | None => log = []
  | Some r => ring_holds terminalHistoryFrames log (ring_cells r) (ring_pos r)
  end.

(** ** Rings *)

(** Two numbers less than [N] apart that agree modulo [N] are equal. *)
Lemma mod_window N a b : 0 < N → b ≤ a < b + N → a mod N = b mod N → a = b.
Proof.
  intros HN Hab Hm. pose proof (Nat.div_mod_eq a N) as Ea. pose proof (Nat.div_mod_eq b N) as Eb.
  rewrite Hm in Ea. assert (a / N = b / N); nia.
Qed.

Lemma ring_holds_new {A} N : 0 < N → ring_holds N (@nil A) (replicate N None) 0.
Proof.
  intros HN. split; [apply length_replicate|by rewrite Nat.Div0.mod_0_l|]. simpl. lia.
Qed.

Lemma ring_holds_push {A} N (log : list A) cells pos x :
  0 < N → ring_holds N log cells pos →
  ring_holds N (log ++ [x]) (<[pos := Some x]> cells) ((pos + 1) mod N).
Proof.
  intros HN [Hlen -> Hc]. pose proof (Nat.mod_upper_bound (length log) N ltac:(lia)) as Hb.
  split.
  - by rewrite length_insert.
  - rewrite length_app, Nat.Div0.add_mod_idemp_l. done.
  - intros i Hi. rewrite length_app in Hi. simpl in Hi.
    destruct (decide (i = length log)) as [->|Hne].
    + rewrite list_lookup_insert_eq by lia. rewrite lookup_app_r, Nat.sub_diag by lia. done.
    + rewrite list_lookup_insert_ne; [|intros E; apply Hne; symmetry; apply (mod_window N); lia].
      rewrite lookup_app_l by lia. apply Hc. lia.
Qed.

(** Reading forward from frame [k] to the end of the log. *)
Lemma collect_holds log after N cells k n :
  0 < N → length cells = N →
  (∀ i, k ≤ i < k + n → cells !! (i mod N) = Some (log !! i)) → k + n = length log →
  collect_frames n after (mkRing cells (k mod N)) = filter (λ f, (after < fr_seq f)%Z) (drop k log).
Proof.
  intros HN Hlen. revert k. induction n as [|n IH]; intros k Hc Hk.
  { by rewrite drop_ge by lia. }
  assert (k < length log) as Hlt by lia. apply lookup_lt_is_Some in Hlt as [f Hf].
  rewrite (drop_S _ f) by done. cbn [collect_frames].
  unfold Ring_Value, Ring_Next, Ring_Len. cbn [ring_cells ring_pos].
  rewrite Hc by lia. rewrite Hf. cbn [mjoin option_join]. rewrite Hlen, Nat.Div0.add_mod_idemp_l.
  replace (k + 1) with (S k) by lia. rewrite IH; [|intros; apply Hc; lia|lia].
  rewrite filter_cons. destruct (Z.ltb_spec after (fr_seq f)); [by rewrite decide_True|].
  rewrite decide_False by lia. done.
Qed.

(** ** The refinement *)

Lemma history_refines_empty : history_refines [] empty_history.
Proof. done. Qed.

Lemma uint64_succ_small n : (0 ≤ n < 2 ^ 64 - 1)%Z → uint64_succ n = (n + 1)%Z.
Proof. intros. unfold uint64_succ. apply Z.mod_small. lia. Qed.

Lemma publish_refines log h payload :
  history_refines log h → (Z.of_nat (length log) < 2 ^ 64 - 1)%Z →
  let frame := mkFrame (Z.of_nat (length log) + 1) MessageBinary payload in
  (publish_frame payload h).1 = frame ∧
  history_refines (log ++ [frame]) (publish_frame payload h).2.
Proof.
  intros (Hl & Hs & Hr) Hb. cbv zeta. unfold publish_frame. rewrite Hs, uint64_succ_small by lia.
  split; [done|]. split_and!; cbn [hs_len hs_nextSeq hs_ring appendFrameLocked snd].
  - rewrite length_app, Hl. simpl. destruct (Nat.ltb_spec (length log `min` terminalHistoryFrames) terminalHistoryFrames); lia.
  - rewrite length_app. simpl. lia.
  - unfold Ring_Next, Ring_SetValue, Ring_Len. cbn [ring_cells ring_pos]. rewrite length_insert.
    assert (ring_holds terminalHistoryFrames log
      (ring_cells (default (Ring_New terminalHistoryFrames) (hs_ring h)))
      (ring_pos (default (Ring_New terminalHistoryFrames) (hs_ring h)))) as Hh.
    { destruct (hs_ring h) as [r|]; [done|]. subst log. apply ring_holds_new. unfold terminalHistoryFrames. lia. }
    rewrite (rh_length _ _ _ _ Hh). apply ring_holds_push; [unfold terminalHistoryFrames; lia|done].
Qed.

(** A snapshot returns the frames of the scroll-back after the given number,
    oldest first, and the number of the last frame published. *)
Lemma snapshot_refines log h after :
  history_refines log h →
  snapshotFramesAfter after h =
    (filter (λ f, (after < fr_seq f)%Z) (recent terminalHistoryFrames log), Z.of_nat (length log)).
Proof.
  intros (Hl & Hs & Hr). unfold snapshotFramesAfter. rewrite Hs.
  destruct (Nat.eqb_spec (hs_len h) 0) as [H0|H0].
  - assert (length log = 0) as ->%nil_length_inv by (unfold terminalHistoryFrames in *; lia). done.
  - destruct (hs_ring h) as [r|]; [|by subst log; simpl in Hl; lia].
    cbn [from_option id]. unfold Ring_Move, Ring_Len. destruct Hr as [Hc Hp Hcells].
    assert (0 < terminalHistoryFrames) as HN by (unfold terminalHistoryFrames; lia).
    set (N := terminalHistoryFrames) in *. rewrite Hc, Hp, Hl.
    replace (Z.to_nat _) with ((length log - N) mod N); cycle 1.
    { apply Nat2Z.inj. rewrite Z2Nat.id by (apply Z.mod_pos_bound; lia).
      rewrite !Nat2Z.inj_mod. rewrite Zplus_mod_idemp_l.
      replace (Z.of_nat (length log) + - Z.of_nat (length log `min` N))%Z
        with (Z.of_nat (length log - N)) by lia. done. }
    f_equal. rewrite (collect_holds log after N); [done|done|done|intros; apply Hcells; lia|lia].
Qed.

(** The log after publishing a list of payloads. *)
Definition publish_all (payloads : list (list Z)) (h : History) : History :=
  foldl (λ h p, (publish_frame p h).2) h payloads.

Lemma publish_all_refines payloads :
  (Z.of_nat (length payloads) < 2 ^ 64)%Z →
  history_refines (numbered payloads) (publish_all payloads empty_history).
Proof.
  unfold publish_all, numbered. induction payloads as [|p l IH] using rev_ind; intros Hb; [done|].
  rewrite length_app in Hb. simpl in Hb. rewrite foldl_app, imap_app. cbn [foldl imap].
  rewrite Nat.add_0_r.
  pose proof (publish_refines _ _ p (IH ltac:(lia))) as [_ Hr].
  { rewrite length_imap. lia. }
  by rewrite length_imap in Hr.
Qed.

(** C36. The scroll-back is a faithful window on the output: after any payloads
    have been published (fewer than 2^64), the ring buffer of 256 cells gives,
    for every frame number, exactly the frames after it among the last 256
    published ones, oldest first, each with its own payload and number, together
    with the number of the latest frame. *)
Theorem scrollback_window payloads after :
  (Z.of_nat (length payloads) < 2 ^ 64)%Z →
  snapshotFramesAfter after (publish_all payloads empty_history) =
    (filter (λ f, (after < fr_seq f)%Z) (recent 256 (numbered payloads)),
     Z.of_nat (length payloads)).
Proof.
  intros Hb. rewrite (snapshot_refines (numbered payloads)) by by apply publish_all_refines.
  unfold numbered at 2. by rewrite length_imap.
Qed.

Definition sample_payloads : list (list Z) := (λ n, [Z.of_nat n]) <$> seq 0 300.

Lemma scrollback_window_witness :
  snapshotFramesAfter 298 (publish_all sample_payloads empty_history) =
    ([mkFrame 299 MessageBinary [298]%Z; mkFrame 300 MessageBinary [299]%Z], 300%Z) ∧
  length (snapshotFramesAfter 0 (publish_all sample_payloads empty_history)).1 = 256.
Proof.
  rewrite !(scrollback_window sample_payloads) by by vm_compute. split; vm_compute; reflexivity.
Defined.

(** The frames of a scroll-back carry increasing numbers, the last one being the
    latest. *)
Definition increasing (log : list terminalHistoryFrame) : Prop :=
  ∀ i f, log !! i = Some f → fr_seq f = (Z.of_nat i + 1)%Z.

Lemma increasing_push log payload :
  increasing log → increasing (log ++ [mkFrame (Z.of_nat (length log) + 1) MessageBinary payload]).
Proof.
  intros Hi i f [H|[Hge H]]%lookup_app_Some; [by apply Hi|].
  apply list_lookup_singleton_Some in H as [H <-]. simpl. lia.
Qed.

Lemma recent_elem {A} n (log : list A) x : x ∈ recent n log → x ∈ log.
Proof. unfold recent. intros Hx. rewrite <- (take_drop (length log - n) log). apply elem_of_app. auto. Qed.

Lemma increasing_bound log f : increasing log → f ∈ log → (1 ≤ fr_seq f ≤ Z.of_nat (length log))%Z.
Proof.
  intros Hi [i Hx]%list_elem_of_lookup. rewrite (Hi _ _ Hx). apply lookup_lt_Some in Hx. lia.
Qed.

Lemma increasing_NoDup log : increasing log → NoDup (fr_seq <$> log).
Proof.
  intros Hi. apply NoDup_alt. intros i j x Hx Hy. rewrite list_lookup_fmap in Hx, Hy.
  destruct (log !! i) as [f|] eqn:Ef, (log !! j) as [g|] eqn:Eg; simplify_eq/=.
  apply Hi in Ef, Eg. lia.
Qed.
