(* ===== verification/Terminal.v ===== *)
(** * Terminal sessions ([terminal_sessions.go])

    A terminal session outlives the browser connections attached to it, one at
    a time.  Goroutines share it: the two that stream the shell's output, one per
    attached browser, one per attachment that writes its queue, the idle timer and
    whoever closes the session.  Here are the session's state, the operations
    under its lock and those on an attachment, and the goroutines as threads
    whose steps are these operations; [TerminalRace] has their interleavings. *)

From stdpp Require Import gmap strings list.
From Stdlib Require Import ZArith Lia.
From S2P Require Import Prelude GoStrings Model Http TerminalHistory.

Local Open Scope string_scope.
Local Open Scope Z_scope.

(** ** Messages *)

Record terminalClientMessage := mkClientMessage {
  cm_Type : string; cm_Data : string; cm_Cols : Z; cm_Rows : Z
}.

Record terminalServerMessage := mkServerMessage {
  sm_Type : string; sm_Message : string; sm_SessionID : string; sm_Recovered : bool
}.

Definition server_message_json (m : terminalServerMessage) : Json :=
  let omitempty (k v : string) := if String.eqb v "" then [] else [(k, JStr v)] in
  JObj ([("type", JStr (sm_Type m))] ++ omitempty "message" (sm_Message m)
        ++ omitempty "session_id" (sm_SessionID m)
        ++ (if sm_Recovered m then [("recovered", JBool true)] else []))%list.

(** The payload of an outbound message: shell output, or a marshalled control
    message. *)
Inductive Payload := PBytes (bytes : list Z) | PJson (j : Json).

Record terminalOutboundMessage := mkOutbound { om_message : MessageType; om_payload : Payload }.

(** Status codes of [websocket]. *)
Definition StatusNormalClosure : Z := 1000.
Definition StatusGoingAway : Z := 1001.
Definition StatusPolicyViolation : Z := 1008.
Definition StatusInternalError : Z := 1011.

Definition terminalAttachmentQueueSize : nat := 128.
Definition terminalIdleTimeout : Z := 60 * Second.

(** ** Attachments *)

(** [ta_outbound] is the buffer of the channel, [ta_written] what the writer
    goroutine handed to the connection, [ta_closed] the code and reason the
    connection was closed with and [ta_writing] whether the goroutine runs. *)
Record terminalAttachment := mkAttachment {
  ta_conn : nat;
  ta_outbound : list terminalOutboundMessage;
  ta_written : list terminalOutboundMessage;
  ta_done : bool;
  ta_closed : option (Z * string);
  ta_writing : bool
}.

Definition newTerminalAttachment (conn : nat) : terminalAttachment :=
  mkAttachment conn [] [] false None true.

Inductive SendError := ErrAttachmentClosed | ErrBufferFull.

Definition enqueue (m : terminalOutboundMessage) (a : terminalAttachment) : terminalAttachment :=
  mkAttachment (ta_conn a) (ta_outbound a ++ [m])%list (ta_written a) (ta_done a) (ta_closed a) (ta_writing a).

(** The [select] of [send]: with several ready cases the runtime picks one;
    [pick_done] is its pick between a closed [done] and room in the buffer. *)
Definition send (pick_done : bool) (m : terminalOutboundMessage) (a : terminalAttachment) :
    option SendError * terminalAttachment :=
  let room := bool_decide (length (ta_outbound a) < terminalAttachmentQueueSize)%nat in
  if ta_done a && (pick_done || negb room) then (Some ErrAttachmentClosed, a)
  else if room then (None, enqueue m a)
  else (Some ErrBufferFull, a).

Definition sendControl (pick_done : bool) (m : terminalServerMessage) (a : terminalAttachment) :
    option SendError * terminalAttachment :=
  send pick_done (mkOutbound MessageText (PJson (server_message_json m))) a.

(** [closeOnce]: only the first close counts. *)
Definition attachment_close (code : Z) (reason : string) (a : terminalAttachment) : terminalAttachment :=
  if ta_done a then a
  else mkAttachment (ta_conn a) (ta_outbound a) (ta_written a) true (Some (code, reason)) (ta_writing a).

Definition stop_writing (a : terminalAttachment) : terminalAttachment :=
  mkAttachment (ta_conn a) (ta_outbound a) (ta_written a) (ta_done a) (ta_closed a) false.

(** One turn of the writer goroutine: with [done] closed or the session's
    context cancelled it may leave ([leave]), closing the attachment; otherwise
    it takes the next message and writes it, leaving when that fails. *)
Definition writer_turn (cancelled leave write_ok : bool) (a : terminalAttachment) :
    option terminalAttachment :=
  let quit a := stop_writing (attachment_close StatusNormalClosure "attachment closed" a) in
  if negb (ta_writing a) then None
  else if leave then if ta_done a || cancelled then Some (quit a) else None
  else
    match ta_outbound a with
    | [] => None
    | m :: rest =>
        let a := mkAttachment (ta_conn a) rest (ta_written a ++ [m])%list (ta_done a) (ta_closed a) true in
        Some (if write_ok then a else quit a)
    end.

(** ** The session *)

(** A timer of [time.AfterFunc]: its deadline, and whether it has fired. *)
Record Timer := mkTimer { tm_deadline : Z; tm_fired : bool }.

(** [ts_cancelled] is the context, [ts_closing] the [closeOnce] of [close],
    [ts_locked] the mutex [attachMu]; [ts_released] counts the releases of the SSH
    session, the SSH client, the proxy connection and the [cleanup] callback,
    [ts_removed] the calls of [remove].  Attachments are objects of [ts_heap]. *)
Record terminalSession := mkTerminalSession {
  ts_id : string;
  ts_memberID : string;
  ts_workstationID : string;
  ts_workerID : string;
  ts_cancelled : bool;
  ts_closing : bool;
  ts_locked : bool;
  ts_attachment : option nat;
  ts_history : History;
  ts_closed : bool;
  ts_idleTimer : option Timer;
  ts_heap : gmap nat terminalAttachment;
  ts_released : nat;
  ts_removed : nat
}.

Definition new_session (id member workstation worker : string) : terminalSession :=
  mkTerminalSession id member workstation worker false false false None empty_history false None ∅ 0 0.

Definition set_ctx (cancelled closing : bool) (s : terminalSession) : terminalSession :=
  mkTerminalSession (ts_id s) (ts_memberID s) (ts_workstationID s) (ts_workerID s) cancelled closing
    (ts_locked s) (ts_attachment s) (ts_history s) (ts_closed s) (ts_idleTimer s) (ts_heap s)
    (ts_released s) (ts_removed s).
Definition set_locked (b : bool) (s : terminalSession) : terminalSession :=
  mkTerminalSession (ts_id s) (ts_memberID s) (ts_workstationID s) (ts_workerID s) (ts_cancelled s) (ts_closing s)
    b (ts_attachment s) (ts_history s) (ts_closed s) (ts_idleTimer s) (ts_heap s)
    (ts_released s) (ts_removed s).
Definition set_fields (attachment : option nat) (history : History) (closed : bool)
    (timer : option Timer) (s : terminalSession) : terminalSession :=
  mkTerminalSession (ts_id s) (ts_memberID s) (ts_workstationID s) (ts_workerID s) (ts_cancelled s) (ts_closing s)
    (ts_locked s) attachment history closed timer (ts_heap s) (ts_released s) (ts_removed s).
Definition set_heap (heap : gmap nat terminalAttachment) (s : terminalSession) : terminalSession :=
  mkTerminalSession (ts_id s) (ts_memberID s) (ts_workstationID s) (ts_workerID s) (ts_cancelled s) (ts_closing s)
    (ts_locked s) (ts_attachment s) (ts_history s) (ts_closed s) (ts_idleTimer s) heap
    (ts_released s) (ts_removed s).
Definition set_released (released removed : nat) (s : terminalSession) : terminalSession :=
  mkTerminalSession (ts_id s) (ts_memberID s) (ts_workstationID s) (ts_workerID s) (ts_cancelled s) (ts_closing s)
    (ts_locked s) (ts_attachment s) (ts_history s) (ts_closed s) (ts_idleTimer s) (ts_heap s)
    released removed.

(** *** Sections under [s.mu] *)

Definition isClosed (s : terminalSession) : bool := ts_closed s.
Definition currentAttachment (s : terminalSession) : option nat := ts_attachment s.

Definition stopIdleTimer (s : terminalSession) : terminalSession :=
  set_fields (ts_attachment s) (ts_history s) (ts_closed s) None s.

Definition setAttachment (a : nat) (s : terminalSession) : terminalSession :=
  set_fields (Some a) (ts_history s) (ts_closed s) (ts_idleTimer s) s.

Definition removeAttachment (target : nat) (s : terminalSession) : terminalSession :=
  if bool_decide (ts_attachment s = Some target)
  then set_fields None (ts_history s) (ts_closed s) (ts_idleTimer s) s else s.

Definition scheduleIdleTimeoutLocked (now : Z) (s : terminalSession) : terminalSession :=
  if ts_closed s then s
  else set_fields (ts_attachment s) (ts_history s) (ts_closed s)
         (Some (mkTimer (now + terminalIdleTimeout) false)) s.

(** The locked part of [clearAttachment]; the attachment is closed after it. *)
Definition clearAttachment_locked (now : Z) (target : nat) (s : terminalSession) : terminalSession :=
  if bool_decide (ts_attachment s = Some target)
  then scheduleIdleTimeoutLocked now (set_fields None (ts_history s) (ts_closed s) (ts_idleTimer s) s)
  else s.

(** The locked part of [publishBinary]: the frame and the attachment to send it
    to; nothing is published on a closed session. *)
Definition publishBinary_locked (payload : list Z) (s : terminalSession) :
    option (terminalHistoryFrame * option nat) * terminalSession :=
  if ts_closed s then (None, s)
  else
    let (frame, h) := publish_frame payload (ts_history s) in
    (Some (frame, ts_attachment s), set_fields (ts_attachment s) h (ts_closed s) (ts_idleTimer s) s).

(** The locked part of [close]. *)
Definition close_locked (s : terminalSession) : option nat * terminalSession :=
  (ts_attachment s, set_fields None (ts_history s) true None s).

(** *** Operations on an attachment object *)

Definition at_attachment (f : terminalAttachment → terminalAttachment) (a : nat) (s : terminalSession) :
    terminalSession := set_heap (alter f a (ts_heap s)) s.

Definition close_attachment (code : Z) (reason : string) (a : nat) (s : terminalSession) : terminalSession :=
  at_attachment (attachment_close code reason) a s.

Definition send_to (pick_done : bool) (m : terminalOutboundMessage) (a : nat) (s : terminalSession) :
    option SendError * terminalSession :=
  match ts_heap s !! a with
  | None => (Some ErrAttachmentClosed, s)
  | Some att => let (err, att') := send pick_done m att in (err, set_heap (<[a := att']> (ts_heap s)) s)
  end.

Definition frame_message (f : terminalHistoryFrame) : terminalOutboundMessage :=
  mkOutbound (fr_message f) (PBytes (fr_payload f)).
Definition control_message (m : terminalServerMessage) : terminalOutboundMessage :=
  mkOutbound MessageText (PJson (server_message_json m)).

(** ** Goroutines *)

Record AttachArgs := mkAttachArgs {
  aa_conn : nat; aa_cols : Z; aa_rows : Z; aa_recovered : bool
}.

(** How the reader of an output stream ends: with one of the errors that end it
    quietly, or with another. *)
Inductive StreamEnd := QuietEnd | BrokenStream.

(** What a goroutine has left to do.  [TAttach] to [TRead] are [Attach],
    [TStream] and [TSend] [streamOutput] with [publishBinary], [TDetach] and
    [TShut] [clearAttachment], [TClose] to [TCloseRelease] [close]; [k] is what
    follows. *)
Inductive Thread :=
| TAttach (args : AttachArgs)
| TStopTimer (args : AttachArgs)
| TCurrent (args : AttachArgs)
| TCloseCurrent (a current : nat) (args : AttachArgs)
| TRemoveCurrent (a current : nat) (args : AttachArgs)
| TReady (a : nat) (args : AttachArgs)
| TSnapshot (a : nat) (replayedSeq : Z) (args : AttachArgs)
| TReplay (a : nat) (frames : list terminalHistoryFrame) (latestSeq : Z) (args : AttachArgs)
| TSet (a : nat) (args : AttachArgs)
| TUnlock (a : nat) (args : AttachArgs)
| TFail (a : nat)
| TResize (a : nat) (args : AttachArgs)
| TRead (a : nat)
| TStream (reads : list (list Z)) (fin : StreamEnd)
| TSend (a : nat) (frame : terminalHistoryFrame) (reads : list (list Z)) (fin : StreamEnd)
| TDetach (a : nat) (k : Thread)
| TShut (a : nat) (code : Z) (reason : string) (k : Thread)
| TClose (code : Z) (message : string)
| TCloseLocked (code : Z) (message : string)
| TCloseNotify (a : nat) (code : Z) (message : string)
| TCloseShut (a : nat) (code : Z) (message : string)
| TCloseRelease
| TEnd (failed : bool).

(** What the environment decides in a step: the pick of a [select], whether the
    call fails, and the clock. *)
Record Choice := mkChoice { ch_pick_done : bool; ch_ok : bool; ch_now : Z }.

Definition abnormal_end : string := "Terminal session ended unexpectedly.".

(** The next step of [Attach]. *)
Definition attach_section (ch : Choice) (s : terminalSession) (th : Thread) :
    option (terminalSession * Thread) :=
  match th with
  | TAttach args =>
      if ts_locked s then None
      else if isClosed s then Some (s, TEnd true)
      else Some (set_locked true s, TStopTimer args)
  | TStopTimer args => Some (stopIdleTimer s, TCurrent args)
  | TCurrent args =>
      let a := fresh (dom (ts_heap s)) in
      let s' := set_heap (<[a := newTerminalAttachment (aa_conn args)]> (ts_heap s)) s in
      match currentAttachment s with
      | Some current => Some (s', TCloseCurrent a current args)
      | None => Some (s', TReady a args)
      end
  | TCloseCurrent a current args =>
      Some (close_attachment StatusPolicyViolation "terminal reattached" current s,
            TRemoveCurrent a current args)
  | TRemoveCurrent a current args => Some (removeAttachment current s, TReady a args)
  | TReady a args =>
      let ready := mkServerMessage "ready" "" (ts_id s) (aa_recovered args) in
      let (err, s') := send_to (ch_pick_done ch) (control_message ready) a s in
      Some (s', if err is Some _ then TFail a else TSnapshot a 0 args)
  | TSnapshot a replayedSeq args =>
      let (frames, latestSeq) := snapshotFramesAfter replayedSeq (ts_history s) in
      match frames with
      | [] => Some (s, TSet a args)
      | _ => Some (s, TReplay a frames latestSeq args)
      end
  | TReplay a [] latestSeq args => Some (s, TSnapshot a latestSeq args)
  | TReplay a (f :: frames) latestSeq args =>
      let (err, s') := send_to (ch_pick_done ch) (frame_message f) a s in
      Some (s', if err is Some _ then TFail a else TReplay a frames latestSeq args)
  | TSet a args => Some (setAttachment a s, TUnlock a args)
  | TUnlock a args => Some (set_locked false s, TResize a args)
  | TFail a => Some (set_locked false s, TShut a StatusInternalError "terminal attach failed" (TEnd true))
  | TResize a args =>
      if bool_decide (0 < aa_rows args) && bool_decide (0 < aa_cols args) && negb (ch_ok ch)
      then Some (s, TDetach a (TShut a StatusInternalError "terminal resize failed" (TEnd true)))
      else Some (s, TRead a)
  | TRead a => Some (s, TDetach a (TEnd (negb (ch_ok ch))))
  | _ => None
  end.

(** The next step of [streamOutput], with the sending part of [publishBinary]. *)
Definition stream_section (ch : Choice) (s : terminalSession) (th : Thread) :
    option (terminalSession * Thread) :=
  match th with
  | TStream [] QuietEnd => Some (s, TEnd false)
  | TStream [] BrokenStream => Some (s, TClose StatusInternalError abnormal_end)
  | TStream ([] :: reads) fin => Some (s, TStream reads fin)
  | TStream (payload :: reads) fin =>
      match publishBinary_locked payload s with
      | (Some (frame, Some a), s') => Some (s', TSend a frame reads fin)
      | (_, s') => Some (s', TStream reads fin)
      end
  | TSend a frame reads fin =>
      let (err, s') := send_to (ch_pick_done ch) (frame_message frame) a s in
      Some (s', if err is Some _ then TDetach a (TStream reads fin) else TStream reads fin)
  | _ => None
  end.

(** The next step of [clearAttachment] and of closing an attachment. *)
Definition detach_section (ch : Choice) (s : terminalSession) (th : Thread) :
    option (terminalSession * Thread) :=
  match th with
  | TDetach a k =>
      Some (clearAttachment_locked (ch_now ch) a s, TShut a StatusGoingAway "terminal detached" k)
  | TShut a code reason k => Some (close_attachment code reason a s, k)
  | _ => None
  end.

(** The next step of [close]. *)
Definition close_section (ch : Choice) (s : terminalSession) (th : Thread) :
    option (terminalSession * Thread) :=
  match th with
  | TClose code message =>
      if ts_closing s then Some (s, TEnd false)
      else Some (set_ctx true true s, TCloseLocked code message)
  | TCloseLocked code message =>
      match close_locked s with
      | (None, s') => Some (s', TCloseRelease)
      | (Some a, s') =>
          if bool_decide (code = StatusNormalClosure) then Some (s', TCloseShut a code message)
          else Some (s', TCloseNotify a code message)
      end
  | TCloseNotify a code message =>
      let error := mkServerMessage "error" message "" false in
      let (_, s') := send_to (ch_pick_done ch) (control_message error) a s in
      Some (s', TCloseShut a code message)
  | TCloseShut a code message => Some (close_attachment code message a s, TCloseRelease)
  | TCloseRelease => Some (set_released (S (ts_released s)) (S (ts_removed s)) s, TEnd false)
  | _ => None
  end.

Definition other_section (ch : Choice) (s : terminalSession) (th : Thread) :
    option (terminalSession * Thread) :=
  match th with
  | TStream _ _ | TSend _ _ _ _ => stream_section ch s th
  | TDetach _ _ | TShut _ _ _ _ => detach_section ch s th
  | _ => close_section ch s th
  end.

Definition section (ch : Choice) (s : terminalSession) (th : Thread) : option (terminalSession * Thread) :=
  match attach_section ch s th with
  | Some r => Some r
  | None => other_section ch s th
  end.

(** [waitForExit]: the shell ended, with an error other than end-of-file or
    cancellation or not. *)
Definition waitForExit (failed : bool) : Thread :=
  if failed then TClose StatusInternalError abnormal_end
  else TClose StatusNormalClosure "terminal closed".

Definition expire : Thread := TClose StatusGoingAway "terminal session expired".

(** ** Input *)

(** What a browser sends: text that is or is not a client message, or binary. *)
Inductive InputEvent := EText (m : option terminalClientMessage) | EBinary (payload : list Z).

Inductive SshCall := SshWrite (data : string) | SshWindowChange (rows cols : Z).

(** Why [readInput] returned: the connection's error, a message that is not
    JSON, or a failed SSH call. *)
Inductive InputEnd := ReadFailed | BadMessage | SshFailed.

(** [readInput] on the messages the connection delivers before its read error;
    [ssh_ok] tells which of the SSH calls succeed. *)
Fixpoint readInput (ssh_ok : SshCall → bool) (events : list InputEvent) : list SshCall * InputEnd :=
  let call c rest :=
    if ssh_ok c then let (cs, e) := readInput ssh_ok rest in (c :: cs, e) else ([c], SshFailed) in
  match events with
  | [] => ([], ReadFailed)
  | EBinary _ :: rest => readInput ssh_ok rest
  | EText None :: _ => ([], BadMessage)
  | EText (Some m) :: rest =>
      if String.eqb (cm_Type m) "input" then
        if String.eqb (cm_Data m) "" then readInput ssh_ok rest else call (SshWrite (cm_Data m)) rest
      else if String.eqb (cm_Type m) "resize" then
        if bool_decide (cm_Cols m ≤ 0) || bool_decide (cm_Rows m ≤ 0) then readInput ssh_ok rest
        else call (SshWindowChange (cm_Rows m) (cm_Cols m)) rest
      else readInput ssh_ok rest
  end.
