(* ===== verification/TerminalRace.v ===== *)
(** * Terminal sessions under concurrency

    All interleavings of the goroutines of a terminal session at the grain of
    the sections of [Terminal].  Shown for every reachable configuration: the
    scroll-back is the tail of the published output, no browser receives a frame
    twice or a frame that was not published, a closed session has no armed timer
    and its resources are released at most once, and attaching is exclusive.
    Also shown, by schedules: what the code does not ensure. *)

From stdpp Require Import gmap strings list.
From Stdlib Require Import ZArith Lia.
From S2P Require Import Prelude GoStrings Model Http TerminalHistory Terminal.

Local Open Scope string_scope.
Local Open Scope Z_scope.

(** The session, the frames published so far (a history variable) and the
    goroutines. *)
Record Config := mkConfig {
  cf_session : terminalSession;
  cf_log : list terminalHistoryFrame;
  cf_threads : list Thread
}.

(** The frame a step publishes. *)
Definition frames_out (s : terminalSession) (th : Thread) : list terminalHistoryFrame :=
  match th with
  | TStream ((b :: bs) :: _) _ =>
      match (publishBinary_locked (b :: bs) s).1 with Some (f, _) => [f] | None => [] end
  | _ => []
  end.

Definition fired (s : terminalSession) (t : Timer) : terminalSession :=
  set_fields (ts_attachment s) (ts_history s) (ts_closed s) (Some (mkTimer (tm_deadline t) true)) s.

Inductive terminal_step : Config → Config → Prop :=
| step_thread s log ts k th ch s' th' :
    ts !! k = Some th → section ch s th = Some (s', th') →
    terminal_step (mkConfig s log ts) (mkConfig s' (log ++ frames_out s th)%list (<[k := th']> ts))
| step_writer s log ts a att leave ok att' :
    ts_heap s !! a = Some att → writer_turn (ts_cancelled s) leave ok att = Some att' →
    terminal_step (mkConfig s log ts) (mkConfig (set_heap (<[a := att']> (ts_heap s)) s) log ts)
| step_timer s log ts t now :
    ts_idleTimer s = Some t → tm_fired t = false → tm_deadline t ≤ now →
    terminal_step (mkConfig s log ts) (mkConfig (fired s t) log (ts ++ [expire])%list).

Definition starting (th : Thread) : Prop :=
  match th with TAttach _ | TStream _ _ | TClose _ _ | TEnd _ => True | _ => False end.

Definition started_at (s : terminalSession) : Prop :=
  ∃ id m ws w, s = new_session id m ws w.

Definition initial (c : Config) : Prop :=
  started_at (cf_session c) ∧ cf_log c = [] ∧ Forall starting (cf_threads c).

(** ** The invariant *)

(** Goroutines between taking [closeOnce] and having released the resources. *)
Definition closes (th : Thread) : nat :=
  match th with
  | TCloseLocked _ _ | TCloseNotify _ _ _ | TCloseShut _ _ _ | TCloseRelease => 1
  | _ => 0
  end.

(** Goroutines that hold [attachMu]. *)
Definition attaches (th : Thread) : nat :=
  match th with
  | TStopTimer _ | TCurrent _ | TCloseCurrent _ _ _ | TRemoveCurrent _ _ _ | TReady _ _
  | TSnapshot _ _ _ | TReplay _ _ _ _ | TSet _ _ | TUnlock _ _ | TFail _ => 1
  | _ => 0
  end.

Definition total (f : Thread → nat) (ts : list Thread) : nat := sum_list_with f ts.

(** Frames a goroutine is about to send to an attachment. *)
Definition pending_frames (a : nat) (th : Thread) : list terminalHistoryFrame :=
  match th with
  | TReplay a' fs _ _ => if decide (a' = a) then fs else []
  | TSend a' f _ _ => if decide (a' = a) then [f] else []
  | _ => []
  end.
Definition inflight (a : nat) (ts : list Thread) : list terminalHistoryFrame :=
  ts ≫= pending_frames a.

(** The attachment that only its own goroutine knows yet. *)
Definition private (th : Thread) : option nat :=
  match th with
  | TCloseCurrent a _ _ | TRemoveCurrent a _ _ | TReady a _ | TSnapshot a _ _ | TReplay a _ _ _
  | TSet a _ => Some a
  | _ => None
  end.

(** The shell output queued for or written to a browser, in order. *)
Definition output_of (m : terminalOutboundMessage) : option (list Z) :=
  match om_payload m with PBytes b => Some b | PJson _ => None end.
Definition delivered (att : terminalAttachment) : list (list Z) :=
  omap output_of (ta_written att ++ ta_outbound att)%list.

(** The number up to which the scroll-back has been replayed to an attachment
    that is still private. *)
Definition replayed_bound (th : Thread) : option Z :=
  match th with
  | TCloseCurrent _ _ _ | TRemoveCurrent _ _ _ | TReady _ _ => Some 0
  | TSnapshot _ n _ | TReplay _ _ n _ => Some n
  | _ => None
  end.

(** A goroutine that has nothing under way on the session: what may follow a
    [clearAttachment]. *)
Fixpoint calm (th : Thread) : bool :=
  match th with
  | TStream _ _ | TEnd _ => true
  | TDetach _ k | TShut _ _ _ k => calm k
  | _ => false
  end.
Definition wf_thread (th : Thread) : bool :=
  match th with TDetach _ k | TShut _ _ _ k => calm k | _ => true end.

(** [F a] are the frames sent to attachment [a]. *)
Record sent_inv (F : nat → list terminalHistoryFrame) (s : terminalSession)
    (log : list terminalHistoryFrame) (ts : list Thread) : Prop := mk_sent_inv {
  si_delivered : ∀ a att, ts_heap s !! a = Some att → delivered att = fr_payload <$> F a;
  si_unborn : ∀ a, ts_heap s !! a = None →
    F a = [] ∧ inflight a ts = [] ∧ ts_attachment s ≠ Some a ∧ ∀ th, th ∈ ts → private th ≠ Some a;
  si_once : ∀ a, NoDup (fr_seq <$> (F a ++ inflight a ts)%list);
  si_published : ∀ a f, f ∈ (F a ++ inflight a ts)%list → f ∈ log;
  si_private : ∀ a th, th ∈ ts → private th = Some a →
    ts_attachment s ≠ Some a ∧ inflight a ts ≡ₚ pending_frames a th;
  si_replayed : ∀ a th n f, th ∈ ts → private th = Some a → replayed_bound th = Some n →
    f ∈ (F a ++ pending_frames a th)%list → fr_seq f ≤ n
}.

Record term_inv (s : terminalSession) (log : list terminalHistoryFrame) (ts : list Thread) : Prop :=
  mk_term_inv {
    ti_threads : Forall (λ th, wf_thread th = true) ts;
    ti_history : history_refines log (ts_history s);
    ti_numbered : increasing log;
    ti_timer : ts_closed s = true → ts_idleTimer s = None;
    ti_closed : ts_closed s = true → ts_closing s = true;
    ti_released : (ts_released s + total closes ts)%nat = (if ts_closing s then 1 else 0)%nat;
    ti_removed : ts_removed s = ts_released s;
    ti_attaching : total attaches ts = (if ts_locked s then 1 else 0)%nat;
    ti_sent : ∃ F, sent_inv F s log ts
  }.

(** ** Order of the goroutines is irrelevant *)

#[export] Instance total_Permutation f : Proper ((≡ₚ) ==> (=)) (total f).
Proof. intros ts ts' Hp. unfold total. by rewrite Hp. Qed.

#[export] Instance inflight_Permutation a : Proper ((≡ₚ) ==> (≡ₚ)) (inflight a).
Proof. intros ts ts' Hp. unfold inflight. by rewrite Hp. Qed.

#[export] Instance sent_inv_Permutation F s log : Proper ((≡ₚ) ==> impl) (sent_inv F s log).
Proof.
  intros ts ts' Hp [H1 H2 H3 H4 H5 H6]. split.
  - done.
  - intros a Ha. destruct (H2 a Ha) as (HF & Hi & Hatt & Hpr). split_and!; try done.
    + apply Permutation_nil. by rewrite <- Hi, Hp.
    + intros th. rewrite <- Hp. auto.
  - intros a. rewrite <- Hp. auto.
  - intros a f. rewrite <- Hp. apply H4.
  - intros a th. rewrite <- Hp. apply H5.
  - intros a th n f. rewrite <- Hp. apply H6.
Qed.

#[export] Instance term_inv_Permutation s log : Proper ((≡ₚ) ==> impl) (term_inv s log).
Proof.
  intros ts ts' Hp [H0 H1 H2 H3 H4 H5 H6 H7 [F H8]]. split; try done.
  - by rewrite <- Hp.
  - by rewrite <- Hp.
  - by rewrite <- Hp.
  - exists F. by rewrite <- Hp.
Qed.

Lemma insert_Permutation {A} (l : list A) k x y :
  l !! k = Some x → l ≡ₚ x :: delete k l ∧ <[k := y]> l ≡ₚ y :: delete k l.
Proof.
  intros Hk. split; [by apply delete_Permutation|].
  rewrite delete_take_drop, insert_take_drop by (by eapply lookup_lt_Some).
  by rewrite Permutation_middle.
Qed.

(** ** Steps of a goroutine: locks, timers and releases *)

Lemma calm_idle th : calm th = true →
  closes th = 0%nat ∧ attaches th = 0%nat ∧ private th = None ∧ wf_thread th = true ∧
  ∀ a, pending_frames a th = [].
Proof. by destruct th. Qed.

Lemma send_to_heap p m a s : ∃ heap, (send_to p m a s).2 = set_heap heap s.
Proof.
  unfold send_to. destruct (ts_heap s !! a) as [att|].
  - destruct (send p m att) as [e att']. simpl. eauto.
  - exists (ts_heap s). by destruct s.
Qed.

Lemma section_inv ch s th r :
  section ch s th = Some r → attach_section ch s th = Some r ∨ other_section ch s th = Some r.
Proof. unfold section. destruct (attach_section ch s th); auto. Qed.

(** Case analysis on what a goroutine does next. *)
Ltac run_section H :=
  apply section_inv in H as [H|H];
  lazymatch type of H with
  | _ _ _ ?th = _ => destruct th; simpl in H; try discriminate H
  end;
  repeat lazymatch type of H with
  | context [let (_, _) := send_to ?p ?m ?a ?s in _] =>
      let heap := fresh "heap" in let e := fresh "err" in let s1 := fresh "s1" in
      let E := fresh "Esend" in let Eh := fresh "Eheap" in
      destruct (send_to_heap p m a s) as [heap Eh];
      destruct (send_to p m a s) as [e s1] eqn:E; simpl in Eh, H; subst s1
  | context [match ?x with _ => _ end] => destruct x eqn:?; simpl in H
  end; simplify_eq/=.

Lemma section_wf ch s th s' th' :
  wf_thread th = true → section ch s th = Some (s', th') → wf_thread th' = true.
Proof. intros Hwf H. run_section H; try done; by apply calm_idle. Qed.

(** The fields of the session after a locked section. *)
Ltac fields :=
  unfold clearAttachment_locked, scheduleIdleTimeoutLocked, removeAttachment, publishBinary_locked,
    close_locked, stopIdleTimer, setAttachment, close_attachment, at_attachment, isClosed in *;
  repeat (case_match; simplify_eq/=).

(** What a step does to the lock and to the releases. *)
Lemma section_counts ch s th s' th' :
  wf_thread th = true → section ch s th = Some (s', th') →
  (ts_locked s = true ∨ attaches th = 0%nat) → (ts_closing s = true ∨ closes th = 0%nat) →
  ((if ts_locked s' then 1 else 0) + attaches th = (if ts_locked s then 1 else 0) + attaches th')%nat ∧
  ((if ts_closing s' then 1 else 0) + ts_released s + closes th =
   (if ts_closing s then 1 else 0) + ts_released s' + closes th')%nat ∧
  (ts_removed s' + ts_released s = ts_removed s + ts_released s')%nat.
Proof.
  intros Hwf H Hl Hc. run_section H;
    try (apply calm_idle in Hwf as (Hk1 & Hk2 & _); rewrite ?Hk1, ?Hk2);
    fields; destruct Hl, Hc; try done; lia.
Qed.

(** What it does to the flags of the session. *)
Lemma section_flags ch s th s' th' :
  section ch s th = Some (s', th') →
  (ts_closing s = true ∨ closes th = 0%nat) →
  (ts_closed s = true → ts_idleTimer s = None ∧ ts_closing s = true) →
  ts_closed s' = true → ts_idleTimer s' = None ∧ ts_closing s' = true.
Proof.
  intros H Hc Hs. run_section H; fields; destruct Hc; try done; naive_solver.
Qed.

(** Publishing under the lock: nothing on a closed session; otherwise the next
    frame, to be sent to the current attachment. *)
Lemma publish_section payload s log :
  history_refines log (ts_history s) → Z.of_nat (length log) < 2 ^ 64 - 1 →
  let frame := mkFrame (Z.of_nat (length log) + 1) MessageBinary payload in
  publishBinary_locked payload s =
    if ts_closed s then (None, s)
    else (Some (frame, ts_attachment s),
          set_fields (ts_attachment s) (publish_frame payload (ts_history s)).2 (ts_closed s)
            (ts_idleTimer s) s).
Proof.
  intros Hh Hb. cbv zeta. unfold publishBinary_locked.
  destruct (publish_refines log (ts_history s) payload Hh Hb) as [Hf _].
  destruct (publish_frame payload (ts_history s)) as [f h]. simpl in *. by subst.
Qed.

(** What it does to the scroll-back. *)
Lemma section_history ch s th s' th' log :
  section ch s th = Some (s', th') → history_refines log (ts_history s) → increasing log →
  Z.of_nat (length (log ++ frames_out s th)%list) < 2 ^ 64 →
  history_refines (log ++ frames_out s th)%list (ts_history s') ∧
  increasing (log ++ frames_out s th)%list.
Proof.
  intros H Hh Hi Hb.
  assert (frames_out s th = [] ∧ ts_history s' = ts_history s ∨
    ∃ payload, frames_out s th = [(publish_frame payload (ts_history s)).1] ∧
      ts_history s' = (publish_frame payload (ts_history s)).2) as [[Hf Hs]|(payload & Hf & Hs)].
  { run_section H; fields; try (by left); right;
      match goal with |- context [mkFrame _ _ ?p] => by exists p end. }
  - rewrite Hf, app_nil_r, Hs. done.
  - rewrite Hf in *. rewrite length_app in Hb. simpl in Hb.
    destruct (publish_refines log (ts_history s) payload Hh) as [Hfr Hr]; [lia|].
    rewrite Hfr, Hs. split; [done|]. by apply increasing_push.
Qed.

(** ** Steps of a goroutine: what browsers receive *)

(** Queues hold the same output. *)
Definition same_delivery (s s' : terminalSession) : Prop :=
  ∀ a, delivered <$> (ts_heap s' !! a) = delivered <$> (ts_heap s !! a).

Lemma same_delivery_refl s : same_delivery s s.
Proof. done. Qed.

Lemma inflight_cons a th ts : inflight a (th :: ts) = (pending_frames a th ++ inflight a ts)%list.
Proof. done. Qed.

Lemma inflight_length a th ts : th ∈ ts → (length (pending_frames a th) ≤ length (inflight a ts))%nat.
Proof.
  induction 1 as [th ts|th x ts _ IH]; rewrite inflight_cons, length_app; lia.
Qed.

(** A private attachment gets frames from its own goroutine only. *)
Lemma private_alone F s log th ts x a :
  sent_inv F s log (th :: ts) → x ∈ ts → private x = Some a → pending_frames a th = [].
Proof.
  intros Hi Hx Hxa. destruct (si_private _ _ _ _ Hi a x) as [_ Hp]; [by right|done|].
  apply Permutation_length in Hp. rewrite inflight_cons, length_app in Hp.
  pose proof (inflight_length a x ts Hx). apply nil_length_inv. lia.
Qed.

(** A step that sends no frame: output and frames under way stay or shrink, the
    goroutine's attachment stays private or is given up. *)
Lemma sent_quiet F s s' log th th' ts :
  sent_inv F s log (th :: ts) → same_delivery s s' →
  (ts_attachment s' = ts_attachment s ∨ ts_attachment s' = None) →
  (∀ a, pending_frames a th' = pending_frames a th ∨ pending_frames a th' = []) →
  (private th' = None ∨
   private th' = private th ∧ (∀ a, pending_frames a th' = pending_frames a th) ∧
   (replayed_bound th' = replayed_bound th ∨ replayed_bound th' = None)) →
  sent_inv F s' log (th' :: ts).
Proof.
  intros Hinv Hd Ha Hp Hpr. pose proof (λ x a, private_alone _ _ _ _ _ x a Hinv) as Halone.
  destruct Hinv as [H1 H2 H3 H4 H5 H6].
  assert (∀ x, ts_attachment s ≠ Some x → ts_attachment s' ≠ Some x) as Hatt
    by (intros x Hx; destruct Ha as [->| ->]; done).
  split.
  - intros a att Hh. specialize (Hd a). rewrite Hh in Hd.
    destruct (ts_heap s !! a) as [att0|] eqn:E; [|done]. simpl in Hd. injection Hd as ->. by apply H1.
  - intros a Hh. specialize (Hd a). rewrite Hh in Hd.
    destruct (ts_heap s !! a) eqn:E; [done|]. destruct (H2 a E) as (HF & Hi & Hna & Hnp).
    split; [done|]. rewrite inflight_cons in *. apply app_nil in Hi as [Hi1 Hi2].
    split; [|split; [by apply Hatt|]].
    + rewrite Hi2. by destruct (Hp a) as [->| ->]; rewrite ?Hi1.
    + intros x [->|Hx]%elem_of_cons; [|apply Hnp; by right].
      destruct Hpr as [->|[-> _]]; [done|]. apply Hnp. by left.
  - intros a. specialize (H3 a). rewrite inflight_cons in *. destruct (Hp a) as [->| ->]; [done|].
    rewrite !fmap_app in *. eapply sublist_NoDup; [exact H3|]. apply sublist_app; [done|].
    by apply sublist_inserts_l.
  - intros a f Hf. apply (H4 a). rewrite inflight_cons in *.
    destruct (Hp a) as [E|E]; rewrite E in Hf; set_solver.
  - intros a x [->|Hx]%elem_of_cons Hxp; rewrite inflight_cons.
    + destruct Hpr as [?|[E [Ep _]]]; [congruence|].
      destruct (H5 a th) as [Hn Hi]; [by left|congruence|]. rewrite inflight_cons in Hi.
      split; [by apply Hatt|]. by rewrite Ep.
    + destruct (H5 a x) as [Hn Hi]; [by right|done|]. rewrite inflight_cons, (Halone x) in Hi by done.
      split; [by apply Hatt|]. destruct (Hp a) as [->| ->]; [by rewrite (Halone x)|done].
  - intros a x n f [->|Hx]%elem_of_cons Hxp Hb Hf; [|by eapply (H6 a x); [right|..]].
    destruct Hpr as [?|[E [Ep [Er|Er]]]]; [congruence| |congruence].
    rewrite Ep in Hf. eapply (H6 a th); [by left|congruence..|done].
Qed.

(** A queue whose output stays the same. *)
Lemma same_delivery_insert s a att att' :
  ts_heap s !! a = Some att → delivered att' = delivered att →
  same_delivery s (set_heap (<[a := att']> (ts_heap s)) s).
Proof.
  intros Ha Hd b. simpl. destruct (decide (a = b)) as [<-|Hne].
  - rewrite lookup_insert_eq, Ha. simpl. by rewrite Hd.
  - by rewrite lookup_insert_ne.
Qed.

Lemma same_delivery_close s code reason a : same_delivery s (close_attachment code reason a s).
Proof.
  intros b. unfold close_attachment, at_attachment. simpl. destruct (decide (a = b)) as [<-|Hne].
  - rewrite lookup_alter_eq. destruct (ts_heap s !! a) as [att|]; [|done]. simpl.
    unfold attachment_close. by destruct (ta_done att).
  - by rewrite lookup_alter_ne.
Qed.

Lemma send_delivered p m att : delivered (send p m att).2 =
  match (send p m att).1, output_of m with
  | None, Some b => delivered att ++ [b]
  | _, _ => delivered att
  end%list.
Proof.
  unfold send. destruct (_ && _); [done|]. case_bool_decide; [|done]. simpl.
  unfold delivered. simpl. rewrite app_assoc, omap_app. simpl.
  destruct (output_of m); [done|]. by rewrite app_nil_r.
Qed.

(** A control message is not output. *)
Lemma same_delivery_control p m a s : same_delivery s (send_to p (control_message m) a s).2.
Proof.
  unfold send_to. destruct (ts_heap s !! a) as [att|] eqn:E; [|done].
  pose proof (send_delivered p (control_message m) att) as Hd.
  destruct (send p (control_message m) att) as [e att']. simpl in *.
  apply (same_delivery_insert _ _ att); [done|]. by destruct e.
Qed.

(** A frame that was not sent. *)
Lemma same_delivery_failed p m a s : (send_to p m a s).1 ≠ None → same_delivery s (send_to p m a s).2.
Proof.
  unfold send_to. destruct (ts_heap s !! a) as [att|] eqn:E; [|done].
  pose proof (send_delivered p m att) as Hd.
  destruct (send p m att) as [[e|] att']; [|done]. simpl in *. intros _.
  by apply (same_delivery_insert _ _ att).
Qed.

(** A frame is sent: it moves from the frames under way to those delivered. *)
Lemma sent_frame F s log th th' ts a att att' f fs :
  sent_inv F s log (th :: ts) → ts_heap s !! a = Some att →
  delivered att' = (delivered att ++ [fr_payload f])%list →
  (∀ b, pending_frames b th = if decide (b = a) then f :: fs else []) →
  (∀ b, pending_frames b th' = if decide (b = a) then fs else []) →
  (private th' = None ∨
   private th' = private th ∧ private th = Some a ∧ replayed_bound th' = replayed_bound th) →
  sent_inv (λ b, if decide (b = a) then F a ++ [f] else F b)%list
    (set_heap (<[a := att']> (ts_heap s)) s) log (th' :: ts).
Proof.
  intros Hinv Ha Hd Hp Hp' Hpr. pose proof (λ x a, private_alone _ _ _ _ _ x a Hinv) as Halone.
  destruct Hinv as [H1 H2 H3 H4 H5 H6].
  assert (∀ b, (if decide (b = a) then F a ++ [f] else F b)%list ++ inflight b (th' :: ts) =
    F b ++ inflight b (th :: ts))%list as Eq.
  { intros b. rewrite !inflight_cons, Hp, Hp'. case_decide; [subst|done]. by rewrite <- app_assoc. }
  split.
  - intros b att0. simpl. case_decide as Hb; [subst b|].
    + rewrite lookup_insert_eq. intros [= <-]. rewrite Hd, (H1 _ _ Ha), fmap_app. done.
    + rewrite lookup_insert_ne by done. apply H1.
  - intros b. simpl. case_decide as Hb; [subst b; by rewrite lookup_insert_eq|].
    rewrite lookup_insert_ne by done. intros Hn. destruct (H2 b Hn) as (HF & Hi & Hna & Hnp).
    split; [done|]. rewrite inflight_cons in *. apply app_nil in Hi as [_ Hi].
    rewrite Hp', decide_False, Hi by done. split_and!; try done.
    intros x [->|Hx]%elem_of_cons; [|apply Hnp; by right].
    destruct Hpr as [->|(-> & -> & _)]; congruence.
  - intros b. by rewrite Eq.
  - intros b x. rewrite Eq. apply H4.
  - intros b x [->|Hx]%elem_of_cons Hxp.
    + destruct Hpr as [?|(E & E' & _)]; [congruence|]. assert (b = a) as -> by congruence.
      destruct (H5 a th) as [Hn Hi]; [by left|congruence|]. split; [done|].
      rewrite inflight_cons, Hp, decide_True in Hi by done. rewrite inflight_cons, !Hp', decide_True by done.
      simpl in Hi. by apply Permutation_cons_inv in Hi.
    + destruct (H5 b x) as [Hn Hi]; [by right|done|]. split; [done|].
      rewrite inflight_cons, (Halone x) in Hi by done. rewrite inflight_cons, Hp'.
      pose proof (Halone x b Hx Hxp) as E. rewrite Hp in E. by case_decide.
  - intros b x n g [->|Hx]%elem_of_cons Hxp Hb Hg.
    + destruct Hpr as [?|(E & E' & E'')]; [congruence|]. assert (b = a) as -> by congruence.
      rewrite decide_True, Hp', decide_True in Hg by done. rewrite <- app_assoc in Hg.
      eapply (H6 a th); [by left|done|congruence|]. by rewrite Hp, decide_True.
    + pose proof (Halone x b Hx Hxp) as E. rewrite Hp in E. case_decide; [done|].
      by eapply (H6 b x); [right|..].
Qed.

Lemma sent_log F s log l ts : sent_inv F s log ts → sent_inv F s (log ++ l)%list ts.
Proof.
  intros [H1 H2 H3 H4 H5 H6]. split; try done. intros a f Hf. apply elem_of_app. left. by apply (H4 a).
Qed.

(** A published frame is under way to the current attachment. *)
Lemma sent_publish F s s' log th ts a payload reads fin :
  sent_inv F s log (th :: ts) → increasing log → (∀ b, pending_frames b th = []) → private th = None →
  ts_attachment s = Some a → ts_attachment s' = Some a → ts_heap s' = ts_heap s →
  let frame := mkFrame (Z.of_nat (length log) + 1) MessageBinary payload in
  sent_inv F s' (log ++ [frame])%list (TSend a frame reads fin :: ts).
Proof.
  intros Hinv Hnum Hp Hpr Ha Ha' Hh. cbv zeta. set (frame := mkFrame _ _ _).
  destruct Hinv as [H1 H2 H3 H4 H5 H6].
  assert (∀ b, inflight b (th :: ts) = inflight b ts) as Ei by (intros b; by rewrite inflight_cons, Hp).
  assert (∀ b, inflight b (TSend a frame reads fin :: ts) =
    (if decide (a = b) then [frame] else []) ++ inflight b ts)%list as Ei' by done.
  split.
  - rewrite Hh. done.
  - intros b. rewrite Hh. intros Hb. destruct (H2 b Hb) as (HF & Hi & Hna & Hnp).
    rewrite Ei in Hi. rewrite Ei', Hi, Ha'. split_and!; [done| |congruence|].
    + case_decide; [congruence|done].
    + intros x [->|Hx]%elem_of_cons; [done|]. apply Hnp. by right.
  - intros b. specialize (H3 b). rewrite Ei in H3. rewrite Ei'. case_decide; [subst b|done].
    change ([frame] ++ inflight a ts)%list with (frame :: inflight a ts). rewrite <- Permutation_middle.
    csimpl. constructor; [|done]. intros (g & Hg & Hin)%list_elem_of_fmap.
    rewrite <- Ei in Hin. apply H4 in Hin. pose proof (increasing_bound _ _ Hnum Hin). simpl in Hg. lia.
  - intros b x. rewrite Ei'. intros Hx. apply elem_of_app. specialize (H4 b x). rewrite Ei in H4.
    case_decide; set_solver.
  - intros b x [->|Hx]%elem_of_cons Hxp; [done|].
    destruct (H5 b x) as [Hn Hi]; [by right|done|]. rewrite Ei in Hi. rewrite Ei', Ha'.
    rewrite Ha in Hn. split; [done|]. case_decide; [congruence|done].
  - intros b x n g [->|Hx]%elem_of_cons Hxp Hb Hg; [done|]. by eapply (H6 b x); [right|..].
Qed.

(** A new attachment is known to its goroutine only. *)
Lemma sent_alloc F s log th th' ts att :
  let a := fresh (dom (ts_heap s)) in
  sent_inv F s log (th :: ts) → delivered att = [] → private th = None → (∀ b, pending_frames b th = []) →
  private th' = Some a → (∀ b, pending_frames b th' = []) → replayed_bound th' = Some 0 →
  sent_inv F (set_heap (<[a := att]> (ts_heap s)) s) log (th' :: ts).
Proof.
  intros a [H1 H2 H3 H4 H5 H6] Hd Hpr Hp Hpr' Hp' Hb.
  assert (ts_heap s !! a = None) as Hnew by apply not_elem_of_dom, is_fresh.
  destruct (H2 a Hnew) as (HFa & Hia & Hna & Hnpa).
  assert (∀ b, inflight b (th :: ts) = inflight b ts) as Ei by (intros b; by rewrite inflight_cons, Hp).
  assert (∀ b, inflight b (th' :: ts) = inflight b ts) as Ei' by (intros b; by rewrite inflight_cons, Hp').
  split.
  - intros b att0 Hb0. simpl in Hb0. apply lookup_insert_Some in Hb0 as [[<- <-]|[_ Hb0]]; [by rewrite HFa|by apply H1].
  - intros b Hb0. simpl in Hb0. apply lookup_insert_None in Hb0 as [Hb0 Hne]. destruct (H2 b Hb0) as (HF & Hi & Hnb & Hnp).
    rewrite Ei', <- Ei. split_and!; try done. intros x [->|Hx]%elem_of_cons; [congruence|].
    apply Hnp. by right.
  - intros b. rewrite Ei', <- Ei. done.
  - intros b f. rewrite Ei', <- Ei. apply H4.
  - intros b x [->|Hx]%elem_of_cons Hxp; rewrite Ei', <- Ei.
    + assert (b = a) as -> by congruence. by rewrite Hia, Hp'.
    + apply (H5 b x); [by right|done].
  - intros b x n f [->|Hx]%elem_of_cons Hxp Hxb Hf; [|by eapply (H6 b x); [right|..]].
    assert (b = a) as -> by congruence. rewrite HFa, Hp' in Hf. by apply elem_of_nil in Hf.
Qed.

Lemma sublist_fmap {A B} (f : A → B) l k : l `sublist_of` k → f <$> l `sublist_of` f <$> k.
Proof. induction 1; csimpl; by constructor. Qed.

(** A snapshot puts the frames after the last replayed one under way. *)
Lemma sent_snapshot F s log ts a n args :
  sent_inv F s log (TSnapshot a n args :: ts) → increasing log → (∀ x, x ∈ ts → private x = None) →
  sent_inv F s log (TReplay a (filter (λ f, n < fr_seq f) (recent terminalHistoryFrames log))
    (Z.of_nat (length log)) args :: ts).
Proof.
  intros [H1 H2 H3 H4 H5 H6] Hnum Hmu. set (fs := filter _ _).
  assert (∀ b, inflight b (TReplay a fs (Z.of_nat (length log)) args :: ts) =
    (if decide (a = b) then fs else []) ++ inflight b ts)%list as Ei by done.
  assert (∀ b, inflight b (TSnapshot a n args :: ts) = inflight b ts) as Ei' by done.
  destruct (H5 a (TSnapshot a n args)) as [Hna Hia]; [by left|done|]. rewrite Ei' in Hia.
  apply (Permutation_nil_r (inflight a ts)) in Hia.
  assert (∀ f, f ∈ fs → f ∈ log) as Hfs.
  { intros f [_ Hf]%list_elem_of_filter. by eapply recent_elem. }
  assert (∀ f, f ∈ F a → fr_seq f ≤ n) as Hn.
  { intros f Hf. apply (H6 a (TSnapshot a n args)); [by left|done..|set_solver]. }
  split.
  - done.
  - intros b Hb. destruct (H2 b Hb) as (HF & Hi & Hnb & Hnp). rewrite Ei' in Hi. rewrite Ei, Hi.
    case_decide as Hab; [by subst b; exfalso; apply (Hnp (TSnapshot a n args)); [left|]|].
    split_and!; try done. intros x [->|Hx]%elem_of_cons; [simpl; congruence|]. apply Hnp. by right.
  - intros b. specialize (H3 b). rewrite Ei' in H3. rewrite Ei. case_decide; [subst b|done].
    rewrite Hia in *. rewrite !app_nil_r in *. rewrite fmap_app. apply NoDup_app. split; [done|].
    split.
    + intros x (f & -> & Hf)%list_elem_of_fmap (g & E & [Hg _]%list_elem_of_filter)%list_elem_of_fmap.
      specialize (Hn f Hf). lia.
    + apply (sublist_NoDup _ (fr_seq <$> log)); [by apply increasing_NoDup|]. apply sublist_fmap.
      etrans; [apply sublist_filter|]. apply sublist_drop.
  - intros b f. specialize (H4 b f). rewrite Ei' in H4. rewrite Ei. case_decide; set_solver.
  - intros b x [->|Hx]%elem_of_cons Hxp; rewrite Ei.
    + assert (b = a) as -> by (simpl in Hxp; congruence). simpl.
      rewrite Hia, app_nil_r, decide_True by done. done.
    + by rewrite Hmu in Hxp.
  - intros b x m f [->|Hx]%elem_of_cons Hxp Hxb Hf; [|by rewrite Hmu in Hxp].
    simpl in Hxp, Hxb. simplify_eq. simpl in Hf. rewrite decide_True in Hf by done.
    apply increasing_bound; [done|]. apply elem_of_app in Hf as [Hf|Hf]; [|by apply Hfs].
    apply (H4 b). set_solver.
Qed.

(** The attachment becomes the session's. *)
Lemma sent_set F s log ts a args :
  sent_inv F s log (TSet a args :: ts) → (∀ x, x ∈ ts → private x = None) →
  sent_inv F (setAttachment a s) log (TUnlock a args :: ts).
Proof.
  intros [H1 H2 H3 H4 H5 H6] Hmu. split; try done.
  - intros b Hb. destruct (H2 b Hb) as (HF & Hi & Hnb & Hnp). split_and!; try done.
    + simpl. intros [= ->]. by apply (Hnp (TSet b args)); [left|].
    + intros x [->|Hx]%elem_of_cons; [done|]. by rewrite Hmu.
  - intros b x [->|Hx]%elem_of_cons Hxp; [done|]. by rewrite Hmu in Hxp.
  - intros b x m f [->|Hx]%elem_of_cons Hxp; [done|]. by rewrite Hmu in Hxp.
Qed.

(** A frame is sent, or not. *)
Lemma send_outcome p f a s :
  ((send_to p (frame_message f) a s).1 ≠ None ∧
   same_delivery s (send_to p (frame_message f) a s).2 ∧
   ∃ heap, (send_to p (frame_message f) a s).2 = set_heap heap s) ∨
  ∃ att att', ts_heap s !! a = Some att ∧ delivered att' = (delivered att ++ [fr_payload f])%list ∧
    send_to p (frame_message f) a s = (None, set_heap (<[a := att']> (ts_heap s)) s).
Proof.
  destruct ((send_to p (frame_message f) a s).1) as [e|] eqn:E.
  - left. split; [done|]. split; [|apply send_to_heap]. apply same_delivery_failed. by rewrite E.
  - right. unfold send_to in *. destruct (ts_heap s !! a) as [att|]; [|done].
    pose proof (send_delivered p (frame_message f) att) as Hd.
    destruct (send p (frame_message f) att) as [e att']. simpl in E. subst e. eauto.
Qed.

(** Steps that send no frame. *)
Ltac quiet F Hinv :=
  exists F; eapply sent_quiet; [exact Hinv|..];
  [ try done; auto using same_delivery_close, same_delivery_control
  | fields; auto
  | intros; simpl; auto
  | simpl; auto ].

Lemma attach_sent F ch s th s' th' log ts :
  sent_inv F s log (th :: ts) →
  (attaches th = 1%nat → ∀ x, x ∈ ts → private x = None) →
  history_refines log (ts_history s) → increasing log →
  attach_section ch s th = Some (s', th') →
  ∃ F', sent_inv F' s' log (th' :: ts).
Proof.
  intros Hinv Hmu Hh Hnum H. destruct th; try discriminate H; simpl in H, Hmu.
  - case_match; [done|]. case_match; simplify_eq; quiet F Hinv.
  - simplify_eq. quiet F Hinv.
  - case_match; simplify_eq; exists F; by (eapply sent_alloc; [exact Hinv|..]).
  - simplify_eq. quiet F Hinv.
  - simplify_eq. unfold removeAttachment. case_match; quiet F Hinv.
  - pose proof (same_delivery_control (ch_pick_done ch)
      (mkServerMessage "ready" "" (ts_id s) (aa_recovered args)) a s) as Hd.
    destruct (send_to_heap (ch_pick_done ch)
      (control_message (mkServerMessage "ready" "" (ts_id s) (aa_recovered args))) a s) as [h Eh].
    destruct (send_to _ _ _ _) as [err s1]. simpl in *. subst s1. injection H as <- <-.
    destruct err; quiet F Hinv.
  - rewrite (snapshot_refines log) in H by done.
    destruct (filter _ _) as [|f fs] eqn:E; simplify_eq; [by quiet F Hinv|].
    rewrite <- E. exists F. by apply sent_snapshot; [..|apply Hmu].
  - destruct frames as [|f fs].
    { simplify_eq. assert (∀ b, pending_frames b (TReplay a [] latestSeq args) = []) as Hp
        by (intros b; simpl; by case_decide).
      exists F. eapply sent_quiet; [exact Hinv|done|by left|intros b; rewrite Hp; by left|].
      right. split; [done|]. split; [intros b; by rewrite Hp|by left]. }
    destruct (send_outcome (ch_pick_done ch) f a s) as [Hs|(att & att' & Ha & Hd & Hs)].
    + destruct (send_to _ _ _ _) as [[e|] s1]; simpl in *; [|by destruct Hs]. injection H as <- <-.
      destruct Hs as (_ & Hd & heap & ->). quiet F Hinv.
    + rewrite Hs in H. injection H as <- <-. eexists. eapply sent_frame; [exact Hinv|done|done|..].
      * intros b. simpl. instantiate (1 := fs). by repeat case_decide.
      * intros b. simpl. by repeat case_decide.
      * by right.
  - simplify_eq. exists F. by apply sent_set; [|apply Hmu].
  - simplify_eq. quiet F Hinv.
  - simplify_eq. quiet F Hinv.
  - case_match; simplify_eq; quiet F Hinv.
  - simplify_eq. quiet F Hinv.
Qed.

Lemma stream_sent F s s' th' log ts payload reads fin :
  sent_inv F s log (TStream (payload :: reads) fin :: ts) →
  history_refines log (ts_history s) → increasing log →
  Z.of_nat (length (log ++ frames_out s (TStream (payload :: reads) fin))%list) < 2 ^ 64 →
  other_section (mkChoice false false 0) s (TStream (payload :: reads) fin) = Some (s', th') →
  ∃ F', sent_inv F' s' (log ++ frames_out s (TStream (payload :: reads) fin))%list (th' :: ts).
Proof.
  intros Hinv Hh Hnum Hb H. destruct payload as [|b bs].
  { simpl in H. simplify_eq. simpl frames_out. rewrite app_nil_r. quiet F Hinv. }
  destruct (ts_closed s) eqn:Ec.
  { simpl in *. unfold publishBinary_locked in *. rewrite Ec in *. simpl in *. simplify_eq.
    rewrite app_nil_r. quiet F Hinv. }
  assert (Z.of_nat (length log) < 2 ^ 64 - 1) as Hb'.
  { simpl in Hb. unfold publishBinary_locked in Hb. rewrite Ec in Hb. simpl in Hb.
    rewrite length_app in Hb. simpl in Hb. lia. }
  simpl in H |- *. rewrite (publish_section _ _ log), Ec in H |- * by done. simpl in H |- *.
  destruct (ts_attachment s) as [a|] eqn:Ea; simplify_eq; exists F.
  - by eapply sent_publish.
  - apply sent_log. eapply sent_quiet; [exact Hinv|done|by right|by left|by left].
Qed.

Lemma other_sent F ch s th s' th' log ts :
  sent_inv F s log (th :: ts) → wf_thread th = true →
  history_refines log (ts_history s) → increasing log →
  Z.of_nat (length (log ++ frames_out s th)%list) < 2 ^ 64 →
  other_section ch s th = Some (s', th') →
  ∃ F', sent_inv F' s' (log ++ frames_out s th)%list (th' :: ts).
Proof.
  intros Hinv Hwf Hh Hnum Hb H.
  assert ((∃ payload reads fin, th = TStream (payload :: reads) fin) ∨ frames_out s th = []) as [Hs|Hf].
  { destruct th; try (by right). destruct reads; [by right|left; eauto]. }
  { destruct Hs as (payload & reads & fin & ->). by eapply stream_sent. }
  rewrite Hf, app_nil_r in *. clear Hb. destruct th; try discriminate H; simpl in H.
  - destruct reads; [destruct fin; simplify_eq; quiet F Hinv|].
    destruct l; [simplify_eq; quiet F Hinv|]. simpl in Hf. unfold publishBinary_locked in *.
    destruct (ts_closed s); simplify_eq/=. quiet F Hinv.
  - destruct (send_outcome (ch_pick_done ch) frame a s) as [Hs|(att & att' & Ha & Hd & Hs)].
    + destruct (send_to _ _ _ _) as [[e|] s1]; simpl in *; [|by destruct Hs]. injection H as <- <-.
      destruct Hs as (_ & Hd & heap & ->). quiet F Hinv.
    + rewrite Hs in H. injection H as <- <-. eexists. eapply sent_frame; [exact Hinv|done|done|..].
      * intros b. simpl. instantiate (1 := []). by repeat case_decide.
      * intros b. simpl. by repeat case_decide.
      * by left.
  - simplify_eq. unfold clearAttachment_locked, scheduleIdleTimeoutLocked. repeat case_match; quiet F Hinv.
  - simplify_eq. apply calm_idle in Hwf as (_ & _ & Hp & _ & Hk). exists F.
    eapply sent_quiet; [exact Hinv|apply same_delivery_close|by left|by right; apply Hk|by left].
  - case_match; simplify_eq; quiet F Hinv.
  - destruct (ts_attachment s); [case_match|]; simplify_eq; quiet F Hinv.
  - pose proof (same_delivery_control (ch_pick_done ch) (mkServerMessage "error" message "" false) a s) as Hd.
    destruct (send_to_heap (ch_pick_done ch)
      (control_message (mkServerMessage "error" message "" false)) a s) as [h Eh].
    destruct (send_to _ _ _ _) as [err s1]. simpl in *. subst s1. injection H as <- <-. quiet F Hinv.
  - simplify_eq. quiet F Hinv.
  - simplify_eq. quiet F Hinv.
Qed.

Lemma private_attaches th : is_Some (private th) → attaches th = 1%nat.
Proof. intros [x H]. by destruct th. Qed.

(** ** The invariant holds in every interleaving *)

Lemma term_inv_section ch s log th ts s' th' :
  term_inv s log (th :: ts) → section ch s th = Some (s', th') →
  Z.of_nat (length (log ++ frames_out s th)%list) < 2 ^ 64 →
  term_inv s' (log ++ frames_out s th)%list (th' :: ts).
Proof.
  intros [H0 H1 H2 H3 H4 H5 H6 H7 [F H8]] H Hb. apply Forall_cons in H0 as [Hwf Hwfs].
  assert (ts_locked s = true ∨ attaches th = 0%nat) as Hl
    by (destruct (ts_locked s); [by left|right; simpl in H7; lia]).
  assert (ts_closing s = true ∨ closes th = 0%nat) as Hc
    by (destruct (ts_closing s); [by left|right; simpl in H5; lia]).
  destruct (section_counts _ _ _ _ _ Hwf H Hl Hc) as (Hca & Hcc & Hcr).
  destruct (section_history _ _ _ _ _ _ H H1 H2 Hb) as [H1' H2'].
  pose proof (section_flags _ _ _ _ _ H Hc (λ E, conj (H3 E) (H4 E))) as Hfl.
  simpl in *. split; try done.
  - constructor; [by eapply section_wf|done].
  - intros E. by apply Hfl.
  - intros E. by apply Hfl.
  - simpl. repeat case_match; lia.
  - lia.
  - simpl. repeat case_match; lia.
  - destruct (section_inv _ _ _ _ H) as [H'|H'].
    + assert (frames_out s th = []) as -> by (by destruct th). rewrite app_nil_r.
      eapply attach_sent; try done. intros Hone x Hx.
      destruct (private x) eqn:Ep; [|done]. exfalso.
      pose proof (private_attaches x ltac:(eauto)) as Hx1.
      pose proof (sum_list_with_in x attaches ts Hx). unfold total in H7. simpl in H7.
      destruct (ts_locked s); lia.
    + by eapply other_sent.
Qed.

Lemma term_inv_heap s log ts a att att' :
  term_inv s log ts → ts_heap s !! a = Some att → delivered att' = delivered att →
  term_inv (set_heap (<[a := att']> (ts_heap s)) s) log ts.
Proof.
  intros [H0 H1 H2 H3 H4 H5 H6 H7 [F H8]] Ha Hd. split; try done. exists F.
  destruct H8 as [E1 E2 E3 E4 E5 E6]. split; try done; simpl.
  - intros b att0 [[<- <-]|[_ Hb]]%lookup_insert_Some; [rewrite Hd; by apply E1|by apply E1].
  - intros b [Hb _]%lookup_insert_None. by apply E2.
Qed.

Lemma writer_delivered cancelled leave ok att att' :
  writer_turn cancelled leave ok att = Some att' → delivered att' = delivered att.
Proof.
  unfold writer_turn, attachment_close, delivered. intros H.
  repeat case_match; simplify_eq/=; rewrite <- ?app_assoc; done.
Qed.

Lemma term_inv_timer s log ts t :
  term_inv s log ts → ts_idleTimer s = Some t → term_inv (fired s t) log (expire :: ts).
Proof.
  intros [H0 H1 H2 H3 H4 H5 H6 H7 [F H8]] Ht. split; try done.
  - by constructor.
  - intros E. specialize (H3 E). congruence.
  - exists F. destruct H8 as [E1 E2 E3 E4 E5 E6]. split; try done.
    + intros a Ha. destruct (E2 a Ha) as (? & ? & ? & Hp). split_and!; try done.
      intros x [->|Hx]%elem_of_cons; [done|auto].
    + intros a x [->|Hx]%elem_of_cons; [done|]. by apply E5.
    + intros a x n f [->|Hx]%elem_of_cons; [done|]. by apply E6.
Qed.

Lemma term_inv_step c c' :
  terminal_step c c' → Z.of_nat (length (cf_log c')) < 2 ^ 64 →
  term_inv (cf_session c) (cf_log c) (cf_threads c) →
  term_inv (cf_session c') (cf_log c') (cf_threads c').
Proof.
  intros [s log ts k th ch s' th' Hk H|s log ts a att leave ok att' Ha H|s log ts t now Ht Hf Hd] Hb Hi;
    simpl in *.
  - destruct (insert_Permutation ts k th th' Hk) as [Hp Hp'].
    rewrite Hp'. rewrite Hp in Hi. by eapply term_inv_section.
  - eapply term_inv_heap; [done..|]. by eapply writer_delivered.
  - rewrite Permutation_app_comm. by apply term_inv_timer.
Qed.

Lemma term_inv_initial c : initial c → term_inv (cf_session c) (cf_log c) (cf_threads c).
Proof.
  destruct c as [s log ts]. intros ((id & m & ws & w & ->) & -> & Hst). simpl in *.
  assert (∀ th, th ∈ ts → starting th) as Hs by by apply Forall_forall.
  assert (∀ a, inflight a ts = []) as Hi.
  { intros a. clear -Hst. induction Hst as [|th ts Hth _ IH]; [done|].
    rewrite inflight_cons, IH. by destruct th. }
  assert (total closes ts = 0%nat ∧ total attaches ts = 0%nat) as [Hc Ha].
  { clear -Hst. induction Hst as [|th ts Hth _ [IH1 IH2]]; [done|]. unfold total in *. simpl.
    rewrite IH1, IH2. by destruct th. }
  split; try done.
  - eapply Forall_impl; [exact Hst|]. by intros [].
  - exists (λ _, []). split; simpl; try done.
    + intros a _. rewrite Hi. split_and!; try done. intros th Hth%Hs. by destruct th.
    + intros a. rewrite Hi. constructor.
    + intros a f. rewrite Hi. by intros ?%elem_of_nil.
    + intros a th Hth%Hs. by destruct th.
    + intros a th n f Hth%Hs. by destruct th.
Qed.

Lemma log_grows c c' : terminal_step c c' → (length (cf_log c) ≤ length (cf_log c'))%nat.
Proof. intros []; simpl; rewrite ?length_app; lia. Qed.

Lemma reachable_inv c0 c :
  initial c0 → rtc terminal_step c0 c → Z.of_nat (length (cf_log c)) < 2 ^ 64 →
  term_inv (cf_session c) (cf_log c) (cf_threads c).
Proof.
  intros H0 Hr. eapply (rtc_invariant terminal_step (λ c, Z.of_nat (length (cf_log c)) < 2 ^ 64 →
    term_inv (cf_session c) (cf_log c) (cf_threads c))); [|intros _; by apply term_inv_initial|done].
  intros a b IH Hs Hb. eapply term_inv_step; [done..|]. apply IH. pose proof (log_grows _ _ Hs). lia.
Qed.

(** C11. Whatever the interleaving of the goroutines of a terminal session
    (browsers attaching and leaving, output being published, slow or failing
    writers, the idle timer, closing): the scroll-back is the last 256 frames
    published; every browser has been sent published frames only, and none
    twice; at most one goroutine is attaching; a closed session has no timer;
    and the shell, the proxy connection and the manager's entry are released
    together and at most once. *)
Theorem terminal_safety c0 c :
  initial c0 → rtc terminal_step c0 c → Z.of_nat (length (cf_log c)) < 2 ^ 64 →
  let s := cf_session c in
  (∀ after, (snapshotFramesAfter after (ts_history s)).1 =
     filter (λ f, after < fr_seq f) (recent 256 (cf_log c))) ∧
  (∀ a att, ts_heap s !! a = Some att → ∃ frames, delivered att = fr_payload <$> frames ∧
     NoDup (fr_seq <$> frames) ∧ ∀ f, f ∈ frames → f ∈ cf_log c) ∧
  (total attaches (cf_threads c) ≤ 1)%nat ∧
  (ts_closed s = true → ts_idleTimer s = None) ∧
  (ts_released s ≤ 1)%nat ∧ ts_removed s = ts_released s.
Proof.
  intros H0 Hr Hb. cbv zeta. destruct (reachable_inv c0 c H0 Hr Hb) as [_ H1 _ H3 _ H5 H6 H7 [F H8]].
  split_and!; try done.
  - intros after. by rewrite (snapshot_refines (cf_log c)).
  - intros a att Ha. exists (F a). split; [by apply (si_delivered _ _ _ _ H8)|].
    pose proof (si_once _ _ _ _ H8 a) as Hn. rewrite fmap_app in Hn. apply NoDup_app in Hn as [Hn _].
    split; [done|]. intros f Hf. apply (si_published _ _ _ _ H8 a). set_solver.
  - rewrite H7. destruct (ts_locked _); lia.
  - destruct (ts_closing _); lia.
Qed.

(** ** Schedules *)

Inductive Action :=
| ARun (k : nat) (ch : Choice)
| AWrite (a : nat) (leave ok : bool)
| ATimer (now : Z).

Definition perform (act : Action) (c : Config) : option Config :=
  let '(mkConfig s log ts) := c in
  match act with
  | ARun k ch =>
      th ← ts !! k; '(s', th') ← section ch s th;
      Some (mkConfig s' (log ++ frames_out s th)%list (<[k := th']> ts))
  | AWrite a leave ok =>
      att ← ts_heap s !! a; att' ← writer_turn (ts_cancelled s) leave ok att;
      Some (mkConfig (set_heap (<[a := att']> (ts_heap s)) s) log ts)
  | ATimer now =>
      t ← ts_idleTimer s;
      if tm_fired t then None
      else if bool_decide (tm_deadline t ≤ now) then Some (mkConfig (fired s t) log (ts ++ [expire])%list)
      else None
  end.

Fixpoint run (acts : list Action) (c : Config) : option Config :=
  match acts with [] => Some c | act :: acts => c' ← perform act c; run acts c' end.

Lemma perform_step act c c' : perform act c = Some c' → terminal_step c c'.
Proof.
  destruct c as [s log ts], act; simpl; intros H.
  - destruct (ts !! k) as [th|] eqn:Ek; simpl in H; [|done].
    destruct (section ch s th) as [[s' th']|] eqn:Es; simplify_eq/=. by econstructor.
  - destruct (ts_heap s !! a) as [att|] eqn:Ea; simpl in H; [|done].
    destruct (writer_turn _ _ _ _) as [att'|] eqn:Ew; simplify_eq/=. by econstructor.
  - destruct (ts_idleTimer s) as [t|] eqn:Et; simpl in H; [|done].
    destruct (tm_fired t) eqn:Ef; [done|]. case_bool_decide; simplify_eq. by econstructor.
Qed.

Lemma run_steps acts c c' : run acts c = Some c' → rtc terminal_step c c'.
Proof.
  revert c. induction acts as [|act acts IH]; simpl; intros c H; [by simplify_eq|].
  destruct (perform act c) as [c1|] eqn:E; simpl in H; [|done].
  eapply rtc_l; [by eapply perform_step|]. by apply IH.
Qed.

(** [n] steps of goroutine [k] at time [now], nothing failing. *)
Definition turns (n k : nat) (now : Z) : list Action := replicate n (ARun k (mkChoice false true now)).

Definition browser (conn : nat) (recovered : bool) : Thread :=
  TAttach (mkAttachArgs conn 120 36 recovered).

Definition some_session : terminalSession := new_session "term-1" "member-1" "ws-1" "worker-1".

(** A second browser taking a terminal over can lose it a minute later: there
    is an interleaving, with nothing failing, in which the first browser's
    goroutine runs [clearAttachment] while the second one is closing its
    connection.  That arms the idle timer, which the second has already
    stopped, so the session is left with the second browser attached and the
    timer running, and when it fires the attached terminal is closed as
    expired. *)
Theorem takeover_expires :
  let c0 := mkConfig some_session [] [browser 1 false; browser 2 true] in
  ∃ c c', initial c0 ∧ rtc terminal_step c0 c ∧ rtc terminal_step c c' ∧
    (∃ a att, ts_attachment (cf_session c) = Some a ∧ ts_heap (cf_session c) !! a = Some att ∧
       ta_conn att = 2%nat ∧ ta_done att = false) ∧
    ts_idleTimer (cf_session c) = Some (mkTimer (60 * Second) false) ∧ cf_threads c !! 1%nat = Some (TRead 1) ∧
    ts_closed (cf_session c') = true ∧
    ∃ att, ts_heap (cf_session c') !! 1%nat = Some att ∧
      ta_closed att = Some (StatusGoingAway, "terminal session expired").
Proof.
  cbv zeta.
  set (acts := (turns 8 0 0 ++ turns 4 1 0 ++ turns 3 0 0 ++ turns 6 1 0)%list).
  set (acts' := (ATimer (60 * Second) :: turns 5 2 (60 * Second))%list).
  destruct (run acts (mkConfig some_session [] [browser 1 false; browser 2 true])) as [c|] eqn:E;
    [|by vm_compute in E].
  destruct (run acts' c) as [c'|] eqn:E'; [|by vm_compute in E; simplify_eq; vm_compute in E'].
  exists c, c'. split; [by split; [do 4 eexists|split; [|repeat constructor]]|].
  split; [by eapply run_steps|]. split; [by eapply run_steps|].
  vm_compute in E. simplify_eq. vm_compute in E'. simplify_eq.
  split_and!; try done; [|by eexists]. exists 1%nat. by eexists.
Qed.

(** Output published while a browser is being attached can miss it: there is
    an interleaving, with nothing failing, in which a frame is published between
    the snapshot that finds nothing more to replay and the step that makes the
    attachment the session's.  The browser ends up attached and reading, the
    frame is in the log, nobody is about to send it, and it was not delivered. *)
Theorem attach_misses_frame :
  let c0 := mkConfig some_session [] [browser 1 false; TStream [[65]] QuietEnd] in
  ∃ c att f, initial c0 ∧ rtc terminal_step c0 c ∧ cf_log c = [f] ∧
    cf_threads c = [TRead 0; TEnd false] ∧ ts_attachment (cf_session c) = Some 0%nat ∧
    ts_heap (cf_session c) !! 0%nat = Some att ∧ ta_done att = false ∧ delivered att = [].
Proof.
  cbv zeta.
  destruct (run (turns 5 0 0 ++ turns 2 1 0 ++ turns 3 0 0)%list
    (mkConfig some_session [] [browser 1 false; TStream [[65]] QuietEnd])) as [c|] eqn:E;
    [|by vm_compute in E].
  exists c. eexists _, _. split; [by split; [do 4 eexists|split; [|repeat constructor]]|].
  split; [by eapply run_steps|]. vm_compute in E. simplify_eq. by split_and!.
Qed.

(** ** A browser attaching while nothing else runs *)

Definition alone (ch : Choice) (x y : terminalSession * Thread) : Prop :=
  section ch x.1 x.2 = Some y.

Definition enqueue_all (ms : list terminalOutboundMessage) (att : terminalAttachment) : terminalAttachment :=
  mkAttachment (ta_conn att) (ta_outbound att ++ ms)%list (ta_written att) (ta_done att) (ta_closed att)
    (ta_writing att).

(** One frame sent while there is room. *)
Lemma replay_one ch s a att f fs n args :
  ts_heap s !! a = Some att → ta_done att = false →
  (length (ta_outbound att) < terminalAttachmentQueueSize)%nat →
  alone ch (s, TReplay a (f :: fs) n args)
    (set_heap (<[a := enqueue (frame_message f) att]> (ts_heap s)) s, TReplay a fs n args).
Proof.
  intros Ha Hd Hl. unfold alone, section. simpl. unfold send_to, send. rewrite Ha, Hd. simpl.
  by rewrite bool_decide_true.
Qed.

(** Replaying frames: those that fit are queued, and the first that does not
    makes attaching fail. *)
Lemma replay_fits ch s a att fs n args :
  ts_heap s !! a = Some att → ta_done att = false →
  (length (ta_outbound att) + length fs ≤ terminalAttachmentQueueSize)%nat →
  rtc (alone ch) (s, TReplay a fs n args)
    (set_heap (<[a := enqueue_all (frame_message <$> fs) att]> (ts_heap s)) s, TReplay a [] n args).
Proof.
  revert s att. induction fs as [|f fs IH]; intros s att Ha Hd Hl.
  - replace (set_heap _ s) with s; [done|]. destruct att; simpl. unfold enqueue_all. simpl.
    rewrite app_nil_r, insert_id by done. by destruct s.
  - simpl in Hl. eapply rtc_l; [apply replay_one; [done|done|lia]|].
    assert (ts_heap (set_heap (<[a := enqueue (frame_message f) att]> (ts_heap s)) s) !! a =
      Some (enqueue (frame_message f) att)) as Ha' by apply lookup_insert_eq.
    specialize (IH _ _ Ha' Hd). simpl in IH. rewrite length_app, insert_insert_eq in IH. simpl in IH.
    specialize (IH ltac:(lia)). unfold enqueue_all in *. simpl in *. by rewrite <- app_assoc in IH.
Qed.

Lemma replay_overflows ch s a att fs n args :
  ts_heap s !! a = Some att → ta_done att = false →
  (length (ta_outbound att) ≤ terminalAttachmentQueueSize < length (ta_outbound att) + length fs)%nat →
  ∃ heap, rtc (alone ch) (s, TReplay a fs n args) (set_heap heap s, TFail a).
Proof.
  revert s att. induction fs as [|f fs IH]; intros s att Ha Hd Hl; simpl in Hl; [lia|].
  destruct (decide (length (ta_outbound att) = terminalAttachmentQueueSize)) as [E|E].
  - eexists. eapply rtc_once. unfold alone, section. simpl. unfold send_to, send. rewrite Ha, Hd. simpl.
    rewrite bool_decide_false by lia. done.
  - assert (ts_heap (set_heap (<[a := enqueue (frame_message f) att]> (ts_heap s)) s) !! a =
      Some (enqueue (frame_message f) att)) as Ha' by apply lookup_insert_eq.
    destruct (IH _ _ Ha' Hd) as [heap Hr]; [simpl; rewrite length_app; simpl; lia|].
    exists heap. eapply rtc_l; [apply replay_one; [done|done|lia]|]. done.
Qed.

Lemma filter_above n (l : list terminalHistoryFrame) :
  (∀ f, f ∈ l → n < fr_seq f) → filter (λ f, n < fr_seq f) l = l.
Proof.
  induction l as [|f l IH]; intros Hl; [done|].
  rewrite filter_cons_True, IH; set_solver.
Qed.

Lemma filter_none n (l : list terminalHistoryFrame) :
  (∀ f, f ∈ l → fr_seq f ≤ n) → filter (λ f, n < fr_seq f) l = [].
Proof.
  induction l as [|f l IH]; intros Hl; [done|]. specialize (Hl f ltac:(left)) as Hf.
  rewrite filter_cons_False, IH; [done|set_solver|lia].
Qed.

Lemma rtc_equal {A} (R : relation A) x y : x = y → rtc R x y.
Proof. by intros ->. Qed.

(** Up to the first snapshot: the timer is stopped, the previous attachment is
    gone and the new one has been told it is ready. *)
Lemma attach_prefix ch s args :
  ts_closed s = false → ts_locked s = false →
  (∀ cur, ts_attachment s = Some cur → is_Some (ts_heap s !! cur)) →
  ∃ a heap, let ready := mkServerMessage "ready" "" (ts_id s) (aa_recovered args) in
    heap !! a = Some (enqueue (control_message ready) (newTerminalAttachment (aa_conn args))) ∧
    rtc (alone ch) (s, TAttach args)
      (set_heap heap (set_locked true (set_fields None (ts_history s) false None s)), TSnapshot a 0 args).
Proof.
  intros Hc Hl Hcur. set (a := fresh (dom (ts_heap s))).
  assert (ts_heap s !! a = None) as Hnew by apply not_elem_of_dom, is_fresh.
  set (new := newTerminalAttachment (aa_conn args)).
  set (base := set_locked true (set_fields None (ts_history s) false None s)).
  assert (∃ heap, heap !! a = Some new ∧ rtc (alone ch) (s, TAttach args) (set_heap heap base, TReady a args))
    as (heap & Hh & Hr).
  { assert (rtc (alone ch) (s, TAttach args) (stopIdleTimer (set_locked true s), TCurrent args)) as H1.
    { do 2 (eapply rtc_l; [unfold alone, section; simpl; rewrite ?Hl; unfold isClosed; rewrite ?Hc; done|]).
      done. }
    destruct (ts_attachment s) as [cur|] eqn:Ecur.
    - exists (alter (attachment_close StatusPolicyViolation "terminal reattached") cur (<[a := new]> (ts_heap s))).
      split.
      + rewrite lookup_alter_ne; [by apply lookup_insert_eq|]. intros ->.
        destruct (Hcur a eq_refl). congruence.
      + etrans; [exact H1|]. eapply rtc_l; [unfold alone, section; simpl; rewrite Ecur; done|].
        do 2 (eapply rtc_l; [unfold alone, section; simpl; done|]). apply rtc_equal. f_equal.
        unfold removeAttachment. rewrite bool_decide_true by (simpl; done).
        unfold base, set_heap, set_fields, close_attachment, at_attachment. simpl. by rewrite Hc.
    - exists (<[a := new]> (ts_heap s)). split; [apply lookup_insert_eq|].
      etrans; [exact H1|]. eapply rtc_l; [unfold alone, section; simpl; rewrite Ecur; done|].
      apply rtc_equal. f_equal. unfold base, set_heap, set_fields. simpl. by rewrite Hc, Ecur. }
  exists a. eexists. split; [apply lookup_insert_eq|]. etrans; [exact Hr|]. apply rtc_once.
  unfold alone, section. simpl. unfold send_to. simpl. by rewrite Hh.
Qed.

(** A browser attaching while nothing else runs: as long as the scroll-back
    has at most 127 frames, the browser is queued a "ready" message and then the
    whole scroll-back in order, becomes the session's attachment and the idle
    timer is off.  With more frames, and the writer not draining the queue of 128,
    attaching fails, and the session is left open with no attachment and no
    timer, so that nothing will expire it. *)
Theorem attach_alone ch s args log :
  history_refines log (ts_history s) → increasing log →
  ts_closed s = false → ts_locked s = false → ch_ok ch = true →
  (∀ cur, ts_attachment s = Some cur → is_Some (ts_heap s !! cur)) →
  let ready := mkServerMessage "ready" "" (ts_id s) (aa_recovered args) in
  let backlog := recent 256 log in
  ∃ a s', ts_closed s' = false ∧ ts_locked s' = false ∧ ts_idleTimer s' = None ∧
    if bool_decide (length backlog ≤ 127)%nat
    then rtc (alone ch) (s, TAttach args) (s', TRead a) ∧ ts_attachment s' = Some a ∧
      ∃ att, ts_heap s' !! a = Some att ∧ ta_done att = false ∧
        ta_outbound att = control_message ready :: (frame_message <$> backlog)
    else rtc (alone ch) (s, TAttach args) (s', TEnd true) ∧ ts_attachment s' = None.
Proof.
  intros Hh Hnum Hc Hl Hok Hcur. cbv zeta. set (backlog := recent 256 log).
  destruct (attach_prefix ch s args Hc Hl Hcur) as (a & heap & Ha & Hr). cbv zeta in Ha.
  set (att := enqueue _ _) in Ha. set (base := set_locked true _) in Hr.
  assert (∀ n, snapshotFramesAfter n (ts_history s) =
    (filter (λ f, n < fr_seq f) backlog, Z.of_nat (length log))) as Hsnap.
  { intros n. by apply snapshot_refines. }
  assert (∀ f, f ∈ backlog → 1 ≤ fr_seq f ≤ Z.of_nat (length log)) as Hseq.
  { intros f Hf. apply increasing_bound; [done|]. by eapply recent_elem. }
  assert (∀ x, x = set_heap heap base → (backlog = [] → alone ch (x, TSnapshot a 0 args) (x, TSet a args)) ∧
    (backlog ≠ [] → alone ch (x, TSnapshot a 0 args) (x, TReplay a backlog (Z.of_nat (length log)) args))) as Hstart.
  { intros x ->. unfold alone, section. simpl. rewrite Hsnap, filter_above by (intros; apply Hseq in H; lia).
    split; [by intros ->|]. by destruct backlog. }
  destruct (Hstart _ eq_refl) as [Hnil Hcons]. case_bool_decide as Hlen.
  - assert (rtc (alone ch) (s, TAttach args)
      (set_heap (<[a := enqueue_all (frame_message <$> backlog) att]> heap) base, TSet a args)) as Hset.
    { etrans; [exact Hr|]. destruct (decide (backlog = [])) as [E|E].
      - eapply rtc_l; [by apply Hnil|]. apply rtc_equal. rewrite E. unfold enqueue_all. simpl.
        rewrite insert_id; [done|]. rewrite Ha. done.
      - eapply rtc_l; [by apply Hcons|]. etrans; [apply (replay_fits _ _ _ att); [done|done|]|].
        + simpl. unfold terminalAttachmentQueueSize. lia.
        + do 1 (eapply rtc_l; [done|]). apply rtc_once. unfold alone, section. simpl.
          rewrite Hsnap, filter_none by (intros; apply Hseq in H; lia). done. }
    eexists a, _. split_and!; cycle 3.
    + etrans; [exact Hset|]. do 3 (eapply rtc_l; [unfold alone, section; simpl; rewrite ?Hok, ?andb_false_r; done|]). done.
    + done.
    + exists (enqueue_all (frame_message <$> backlog) att). split; [apply lookup_insert_eq|done].
    + done.
    + done.
    + done.
  - destruct (replay_overflows ch (set_heap heap base) a att backlog (Z.of_nat (length log)) args)
      as [heap' Hover]; [done|done|simpl; unfold terminalAttachmentQueueSize; lia|].
    eexists a, _. split_and!; cycle 3.
    + etrans; [exact Hr|]. eapply rtc_l; [apply Hcons; intros E; rewrite E in Hlen; simpl in Hlen; lia|].
      etrans; [exact Hover|]. do 2 (eapply rtc_l; [unfold alone, section; simpl; done|]). done.
    + done.
    + done.
    + done.
    + done.
Qed.

(** A session with 200 frames of output and nobody attached, its timer armed. *)
Definition busy_session : terminalSession :=
  set_fields None (publish_all (replicate 200 [65]) empty_history) false
    (Some (mkTimer (60 * Second) false)) some_session.

Lemma attach_alone_witness :
  ∃ s', ts_closed s' = false ∧ ts_locked s' = false ∧ ts_idleTimer s' = None ∧
    rtc (alone (mkChoice false true 0)) (busy_session, browser 1 true) (s', TEnd true) ∧
    ts_attachment s' = None.
Proof.
  destruct (attach_alone (mkChoice false true 0) busy_session (mkAttachArgs 1 120 36 true)
    (numbered (replicate 200 [65]))) as (a & s' & H1 & H2 & H3 & H4).
  - apply publish_all_refines. by vm_compute.
  - intros i f H. unfold numbered in H. rewrite list_lookup_imap in H.
    destruct (replicate 200 [65] !! i); simpl in H; [|discriminate H]. by injection H as <-.
  - reflexivity.
  - reflexivity.
  - reflexivity.
  - intros cur H. discriminate H.
  - exists s'. cbv zeta in H4. rewrite bool_decide_false in H4 by (vm_compute; lia).
    destruct H4 as [H4 H5]. repeat split; assumption.
Defined.

Lemma terminal_safety_witness :
  let c0 := mkConfig some_session [] [browser 1 false; TStream [[65]] QuietEnd] in
  ∃ c, rtc terminal_step c0 c ∧ length (cf_log c) = 1%nat ∧
    (snapshotFramesAfter 0 (ts_history (cf_session c))).1 = recent 256 (cf_log c).
Proof.
  destruct (run (turns 8 0 0 ++ turns 2 1 0)%list
    (mkConfig some_session [] [browser 1 false; TStream [[65]] QuietEnd])) as [c|] eqn:E;
    [|vm_compute in E; discriminate E].
  exists c. split; [by eapply run_steps|].
  destruct (terminal_safety (mkConfig some_session [] [browser 1 false; TStream [[65]] QuietEnd]) c)
    as [Hsnap _].
  - split; [by do 4 eexists|]. split; [done|]. repeat constructor.
  - by eapply run_steps.
  - vm_compute in E. by injection E as <-.
  - vm_compute in E. injection E as <-. split; [reflexivity|]. rewrite Hsnap. reflexivity.
Defined.
