(* ===== verification/Url.v ===== *)
(** * URLs and addresses

    What the server uses of [net/url] and [net]: query escaping and parsing, and
    [SplitHostPort]/[JoinHostPort].  Escaping and parsing are inverse, which the
    server relies on when it opens a WebSocket to itself. *)

From stdpp Require Import gmap strings list.
From Stdlib Require Import ZArith Lia Ascii.
From S2P Require Import Prelude GoStrings.

Local Open Scope string_scope.

(** ** Query components *)

Definition upper_hex (n : nat) : ascii := ascii_of_nat (if n <? 10 then 48 + n else 55 + n)%nat.

Definition hex_value (a : ascii) : option nat :=
  let n := nat_of_ascii a in
  (if (48 <=? n) && (n <=? 57) then Some (n - 48)
   else if (97 <=? n) && (n <=? 102) then Some (n - 87)
   else if (65 <=? n) && (n <=? 70) then Some (n - 55)
   else None)%nat.

(** Bytes a query component keeps: letters, digits and [-_.~]. *)
Definition unreserved (a : ascii) : bool :=
  let n := nat_of_ascii a in
  (((65 <=? n) && (n <=? 90)) || ((97 <=? n) && (n <=? 122)) || ((48 <=? n) && (n <=? 57))
   || (n =? 45) || (n =? 95) || (n =? 46) || (n =? 126))%nat.

Definition escape_byte (a : ascii) (rest : string) : string :=
  if unreserved a then String a rest
  else if Ascii.eqb a " " then String "+" rest
  else String "%" (String (upper_hex (nat_of_ascii a / 16)) (String (upper_hex (nat_of_ascii a mod 16)) rest)).

Fixpoint QueryEscape (s : string) : string :=
  match s with EmptyString => "" | String a s' => escape_byte a (QueryEscape s') end.

Fixpoint QueryUnescape (s : string) : option string :=
  match s with
  | EmptyString => Some ""
  | String a s1 =>
      if Ascii.eqb a "%" then
        match s1 with
        | String h (String l s2) =>
            match hex_value h, hex_value l with
            | Some x, Some y => r ← QueryUnescape s2; Some (String (ascii_of_nat (16 * x + y)) r)
            | _, _ => None
            end
        | _ => None
        end
      else r ← QueryUnescape s1; Some (String (if Ascii.eqb a "+" then " "%char else a) r)
  end.

(** [url.ParseQuery] keeps going over malformed pairs, dropping them. *)
Definition query_pair (part : string) : option (string * string) :=
  if Contains part ";" || String.eqb part "" then None
  else
    let '(key, value) := match Cut part "=" with Some (k, v) => (k, v) | None => (part, "") end in
    k ← QueryUnescape key; v ← QueryUnescape value; Some (k, v).

(** [r.URL.Query().Get(key)]: the first value of the key. *)
Definition Query_Get (rawQuery key : string) : string :=
  default "" (head (omap (λ part, kv ← query_pair part;
                            if String.eqb kv.1 key then Some kv.2 else None) (Split rawQuery "&"))).

(** ** Host and port *)

(** Position after the last [c]: the text before it and after it. *)
Definition cut_last (s : string) (c : ascii) : option (string * string) :=
  match Cut (String.rev s) (String c "") with
  | Some (after, before) => Some (String.rev before, String.rev after)
  | None => None
  end.

(** [net.SplitHostPort]; [None] is an error. *)
Definition SplitHostPort (hostport : string) : option (string * string) :=
  '(front, port) ← cut_last hostport ":";
  if HasPrefix hostport "[" then
    '(inside, tail) ← Cut hostport "]";
    let host := TrimPrefix inside "[" in
    (* the bracket must be followed by the last colon *)
    if String.eqb tail (":" +:+ port) then
      if Contains host "[" || Contains tail "[" || Contains tail "]" then None else Some (host, port)
    else None
  else if Contains front ":" || Contains hostport "[" || Contains hostport "]" then None
  else Some (front, port).

Definition JoinHostPort (host port : string) : string :=
  if Contains host ":" then "[" +:+ host +:+ "]:" +:+ port else host +:+ ":" +:+ port.

(** ** Escaping and parsing are inverse *)

Lemma hex_value_upper n : (n < 16)%nat → hex_value (upper_hex n) = Some n.
Proof. intros Hn. do 16 (destruct n as [|n]; [reflexivity|]). lia. Qed.

Lemma unreserved_kept a : unreserved a = true → Ascii.eqb a "%" = false ∧ Ascii.eqb a "+" = false.
Proof. destruct a as [[] [] [] [] [] [] [] []]; vm_compute; done. Qed.

Lemma unescape_byte a s : QueryUnescape (escape_byte a s) = r ← QueryUnescape s; Some (String a r).
Proof.
  unfold escape_byte. destruct (unreserved a) eqn:Ea.
  - destruct (unreserved_kept a Ea) as [H1 H2]. cbn [QueryUnescape]. by rewrite H1, H2.
  - destruct (Ascii.eqb_spec a " ") as [->|_]; [done|]. cbn [QueryUnescape].
    pose proof (nat_ascii_bounded a) as Hb. set (n := nat_of_ascii a) in *.
    assert (n / 16 < 16)%nat by (apply Nat.Div0.div_lt_upper_bound; lia).
    assert (n mod 16 < 16)%nat by (apply Nat.mod_upper_bound; lia).
    rewrite !hex_value_upper by done. change (Ascii.eqb "%" "%") with true. cbn iota.
    rewrite <- (Nat.div_mod_eq n 16). unfold n. by rewrite ascii_nat_embedding.
Qed.

Lemma query_roundtrip s : QueryUnescape (QueryEscape s) = Some s.
Proof. induction s as [|a s IH]; [done|]. cbn [QueryEscape]. by rewrite unescape_byte, IH. Qed.

(** Escaped text has none of the bytes that structure a query. *)
Definition plain_byte (a : ascii) : bool :=
  negb (Ascii.eqb "&" a) && negb (Ascii.eqb "=" a) && negb (Ascii.eqb ";" a).

Lemma escape_byte_plain a s : all_bytes plain_byte (escape_byte a s) = all_bytes plain_byte s.
Proof. by destruct a as [[] [] [] [] [] [] [] []]. Qed.

Lemma QueryEscape_plain s : all_bytes plain_byte (QueryEscape s) = true.
Proof. induction s as [|a s IH]; [done|]. cbn [QueryEscape]. by rewrite escape_byte_plain. Qed.

Lemma Split_sep h c rest :
  all_bytes (λ a, negb (Ascii.eqb c a)) h = true → Split (h +:+ String c rest) c = h :: Split rest c.
Proof.
  induction h as [|a h IH]; cbn [all_bytes]; intros H.
  - change ("" +:+ String c rest) with (String c rest). cbn [Split]. by rewrite Ascii.eqb_refl.
  - to_prop. change (String a h +:+ String c rest) with (String a (h +:+ String c rest)).
    cbn [Split]. rewrite Ascii.eqb_sym, H, IH by done. done.
Qed.

Lemma Split_single h c : all_bytes (λ a, negb (Ascii.eqb c a)) h = true → Split h c = [h].
Proof.
  induction h as [|a h IH]; cbn [all_bytes]; intros H; [done|]. to_prop.
  cbn [Split]. by rewrite Ascii.eqb_sym, H, IH.
Qed.

Lemma plain_no (c : ascii) s :
  plain_byte c = false → all_bytes plain_byte s = true → all_bytes (λ a, negb (Ascii.eqb c a)) s = true.
Proof.
  intros Hc. apply all_bytes_impl. intros a Ha. destruct (Ascii.eqb_spec c a); [congruence|done].
Qed.

(** A pair of a plain key and an escaped value. *)
Lemma query_pair_escaped key value :
  all_bytes plain_byte key = true → key ≠ "" → QueryUnescape key = Some key →
  query_pair (key +:+ "=" +:+ QueryEscape value) = Some (key, value).
Proof.
  intros Hk Hne Hu. unfold query_pair.
  assert (Contains (key +:+ "=" +:+ QueryEscape value) ";" = false) as ->.
  { unfold Contains. rewrite (Cut_no_byte _ "" ";" ""); [done|].
    rewrite !all_bytes_app, (plain_no ";" key), (plain_no ";" (QueryEscape value))
      by (done || apply QueryEscape_plain). done. }
  destruct (String.eqb_spec (key +:+ "=" +:+ QueryEscape value) "") as [E|_].
  { destruct key; [done|]. discriminate E. }
  change ("=" +:+ QueryEscape value) with (String "=" (QueryEscape value)). cbn [orb].
  rewrite Cut_first by by apply plain_no. by rewrite Hu, query_roundtrip.
Qed.
