(* ===== verification/TerminalApi.v ===== *)
(** * The browser terminal ([terminal.go])

    A member's browser opens a terminal on one of their workstations: the server
    creates a proxy session to the machine's SSH port, connects to its own proxy
    endpoint as the client, starts a shell over it and attaches the browser; or it
    attaches the browser to a terminal session that exists.  The SSH client is a
    third-party package: which of its calls succeed is an argument, and so is the
    outcome of [Attach], whose behaviour is in [Terminal]. *)

From stdpp Require Import gmap strings list.
From Stdlib Require Import ZArith Lia Ascii.
From S2P Require Import Prelude GoStrings Encoding Model Database Schema Scheduler.
From S2P Require Import Workstations Workers Catalog Lifecycle System ProxySession Relay.
From S2P Require Import Http Host Access Server WorkstationApi ProxyApi Url TerminalHistory Terminal.

Local Open Scope string_scope.

Definition defaultTerminalCols : Z := 120.
Definition defaultTerminalRows : Z := 36.

(** ** The manager of terminal sessions *)

(** [h.terminals] beside the rest of the server. *)
Record TerminalServer := mkTerminalServer {
  tv_server : Server;
  tv_terminals : gmap string terminalSession
}.

Definition terminals_Create (id memberID workstationID workerID : string)
    (m : gmap string terminalSession) : gmap string terminalSession :=
  <[id := new_session id memberID workstationID workerID]> m.
Definition terminals_Get (id : string) (m : gmap string terminalSession) : option terminalSession := m !! id.
Definition terminals_remove (id : string) (m : gmap string terminalSession) : gmap string terminalSession :=
  delete id m.

(** ** Connecting to the server's own proxy endpoint *)

Definition terminalCredentials (target : ProxyTarget) : string * string :=
  match target with
  | ProxyTargetHost => ("launchctl", "change-me")
  | ProxyTargetVM => ("admin", "admin")
  end.

Definition normalizeLoopbackHTTPAddr (addr : string) : option string :=
  if String.eqb (TrimSpace addr) "" then None
  else if HasPrefix addr ":" then Some ("127.0.0.1" +:+ addr)
  else
    '(host, port) ← SplitHostPort addr;
    let host :=
      if String.eqb host "" || String.eqb host "0.0.0.0" || String.eqb host "::" then "127.0.0.1" else host in
    Some (JoinHostPort host port).

Definition internalWebSocketURL (cfg : HandlerConfig) (path : string) : option string :=
  hostPort ← normalizeLoopbackHTTPAddr (hc_HTTPAddr cfg);
  let scheme := if hc_TLSEnabled cfg then "wss" else "ws" in
  Some (scheme +:+ "://" +:+ hostPort +:+ path).

Section Terminal.
Context `{!HostEnv} `{!Collation}.

(** [Host] and the X-Forwarded-Host header of the dial; empty: not set. *)
Definition internalProxyDialOptions (cfg : HandlerConfig) : string * string :=
  let browserHost := normalizeHost (hc_BrowserPublicHost cfg) in
  if negb (String.eqb browserHost "") then (browserHost, browserHost) else ("", "").

Definition dial_query (s : ProxySession) : string :=
  "session=" +:+ QueryEscape (ps_ID s) +:+ "&role=client&token=" +:+ QueryEscape (ps_Token s).
Definition dial_path (s : ProxySession) : string := "/api/v1/proxy/ws?" +:+ dial_query s.

(** The request the endpoint receives from [dialInternalProxyWebSocket]; [None]:
    the listening address is not usable. *)
Definition dialInternalProxyWebSocket (cfg : HandlerConfig) (s : ProxySession) : option Request :=
  match internalWebSocketURL cfg (dial_path s), normalizeLoopbackHTTPAddr (hc_HTTPAddr cfg) with
  | Some _, Some hostPort =>
      let '(host, forwarded) := internalProxyDialOptions cfg in
      Some (mkRequest (if String.eqb host "" then hostPort else host)
              (λ k, if String.eqb k "X-Forwarded-Host" then forwarded else "") (λ _, None)
              (Query_Get (dial_query s)) (λ _, "") None None)
  | _, _ => None
  end.

(** ** The shell *)

(** The calls of [startTerminalSSHSession], in order. *)
Inductive SshStage :=
| SshNewClientConn | SshNewSession | SshStdoutPipe | SshStderrPipe | SshStdinPipe | SshRequestPty | SshShell.

Inductive Handle := Unopened | Opened | Released.

(** The client and the session after it; [true]: a shell runs.  [answers]:
    how the machine answers the calls, given the credentials and the terminal's
    size. *)
Definition startTerminalSSHSession (answers : string * string → Z * Z → SshStage → bool)
    (credentials : string * string) (cols rows : Z) : bool * (Handle * Handle) :=
  let ok := answers credentials (rows, cols) in
  if negb (ok SshNewClientConn) then (false, (Unopened, Unopened))
  else if negb (ok SshNewSession) then (false, (Released, Unopened))
  else if negb (ok SshStdoutPipe) then (false, (Released, Released))
  else if negb (ok SshStderrPipe) then (false, (Released, Released))
  else if negb (ok SshStdinPipe) then (false, (Released, Released))
  else if negb (ok SshRequestPty) then (false, (Released, Released))
  else if negb (ok SshShell) then (false, (Released, Released))
  else (true, (Opened, Opened)).

(** ** The handler *)

(** What the environment decides: whether the browser's connection is accepted
    (and its identity), the identifiers drawn, whether the dial is answered, the
    SSH calls, and how [Attach] ends. *)
Record TerminalEnv := mkTerminalEnv {
  te_conn : option nat;
  te_proxy_uuid : string;
  te_proxy_bytes : list Z;
  te_now : Z;
  te_dial_ok : bool;
  te_ssh : string * string → Z * Z → SshStage → bool;
  te_session_uuid : string;
  te_attach_benign : bool
}.

(** The response to the browser: an HTTP reply, a refused upgrade, a closed
    connection, or an attachment to a session, with what closed it if it ended
    with an error. *)
Inductive TerminalOutcome :=
| TOReply (resp : Response)
| TOAcceptFailed
| TOPanic
| TOClosed (code : Z) (reason : string)
| TOAttached (id : string) (args : AttachArgs) (closed : option (Z * string)).

(** [Attach] and what the handler does after it. *)
Definition attach_browser (env : TerminalEnv) (conn : nat) (id : string) (cols rows : Z) (recovered : bool)
    : TerminalOutcome :=
  TOAttached id (mkAttachArgs conn cols rows recovered)
    (if te_attach_benign env then None else Some (StatusInternalError, "terminal error")).

(** Failing after the proxy session was created closes it. *)
Definition abandon (proxyID : string) (reason : string) (st : TerminalServer) : TerminalOutcome * TerminalServer :=
  match Close (sv_proxy (tv_server st)) proxyID with
  | Some sm => (TOClosed StatusInternalError reason,
                mkTerminalServer (set_proxy sm (tv_server st)) (tv_terminals st))
  | None => (TOPanic, st)
  end.

Definition handleBrowserTerminalWebSocket (cfg : HandlerConfig) (env : TerminalEnv) (r : Request)
    (st : TerminalServer) : TerminalOutcome * TerminalServer :=
  match currentMember r with
  | None => (TOReply (writeError StatusUnauthorized "unauthorized"), st)
  | Some member =>
      let cols := parsePositiveQueryInt r "cols" defaultTerminalCols in
      let rows := parsePositiveQueryInt r "rows" defaultTerminalRows in
      let sessionID := TrimSpace (rq_Query r "session") in
      let requestedWorkstationID := TrimSpace (rq_Query r "workstation_id") in
      match te_conn env with
      | None => (TOAcceptFailed, st)
      | Some conn =>
          if negb (String.eqb sessionID "") then
            match terminals_Get sessionID (tv_terminals st) with
            | None => (TOClosed StatusPolicyViolation "terminal session not found", st)
            | Some session =>
                if negb (String.eqb (ts_memberID session) (mb_ID member))
                then (TOClosed StatusPolicyViolation "terminal session unauthorized", st)
                else (attach_browser env conn (ts_id session) cols rows true, st)
            end
          else
            match resolveMemberWorkstation r requestedWorkstationID (tv_server st) with
            | (inl e, sv) => (TOClosed StatusPolicyViolation (ae_message e), mkTerminalServer sv (tv_terminals st))
            | (inr workstation, sv) =>
                let st := mkTerminalServer sv (tv_terminals st) in
                if negb (bool_decide (ws_PowerState workstation = WorkstationPowerStateRunning))
                then (TOClosed StatusPolicyViolation "workstation not running", st)
                else
                  let (p, sm) := Create (sv_proxy sv) (te_proxy_uuid env) (te_proxy_bytes env) (te_now env)
                                   ProxyTargetVM (ws_ID workstation) (ws_WorkerID workstation) 22 in
                  let st := mkTerminalServer (set_proxy sm sv) (tv_terminals st) in
                  match sm_heap sm !! p ≫= dialInternalProxyWebSocket cfg with
                  | None => abandon (te_proxy_uuid env) "relay connection failed" st
                  | Some _ =>
                      if negb (te_dial_ok env) then abandon (te_proxy_uuid env) "relay connection failed" st
                      else if negb (startTerminalSSHSession (te_ssh env) (terminalCredentials ProxyTargetVM) cols rows).1
                      then abandon (te_proxy_uuid env) "ssh connection failed" st
                      else
                        let st := mkTerminalServer (tv_server st)
                          (terminals_Create (te_session_uuid env) (mb_ID member) (ws_ID workstation)
                             (ws_WorkerID workstation) (tv_terminals st)) in
                        (attach_browser env conn (te_session_uuid env) cols rows false, st)
                  end
            end
      end
  end.

(** ** The server reaches its own endpoint *)

Lemma dial_query_Get s :
  Query_Get (dial_query s) "session" = ps_ID s ∧ Query_Get (dial_query s) "role" = "client" ∧
  Query_Get (dial_query s) "token" = ps_Token s.
Proof.
  unfold Query_Get, dial_query.
  pose proof (QueryEscape_plain (ps_ID s)) as H1. pose proof (QueryEscape_plain (ps_Token s)) as H2.
  assert (Split ("session=" +:+ QueryEscape (ps_ID s) +:+ "&role=client&token=" +:+ QueryEscape (ps_Token s)) "&" =
    ["session" +:+ "=" +:+ QueryEscape (ps_ID s); "role" +:+ "=" +:+ QueryEscape "client";
     "token" +:+ "=" +:+ QueryEscape (ps_Token s)]) as ->.
  { change ("&role=client&token=" +:+ QueryEscape (ps_Token s))
      with (String "&" ("role=client" +:+ String "&" ("token=" +:+ QueryEscape (ps_Token s)))).
    rewrite <- str_app_assoc, Split_sep, Split_sep, Split_single; [done|..];
      rewrite ?all_bytes_app, ?(plain_no "&" _ eq_refl H1), ?(plain_no "&" _ eq_refl H2); done. }
  cbn [omap list_omap]. rewrite !query_pair_escaped by done. done.
Qed.

Lemma no_comma h : dns_name h = true → Cut h "," = None.
Proof.
  intros [Hb _]%andb_true_iff. apply Cut_absent. eapply all_bytes_impl; [|exact Hb].
  intros a. destruct a as [[] [] [] [] [] [] [] []]; vm_compute; done.
Qed.

(** The server passes its own checks: with no public browser host or a DNS
    name configured, and a usable listening address, the request that
    [dialInternalProxyWebSocket] sends for a proxy session just created is
    admitted by [handleProxyWebSocket] as the client of that very session: the
    host guard holds, the escaped identifier and token are read back unchanged
    and match. *)
Theorem dial_admitted cfg st uuid bytes now vmID workerID port :
  is_Some (normalizeLoopbackHTTPAddr (hc_HTTPAddr cfg)) →
  (hc_BrowserPublicHost cfg = "" ∨ dns_name (hc_BrowserPublicHost cfg) = true) →
  uuid ≠ "" → bytes ≠ [] →
  let '(p, sm) := Create (sv_proxy st) uuid bytes now ProxyTargetVM vmID workerID port in
  ∃ req, sm_heap sm !! p ≫= dialInternalProxyWebSocket cfg = Some req ∧
    ws_admit cfg req (set_proxy sm st) = inr p.
Proof.
  intros [hp Hhp] Hhost Huuid Hbytes. unfold Create. set (p := fresh _).
  set (s := mkSession uuid _ _ _ _ _ _ _ _ _ _ _). cbn [sm_heap].
  rewrite lookup_insert_eq. unfold dialInternalProxyWebSocket, internalWebSocketURL. simpl. rewrite Hhp. simpl.
  destruct (internalProxyDialOptions cfg) as [host forwarded] eqn:Eo. eexists. split; [done|].
  destruct (dial_query_Get s) as (Hid & Hrole & Htok).
  unfold ws_admit. cbn [rq_Query]. rewrite Hid, Hrole, Htok.
  change (ps_ID s) with uuid. change (ps_Token s) with (hex_encode bytes).
  destruct (String.eqb_spec uuid "") as [|_]; [done|].
  destruct bytes as [|b bytes]; [done|]. cbn [hex_encode String.eqb orb negb andb].
  assert (∀ r, rq_Header r "X-Forwarded-Host" = (internalProxyDialOptions cfg).2 →
    matchesBrowserHost cfg r = true) as Hmatch.
  { intros r Hr. unfold matchesBrowserHost, hostMatches, requestHost. rewrite Hr.
    unfold internalProxyDialOptions. destruct Hhost as [->|Hdns]; [done|].
    pose proof Hdns as [_ Hne%negb_true_iff]%andb_true_iff. rewrite !normalizeHost_dns by done. rewrite Hne.
    cbn [negb snd].
    pose proof Hdns as [Hb _]%andb_true_iff. destruct (dns_bytes _ Hb) as (Hg & _).
    rewrite TrimSpace_graphic by done. rewrite Hne. cbn [negb]. rewrite no_comma by done.
    rewrite !normalizeHost_dns by (rewrite ?normalizeHost_dns; done). apply String.eqb_refl. }
  rewrite Hmatch by by rewrite Eo.
  unfold Get. cbn [sv_proxy set_proxy sm_sessions sm_heap]. rewrite !lookup_insert_eq.
  unfold tokensMatch. cbn [hex_encode String.eqb orb]. by rewrite String.eqb_refl.
Qed.

(** ** What a member's terminal reaches *)

(** Closing the proxy session just created leaves the registered sessions as
    they were. *)
Lemma abandon_undo uuid bytes now vm worker reason sv terminals :
  wf_manager (sv_proxy sv) → sm_sessions (sv_proxy sv) !! uuid = None →
  let sm := (Create (sv_proxy sv) uuid bytes now ProxyTargetVM vm worker 22).2 in
  let run := abandon uuid reason (mkTerminalServer (set_proxy sm sv) terminals) in
  run.1 = TOClosed StatusInternalError reason ∧ tv_terminals run.2 = terminals ∧
  sv_tables (tv_server run.2) = sv_tables sv ∧
  sm_sessions (sv_proxy (tv_server run.2)) = sm_sessions (sv_proxy sv).
Proof.
  intros Hwf Hnew. cbv zeta. unfold abandon. cbn [tv_server tv_terminals sv_proxy set_proxy].
  set (sm := (Create _ _ _ _ _ _ _ _).2).
  assert (sm_sessions sm !! uuid = Some (fresh (dom (sm_heap (sv_proxy sv))))) as Hin
    by apply lookup_insert_eq.
  pose proof (Close_spec sm uuid (Create_wf _ _ _ _ _ _ _ _ Hwf Hnew)) as Hc. rewrite Hin in Hc.
  destruct Hc as (s & _ & _ & ->). split_and!; try done. simpl. by rewrite delete_insert_id.
Qed.

(** What an attempt that attaches nobody leaves behind. *)
Definition nothing_left (out : TerminalOutcome) (st st' : TerminalServer) : Prop :=
  out ≠ TOPanic ∧ tv_terminals st' = tv_terminals st ∧
  sm_sessions (sv_proxy (tv_server st')) = sm_sessions (sv_proxy (tv_server st)).

Lemma abandon_nothing_left uuid bytes now vm worker reason sv st sm :
  wf_manager (sv_proxy (tv_server st)) → sm_sessions (sv_proxy (tv_server st)) !! uuid = None →
  sv_proxy sv = sv_proxy (tv_server st) → sv_tables sv = sv_tables (tv_server st) →
  sm = (Create (sv_proxy sv) uuid bytes now ProxyTargetVM vm worker 22).2 →
  ∃ st', abandon uuid reason (mkTerminalServer (set_proxy sm sv) (tv_terminals st)) =
      (TOClosed StatusInternalError reason, st') ∧
    sv_tables (tv_server st') = sv_tables (tv_server st) ∧
    nothing_left (TOClosed StatusInternalError reason) st st'.
Proof.
  intros Hwf Hnew Hp Ht ->. rewrite <- Hp in Hwf, Hnew.
  destruct (abandon_undo uuid bytes now vm worker reason sv (tv_terminals st) Hwf Hnew) as (H1 & H2 & H3 & H4).
  destruct (abandon _ _ _) as [out st']. cbn [fst snd] in *. subst out. exists st'.
  split; [done|]. split; [congruence|]. split; [done|]. split; [done|]. by rewrite <- Hp.
Qed.

Lemma terminal_scope_run cfg env r st m :
  wf_tables (sv_tables (tv_server st)) → wf_manager (sv_proxy (tv_server st)) →
  rq_member r = Some m → sm_sessions (sv_proxy (tv_server st)) !! te_proxy_uuid env = None →
  (∀ id s, tv_terminals st !! id = Some s → ts_id s = id) →
  let '(out, st') := handleBrowserTerminalWebSocket cfg env r st in
  sv_tables (tv_server st') = sv_tables (tv_server st) ∧
  match out with
  | TOAttached id _ _ =>
      ∃ s, tv_terminals st' !! id = Some s ∧ ts_memberID s = mb_ID m ∧
        (st' = st ∨
         ∃ ws, owned (sv_tables (tv_server st)) (mb_ID m) ws ∧
           ws_PowerState ws = WorkstationPowerStateRunning ∧
           ts_workstationID s = ws_ID ws ∧ ts_workerID s = ws_WorkerID ws ∧
           tv_terminals st' = <[id := s]> (tv_terminals st) ∧
           session_opened (pending_session (te_proxy_uuid env) (te_proxy_bytes env) (te_now env) ws 22)
             (sv_proxy (tv_server st)) (sv_proxy (tv_server st')))
  | _ => nothing_left out st st'
  end.
Proof.
  intros Hwf Hwm Hm Hnew Hids. unfold handleBrowserTerminalWebSocket, currentMember. rewrite Hm.
  destruct (te_conn env) as [conn|]; [|done].
  destruct (negb (String.eqb (TrimSpace (rq_Query r "session")) "")).
  { unfold terminals_Get. destruct (tv_terminals st !! _) as [s|] eqn:Es; [|done].
    destruct (String.eqb_spec (ts_memberID s) (mb_ID m)) as [Em|]; [|done].
    cbn [negb]. unfold attach_browser. split; [done|]. exists s. rewrite (Hids _ _ Es). auto. }
  destruct (resolve_spec r (TrimSpace (rq_Query r "workstation_id")) (tv_server st) m Hwf Hm) as [Ht Hs].
  destruct (resolve_proxy r (TrimSpace (rq_Query r "workstation_id")) (tv_server st)) as [Hp _].
  destruct (resolveMemberWorkstation _ _ (tv_server st)) as [[e|ws] sv]; cbn [fst snd] in *.
  { split; [done|]. split; [done|]. cbn. by rewrite Hp. }
  destruct Hs as (Hws & Hmem & _). cbn [tv_server tv_terminals].
  case_bool_decide as Hrun; cbn [negb];
    [|by split; [done|split; [done|]]; cbn; rewrite Hp].
  destruct (Create (sv_proxy sv) _ _ _ _ _ _ _) as [p sm] eqn:Ec.
  assert (sm = (Create (sv_proxy sv) (te_proxy_uuid env) (te_proxy_bytes env) (te_now env) ProxyTargetVM
    (ws_ID ws) (ws_WorkerID ws) 22).2) as Esm by by rewrite Ec.
  pose proof (λ reason, abandon_nothing_left _ _ _ _ _ reason sv st sm Hwm Hnew Hp Ht Esm) as Hab.
  destruct (sm_heap sm !! p ≫= dialInternalProxyWebSocket cfg) as [req|];
    [|by destruct (Hab "relay connection failed") as (st' & -> & ?)].
  destruct (te_dial_ok env); cbn [negb]; [|by destruct (Hab "relay connection failed") as (st' & -> & ?)].
  destruct (startTerminalSSHSession _ _ _ _).1; cbn [negb];
    [|by destruct (Hab "ssh connection failed") as (st' & -> & ?)].
  unfold attach_browser. cbn [tv_server tv_terminals]. split; [done|].
  unfold terminals_Create. rewrite lookup_insert_eq. eexists. split; [done|]. split; [done|]. right.
  exists ws. rewrite <- Hp. split_and!; try done. cbn [tv_server sv_proxy set_proxy]. rewrite Esm.
  exists (fresh (dom (sm_heap (sv_proxy sv)))). split; [apply Create_fresh|done].
Qed.

(** With every call answered, a new terminal is opened. *)
Lemma terminal_opens cfg env r st m conn ws :
  wf_tables (sv_tables (tv_server st)) → rq_member r = Some m →
  faults (sv_world (tv_server st)) = [] → TrimSpace (rq_Query r "session") = "" →
  te_conn env = Some conn → is_Some (normalizeLoopbackHTTPAddr (hc_HTTPAddr cfg)) →
  te_dial_ok env = true → (∀ size stage, te_ssh env ("admin", "admin") size stage = true) →
  addressed (sv_tables (tv_server st)) (mb_ID m) (TrimSpace (rq_Query r "workstation_id")) ws →
  ws_PowerState ws = WorkstationPowerStateRunning →
  ∃ args closed, (handleBrowserTerminalWebSocket cfg env r st).1 =
      TOAttached (te_session_uuid env) args closed ∧ aa_conn args = conn ∧ aa_recovered args = false.
Proof.
  intros Hwf Hm Hf Hses Hconn [hp Hhp] Hdial Hssh Ha Hrun.
  unfold handleBrowserTerminalWebSocket, currentMember. rewrite Hm, Hconn, Hses. cbn [String.eqb negb].
  destruct st as [[[d wk fs] sm v] terms]. unfold sv_tables in *. simpl in *. subst fs.
  destruct (resolve_calm r (TrimSpace (rq_Query r "workstation_id")) d wk sm v m Hwf Hm)
    as [(s1 & Ha1 & E)|[[Hn E]|(Hid & (s1 & s2 & H1 & H2 & Hne) & E)]]; cbv zeta in E;
    unfold quiet in E; rewrite E.
  - assert (s1 = ws) as ->.
    { destruct Ha as [[Hs _] [[Hi Ei]|[Hi Hu]]], Ha1 as [[Hs1 Hm1] [[Hi1 Ei1]|[Hi1 Hu1]]]; try done.
      - congruence.
      - apply Hu. by split. }
    rewrite bool_decide_true by done. cbn [negb]. unfold Create. cbn [sm_heap]. rewrite lookup_insert_eq.
    cbn [mbind option_bind]. unfold dialInternalProxyWebSocket, internalWebSocketURL. rewrite Hhp.
    cbn [mbind option_bind]. destruct (internalProxyDialOptions cfg). rewrite Hdial. cbn [negb].
    unfold startTerminalSSHSession, terminalCredentials. rewrite !Hssh. cbn [negb fst].
    unfold attach_browser. by eexists _, _.
  - destruct Ha as [Ho [[Hi Ei]|[Hi _]]]; by destruct (Hn ws Ho).
  - destruct Ha as [Ho [[Hi _]|[_ Hu]]]; [done|]. destruct Hne. by rewrite (Hu s1 H1), (Hu s2 H2).
Qed.

End Terminal.

(** ** Witnesses *)

Definition local_config : HandlerConfig :=
  mkHandlerConfig "" "" 2 "" ":8080" false "" "mini.example.com" "" "" "" "" "".

Lemma dial_admitted_witness :
  let '(p, sm) := Create NewSessionManager "s-1" [1%Z] 0 ProxyTargetVM "ws-id-1" "w-1" 22 in
  ∃ req, sm_heap sm !! p ≫= dialInternalProxyWebSocket (H := ascii_env) local_config = Some req ∧
    ws_admit (H := ascii_env) local_config req
      (set_proxy sm (mkServer (calm Sample.tables) NewSessionManager None)) = inr p.
Proof.
  apply (dial_admitted (H := ascii_env) local_config (mkServer (calm Sample.tables) NewSessionManager None)).
  - vm_compute. eexists. reflexivity.
  - right. vm_compute. reflexivity.
  - discriminate.
  - discriminate.
Defined.

(** A configured IPv6 address makes the server refuse its own request. *)
Lemma dial_ipv6_refused :
  let cfg := mkHandlerConfig "" "" 2 "" ":8080" false "" "[2001:db8::1]" "" "" "" "" "" in
  let '(p, sm) := Create NewSessionManager "s-1" [1%Z] 0 ProxyTargetVM "ws-id-1" "w-1" 22 in
  ∃ req, sm_heap sm !! p ≫= dialInternalProxyWebSocket (H := ascii_env) cfg = Some req ∧
    ws_admit (H := ascii_env) cfg req
      (set_proxy sm (mkServer (calm Sample.tables) NewSessionManager None)) = inl NotFoundPage.
Proof. cbv zeta. cbn [Create]. eexists. split; [reflexivity|]. vm_compute. reflexivity. Qed.

Definition happy_env : TerminalEnv :=
  mkTerminalEnv (Some 7%nat) "s-1" [1%Z] 0 true (λ _ _ _, true) "t-1" true.

