(* ===== verification/Routes.v ===== *)
(** * The whole server ([handler.go], [static.go], [config.go], [main.go])

    The configuration, the request multiplexer with the routes of
    [RegisterRoutes], the handlers of all components behind their middleware, the
    install script and the web front end.

    [http.ServeMux] is modelled for the patterns used here: a request goes to
    the pattern of its method whose segments are those of its path, a wildcard
    standing for one non-empty segment; a "GET" pattern also takes HEAD; every
    other request goes to the pattern "/", if it is registered.  Paths are taken
    unescaped, with no escaped slash in a segment; a path that is not clean is
    redirected by the multiplexer before any handler runs. *)

From stdpp Require Import gmap strings list.
From Stdlib Require Import ZArith Lia Ascii.
From S2P Require Import Prelude GoStrings Encoding Model Database Schema Scheduler.
From S2P Require Import Workstations Workers Catalog System ProxySession Relay Http Host Access Server.
From S2P Require Import WorkerApi WorkstationApi ProxyApi FilePath ReleaseStore ReleaseApi.
From S2P Require Import TerminalHistory Terminal TerminalApi.

Local Open Scope string_scope.

(** ** Configuration ([config.go], [main.go])

    The file is parsed by a YAML library over [DefaultConfig]. *)

Record Config := mkConfig {
  cf_HTTPAddr : string;
  cf_DatabaseURL : string;
  cf_TLSCertFile : string;
  cf_TLSKeyFile : string;
  cf_DefaultPoolSize : Z;
  cf_DefaultBaseImage : string;
  cf_AdminToken : string;
  cf_EnrollmentToken : string;
  cf_WorkerPublicHost : string;
  cf_BrowserPublicHost : string;
  cf_AccessTeamDomain : string;
  cf_AccessAUD : string;
  cf_AccessIssuerURL : string;
  cf_AccessJWKSURL : string;
  cf_AccessAllowedEmailDomain : string;
  cf_RequiredSigningIdentity : string;
  cf_BinaryStoragePath : string
}.

Definition DefaultConfig : Config :=
  mkConfig ":8080" "postgres://localhost:5432/minicontrol?sslmode=disable" "" "" 2 "minictl-tahoe-base"
    "" "" "" "" "" "" "" "" "" "" "./releases".

Definition handler_config (c : Config) : HandlerConfig :=
  mkHandlerConfig (cf_AdminToken c) (cf_EnrollmentToken c) (cf_DefaultPoolSize c) (cf_DefaultBaseImage c)
    (cf_HTTPAddr c) (negb (String.eqb (cf_TLSCertFile c) "") && negb (String.eqb (cf_TLSKeyFile c) ""))
    (cf_WorkerPublicHost c) (cf_BrowserPublicHost c) (cf_AccessTeamDomain c) (cf_AccessAUD c)
    (cf_AccessIssuerURL c) (cf_AccessJWKSURL c) (cf_AccessAllowedEmailDomain c).

(** ** The server *)

(** [Handler], with the front end's files ([None]: not found at start-up). *)
Record Handler := mkHandler {
  hd_installScript : string;
  hd_config : HandlerConfig;
  hd_releases : option Store;
  hd_frontend : option (gmap string (list Z))
}.

Record App := mkApp {
  ap_server : Server;
  ap_terminals : gmap string terminalSession;
  ap_disk : Disk
}.

(** What the environment answers during one request: clocks, random values, the
    certificate endpoint, file system calls and connections. *)
Record Env := mkEnv {
  ev_now : Z;
  ev_dbnow : Z;
  ev_fetch : Fetch;
  ev_new_id : string;               (* [gen_random_uuid()] *)
  ev_uuid : string;                 (* [uuid.New()] *)
  ev_bytes : list Z;                (* [rand.Read] of a proxy session *)
  ev_random : option (list Z);      (* [rand.Read] of a worker token *)
  ev_upload : UploadEnv;
  ev_cwd : string;
  ev_terminal : TerminalEnv;
  ev_conn : option Conn;
  ev_relayed : RelayOutcome;
  ev_wake : Wake
}.

(** The body as each handler decodes it; [None]: it is not valid for it. *)
Record Body := mkBody {
  bd_claim : option string;
  bd_workstation : option string;
  bd_proxy : option CreateProxyRequest;
  bd_hostname : option string;
  bd_register : option WorkerRegisterRequest;
  bd_heartbeat : option (list WorkstationStatusReport);
  bd_vm_state : option VMStateRequest;
  bd_form : option (string * bool)
}.

Inductive StaticOutcome :=
| SONotFound
| SORedirect (host : string)
| SOContent (html : bool) (content : list Z)
| SOFileServer.                     (* [http.FileServer] serves the request *)

Inductive Outcome :=
| OReply (resp : Response)
| OScript (script : string)
| ORelease (out : ReleaseOutcome)
| OTerminal (out : TerminalOutcome)
| OWebSocket (out : WSOutcome)
| OStatic (out : StaticOutcome)
| ONoRoute.                         (* 404 or 405 of the multiplexer *)

Definition AppHandler : Type := Request → App → Outcome * App.

Definition set_server (sv : Server) (st : App) : App := mkApp sv (ap_terminals st) (ap_disk st).

(** ** Middleware

    The guards of [auth.go] and [host.go] for any kind of handler. *)

Definition Guard : Type := Request → Server → (Response + Request) * Server.

Definition guarded (g : Guard) (next : AppHandler) : AppHandler := λ r st,
  match g r (ap_server st) with
  | (inl resp, sv) => (OReply resp, set_server sv st)
  | (inr r, sv) => next r (set_server sv st)
  end.

Definition lift_handler (h : HandlerFunc) : AppHandler := λ r st,
  let (resp, sv) := h r (ap_server st) in (OReply resp, set_server sv st).

Definition token_guard (expected : string) : Guard := λ r st,
  if negb (tokensMatch expected (bearerToken (rq_Header r "Authorization")))
  then (inl (writeError StatusUnauthorized "unauthorized"), st)
  else (inr r, st).
Definition admin_guard (cfg : HandlerConfig) : Guard := token_guard (hc_AdminToken cfg).
Definition enrollment_guard (cfg : HandlerConfig) : Guard := token_guard (hc_EnrollmentToken cfg).

Section Routes.
Context `{!HostEnv} `{!AccessEnv} `{!CodesignEnv} `{!Collation} `{!RangeOrder}.
Context (error_message : StoreError → string).

Definition browser_guard (cfg : HandlerConfig) : Guard := λ r st,
  if negb (matchesBrowserHost cfg r) then (inl NotFoundPage, st) else (inr r, st).
Definition worker_host_guard (cfg : HandlerConfig) : Guard := λ r st,
  if negb (matchesWorkerHost cfg r) then (inl NotFoundPage, st) else (inr r, st).

(** ** The remaining handlers *)

(** [strings.Replace(script, old, new, 1)]. *)
Definition Replace1 (s old new : string) : string :=
  match Cut s old with
  | Some (before, after) => before +:+ new +:+ after
  | None => s
  end.

Definition handleInstallScript (hd : Handler) : AppHandler := λ r st,
  (OScript (Replace1 (hd_installScript hd) "__SERVER_ADDR__" (workerScriptAddress (hd_config hd) r)), st).

Definition handleHealth : HandlerFunc := λ r st,
  (writeJSON StatusOK (JObj [("status", JStr "ok")]), st).

(** The front end: [exists_in] is [fs.Stat] on its files and directories. *)
Definition serveStaticFile (root : gmap string (list Z)) (name : string) : StaticOutcome :=
  match root !! name with
  | None => SONotFound
  | Some content => SOContent (HasSuffix name ".html") content
  end.

Definition exists_in (root : gmap string (list Z)) (name : string) : bool :=
  bool_decide (name ∈ dom root)
  || existsb (λ f, HasPrefix f (name +:+ "/")) (elements (dom root)).

Definition static_handler (browserHost : string) (root : gmap string (list Z)) (method path : string)
    (r : Request) : StaticOutcome :=
  let browserHost := normalizeHost browserHost in
  if negb (String.eqb method "GET") && negb (String.eqb method "HEAD") then SONotFound
  else if negb (String.eqb browserHost "") && negb (String.eqb (requestHost r) browserHost)
  then SORedirect browserHost
  else
    let cleanPath := Clean ("/" +:+ TrimPrefix path "/") in
    let trimmed := TrimPrefix cleanPath "/" in
    let trimmed := if String.eqb trimmed "." then "" else trimmed in
    if String.eqb trimmed "" then serveStaticFile root "index.html"
    else if exists_in root trimmed then SOFileServer
    else serveStaticFile root "index.html".

(** ** The routes *)

Inductive Route :=
| RInstallScript | RHealth | RMe | RListMyWorkstations | RGetMyWorkstation | RClaimMyWorkstation
| RReleaseMyWorkstation | RBrowserWorkers | RBrowserProxySession | RBrowserTerminal
| RWorkers | RProxySession | RPendingProxySessions | RProxyWebSocket
| RReleaseUpload | RReleaseUploadBinary | RReleaseLatest | RReleaseDownload
| RAssignHostname | RWorkerRegister | RWorkerHeartbeat | RVMState.

(** A segment of a pattern. *)
Inductive Segment := Lit (s : string) | Wild (name : string).

Definition routes : list (string * list Segment * Route) :=
  let api l := Lit "api" :: Lit "v1" :: l in
  [("GET", [Lit "install.sh"], RInstallScript);
   ("GET", api [Lit "health"], RHealth);
   ("GET", api [Lit "me"], RMe);
   ("GET", api [Lit "my-workstations"], RListMyWorkstations);
   ("GET", api [Lit "my-workstation"], RGetMyWorkstation);
   ("POST", api [Lit "my-workstation"; Lit "claim"], RClaimMyWorkstation);
   ("POST", api [Lit "my-workstation"; Lit "release"], RReleaseMyWorkstation);
   ("GET", api [Lit "browser"; Lit "workers"], RBrowserWorkers);
   ("POST", api [Lit "browser"; Lit "proxy-sessions"], RBrowserProxySession);
   ("GET", api [Lit "browser"; Lit "terminal"; Lit "ws"], RBrowserTerminal);
   ("GET", api [Lit "workers"], RWorkers);
   ("POST", api [Lit "proxy"; Lit "sessions"], RProxySession);
   ("GET", api [Lit "proxy"; Lit "sessions"; Lit "pending"], RPendingProxySessions);
   ("GET", api [Lit "proxy"; Lit "ws"], RProxyWebSocket);
   ("POST", api [Lit "releases"; Lit "upload"], RReleaseUpload);
   ("PUT", api [Lit "releases"; Lit "upload"; Wild "version"], RReleaseUploadBinary);
   ("GET", api [Lit "releases"; Lit "latest"], RReleaseLatest);
   ("GET", api [Lit "releases"; Lit "download"; Wild "version"], RReleaseDownload);
   ("POST", api [Lit "hostname"; Lit "assign"], RAssignHostname);
   ("POST", api [Lit "workers"; Lit "register"], RWorkerRegister);
   ("POST", api [Lit "workers"; Wild "id"; Lit "heartbeat"], RWorkerHeartbeat);
   ("PUT", api [Lit "vms"; Wild "id"; Lit "state"], RVMState)].

(** The values of the wildcards. *)
Fixpoint match_segments (pattern : list Segment) (path : list string) : option (list (string * string)) :=
  match pattern, path with
  | [], [] => Some []
  | Lit l :: pattern, s :: path => if String.eqb l s then match_segments pattern path else None
  | Wild name :: pattern, s :: path =>
      if String.eqb s "" then None
      else vs ← match_segments pattern path; Some ((name, s) :: vs)
  | _, _ => None
  end.

Definition method_matches (pattern method : string) : bool :=
  String.eqb pattern method || (String.eqb pattern "GET" && String.eqb method "HEAD").

Fixpoint dispatch (rs : list (string * list Segment * Route)) (method : string) (path : list string) :
    option (Route * list (string * string)) :=
  match rs with
  | [] => None
  | (m, pattern, route) :: rs =>
      match (if method_matches m method then match_segments pattern path else None) with
      | Some vs => Some (route, vs)
      | None => dispatch rs method path
      end
  end.

(** A request as it arrives: no identity in its context yet. *)
Definition with_path_values (vs : list (string * string)) (r : Request) : Request :=
  mkRequest (rq_Host r) (rq_Header r) (rq_Cookie r) (rq_Query r)
    (λ k, match list_find (λ p, p.1 = k) vs with Some (_, p) => p.2 | None => "" end) None None.

Definition terminal_handler (cfg : HandlerConfig) (env : TerminalEnv) : AppHandler := λ r st,
  let (out, tv) := handleBrowserTerminalWebSocket cfg env r (mkTerminalServer (ap_server st) (ap_terminals st)) in
  (OTerminal out, mkApp (tv_server tv) (tv_terminals tv) (ap_disk st)).

Definition release_handler (h : ReleaseHandler) : AppHandler := λ r st,
  let '(out, (sv, d)) := h r (ap_server st, ap_disk st) in
  (ORelease out, mkApp sv (ap_terminals st) d).

(** What this request itself does; other requests run before and after it. *)
Definition websocket_handler (cfg : HandlerConfig) (env : Env) : AppHandler := λ r st,
  let (out, sv) := handleProxyWebSocket cfg (ev_conn env) (λ sv, sv) (ev_relayed env) (ev_wake env)
                     r (ap_server st) in
  (OWebSocket out, set_server sv st).

(** [RegisterRoutes]: the handler of a route, behind its guards. *)
Definition serve (hd : Handler) (env : Env) (body : Body) (route : Route) : AppHandler :=
  let cfg := hd_config hd in
  let dbnow := ev_dbnow env in
  let member h := guarded (browser_guard cfg)
    (guarded (authenticate_member (ev_now env) dbnow (ev_fetch env) (ev_new_id env)) h) in
  let admin h := guarded (admin_guard cfg) h in
  let worker h := guarded (worker_host_guard cfg) (guarded (authenticate_worker dbnow) (lift_handler h)) in
  let create := handleCreateProxySession (ev_uuid env) (ev_bytes env) (ev_now env) (bd_proxy body) in
  match route with
  | RInstallScript => guarded (worker_host_guard cfg) (handleInstallScript hd)
  | RHealth => lift_handler handleHealth
  | RMe => member (lift_handler handleMe)
  | RListMyWorkstations => member (lift_handler handleListMyWorkstations)
  | RGetMyWorkstation => member (lift_handler (handleGetMyWorkstation dbnow))
  | RClaimMyWorkstation =>
      member (lift_handler (handleClaimMyWorkstation (ev_now env) dbnow (ev_uuid env) (bd_claim body)))
  | RReleaseMyWorkstation => member (lift_handler (handleReleaseMyWorkstation dbnow (bd_workstation body)))
  | RBrowserWorkers => member (lift_handler handleListWorkers)
  | RBrowserProxySession => member (lift_handler create)
  | RBrowserTerminal => member (terminal_handler cfg (ev_terminal env))
  | RWorkers => guarded (browser_guard cfg) (admin (lift_handler handleListWorkers))
  | RProxySession => guarded (browser_guard cfg) (admin (lift_handler create))
  | RPendingProxySessions => worker handlePendingProxySessions
  | RProxyWebSocket => websocket_handler cfg env
  | RReleaseUpload =>
      guarded (worker_host_guard cfg) (admin (release_handler
        (handleReleaseUpload error_message (hd_releases hd) (ev_upload env) dbnow (ev_new_id env)
           (bd_form body))))
  | RReleaseUploadBinary =>
      guarded (worker_host_guard cfg) (admin (release_handler
        (handleReleaseUploadBinary error_message (hd_releases hd) (ev_upload env) dbnow (ev_new_id env))))
  | RReleaseLatest => guarded (worker_host_guard cfg) (release_handler (handleReleaseLatest (hd_releases hd)))
  | RReleaseDownload =>
      guarded (worker_host_guard cfg) (release_handler (handleReleaseDownload (hd_releases hd) (ev_cwd env)))
  | RAssignHostname =>
      guarded (worker_host_guard cfg)
        (guarded (enrollment_guard cfg) (lift_handler (handleAssignHostname dbnow (bd_hostname body))))
  | RWorkerRegister =>
      guarded (worker_host_guard cfg)
        (lift_handler (handleWorkerRegister cfg dbnow (ev_random env) (bd_register body)))
  | RWorkerHeartbeat => worker (handleWorkerHeartbeat dbnow (bd_heartbeat body))
  | RVMState => worker (handleVMState dbnow (bd_vm_state body))
  end.

(** One request to the server. *)
Definition handle_request (hd : Handler) (env : Env) (body : Body) (method path : string) : AppHandler :=
  λ r st,
  match dispatch routes method (Split (TrimPrefix path "/") "/") with
  | Some (route, vs) => serve hd env body route (with_path_values vs r) st
  | None =>
      match hd_frontend hd with
      | Some root => (OStatic (static_handler (hc_BrowserPublicHost (hd_config hd)) root method path r), st)
      | None => (ONoRoute, st)
      end
  end.
End Routes.

(** ** The middleware of [auth.go] and [host.go], seen as guards *)

Section Middleware.
Context `{!HostEnv} `{!AccessEnv}.

Lemma guarded_lift_browser cfg h r st :
  guarded (browser_guard cfg) (lift_handler h) r st = lift_handler (requireBrowserHost cfg h) r st.
Proof.
  unfold guarded, browser_guard, lift_handler, requireBrowserHost.
  by destruct (negb (matchesBrowserHost cfg r)), st.
Qed.

Lemma guarded_lift_worker_host cfg h r st :
  guarded (worker_host_guard cfg) (lift_handler h) r st = lift_handler (requireWorkerHost cfg h) r st.
Proof.
  unfold guarded, worker_host_guard, lift_handler, requireWorkerHost.
  by destruct (negb (matchesWorkerHost cfg r)), st.
Qed.

Lemma guarded_lift_admin cfg h r st :
  guarded (admin_guard cfg) (lift_handler h) r st = lift_handler (requireAdminAuth cfg h) r st.
Proof.
  unfold guarded, admin_guard, token_guard, lift_handler, requireAdminAuth. destruct st.
  by destruct (negb (tokensMatch _ _)).
Qed.

Lemma guarded_lift_enrollment cfg h r st :
  guarded (enrollment_guard cfg) (lift_handler h) r st = lift_handler (requireEnrollmentAuth cfg h) r st.
Proof.
  unfold guarded, enrollment_guard, token_guard, lift_handler, requireEnrollmentAuth. destruct st.
  by destruct (negb (tokensMatch _ _)).
Qed.

Lemma guarded_lift_worker dbnow h r st :
  guarded (authenticate_worker dbnow) (lift_handler h) r st = lift_handler (requireWorkerAuth dbnow h) r st.
Proof.
  unfold guarded, lift_handler, requireWorkerAuth.
  destruct (authenticate_worker dbnow r (ap_server st)) as [[resp|r'] sv]; [done|]. simpl.
  by destruct (h r' sv).
Qed.

Lemma guarded_lift_member now dbnow fetch newID h r st :
  guarded (authenticate_member now dbnow fetch newID) (lift_handler h) r st =
  lift_handler (requireAccessAuth now dbnow fetch newID h) r st.
Proof.
  unfold guarded, lift_handler, requireAccessAuth.
  destruct (authenticate_member _ _ _ _ r (ap_server st)) as [[resp|r'] sv]; [done|]. simpl.
  by destruct (h r' sv).
Qed.

(** Out of the box nobody is an administrator and no machine can enrol. *)
Lemma default_config_closed h r st :
  let cfg := handler_config DefaultConfig in
  guarded (admin_guard cfg) h r st = (OReply (writeError 401 "unauthorized"), st) ∧
  guarded (enrollment_guard cfg) h r st = (OReply (writeError 401 "unauthorized"), st).
Proof. by destruct st. Qed.
End Middleware.

(** ** The patterns do not overlap

    So the order of registration does not matter, and the multiplexer, which
    takes the most specific pattern, takes the only one. *)

Fixpoint clash (p q : list Segment) : bool :=
  match p, q with
  | [], [] => false
  | Lit a :: p, Lit b :: q => negb (String.eqb a b) || clash p q
  | _ :: p, _ :: q => clash p q
  | _, _ => true
  end.

Lemma clash_spec p q path vs vs' :
  clash p q = true → match_segments p path = Some vs → match_segments q path = Some vs' → False.
Proof.
  revert q path vs vs'. induction p as [|x p IH]; intros [|y q] [|s path] vs vs' Hc Hp Hq;
    try done; try (by destruct x); try (by destruct y).
  destruct x as [a|n], y as [b|n']; simpl in *.
  - destruct (String.eqb_spec a s) as [->|]; [|done]. destruct (String.eqb_spec b s) as [->|]; [|done].
    rewrite String.eqb_refl in Hc. simpl in Hc. by eapply IH.
  - destruct (String.eqb a s); [|done]. destruct (String.eqb s ""); [done|].
    destruct (match_segments q path) eqn:E; [|done]. by eapply IH.
  - destruct (String.eqb s ""); [done|]. destruct (String.eqb b s); [|done].
    destruct (match_segments p path) eqn:E; [|done]. by eapply IH.
  - destruct (String.eqb s ""); [done|]. destruct (match_segments p path) eqn:E; [|done].
    destruct (match_segments q path) eqn:E'; [|done]. by eapply IH.
Qed.

Definition apart (x y : string * list Segment * Route) : bool :=
  negb (String.eqb x.1.1 y.1.1) || clash x.1.2 y.1.2.

Lemma routes_apart i j x y :
  routes !! i = Some x → routes !! j = Some y → i ≠ j → apart x y = true.
Proof.
  assert (forallb (λ i, forallb (λ j, (i =? j)%nat || match routes !! i, routes !! j with
    | Some x, Some y => apart x y | _, _ => true end) (seq 0 (length routes))) (seq 0 (length routes)) = true)
    as Hall by by vm_compute.
  intros Hi Hj Hne. rewrite forallb_forall in Hall.
  specialize (Hall i ltac:(apply in_seq; apply lookup_lt_Some in Hi; lia)). rewrite forallb_forall in Hall.
  specialize (Hall j ltac:(apply in_seq; apply lookup_lt_Some in Hj; lia)). simpl in Hall.
  rewrite Hi, Hj, (proj2 (Nat.eqb_neq i j) Hne) in Hall. done.
Qed.

Lemma routes_methods i x : routes !! i = Some x → x.1.1 ≠ "HEAD".
Proof.
  intros Hi%list_elem_of_lookup_2. revert x Hi. apply Forall_forall.
  repeat constructor; done.
Qed.

Lemma routes_unambiguous method path i j x y vs vs' :
  routes !! i = Some x → routes !! j = Some y →
  method_matches x.1.1 method = true → method_matches y.1.1 method = true →
  match_segments x.1.2 path = Some vs → match_segments y.1.2 path = Some vs' → i = j.
Proof.
  intros Hi Hj Hx Hy Hpx Hpy. destruct (decide (i = j)) as [|Hne]; [done|].
  pose proof (routes_apart i j x y Hi Hj Hne) as Ha. unfold apart in Ha.
  assert (x.1.1 = y.1.1) as Em.
  { pose proof (routes_methods i x Hi). pose proof (routes_methods j y Hj).
    unfold method_matches in *. apply orb_true_iff in Hx, Hy. rewrite !andb_true_iff, !String.eqb_eq in *.
    destruct Hx as [|[]], Hy as [|[]]; congruence. }
  rewrite Em, String.eqb_refl in Ha. simpl in Ha. by destruct (clash_spec _ _ _ _ _ Ha Hpx Hpy).
Qed.
