(* ===== verification/Authority.v ===== *)
(** * What a request may do

    The theorems about every request to the server: it changes only what the
    credentials it presents entitle it to, and without any credential it changes
    nothing and is refused everything but the public pages. *)

From stdpp Require Import gmap strings list.
From Stdlib Require Import ZArith Lia Ascii.
From S2P Require Import Prelude GoStrings Encoding Model Database Schema Scheduler.
From S2P Require Import Workstations Workers Catalog System ProxySession Relay Http Host Access Server.
From S2P Require Import WorkerApi WorkstationApi ProxyApi FilePath ReleaseStore ReleaseApi.
From S2P Require Import TerminalHistory Terminal TerminalApi Routes.

Local Open Scope string_scope.

(** ** What a request is entitled to *)

Definition ap_tables (st : App) : Tables := sv_tables (ap_server st).

Section Rights.
Context `{!AccessEnv} (hd : Handler) (env : Env) (body : Body) (r : Request) (st : App).

Definition as_admin : Prop :=
  hc_AdminToken (hd_config hd) ≠ "" ∧ presents r (hc_AdminToken (hd_config hd)).
Definition as_enroller : Prop :=
  hc_EnrollmentToken (hd_config hd) ≠ "" ∧ presents r (hc_EnrollmentToken (hd_config hd)).

(** The worker whose token the request presents. *)
Definition as_worker (w : string) : Prop :=
  ∃ token i row, presents r token ∧ workers (ap_tables st) !! i = Some row ∧
    holds_credential token row ∧ wk_ID row = w.

(** The member whose Access token the request carries. *)
Definition as_member (m : Member) : Prop :=
  ∃ v token claims v', sv_access (ap_server st) = Some v ∧ carries r token ∧
    verified v (ev_now env) (ev_fetch env) token claims v' ∧
    mb_AccessSub m = ac_Subject claims ∧ mb_Email m = ac_Email claims.

(** The worker an authorised registration is for. *)
Definition as_registrant (w : string) : Prop :=
  ∃ req, bd_register body = Some req ∧ authorised (hd_config hd) req (ap_tables st) ∧
    w = GenerateWorkerID (rr_HardwareUUID req).

(** The request names a proxy session and presents its token. *)
Definition as_session : Prop :=
  ∃ p s, sm_sessions (sv_proxy (ap_server st)) !! rq_Query r "session" = Some p ∧
    sm_heap (sv_proxy (ap_server st)) !! p = Some s ∧ ps_Token s ≠ "" ∧ rq_Query r "token" = ps_Token s.

(** Every change is covered by a credential. *)
Record within_rights (st' : App) : Prop := mk_within_rights {
  wr_workstations : ∀ i, workstations (ap_tables st') !! i = workstations (ap_tables st) !! i ∨
    (∃ m s', as_member m ∧ members (ap_tables st') !! mb_ID m = Some m ∧
       workstations (ap_tables st') !! i = Some s' ∧ ws_MemberID s' = mb_ID m ∧
       ∀ s, workstations (ap_tables st) !! i = Some s → same_placement s s') ∨
    (∃ w s, as_worker w ∧ workstations (ap_tables st) !! i = Some s ∧ ws_WorkerID s = w ∧
       match workstations (ap_tables st') !! i with
       | None => ws_DesiredPowerState s = WorkstationDesiredPowerStateDeleted
       | Some s' => same_placement s s' ∧ ws_DesiredPowerState s' = ws_DesiredPowerState s
       end);
  wr_workers : ∀ i, workers (ap_tables st') !! i = workers (ap_tables st) !! i ∨
    as_worker i ∨ as_registrant i ∨
    (as_enroller ∧ ∃ hw, bd_hostname body = Some hw ∧ i = GenerateWorkerID hw);
  wr_members : ∀ i, members (ap_tables st') !! i = members (ap_tables st) !! i ∨
    ∃ m, as_member m ∧ mb_ID m = i ∧ members (ap_tables st') !! i = Some m;
  wr_vms : vms (ap_tables st') = vms (ap_tables st);
  wr_releases :
    releases (ap_tables st') = releases (ap_tables st) ∧ ap_disk st' = ap_disk st ∨ as_admin;
  wr_terminals : ∀ id, ap_terminals st' !! id = ap_terminals st !! id ∨
    ∃ m s, as_member m ∧ ap_terminals st' !! id = Some s ∧ ts_memberID s = mb_ID m;
  wr_proxy : sv_proxy (ap_server st') = sv_proxy (ap_server st) ∨
    as_admin ∨ (∃ m, as_member m) ∨ (∃ w, as_worker w ∨ as_registrant w) ∨ as_session
}.

(** Reading is always within one's rights. *)
Lemma rights_read st' :
  ap_tables st' = ap_tables st → sv_proxy (ap_server st') = sv_proxy (ap_server st) →
  ap_terminals st' = ap_terminals st → ap_disk st' = ap_disk st → within_rights st'.
Proof. intros Ht Hp Hs Hd. split; rewrite ?Ht, ?Hp, ?Hs, ?Hd; auto. Qed.

(** A member's handler after signing in. *)
Lemma rights_member st1 st' m claims :
  as_member m → (∀ m', signed_in (ap_server st1) claims m' → as_member m') →
  members (ap_tables st1) !! mb_ID m = Some m →
  keeps_fleet (ap_server st) (ap_server st1) → signs_in (ap_server st) (ap_server st1) claims →
  same_but TWorkstations (ap_tables st1) (ap_tables st') →
  member_frame (mb_ID m) (ap_tables st1) (ap_tables st') → ap_disk st' = ap_disk st →
  (∀ id, ap_terminals st' !! id = ap_terminals st !! id ∨
     ∃ s, ap_terminals st' !! id = Some s ∧ ts_memberID s = mb_ID m) →
  within_rights st'.
Proof.
  unfold ap_tables. intros Hm Hall Hin [Hp (W1 & S1 & _ & V1 & R1)] Hs (W2 & _ & M2 & V2 & R2) Hf Hd Ht.
  split; unfold ap_tables.
  - intros i. specialize (Hf i). rewrite S1 in Hf by done. rewrite M2 by done.
    destruct (workstations (sv_tables (ap_server st)) !! i) as [s|] eqn:Es.
    + destruct Hf as [?|(Hown & s' & Hs' & Hpl)]; [by left|right; left]. exists m, s'. split_and!; try done.
      * by destruct Hpl as (_ & -> & _).
      * by intros ? [= <-].
    + destruct (workstations (sv_tables (ap_server st')) !! i) as [s'|] eqn:Es'; [right; left|by left].
      exists m, s'. split_and!; try done. by apply Hf.
  - intros i. left. by rewrite W2, W1.
  - intros i. rewrite M2 by done. destruct (Hs i) as [?|(m' & Hm' & <-)]; [by left|right].
    exists m'. split; [by apply Hall|]. by destruct Hm' as (_ & _ & ?).
  - by rewrite V2, V1.
  - left. by rewrite R2, R1.
  - intros id. destruct (Ht id) as [?|(s & ? & ?)]; [by left|right]. by exists m, s.
  - right. right. left. eauto.
Qed.

(** A worker's handler after authentication. *)
Lemma rights_worker st1 st' w :
  as_worker w → same_but TWorkers (ap_tables st) (ap_tables st1) →
  (∀ i, i ≠ w → workers (ap_tables st1) !! i = workers (ap_tables st) !! i) →
  worker_frame w (ap_tables st1) (ap_tables st') →
  (∀ i, i ≠ w → workers (ap_tables st') !! i = workers (ap_tables st1) !! i) →
  members (ap_tables st') = members (ap_tables st1) → vms (ap_tables st') = vms (ap_tables st1) →
  releases (ap_tables st') = releases (ap_tables st1) →
  ap_terminals st' = ap_terminals st → ap_disk st' = ap_disk st → within_rights st'.
Proof.
  intros Hw (_ & S1 & M1 & V1 & R1) W1 Hf W2 M2 V2 R2 Ht Hd. split.
  - intros i. specialize (Hf i). rewrite S1 in Hf by done.
    destruct (workstations (ap_tables st) !! i) as [s|]; [|by left].
    destruct Hf as [?|[Hown Hf]]; [by left|right; right]. by exists w, s.
  - intros i. destruct (decide (i = w)) as [->|Hne]; [by right; left|]. left. by rewrite W2, W1.
  - intros i. left. by rewrite M2, M1.
  - by rewrite V2, V1.
  - left. by rewrite R2, R1.
  - intros id. left. by rewrite Ht.
  - right. right. right. left. eauto.
Qed.
End Rights.

(** ** What the handlers touch *)

Section Effects.
Context `{!HostEnv} `{!AccessEnv} `{!CodesignEnv} `{!Collation} `{!RangeOrder}.

Lemma resolve_reads r id st : writes None st (resolveMemberWorkstation r id st).2.
Proof.
  unfold resolveMemberWorkstation, GetWorkstationByIDForMember, ListWorkstationsByMemberID.
  destruct (currentMember r) as [m|]; [|apply writes_refl]. destruct (negb _).
  - pose proof (writes_row (by_id_for_member (mb_ID m) id) st) as Hx.
    destruct (db_call _ st) as [[e|s] st1]; [by destruct (IsNotFound e)|done].
  - pose proof (writes_select (member_workstations (mb_ID m)) st) as Hx.
    by destruct (db_call _ st) as [[e|[|s [|]]] st1].
Qed.

Lemma list_mine_reads r st : writes None st (handleListMyWorkstations r st).2.
Proof.
  unfold handleListMyWorkstations. destruct (currentMember r) as [m|]; [|apply writes_refl].
  pose proof (writes_select (member_workstations (mb_ID m)) st) as Hx.
  unfold ListWorkstationsByMemberID. by destruct (db_call _ st) as [[e|l] st1].
Qed.

Lemma list_workers_reads r st : writes None st (handleListWorkers r st).2.
Proof.
  unfold handleListWorkers, ListWorkers, ListAllWorkstations.
  match goal with |- context [db_call (pool_exec (select ?q)) st] => pose proof (writes_select q st) as Hx end.
  destruct (db_call _ st) as [[e|l] st1]; [done|].
  match goal with |- context [db_call (pool_exec (select ?q)) st1] => pose proof (writes_select q st1) as Hy end.
  destruct (db_call _ st1) as [res st2]. by eapply writes_trans.
Qed.

Lemma desired_writes dbnow desired body r st :
  writes (Some TWorkstations) st (handleMyWorkstationDesiredState dbnow desired body r st).2.
Proof.
  unfold handleMyWorkstationDesiredState. destruct (currentMember r) as [m|]; [|apply writes_refl].
  destruct body as [id|]; [|apply writes_refl].
  pose proof (writes_weaken TWorkstations _ _ (resolve_reads r (TrimSpace id) st)) as Hx.
  destruct (resolveMemberWorkstation _ _ st) as [[e|s] st1]; [done|]. simpl in Hx.
  pose proof (writes_trans _ _ _ _ Hx (writes_op (OpSetDesired dbnow (mb_ID m) (ws_ID s) desired) _ st1
    (void_durable _))) as Hy.
  destruct (db_call _ st1) as [[e|s'] st2]; [|done]. destruct (IsNotFound e); [done|]. by case_bool_decide.
Qed.

Lemma get_writes dbnow r st : writes (Some TWorkstations) st (handleGetMyWorkstation dbnow r st).2.
Proof.
  unfold handleGetMyWorkstation. destruct (currentMember r) as [m|]; [|apply writes_refl].
  pose proof (writes_weaken TWorkstations _ _ (resolve_reads r (TrimSpace (rq_Query r "workstation_id")) st)) as Hx.
  destruct (resolveMemberWorkstation _ _ st) as [[e|s] st1]; [done|]. simpl in Hx.
  pose proof (writes_trans _ _ _ _ Hx (writes_op (OpEnsure dbnow (mb_ID m) (ws_ID s)) _ st1
    (void_durable _))) as Hy.
  destruct (db_call _ st1) as [[e|s'] st2]; [by destruct (IsNotFound e)|done].
Qed.

Lemma claim_writes gonow dbnow uuid body r st :
  writes (Some TWorkstations) st (handleClaimMyWorkstation gonow dbnow uuid body r st).2.
Proof.
  unfold handleClaimMyWorkstation. destruct (currentMember r) as [m|]; [|apply writes_refl].
  destruct body as [w|]; [|apply writes_refl].
  pose proof (writes_op (OpClaim gonow dbnow uuid (mb_ID m) (TrimSpace w)) _ st (void_durable _)) as Hx.
  by destruct (db_call _ st) as [[e|[s []]] st1]; [destruct (isClaimConflict e)|..].
Qed.

Lemma create_tables uuid bytes now target vm w port st :
  sv_tables (create_and_reply uuid bytes now target vm w port st).2 = sv_tables st.
Proof. unfold create_and_reply. by destruct (Create _ _ _ _ _ _ _ _). Qed.

Lemma resolve_target_reads target vm w st : writes None st (resolveProxyTarget target vm w st).2.
Proof.
  unfold resolveProxyTarget, GetWorkstationByID, GetVM. cbv zeta.
  set (tgt := if String.eqb target "" then "vm" else target).
  destruct (String.eqb tgt "host"); [destruct (String.eqb w ""); apply writes_refl|].
  destruct (String.eqb tgt "vm"); [|apply writes_refl]. destruct (String.eqb vm ""); [apply writes_refl|].
  pose proof (writes_row (λ t, workstations t !! vm) st) as Hx.
  destruct (db_call _ st) as [[e|s] st1]; [|by destruct (negb _)].
  destruct (negb _); [done|]. pose proof (writes_row (λ t, vms t !! vm) st1) as Hy.
  pose proof (writes_trans _ _ _ _ Hx Hy) as Hz.
  destruct (db_call _ st1) as [[e1|v] st2]; [done|]. by destruct (_ || _).
Qed.

Lemma create_session_tables uuid bytes now body r st :
  sv_tables (handleCreateProxySession uuid bytes now body r st).2 = sv_tables st.
Proof.
  unfold handleCreateProxySession. destruct body as [req|]; [|done].
  destruct (_ <=? 0)%Z; [done|]. destruct (negb _); [done|]. destruct (currentMember r) as [m|].
  - destruct (String.eqb _ "host"); [done|].
    destruct (resolve_reads r (TrimSpace (cp_VMID req)) st) as (_ & _ & Hx).
    destruct (resolveMemberWorkstation _ _ st) as [[e|s] st1]; [done|]. simpl in Hx.
    destruct (negb _); [done|]. by rewrite create_tables.
  - destruct (resolve_target_reads (cp_Target req) (cp_VMID req) (cp_WorkerID req) st) as (_ & _ & Hx).
    destruct (resolveProxyTarget _ _ _ st) as [[e|[[t w] v]] st1]; [done|]. simpl in Hx.
    by rewrite create_tables.
Qed.

Lemma collect_pending_tables w l st result st' :
  collect_pending w l st = Some (result, st') → sv_tables st' = sv_tables st.
Proof.
  revert st result. induction l as [|s l IH]; intros st result; simpl; [by intros [= _ <-]|].
  set (step := if bool_decide _ then _ else _).
  assert (sv_tables step.2 = sv_tables st) as Hs.
  { unfold step. case_bool_decide; [|done]. by destruct (belongs_spec s w st) as (? & _). }
  destruct step as [[] st1]; simpl in *.
  - destruct (collect_pending w l st1) as [[res st2]|] eqn:E; [|done]. intros [= _ <-].
    rewrite <- Hs. by eapply IH.
  - destruct (Close _ _) as [sm|]; [|done]. simpl. intros E%IH. by rewrite E.
Qed.

Lemma pending_tables r st : sv_tables (handlePendingProxySessions r st).2 = sv_tables st.
Proof.
  unfold handlePendingProxySessions. destruct (requireCurrentWorker r) as [resp|w]; [done|].
  destruct (_ && _); [done|]. destruct (collect_pending _ _ st) as [[res st1]|] eqn:E; [|done].
  by apply collect_pending_tables in E.
Qed.

(** Only the row of the machine concerned. *)
Definition one_worker (i : string) (t0 t : Tables) : Prop :=
  ∀ j, j ≠ i → workers t !! j = workers t0 !! j.

Lemma upsert_one_worker w f t0 :
  respects (one_worker (wk_ID w) t0) (upsert_worker_row w f).
Proof.
  intros t u t' Ht E. unfold upsert_worker_row in E. repeat case_match; simplify_eq;
    intros j Hj; simpl; rewrite lookup_insert_ne by done; by apply Ht.
Qed.

Lemma assign_writes dbnow body r st :
  writes (Some TWorkers) st (handleAssignHostname dbnow body r st).2 ∧
  (∀ j, (∀ hw, body = Some hw → j ≠ GenerateWorkerID hw) →
     workers (sv_tables (handleAssignHostname dbnow body r st).2) !! j = workers (sv_tables st) !! j).
Proof.
  unfold handleAssignHostname. destruct body as [hw|]; [|split; [apply writes_refl|done]].
  destruct (String.eqb hw ""); [split; [apply writes_refl|done]|].
  pose proof (writes_op (OpAssignHostname dbnow hw) _ st (void_durable _)) as Hx.
  pose proof (db_call_keeps (one_worker (GenerateWorkerID hw) (sv_tables st)) (AssignHostname dbnow hw) st) as Hy.
  destruct (db_call _ st) as [[e|h] st1]; (split; [done|]); intros j Hj; simpl in *; apply Hy; auto; try done.
  all: unfold AssignHostname; confine; apply confined_tx;
    try (apply (upsert_one_worker (placeholder_worker _ _ _ _)));
    intros t n t' Ht E; unfold next_hostname_number in E; repeat case_match; by simplify_eq.
Qed.

Lemma register_writes cfg dbnow random body r st :
  same_but TWorkers (sv_tables st) (sv_tables (handleWorkerRegister cfg dbnow random body r st).2) ∧
  (∀ j, (∀ req, body = Some req → j ≠ GenerateWorkerID (rr_HardwareUUID req)) →
     workers (sv_tables (handleWorkerRegister cfg dbnow random body r st).2) !! j =
     workers (sv_tables st) !! j).
Proof.
  split.
  - apply register_keeps; [| |apply same_but_refl].
    + intros req _. exact (exec_confined (OpUpsertWorker dbnow _ _ _ _ _ _ _ _) (sv_tables st)).
    + intros req _ w Hw. rewrite <- (void_durable (IssueWorkerToken _ _ _)).
      exact (exec_confined (OpIssueToken dbnow random _) (sv_tables st) w Hw).
  - destruct body as [req|]; [|done]. intros j Hj. specialize (Hj req eq_refl).
    apply (register_keeps (one_worker (GenerateWorkerID (rr_HardwareUUID req)) (sv_tables st))); try done.
    + intros req' [= <-]. apply keeps_pool, (upsert_one_worker (mkWorker _ _ _ _ _ _ _ _ _ _ _ _ _ _ _)).
    + intros req' [= <-]. unfold IssueWorkerToken. apply keeps_bind; [auto with minis|]. intros tk.
      apply keeps_bind; [|auto with minis]. apply keeps_pool. intros t u t' Ht E k Hk. sql_inv. simpl.
      rewrite lookup_alter_ne by done. by apply Ht.
Qed.

Lemma terminal_effect cfg env r st m :
  rq_member r = Some m →
  let st' := (handleBrowserTerminalWebSocket cfg env r st).2 in
  sv_tables (tv_server st') = sv_tables (tv_server st) ∧
  (∀ id, tv_terminals st' !! id = tv_terminals st !! id ∨
     ∃ s, tv_terminals st' !! id = Some s ∧ ts_memberID s = mb_ID m).
Proof.
  intros Hm. cbv zeta. unfold handleBrowserTerminalWebSocket, currentMember. rewrite Hm.
  destruct (te_conn env) as [conn|]; [|by auto].
  destruct (negb _). { destruct (terminals_Get _ _) as [s|]; [destruct (negb _)|]; by auto. }
  destruct (resolve_reads r (TrimSpace (rq_Query r "workstation_id")) (tv_server st)) as (_ & _ & Hx).
  destruct (resolveMemberWorkstation _ _ (tv_server st)) as [[e|ws] sv]; [by auto|]. simpl in Hx.
  destruct (negb _); [by auto|]. destruct (Create _ _ _ _ _ _ _ _) as [p sm].
  assert (∀ reason, sv_tables (tv_server (abandon (te_proxy_uuid env) reason
      (mkTerminalServer (set_proxy sm sv) (tv_terminals st))).2) = sv_tables (tv_server st) ∧
    tv_terminals (abandon (te_proxy_uuid env) reason
      (mkTerminalServer (set_proxy sm sv) (tv_terminals st))).2 = tv_terminals st) as Hab.
  { intros reason. unfold abandon. by destruct (Close _ _). }
  assert (∀ reason, sv_tables (tv_server (abandon (te_proxy_uuid env) reason
      (mkTerminalServer (set_proxy sm sv) (tv_terminals st))).2) = sv_tables (tv_server st) ∧
    (∀ id, tv_terminals (abandon (te_proxy_uuid env) reason
      (mkTerminalServer (set_proxy sm sv) (tv_terminals st))).2 !! id = tv_terminals st !! id ∨
     ∃ s, tv_terminals (abandon (te_proxy_uuid env) reason
      (mkTerminalServer (set_proxy sm sv) (tv_terminals st))).2 !! id = Some s ∧ ts_memberID s = mb_ID m)) as Hab'.
  { intros reason. destruct (Hab reason) as [Hy Hz]. split; [done|]. intros id. left. by rewrite Hz. }
  destruct (_ ≫= _) as [req|]; [|apply Hab']. destruct (negb _); [apply Hab'|].
  destruct (negb _); [apply Hab'|]. cbn [snd tv_server tv_terminals]. split; [done|].
  intros id. unfold terminals_Create. destruct (decide (id = te_session_uuid env)) as [->|Hne].
  - rewrite lookup_insert_eq. right. eauto.
  - left. by rewrite lookup_insert_ne.
Qed.

Lemma upload_writes s env dbnow newID version (st : StoreState) :
  same_but TReleases (durable st.1) (durable (Upload s env dbnow newID version st).2.1).
Proof.
  unfold Upload. destruct (releasePaths _ _) as [e|[p f]]; [apply same_but_refl|].
  unfold Upload_check. destruct st as [w d]. cbn [fst snd].
  assert (durable (GetReleaseByVersion version w).2 = durable w) as Hread.
  { unfold GetReleaseByVersion, pool_exec, next_fault, select_row. destruct w as [t wk [|[] fs]]; simpl;
      by destruct (by_version version t). }
  destruct (GetReleaseByVersion version w) as [[e|rel] w1]; simpl in Hread;
    [|cbn; rewrite Hread; apply same_but_refl].
  destruct (IsNotFound e); [|cbn; rewrite Hread; apply same_but_refl].
  destruct (Upload_receive s env d) as [[e1|u] d1]; [cbn; rewrite Hread; apply same_but_refl|].
  unfold Upload_publish. do 3 (destruct (negb _); [cbn; rewrite Hread; apply same_but_refl|]).
  pose proof (exec_confined (OpInsertRelease dbnow newID (release_record env version f)) (durable w1) w1
    (same_but_refl _ _)) as Hx. simpl in Hx. rewrite void_durable in Hx. rewrite <- Hread.
  destruct (InsertRelease _ _ _ w1) as [[e2|rel] w2]; simpl in Hx; [by destruct e2|done].
Qed.
End Effects.

(** ** Every request stays within its rights *)

Section Authority.
Context `{!HostEnv} `{!AccessEnv} `{!CodesignEnv} `{!Collation} `{!RangeOrder}.
Context (error_message : StoreError → string) (hd : Handler) (env : Env) (body : Body).

Abbreviation rights := (within_rights hd env body).

Lemma set_server_id st : set_server (ap_server st) st = st.
Proof. by destruct st. Qed.

Lemma rights_refl r st : rights r st st.
Proof. by apply rights_read. Qed.

(** The host guards let the request through or change nothing. *)
Lemma rights_browser_host next r st :
  rights r st (next r st).2 → rights r st (guarded (browser_guard (hd_config hd)) next r st).2.
Proof.
  intros Hn. unfold guarded, browser_guard. destruct (negb _); rewrite set_server_id; [apply rights_refl|done].
Qed.

Lemma rights_worker_host next r st :
  rights r st (next r st).2 → rights r st (guarded (worker_host_guard (hd_config hd)) next r st).2.
Proof.
  intros Hn. unfold guarded, worker_host_guard.
  destruct (negb _); rewrite set_server_id; [apply rights_refl|done].
Qed.

Lemma token_guard_cases expected next r st :
  guarded (token_guard expected) next r st = next r st ∧ expected ≠ "" ∧ presents r expected ∨
  guarded (token_guard expected) next r st = (OReply (writeError 401 "unauthorized"), st) ∧
    ¬ (expected ≠ "" ∧ presents r expected).
Proof.
  unfold guarded, token_guard. rewrite presents_bearerToken.
  destruct (tokensMatch expected _) eqn:E; cbn [negb]; rewrite set_server_id.
  - apply tokensMatch_true in E as [? ?]. by left.
  - right. split; [done|]. intros [Hne Ht]. by rewrite (proj2 (tokensMatch_true _ _)) in E.
Qed.

Lemma rights_admin next r st :
  (∀ st', st' = (next r st).2 →
     same_but TReleases (ap_tables st) (ap_tables st') ∧ ap_terminals st' = ap_terminals st) →
  rights r st (guarded (admin_guard (hd_config hd)) next r st).2.
Proof.
  intros Hn. unfold admin_guard.
  destruct (token_guard_cases (hc_AdminToken (hd_config hd)) next r st) as [[-> Ha]|[-> _]]; [|apply rights_refl].
  destruct (Hn _ eq_refl) as [(W & S & M & V & _) Ht]. split; rewrite ?Ht, ?W, ?S, ?M, ?V by done; auto.
Qed.

Lemma as_member_claims r st v claims v' m :
  sv_access (ap_server st) = Some v → access_token r ≠ "" →
  Verify v (ev_now env) (ev_fetch env) (access_token r) = (inr claims, v') →
  mb_AccessSub m = ac_Subject claims → mb_Email m = ac_Email claims → as_member env r st m.
Proof.
  intros Hv Hne HV Hs He. exists v, (access_token r), claims, v'. split; [done|].
  split; [by apply access_token_carries|]. split; [by apply Verify_sound|done].
Qed.

Abbreviation sign_in := (authenticate_member (ev_now env) (ev_dbnow env) (ev_fetch env) (ev_new_id env)).

Lemma sign_in_keeps now dbnow fetch newID r sv :
  wf_tables (sv_tables sv) → wf_tables (sv_tables (authenticate_member now dbnow fetch newID r sv).2).
Proof.
  intros Hwf. unfold authenticate_member. destruct (sv_access sv) as [v|]; [|done].
  destruct (String.eqb _ ""); [done|]. destruct (Verify _ _ _ _) as [[e|claims] v']; [done|].
  pose proof (db_call_keeps wf_tables _ (set_access (Some v') sv)
    (UpsertMember_keeps dbnow newID (ac_Subject claims) (ac_Email claims)) Hwf) as Hk.
  by destruct (db_call _ _) as [[e|m] sv1].
Qed.

Lemma rights_signed_in next r st :
  wf_tables (ap_tables st) →
  (∀ m st1, wf_tables (ap_tables st1) →
     let st' := (next (with_member m r) st1).2 in
     same_but TWorkstations (ap_tables st1) (ap_tables st') ∧
     member_frame (mb_ID m) (ap_tables st1) (ap_tables st') ∧ ap_disk st' = ap_disk st1 ∧
     (∀ id, ap_terminals st' !! id = ap_terminals st1 !! id ∨
        ∃ s, ap_terminals st' !! id = Some s ∧ ts_memberID s = mb_ID m)) →
  rights r st (guarded sign_in next r st).2.
Proof.
  intros Hwf Hn. unfold guarded.
  destruct (access_auth_cases (ev_now env) (ev_dbnow env) (ev_fetch env) (ev_new_id env) r (ap_server st))
    as [(v & claims & v' & m & sv1 & Hv & Hne & HV & Ein & Hs & Hk & Hrow)
       |(status & msg & sv1 & -> & _ & [Hp (W & S & _ & V & R)] & Hrow & _)].
  - rewrite Ein. assert (wf_tables (sv_tables sv1)) as Hwf1.
    { pose proof (sign_in_keeps (ev_now env) (ev_dbnow env) (ev_fetch env) (ev_new_id env) r _ Hwf) as Hk1.
      by rewrite Ein in Hk1. }
    destruct (Hn m (set_server sv1 st) Hwf1) as (Hb & Hf & Hd & Ht).
    assert (∀ m', signed_in sv1 claims m' → as_member env r st m') as Hall.
    { intros m' (E1 & E2 & _). by eapply as_member_claims. }
    eapply (rights_member hd env body r st (set_server sv1 st) _ m claims); try done.
    + by apply Hall.
    + by destruct Hs as (_ & _ & ?).
  - cbn [snd]. split; unfold ap_tables; cbn [set_server ap_server ap_terminals ap_disk];
      rewrite ?W, ?S, ?V, ?R, ?Hp by done; auto; try done.
    intros i. destruct Hrow as [E|(v & claims & v' & Hv & Hne & HV & Hrow)]; [left; by rewrite E|].
    destruct (Hrow i) as [?|(m & (E1 & E2 & E3) & <-)]; [by left|right]. exists m. split_and!; try done.
    by eapply as_member_claims.
Qed.

Lemma authenticate_worker_wf dbnow r sv :
  wf_tables (sv_tables sv) → wf_tables (sv_tables (authenticate_worker dbnow r sv).2).
Proof.
  intros Hwf. unfold authenticate_worker, AuthenticateWorkerToken.
  match goal with |- context [db_call (pool_exec (select_row ?q)) sv] =>
    destruct (writes_row q sv) as (_ & _ & E) end.
  destruct (db_call _ sv) as [[e|w] sv1]; simpl in *; [by rewrite E|].
  pose proof (db_call_keeps wf_tables _ sv1 (exec_keeps (OpTouchToken dbnow (wk_ID w)))) as Hk.
  rewrite E in Hk. simpl in Hk. destruct (db_call _ sv1) as [res sv2]. by apply Hk.
Qed.

Lemma rights_worker_auth h r st :
  wf_tables (ap_tables st) →
  (∀ w sv, wf_tables (sv_tables sv) →
     let sv' := (h (with_worker w r) sv).2 in
     worker_frame (aw_ID w) (sv_tables sv) (sv_tables sv') ∧
     (∀ i, i ≠ aw_ID w → workers (sv_tables sv') !! i = workers (sv_tables sv) !! i) ∧
     members (sv_tables sv') = members (sv_tables sv) ∧ vms (sv_tables sv') = vms (sv_tables sv) ∧
     releases (sv_tables sv') = releases (sv_tables sv)) →
  rights r st (guarded (authenticate_worker (ev_dbnow env)) (lift_handler h) r st).2.
Proof.
  intros Hwf Hn. unfold guarded. pose proof (authenticate_worker_wf (ev_dbnow env) r _ Hwf) as Hwf1.
  destruct (worker_auth_cases (ev_dbnow env) r (ap_server st))
    as [(w & i & sv1 & Hi & Hh & E & Hp & _ & Ht & _)|(sv1 & -> & Ht & Hp & _)];
    [|by apply rights_read].
  rewrite E in *. cbn [snd] in Hwf1. set (aw := mkAuthWorker _ _) in *.
  destruct (Hn aw sv1 Hwf1) as (Hf & Hw & Hm & Hv & Hr). unfold lift_handler. cbn [ap_server set_server].
  destruct (h (with_worker aw r) sv1) as [resp sv2]. cbn [snd] in *.
  apply (rights_worker hd env body r st (set_server sv1 st) _ (wk_ID w)); try done.
  - exists (bearerToken (rq_Header r "Authorization")), i, w. split; [by apply presents_bearerToken|done].
  - unfold ap_tables. cbn. destruct Ht as [->| ->]; [apply same_but_refl|by repeat split].
  - intros j Hj. unfold ap_tables. cbn. destruct Ht as [->| ->]; [done|]. simpl. by rewrite lookup_alter_ne.
Qed.

Lemma rights_enroll r st :
  rights r st (guarded (enrollment_guard (hd_config hd))
    (lift_handler (handleAssignHostname (ev_dbnow env) (bd_hostname body))) r st).2.
Proof.
  unfold enrollment_guard.
  destruct (token_guard_cases (hc_EnrollmentToken (hd_config hd))
    (lift_handler (handleAssignHostname (ev_dbnow env) (bd_hostname body))) r st)
    as [[-> Ha]|[-> _]]; [|apply rights_refl].
  destruct (assign_writes (ev_dbnow env) (bd_hostname body) r (ap_server st))
    as [(Hp & _ & _ & S & M & V & R) Hrow].
  unfold lift_handler. destruct (handleAssignHostname _ _ r (ap_server st)) as [resp sv]. cbn [snd] in *.
  split; unfold ap_tables; cbn [set_server ap_server ap_terminals ap_disk];
    rewrite ?S, ?M, ?V, ?R, ?Hp by done; auto; try done.
  intros i. destruct (bd_hostname body) as [hw|]; [|left; by apply Hrow].
  destruct (decide (i = GenerateWorkerID hw)) as [->|Hne]; [do 3 right; split; [exact Ha|by eauto]|].
  left. apply Hrow. by intros ? [= <-].
Qed.

Lemma rights_register r st :
  rights r st (lift_handler
    (handleWorkerRegister (hd_config hd) (ev_dbnow env) (ev_random env) (bd_register body)) r st).2.
Proof.
  destruct (bd_register body) as [req|] eqn:Eb; [|apply rights_read; by destruct st].
  destruct (register_writes (hd_config hd) (ev_dbnow env) (ev_random env) (Some req) r (ap_server st))
    as [(_ & S & M & V & R) Hrow].
  pose proof (register_authorised (hd_config hd) (ev_dbnow env) (ev_random env) req r (ap_server st)) as Hauth.
  unfold lift_handler. destruct (handleWorkerRegister _ _ _ _ r (ap_server st)) as [resp sv]. cbn [fst snd] in *.
  destruct Hauth as [Hauth|(_ & Ht & Hp)]; [|by apply rights_read].
  assert (as_registrant hd body st (GenerateWorkerID (rr_HardwareUUID req))) as Hreg by by exists req.
  split; unfold ap_tables; cbn [set_server ap_server ap_terminals ap_disk];
    rewrite ?S, ?M, ?V, ?R by done; eauto 10; try done.
  intros i. destruct (decide (i = GenerateWorkerID (rr_HardwareUUID req))) as [->|Hne]; [by auto|].
  left. apply Hrow. by intros ? [= <-].
Qed.

Lemma ws_admit_session cfg r st p : ws_admit cfg r (ap_server st) = inr p → as_session r st.
Proof.
  unfold ws_admit, Get. repeat (destruct (_ || _) || destruct (_ && _); [done|]).
  destruct (sm_sessions _ !! _) as [q|] eqn:Eq; [|done].
  destruct (sm_heap _ !! q) as [s|] eqn:Es; [|done].
  destruct (tokensMatch (ps_Token s) (rq_Query r "token")) eqn:Em; [|done]. intros _.
  apply tokensMatch_true in Em as [Hne E]. exists q, s. by split_and!.
Qed.

Lemma rights_websocket r st : rights r st (websocket_handler (hd_config hd) env r st).2.
Proof.
  unfold websocket_handler, handleProxyWebSocket.
  destruct (ws_admit (hd_config hd) r (ap_server st)) as [resp|p] eqn:Ea;
    [by apply rights_read; rewrite ?set_server_id|].
  apply ws_admit_session in Ea.
  assert (∀ sv, sv_tables sv = sv_tables (ap_server st) → rights r st (set_server sv st)) as Hs.
  { intros sv Ht. split; unfold ap_tables; cbn [set_server ap_server ap_terminals ap_disk];
      rewrite ?Ht; auto 10; done. }
  assert (∀ id out sv, sv_tables sv = sv_tables (ap_server st) →
    rights r st (set_server (close_session id out sv).2 st)) as Hc.
  { intros id out sv Ht. unfold close_session. destruct (Close _ _); by apply Hs. }
  assert (∀ run : WSOutcome * Server, rights r st (set_server run.2 st) →
    rights r st (let (out, sv) := run in (OWebSocket out, set_server sv st)).2) as Hrun by by intros [].
  apply Hrun. destruct (ev_conn env) as [c|]; [|by apply Hs].
  destruct (SetConn _ _ _ _) as [[[] sm]|]; [by apply Hc| |by apply Hs].
  destruct (ev_wake env); [by apply Hs|by apply Hc].
Qed.

(** Members' routes whose handler works on the server alone. *)
Lemma rights_member_route h r st :
  wf_tables (ap_tables st) →
  (∀ m sv, wf_tables (sv_tables sv) →
     same_but TWorkstations (sv_tables sv) (sv_tables (h (with_member m r) sv).2) ∧
     member_frame (mb_ID m) (sv_tables sv) (sv_tables (h (with_member m r) sv).2)) →
  rights r st (guarded (browser_guard (hd_config hd)) (guarded sign_in (lift_handler h)) r st).2.
Proof.
  intros Hwf Hn. apply rights_browser_host, rights_signed_in; [done|]. intros m st1 Hwf1.
  destruct (Hn m (ap_server st1) Hwf1) as [Hb Hf]. unfold lift_handler.
  destruct (h _ (ap_server st1)) as [resp sv]. by split_and!; auto.
Qed.

Lemma rights_reading_route h r st :
  wf_tables (ap_tables st) → (∀ r sv, sv_tables (h r sv).2 = sv_tables sv) →
  rights r st (guarded (browser_guard (hd_config hd)) (guarded sign_in (lift_handler h)) r st).2.
Proof.
  intros Hwf Hn. apply rights_member_route; [done|]. intros m sv _. rewrite Hn.
  split; [apply same_but_refl|by apply member_frame_same].
Qed.

Lemma rights_terminal r st :
  wf_tables (ap_tables st) →
  rights r st (guarded (browser_guard (hd_config hd))
    (guarded sign_in (terminal_handler (hd_config hd) (ev_terminal env))) r st).2.
Proof.
  intros Hwf. apply rights_browser_host, rights_signed_in; [done|]. intros m st1 Hwf1.
  unfold terminal_handler, ap_tables.
  destruct (terminal_effect (hd_config hd) (ev_terminal env) (with_member m r)
    (mkTerminalServer (ap_server st1) (ap_terminals st1)) m eq_refl) as [Ht Hs].
  destruct (handleBrowserTerminalWebSocket _ _ _ _) as [out tv]. cbn [snd ap_server ap_terminals ap_disk] in *.
  cbn [tv_server] in Ht. rewrite Ht. split; [apply same_but_refl|]. split; [by apply member_frame_same|]. split; [done|exact Hs].
Qed.

Lemma rights_upload (h : ReleaseHandler) r st :
  (∀ sv d, same_but TReleases (sv_tables sv) (sv_tables (h r (sv, d)).2.1)) →
  rights r st (guarded (worker_host_guard (hd_config hd))
    (guarded (admin_guard (hd_config hd)) (release_handler h)) r st).2.
Proof.
  intros Hn. apply rights_worker_host, rights_admin. intros st' ->. unfold release_handler, ap_tables.
  specialize (Hn (ap_server st) (ap_disk st)).
  by destruct (h r (ap_server st, ap_disk st)) as [out [sv d]].
Qed.

Lemma upload_reply_writes s uenv dbnow newID version sv d :
  same_but TReleases (sv_tables sv)
    (sv_tables (upload_and_reply error_message s uenv dbnow newID version (sv, d)).2.1).
Proof.
  unfold upload_and_reply, sv_tables. pose proof (upload_writes s uenv dbnow newID version (sv_world sv, d)) as Hu.
  cbn [fst snd] in *. destruct (Upload _ _ _ _ _ _) as [res [w d']]. destruct res as [[]|]; done.
Qed.

Lemma rights_download (h : ReleaseHandler) r st :
  (∀ sv d, writes None sv (h r (sv, d)).2.1 ∧ (h r (sv, d)).2.2 = d) →
  rights r st (guarded (worker_host_guard (hd_config hd)) (release_handler h) r st).2.
Proof.
  intros Hn. apply rights_worker_host. unfold release_handler.
  destruct (Hn (ap_server st) (ap_disk st)) as [(Hp & _ & Ht) Hd].
  destruct (h r (ap_server st, ap_disk st)) as [out [sv d]]. by apply rights_read.
Qed.

Lemma latest_reads store r sv d :
  writes None sv (handleReleaseLatest store r (sv, d)).2.1 ∧ (handleReleaseLatest store r (sv, d)).2.2 = d.
Proof.
  unfold handleReleaseLatest, GetLatestRelease. destruct store as [s|]; [|split; [apply writes_refl|done]].
  cbn [fst snd]. match goal with |- context [db_call (pool_exec (select_row ?q)) sv] =>
    pose proof (writes_row q sv) as Hx end. by destruct (db_call _ sv) as [[e|rel] sv1].
Qed.

Lemma download_reads store cwd r sv d :
  writes None sv (handleReleaseDownload store cwd r (sv, d)).2.1 ∧
  (handleReleaseDownload store cwd r (sv, d)).2.2 = d.
Proof.
  unfold handleReleaseDownload, GetReleaseByVersion. destruct store as [s|]; [|split; [apply writes_refl|done]].
  destruct (negb _); [split; [apply writes_refl|done]|]. cbn [fst snd].
  pose proof (writes_row (by_version (rq_PathValue r "version")) sv) as Hx.
  destruct (db_call _ sv) as [[e|rel] sv1]; [done|]. destruct (BinaryPath _ _ _); [done|].
  destruct (String.eqb _ _); [done|]. by destruct (dk_files d !! _).
Qed.

Lemma serve_rights route r st :
  wf_tables (ap_tables st) → rights r st (serve error_message hd env body route r st).2.
Proof.
  intros Hwf. destruct route; cbn [serve].
  - by apply rights_worker_host, rights_read.
  - apply rights_read; by destruct st.
  - apply rights_reading_route; [done|]. intros r' sv. unfold handleMe. by destruct (currentMember r').
  - apply rights_reading_route; [done|]. intros r' sv. apply list_mine_reads.
  - apply rights_member_route; [done|]. intros m sv Hwf1.
    split; [apply get_writes|]. by apply (member_isolation 0 _ "" WorkstationDesiredPowerStateRunning None).
  - apply rights_member_route; [done|]. intros m sv Hwf1.
    split; [apply claim_writes|]. by apply (member_isolation _ _ _ WorkstationDesiredPowerStateRunning).
  - apply rights_member_route; [done|]. intros m sv Hwf1.
    split; [apply desired_writes|]. by apply (member_isolation 0 _ "").
  - apply rights_reading_route; [done|]. intros r' sv. apply list_workers_reads.
  - apply rights_reading_route; [done|]. intros r' sv. apply create_session_tables.
  - by apply rights_terminal.
  - apply rights_browser_host, rights_admin. intros st' ->. unfold lift_handler, ap_tables.
    destruct (list_workers_reads r (ap_server st)) as (_ & _ & Ht).
    destruct (handleListWorkers r (ap_server st)) as [resp sv]. cbn in *. rewrite Ht.
    split; [apply same_but_refl|done].
  - apply rights_browser_host, rights_admin. intros st' ->. unfold lift_handler, ap_tables.
    pose proof (create_session_tables (ev_uuid env) (ev_bytes env) (ev_now env) (bd_proxy body) r
      (ap_server st)) as Ht.
    destruct (handleCreateProxySession _ _ _ _ r (ap_server st)) as [resp sv]. cbn in *. rewrite Ht.
    split; [apply same_but_refl|done].
  - apply rights_worker_host, rights_worker_auth; [done|]. intros w sv Hwf1. cbv zeta.
    rewrite pending_tables. split; [apply worker_frame_refl|done].
  - apply rights_websocket.
  - apply rights_upload. intros sv d. unfold handleReleaseUpload.
    destruct (hd_releases hd) as [s|]; [|apply same_but_refl].
    destruct (bd_form body) as [[v b]|]; [|apply same_but_refl].
    do 3 (destruct (String.eqb _ "") || destruct (negb _); [apply same_but_refl|]).
    apply upload_reply_writes.
  - apply rights_upload. intros sv d. unfold handleReleaseUploadBinary.
    destruct (hd_releases hd) as [s|]; [|apply same_but_refl].
    destruct (negb _); [apply same_but_refl|]. apply upload_reply_writes.
  - apply rights_download. intros sv d. apply latest_reads.
  - apply rights_download. intros sv d. apply download_reads.
  - apply rights_worker_host, rights_enroll.
  - apply rights_worker_host, rights_register.
  - apply rights_worker_host, rights_worker_auth; [done|]. intros w sv Hwf1. cbv zeta.
    destruct (heartbeat_frame (ev_dbnow env) (bd_heartbeat body) (with_worker w r) sv Hwf1)
      as (Hf & Hw & Hm & Hv & Hr & _). by split_and!.
  - apply rights_worker_host, rights_worker_auth; [done|]. intros w sv Hwf1. cbv zeta.
    destruct (vm_state_frame (ev_dbnow env) (bd_vm_state body) (with_worker w r) sv w Hwf1 eq_refl)
      as (Hf & _ & _ & W & _ & M & V & R). rewrite W, M, V, R by done. by split_and!.
Qed.

(** The credentials are read from the headers, which routing leaves alone. *)
Lemma presents_path vs r token : presents (with_path_values vs r) token → presents r token.
Proof. rewrite !presents_bearerToken. done. Qed.

Lemma carries_path vs r token : carries (with_path_values vs r) token → carries r token.
Proof.
  intros [Hh|value Hh Hc]; [exact (carries_header r Hh)|exact (carries_cookie r value Hh Hc)].
Qed.

Lemma rights_routed vs r st st' : rights (with_path_values vs r) st st' → rights r st st'.
Proof.
  assert (∀ w, as_worker (with_path_values vs r) st w → as_worker r st w) as Hw.
  { intros w (token & i & row & Hp%presents_path & Hrest). by exists token, i, row. }
  assert (∀ m, as_member env (with_path_values vs r) st m → as_member env r st m) as Hm.
  { intros m (v & token & claims & v' & Hv & Hc%carries_path & Hrest). by exists v, token, claims, v'. }
  assert (as_admin hd (with_path_values vs r) → as_admin hd r) as Ha.
  { intros [? ?%presents_path]. done. }
  assert (as_enroller hd (with_path_values vs r) → as_enroller hd r) as He.
  { intros [? ?%presents_path]. done. }
  intros []. split; try done.
  - intros i. destruct (wr_workstations0 i) as [?|[(m & s' & Hm1 & ?)|(w & s & Hw1 & ?)]];
      [by left|right; left; exists m, s'|right; right; exists w, s]; auto.
  - intros i. destruct (wr_workers0 i) as [?|[?|[?|[? ?]]]]; auto 10.
  - intros i. destruct (wr_members0 i) as [?|(m & ? & ?)]; [by left|right; exists m; auto].
  - tauto.
  - intros id. destruct (wr_terminals0 id) as [?|(m & s & ? & ?)]; [by left|right; exists m, s; auto].
  - destruct wr_proxy0 as [?|[?|[[m ?]|[[w [?|?]]|?]]]]; eauto 10.
Qed.

Lemma handle_request_rights method path r st :
  wf_tables (ap_tables st) → rights r st (handle_request error_message hd env body method path r st).2.
Proof.
  intros Hwf. unfold handle_request. destruct (dispatch _ _ _) as [[route vs]|].
  - by apply (rights_routed vs), serve_rights.
  - destruct (hd_frontend hd); apply rights_refl.
Qed.


(** ** Requests without credentials *)

Definition no_credential (r : Request) (st : App) : Prop :=
  ¬ as_admin hd r ∧ ¬ as_enroller hd r ∧ (∀ w, ¬ as_worker r st w) ∧
  (∀ v token claims v', sv_access (ap_server st) = Some v → carries r token →
     ¬ verified v (ev_now env) (ev_fetch env) token claims v') ∧
  (∀ w, ¬ as_registrant hd body st w) ∧ ¬ as_session r st.

Definition public (route : Route) : bool :=
  match route with
  | RInstallScript | RHealth | RReleaseLatest | RReleaseDownload => true
  | _ => false
  end.

Definition refused (out : Outcome) : Prop :=
  ∃ resp, is_error resp ∧ (out = OReply resp ∨ out = OWebSocket (WSReply resp)).

Definition untouched (st st' : App) : Prop :=
  ap_tables st' = ap_tables st ∧ sv_proxy (ap_server st') = sv_proxy (ap_server st) ∧
  ap_terminals st' = ap_terminals st ∧ ap_disk st' = ap_disk st.

Lemma rights_nothing r st st' : no_credential r st → rights r st st' → untouched st st'.
Proof.
  intros (Ha & He & Hw & Hm & Hr & Hs) [Rs Rw Rm Rv Rr Rt Rp].
  assert (∀ m, ¬ as_member env r st m) as Hm'.
  { intros m (v & token & claims & v' & Hv & Hc & Hver & _). by eapply Hm. }
  assert (workstations (ap_tables st') = workstations (ap_tables st)) as E1.
  { apply map_eq. intros i. destruct (Rs i) as [?|[(m & s & Hc & _)|(w & s & Hc & _)]]; [done| |];
      [by destruct (Hm' m)|by destruct (Hw w)]. }
  assert (workers (ap_tables st') = workers (ap_tables st)) as E2.
  { apply map_eq. intros i. destruct (Rw i) as [?|[Hc|[Hc|[Hc _]]]];
      [done|by destruct (Hw i)|by destruct (Hr i)|by destruct He]. }
  assert (members (ap_tables st') = members (ap_tables st)) as E3.
  { apply map_eq. intros i. destruct (Rm i) as [?|(m & Hc & _)]; [done|by destruct (Hm' m)]. }
  destruct Rr as [[E4 E5]|?]; [|done]. split_and!; [| | |done].
  - destruct (ap_tables st'), (ap_tables st). simpl in *. by subst.
  - destruct Rp as [?|[?|[[m Hc]|[[w [Hc|Hc]]|?]]]]; [done|done|by destruct (Hm' m)|by destruct (Hw w)|
      by destruct (Hr w)|done].
  - apply map_eq. intros i. destruct (Rt i) as [?|(m & s & Hc & _)]; [done|by destruct (Hm' m)].
Qed.

Lemma error_refused status msg : (400 ≤ status)%Z → refused (OReply (writeError status msg)).
Proof. intros Hs. eexists. split; [right; by eauto|by left]. Qed.

Lemma page_refused : refused (OReply NotFoundPage).
Proof. eexists. split; [by left|by left]. Qed.

Lemma host_refused (b : bool) next r st :
  refused (next r st).1 →
  refused (guarded (if b then browser_guard (hd_config hd) else worker_host_guard (hd_config hd)) next r st).1.
Proof.
  intros Hn. unfold guarded, browser_guard, worker_host_guard.
  destruct b; destruct (negb _); rewrite set_server_id; done || apply page_refused.
Qed.

Lemma token_refused expected next r st :
  ¬ (expected ≠ "" ∧ presents r expected) → refused (guarded (token_guard expected) next r st).1.
Proof.
  intros Hn. destruct (token_guard_cases expected next r st) as [[_ ?]|[-> _]]; [done|].
  by apply error_refused.
Qed.

Lemma sign_in_refused next r st : no_credential r st → refused (guarded sign_in next r st).1.
Proof.
  intros (_ & _ & _ & Hm & _). unfold guarded.
  destruct (access_auth_cases (ev_now env) (ev_dbnow env) (ev_fetch env) (ev_new_id env) r (ap_server st))
    as [(v & claims & v' & m & sv1 & Hv & Hne & HV & _)|(status & msg & sv1 & -> & Hin & _)].
  - destruct (Hm v (access_token r) claims v' Hv); [by apply access_token_carries|by apply Verify_sound].
  - apply error_refused. by repeat (apply elem_of_cons in Hin as [->|Hin]); [..|apply elem_of_nil in Hin].
Qed.

Lemma worker_auth_refused h r st :
  no_credential r st → refused (guarded (authenticate_worker (ev_dbnow env)) h r st).1.
Proof.
  intros (_ & _ & Hw & _). unfold guarded.
  destruct (worker_auth_cases (ev_dbnow env) r (ap_server st))
    as [(w & i & sv1 & Hi & Hh & _)|(sv1 & -> & _)]; [|by apply error_refused].
  destruct (Hw (wk_ID w)). eexists _, i, w. split; [by apply presents_bearerToken|done].
Qed.

Lemma websocket_refused r st :
  wf_manager (sv_proxy (ap_server st)) → no_credential r st →
  refused (websocket_handler (hd_config hd) env r st).1.
Proof.
  intros Hwf (_ & _ & _ & _ & _ & Hs). unfold websocket_handler, handleProxyWebSocket.
  destruct (ws_admit (hd_config hd) r (ap_server st)) as [resp|p] eqn:Ea;
    [|by destruct Hs; eapply ws_admit_session].
  exists resp. split; [|by right].
  assert (∀ status msg, (400 ≤ status)%Z → is_error (writeError status msg)) as He by (intros; right; eauto).
  unfold ws_admit, Get in Ea.
  repeat (destruct (_ || _) in Ea || destruct (_ && _) in Ea; [injection Ea as <-; by apply He || by left|]).
  destruct (sm_sessions _ !! _) as [q|] eqn:Eq; [|injection Ea as <-; by apply He].
  destruct (wf_registered _ Hwf _ _ Eq) as (s & Es & _). rewrite Es in Ea.
  destruct (negb _); [injection Ea as <-; by apply He|done].
Qed.

Lemma register_refused r st :
  no_credential r st →
  refused (lift_handler (handleWorkerRegister (hd_config hd) (ev_dbnow env) (ev_random env)
    (bd_register body)) r st).1.
Proof.
  intros (_ & _ & _ & _ & Hr & _). unfold lift_handler.
  destruct (bd_register body) as [req|] eqn:Eb; [|by apply error_refused].
  destruct (register_authorised (hd_config hd) (ev_dbnow env) (ev_random env) req r (ap_server st))
    as [Ha|[(status & msg & E & Hs) _]]; [by destruct (Hr _ (ex_intro _ req (conj Eb (conj Ha eq_refl))))|].
  destruct (handleWorkerRegister _ _ _ _ r (ap_server st)) as [resp sv]. simpl in E. subst resp.
  by apply error_refused.
Qed.

Lemma serve_refused route r st :
  wf_manager (sv_proxy (ap_server st)) → no_credential r st → public route = false →
  refused (serve error_message hd env body route r st).1.
Proof.
  intros Hwf Hn Hp. pose proof Hn as (Ha & He & _).
  destruct route; cbn [serve]; try discriminate Hp; unfold admin_guard, enrollment_guard;
    try (apply (host_refused true), sign_in_refused; exact Hn);
    try (apply (host_refused true), token_refused; exact Ha);
    try (apply (host_refused false), token_refused; exact Ha || exact He);
    try (apply (host_refused false), worker_auth_refused; exact Hn).
  - by apply websocket_refused.
  - by apply (host_refused false), register_refused.
Qed.

Lemma no_credential_routed vs r st : no_credential r st → no_credential (with_path_values vs r) st.
Proof.
  intros (Ha & He & Hw & Hm & Hr & Hs). split_and!.
  - intros [? ?%presents_path]. by apply Ha.
  - intros [? ?%presents_path]. by apply He.
  - intros w (token & i & row & Hp%presents_path & Hrest). destruct (Hw w). by exists token, i, row.
  - intros v token claims v' Hv Hc%carries_path. by apply Hm.
  - done.
  - done.
Qed.

(** C4. Without a credential there is nothing to gain.  A request that presents
    no admin token, no enrolment token, no worker's token, no Access token that
    verifies, no token of a proxy session it names, and no authorised
    registration leaves the tables, the release files, the proxy sessions and the
    terminals as they are, whatever it asks for and whatever fails; and every
    route but the four public ones (install script, health, latest release,
    release download) answers it with an error page. *)
Theorem anonymous_refused method path r st :
  wf_tables (ap_tables st) → wf_manager (sv_proxy (ap_server st)) → no_credential r st →
  let run := handle_request error_message hd env body method path r st in
  untouched st run.2 ∧
  (∀ route vs, dispatch routes method (Split (TrimPrefix path "/") "/") = Some (route, vs) →
     public route = false → refused run.1).
Proof.
  intros Hwf Hm Hn. cbv zeta. split.
  - eapply rights_nothing; [done|]. by apply handle_request_rights.
  - intros route vs E Hp. unfold handle_request. rewrite E.
    apply serve_refused; [done|by apply no_credential_routed|done].
Qed.
End Authority.

(** ** Witnesses *)

Definition sample_handler : Handler := mkHandler "curl __SERVER_ADDR__" sample_config None None.
Definition sample_app : App := mkApp sample_server ∅ (mkDisk ∅).
Definition quiet_env : Env :=
  mkEnv 0 0 FetchFails "m-new" "u-1" [1%Z] (Some [1%Z]) (mkUploadEnv "/tmp/x" [] true true true true true)
    "/" happy_env None RelayBlocked WakeDone.
Definition hostname_body : Body := mkBody None None None (Some "HW-9") None None None None.
Definition bearing (token : string) : Request :=
  mkRequest "" (λ k, if String.eqb k "Authorization" then token else "") (λ _, None) (λ _, "") (λ _, "")
    None None.


Lemma no_token : @no_credential toy_env sample_handler quiet_env hostname_body (bearing "") sample_app.
Proof.
  assert (∀ token, presents (bearing "") token → token = "") as Hp.
  { intros token [rest E|]; [|done]. discriminate E. }
  split_and!.
  - intros [_ E%Hp]. discriminate E.
  - intros [_ E%Hp]. discriminate E.
  - intros w (token & i & row & _ & Hi & [Hh _] & _).
    assert (wk_AuthTokenHash row = None) as Hn; [|congruence].
    unfold ap_tables, sample_app, sample_server, sv_tables in Hi. simpl in Hi.
    rewrite !lookup_insert_Some, lookup_empty in Hi. naive_solver.
  - done.
  - by intros w (req & [= ] & _).
  - intros (p & s & Hs & _). done.
Qed.

(** A stranger asks for the list of workers. *)
Lemma anonymous_refused_witness :
  let run := @handle_request ascii_env toy_env unsigned C_collation key_order (λ _, "") sample_handler quiet_env
    hostname_body "GET" "/api/v1/workers" (bearing "") sample_app in
  @no_credential toy_env sample_handler quiet_env hostname_body (bearing "") sample_app ∧
  refused run.1 ∧ untouched sample_app run.2.
Proof.
  intros run. split; [exact no_token|].
  destruct (@anonymous_refused ascii_env toy_env unsigned C_collation key_order (λ _, "") sample_handler quiet_env
    hostname_body "GET" "/api/v1/workers" (bearing "") sample_app Sample.wf_sample wf_new_manager no_token)
    as [Hu Hr].
  split; [|exact Hu]. apply (Hr RWorkers []); [vm_compute; reflexivity|reflexivity].
Defined.
